(** * Pickup winder firmware (pickup_winder.ino, v1.2.0): a shallow embedding

    The firmware targets the Arduino Uno (AVR, avr-gcc): [int] is 16 bits,
    [long] and [unsigned long] are 32 bits, [float] and [double] are both
    IEEE-754 binary32, and multi-byte objects are stored little-endian.
    Integers are modelled in [Z] with the wrap-around written out, floats by
    the Standard Library's [SpecFloat] at precision 24 and maximal exponent
    128 (round to nearest, ties to even). *)

From Stdlib Require Import ZArith Lia List Bool String Ascii.
From Stdlib Require Import Floats.SpecFloat.
Import ListNotations.
Open Scope Z_scope.

(** ** Machine integers *)

Module Mach.

Definition wrapu (w : Z) (x : Z) : Z := x mod 2 ^ w.

Definition wraps (w : Z) (x : Z) : Z :=
  let r := x mod 2 ^ w in
  if r <? 2 ^ (w - 1) then r else r - 2 ^ w.

(** [int], [long], [unsigned long] of avr-gcc. *)
Definition int16 := wraps 16.
Definition long32 := wraps 32.
Definition ulong32 := wrapu 32.

Definition sizeof_int : Z := 2.
Definition sizeof_long : Z := 4.
Definition sizeof_ulong : Z := 4.
Definition sizeof_float : Z := 4.

End Mach.

(** ** Binary32 floating point *)

Module F32.

Definition prec : Z := 24.
Definition emax : Z := 128.

Definition t := spec_float.

Definition add : t -> t -> t := SFadd prec emax.
Definition sub : t -> t -> t := SFsub prec emax.
Definition mul : t -> t -> t := SFmul prec emax.
Definition div : t -> t -> t := SFdiv prec emax.

Definition ltb : t -> t -> bool := SFltb.
Definition leb : t -> t -> bool := SFleb.
Definition eqb : t -> t -> bool := SFeqb.
Definition gtb (x y : t) : bool := SFltb y x.
Definition geb (x y : t) : bool := SFleb y x.

Definition isnan (x : t) : bool :=
  match x with S754_nan => true | _ => false end.

Definition is_finite (x : t) : bool :=
  match x with S754_zero _ | S754_finite _ _ _ => true | _ => false end.

Definition zero : t := S754_zero false.

(** Conversion of an integer to float (round to nearest even). *)
Definition of_Z (z : Z) : t := binary_normalize prec emax z 0 false.

(** The correctly rounded quotient of two positive integers, used for
    decimal literals such as [0.2] or [1.68E-8]. *)
Definition of_ratio (neg : bool) (n d : positive) : t :=
  let '(mz, ez, lz) := SFdiv_core_binary prec emax (Zpos n) 0 (Zpos d) 0 in
  binary_round_aux prec emax neg mz ez lz.

(** Conversion of a float to an integer: truncation toward zero, as the
    casts [(long)x] and [(int)x] do for values in range.  Not-a-number, the
    infinities and the values outside the range of the target type have no
    defined conversion: [trunc] sends the former to 0, and [Mach.long32] or
    [Mach.int16] wraps the latter, which says nothing about the code.  A
    statement that depends on a conversion bounds its argument. *)
Definition trunc (x : t) : Z :=
  match x with
  | S754_finite s m e =>
      let a := match e with
               | Zneg p => Z.shiftr (Zpos m) (Zpos p)
               | _ => Z.shiftl (Zpos m) e
               end in
      if s then - a else a
  | _ => 0
  end.

(** Object representation: the 32-bit pattern of a float. *)
Definition of_bits (w : Z) : t :=
  let s := Z.testbit w 31 in
  let ex := Z.land (Z.shiftr w 23) 255 in
  let fr := Z.land w (2 ^ 23 - 1) in
  if ex =? 255 then (if fr =? 0 then S754_infinity s else S754_nan)
  else if ex =? 0 then
    match fr with
    | Zpos m => S754_finite s m (-149)
    | _ => S754_zero s
    end
  else
    match fr + 2 ^ 23 with
    | Zpos m => S754_finite s m (ex - 150)
    | _ => S754_nan
    end.

Definition to_bits (x : t) : Z :=
  let sign (s : bool) := if s then 2 ^ 31 else 0 in
  match x with
  | S754_zero s => sign s
  | S754_infinity s => sign s + 255 * 2 ^ 23
  | S754_nan => 255 * 2 ^ 23 + 2 ^ 22
  | S754_finite s m e =>
      if Zpos m <? 2 ^ 23 then sign s + Zpos m
      else sign s + (e + 150) * 2 ^ 23 + (Zpos m - 2 ^ 23)
  end.

(** The constant [PI] of Arduino.h, rounded to binary32. *)
Definition PI : t := of_bits 0x40490FDB.

End F32.

(** ** C strings and the library parsers

    [strtok_r], [atoi], [atol], [atof] and [toupper] belong to avr-libc, not
    to the firmware; they are modelled by their documented behaviour.  [atof]
    is taken to return the correctly rounded value of the decimal literal. *)

Module CStr.

Definition is_digit (c : ascii) : bool :=
  let n := Z.of_N (N_of_ascii c) in (48 <=? n) && (n <=? 57).

Definition digit_val (c : ascii) : Z := Z.of_N (N_of_ascii c) - 48.

Definition is_space (c : ascii) : bool :=
  let n := Z.of_N (N_of_ascii c) in (n =? 32) || ((9 <=? n) && (n <=? 13)).

Definition toupper (c : ascii) : ascii :=
  let n := N_of_ascii c in
  if ((97 <=? n) && (n <=? 122))%N then ascii_of_N (n - 32) else c.

Fixpoint skip_spaces (s : string) : string :=
  match s with
  | String c r => if is_space c then skip_spaces r else s
  | EmptyString => s
  end.

(** Leading decimal digits: their value, their number, and the rest. *)
Fixpoint digits (acc : Z) (cnt : Z) (s : string) : Z * Z * string :=
  match s with
  | String c r =>
      if is_digit c then digits (10 * acc + digit_val c) (cnt + 1) r
      else (acc, cnt, s)
  | EmptyString => (acc, cnt, s)
  end.

Definition sign (s : string) : bool * string :=
  match s with
  | String "-"%char r => (true, r)
  | String "+"%char r => (false, r)
  | _ => (false, s)
  end.

Definition parse_integer (s : string) : Z :=
  let '(neg, r) := sign (skip_spaces s) in
  let '(v, _, _) := digits 0 0 r in
  if neg then - v else v.

Definition atol (s : string) : Z := Mach.long32 (parse_integer s).
Definition atoi (s : string) : Z := Mach.int16 (parse_integer s).

(** The float nearest to [m * 10 ^ e]. *)
Definition of_decimal (neg : bool) (m : Z) (e : Z) : F32.t :=
  match m with
  | Zpos p =>
      match e with
      | Zneg k => F32.of_ratio neg p (Pos.pow 10 k)
      | _ => binary_normalize F32.prec F32.emax
               (if neg then - (m * 10 ^ e) else m * 10 ^ e) 0 neg
      end
  | _ => S754_zero neg
  end.

Definition exponent (s : string) : Z :=
  match s with
  | String c r =>
      if Ascii.eqb (toupper c) "E"%char then
        let '(neg, r') := sign r in
        let '(v, cnt, _) := digits 0 0 r' in
        if cnt =? 0 then 0 else if neg then - v else v
      else 0
  | EmptyString => 0
  end.

Definition atof (s : string) : F32.t :=
  let '(neg, r) := sign (skip_spaces s) in
  if String.prefix "INF"%string r then S754_infinity neg
  else if String.prefix "NAN"%string r then S754_nan
  else
    let '(ip, icnt, r1) := digits 0 0 r in
    let '(m, fcnt, r2) :=
      match r1 with
      | String "."%char r' => digits ip 0 r'
      | _ => (ip, 0, r1)
      end in
    if (icnt + fcnt =? 0) then F32.zero
    else of_decimal neg m (exponent r2 - fcnt).

(** [strtok_r] with the delimiter [" "], iterated to exhaustion: the
    maximal space-free pieces of the line, in order. *)
Fixpoint tokens_from (cur : string) (s : string) : list string :=
  match s with
  | EmptyString => if String.eqb cur EmptyString then [] else [cur]
  | String c r =>
      if Ascii.eqb c " "%char then
        if String.eqb cur EmptyString then tokens_from EmptyString r
        else cur :: tokens_from EmptyString r
      else tokens_from (cur ++ String c EmptyString)%string r
  end.

Definition tokens (s : string) : list string := tokens_from EmptyString s.

Fixpoint last_char (s : string) : ascii :=
  match s with
  | EmptyString => Ascii.zero
  | String c EmptyString => c
  | String _ r => last_char r
  end.

Definition drop (n : nat) (s : string) : string :=
  String.substring n (String.length s - n) s.

End CStr.

(** ** The firmware state

    The globals of the sketch that are ever written, together with the
    hardware they drive: the EEPROM cells, the enable and direction pins,
    the servo (attached or not, last angle written), the number of step
    pulses emitted, and the lines printed on the serial port.  Only the fixed
    text of each report is recorded, not the formatted numbers.
    [stepsPerTurn] is never assigned, so it is a constant. *)

Inductive SweepControlMode :=
  | SWEEP_MODE_FIRMWARE
  | SWEEP_MODE_GUI
  | SWEEP_MODE_PATTERN
  | SWEEP_MODE_other (raw : Z).
  (* [loadSettings] reads the variable through [(int&)], so it can hold an
     [int] that is none of the enumerators until the sanity check runs *)

Definition SweepControlMode_to_int (m : SweepControlMode) : Z :=
  match m with
  | SWEEP_MODE_FIRMWARE => 0
  | SWEEP_MODE_GUI => 1
  | SWEEP_MODE_PATTERN => 2
  | SWEEP_MODE_other raw => raw
  end.

Definition SweepControlMode_of_int (raw : Z) : SweepControlMode :=
  if raw =? 0 then SWEEP_MODE_FIRMWARE
  else if raw =? 1 then SWEEP_MODE_GUI
  else if raw =? 2 then SWEEP_MODE_PATTERN
  else SWEEP_MODE_other raw.

Definition SweepControlMode_eqb (a b : SweepControlMode) : bool :=
  SweepControlMode_to_int a =? SweepControlMode_to_int b.

Definition stepsPerTurn : Z := 3200.

Record state : Type := mkState {
  targetTurns : Z;
  running : bool;
  paused : bool;
  verboseMode : bool;
  stepperForward : bool;
  servoMinAngle : F32.t;
  servoMaxAngle : F32.t;
  servoPos : F32.t;
  bobbinHeight : F32.t;
  wireDiameter : F32.t;
  turnsPerLayer : Z;
  bobbinLength : F32.t;
  bobbinWidth : F32.t;
  avgTurnLength : F32.t;
  lastCalcRequestedResistance : F32.t;
  lastCommandTime : Z;
  timeoutLimit : Z;
  outputsEnabled : bool;
  stepCount : Z;
  totalSteps : Z;
  initialStepDelay : Z;
  minStepDelay : Z;
  accelSteps : Z;
  sweepControlMode : SweepControlMode;
  patternMinAngle : F32.t;
  patternMaxAngle : F32.t;
  patternScatter : F32.t;
  patternTurnsPerLayer : Z;
  addr : Z;
  eeprom : Z -> Z;
  enPin : bool;
  dirPin : bool;
  servoAttached : bool;
  servoWritten : Z;
  stepPulses : Z;
  serialOut : list string
}.

(** Field updates. *)

Definition set_targetTurns (v : Z) (s : state) : state :=
  mkState v (running s) (paused s) (verboseMode s) (stepperForward s)
    (servoMinAngle s) (servoMaxAngle s) (servoPos s) (bobbinHeight s)
    (wireDiameter s) (turnsPerLayer s) (bobbinLength s) (bobbinWidth s)
    (avgTurnLength s) (lastCalcRequestedResistance s) (lastCommandTime s)
    (timeoutLimit s) (outputsEnabled s) (stepCount s) (totalSteps s)
    (initialStepDelay s) (minStepDelay s) (accelSteps s) (sweepControlMode s)
    (patternMinAngle s) (patternMaxAngle s) (patternScatter s)
    (patternTurnsPerLayer s) (addr s) (eeprom s) (enPin s) (dirPin s)
    (servoAttached s) (servoWritten s) (stepPulses s) (serialOut s).

Definition set_running (v : bool) (s : state) : state :=
  mkState (targetTurns s) v (paused s) (verboseMode s) (stepperForward s)
    (servoMinAngle s) (servoMaxAngle s) (servoPos s) (bobbinHeight s)
    (wireDiameter s) (turnsPerLayer s) (bobbinLength s) (bobbinWidth s)
    (avgTurnLength s) (lastCalcRequestedResistance s) (lastCommandTime s)
    (timeoutLimit s) (outputsEnabled s) (stepCount s) (totalSteps s)
    (initialStepDelay s) (minStepDelay s) (accelSteps s) (sweepControlMode s)
    (patternMinAngle s) (patternMaxAngle s) (patternScatter s)
    (patternTurnsPerLayer s) (addr s) (eeprom s) (enPin s) (dirPin s)
    (servoAttached s) (servoWritten s) (stepPulses s) (serialOut s).

Definition set_paused (v : bool) (s : state) : state :=
  mkState (targetTurns s) (running s) v (verboseMode s) (stepperForward s)
    (servoMinAngle s) (servoMaxAngle s) (servoPos s) (bobbinHeight s)
    (wireDiameter s) (turnsPerLayer s) (bobbinLength s) (bobbinWidth s)
    (avgTurnLength s) (lastCalcRequestedResistance s) (lastCommandTime s)
    (timeoutLimit s) (outputsEnabled s) (stepCount s) (totalSteps s)
    (initialStepDelay s) (minStepDelay s) (accelSteps s) (sweepControlMode s)
    (patternMinAngle s) (patternMaxAngle s) (patternScatter s)
    (patternTurnsPerLayer s) (addr s) (eeprom s) (enPin s) (dirPin s)
    (servoAttached s) (servoWritten s) (stepPulses s) (serialOut s).

Definition set_verboseMode (v : bool) (s : state) : state :=
  mkState (targetTurns s) (running s) (paused s) v (stepperForward s)
    (servoMinAngle s) (servoMaxAngle s) (servoPos s) (bobbinHeight s)
    (wireDiameter s) (turnsPerLayer s) (bobbinLength s) (bobbinWidth s)
    (avgTurnLength s) (lastCalcRequestedResistance s) (lastCommandTime s)
    (timeoutLimit s) (outputsEnabled s) (stepCount s) (totalSteps s)
    (initialStepDelay s) (minStepDelay s) (accelSteps s) (sweepControlMode s)
    (patternMinAngle s) (patternMaxAngle s) (patternScatter s)
    (patternTurnsPerLayer s) (addr s) (eeprom s) (enPin s) (dirPin s)
    (servoAttached s) (servoWritten s) (stepPulses s) (serialOut s).

Definition set_stepperForward (v : bool) (s : state) : state :=
  mkState (targetTurns s) (running s) (paused s) (verboseMode s) v
    (servoMinAngle s) (servoMaxAngle s) (servoPos s) (bobbinHeight s)
    (wireDiameter s) (turnsPerLayer s) (bobbinLength s) (bobbinWidth s)
    (avgTurnLength s) (lastCalcRequestedResistance s) (lastCommandTime s)
    (timeoutLimit s) (outputsEnabled s) (stepCount s) (totalSteps s)
    (initialStepDelay s) (minStepDelay s) (accelSteps s) (sweepControlMode s)
    (patternMinAngle s) (patternMaxAngle s) (patternScatter s)
    (patternTurnsPerLayer s) (addr s) (eeprom s) (enPin s) (dirPin s)
    (servoAttached s) (servoWritten s) (stepPulses s) (serialOut s).

Definition set_servoMinAngle (v : F32.t) (s : state) : state :=
  mkState (targetTurns s) (running s) (paused s) (verboseMode s)
    (stepperForward s) v (servoMaxAngle s) (servoPos s) (bobbinHeight s)
    (wireDiameter s) (turnsPerLayer s) (bobbinLength s) (bobbinWidth s)
    (avgTurnLength s) (lastCalcRequestedResistance s) (lastCommandTime s)
    (timeoutLimit s) (outputsEnabled s) (stepCount s) (totalSteps s)
    (initialStepDelay s) (minStepDelay s) (accelSteps s) (sweepControlMode s)
    (patternMinAngle s) (patternMaxAngle s) (patternScatter s)
    (patternTurnsPerLayer s) (addr s) (eeprom s) (enPin s) (dirPin s)
    (servoAttached s) (servoWritten s) (stepPulses s) (serialOut s).

Definition set_servoMaxAngle (v : F32.t) (s : state) : state :=
  mkState (targetTurns s) (running s) (paused s) (verboseMode s)
    (stepperForward s) (servoMinAngle s) v (servoPos s) (bobbinHeight s)
    (wireDiameter s) (turnsPerLayer s) (bobbinLength s) (bobbinWidth s)
    (avgTurnLength s) (lastCalcRequestedResistance s) (lastCommandTime s)
    (timeoutLimit s) (outputsEnabled s) (stepCount s) (totalSteps s)
    (initialStepDelay s) (minStepDelay s) (accelSteps s) (sweepControlMode s)
    (patternMinAngle s) (patternMaxAngle s) (patternScatter s)
    (patternTurnsPerLayer s) (addr s) (eeprom s) (enPin s) (dirPin s)
    (servoAttached s) (servoWritten s) (stepPulses s) (serialOut s).

Definition set_servoPos (v : F32.t) (s : state) : state :=
  mkState (targetTurns s) (running s) (paused s) (verboseMode s)
    (stepperForward s) (servoMinAngle s) (servoMaxAngle s) v (bobbinHeight s)
    (wireDiameter s) (turnsPerLayer s) (bobbinLength s) (bobbinWidth s)
    (avgTurnLength s) (lastCalcRequestedResistance s) (lastCommandTime s)
    (timeoutLimit s) (outputsEnabled s) (stepCount s) (totalSteps s)
    (initialStepDelay s) (minStepDelay s) (accelSteps s) (sweepControlMode s)
    (patternMinAngle s) (patternMaxAngle s) (patternScatter s)
    (patternTurnsPerLayer s) (addr s) (eeprom s) (enPin s) (dirPin s)
    (servoAttached s) (servoWritten s) (stepPulses s) (serialOut s).

Definition set_bobbinHeight (v : F32.t) (s : state) : state :=
  mkState (targetTurns s) (running s) (paused s) (verboseMode s)
    (stepperForward s) (servoMinAngle s) (servoMaxAngle s) (servoPos s) v
    (wireDiameter s) (turnsPerLayer s) (bobbinLength s) (bobbinWidth s)
    (avgTurnLength s) (lastCalcRequestedResistance s) (lastCommandTime s)
    (timeoutLimit s) (outputsEnabled s) (stepCount s) (totalSteps s)
    (initialStepDelay s) (minStepDelay s) (accelSteps s) (sweepControlMode s)
    (patternMinAngle s) (patternMaxAngle s) (patternScatter s)
    (patternTurnsPerLayer s) (addr s) (eeprom s) (enPin s) (dirPin s)
    (servoAttached s) (servoWritten s) (stepPulses s) (serialOut s).

Definition set_wireDiameter (v : F32.t) (s : state) : state :=
  mkState (targetTurns s) (running s) (paused s) (verboseMode s)
    (stepperForward s) (servoMinAngle s) (servoMaxAngle s) (servoPos s)
    (bobbinHeight s) v (turnsPerLayer s) (bobbinLength s) (bobbinWidth s)
    (avgTurnLength s) (lastCalcRequestedResistance s) (lastCommandTime s)
    (timeoutLimit s) (outputsEnabled s) (stepCount s) (totalSteps s)
    (initialStepDelay s) (minStepDelay s) (accelSteps s) (sweepControlMode s)
    (patternMinAngle s) (patternMaxAngle s) (patternScatter s)
    (patternTurnsPerLayer s) (addr s) (eeprom s) (enPin s) (dirPin s)
    (servoAttached s) (servoWritten s) (stepPulses s) (serialOut s).

Definition set_turnsPerLayer (v : Z) (s : state) : state :=
  mkState (targetTurns s) (running s) (paused s) (verboseMode s)
    (stepperForward s) (servoMinAngle s) (servoMaxAngle s) (servoPos s)
    (bobbinHeight s) (wireDiameter s) v (bobbinLength s) (bobbinWidth s)
    (avgTurnLength s) (lastCalcRequestedResistance s) (lastCommandTime s)
    (timeoutLimit s) (outputsEnabled s) (stepCount s) (totalSteps s)
    (initialStepDelay s) (minStepDelay s) (accelSteps s) (sweepControlMode s)
    (patternMinAngle s) (patternMaxAngle s) (patternScatter s)
    (patternTurnsPerLayer s) (addr s) (eeprom s) (enPin s) (dirPin s)
    (servoAttached s) (servoWritten s) (stepPulses s) (serialOut s).

Definition set_bobbinLength (v : F32.t) (s : state) : state :=
  mkState (targetTurns s) (running s) (paused s) (verboseMode s)
    (stepperForward s) (servoMinAngle s) (servoMaxAngle s) (servoPos s)
    (bobbinHeight s) (wireDiameter s) (turnsPerLayer s) v (bobbinWidth s)
    (avgTurnLength s) (lastCalcRequestedResistance s) (lastCommandTime s)
    (timeoutLimit s) (outputsEnabled s) (stepCount s) (totalSteps s)
    (initialStepDelay s) (minStepDelay s) (accelSteps s) (sweepControlMode s)
    (patternMinAngle s) (patternMaxAngle s) (patternScatter s)
    (patternTurnsPerLayer s) (addr s) (eeprom s) (enPin s) (dirPin s)
    (servoAttached s) (servoWritten s) (stepPulses s) (serialOut s).

Definition set_bobbinWidth (v : F32.t) (s : state) : state :=
  mkState (targetTurns s) (running s) (paused s) (verboseMode s)
    (stepperForward s) (servoMinAngle s) (servoMaxAngle s) (servoPos s)
    (bobbinHeight s) (wireDiameter s) (turnsPerLayer s) (bobbinLength s) v
    (avgTurnLength s) (lastCalcRequestedResistance s) (lastCommandTime s)
    (timeoutLimit s) (outputsEnabled s) (stepCount s) (totalSteps s)
    (initialStepDelay s) (minStepDelay s) (accelSteps s) (sweepControlMode s)
    (patternMinAngle s) (patternMaxAngle s) (patternScatter s)
    (patternTurnsPerLayer s) (addr s) (eeprom s) (enPin s) (dirPin s)
    (servoAttached s) (servoWritten s) (stepPulses s) (serialOut s).

Definition set_avgTurnLength (v : F32.t) (s : state) : state :=
  mkState (targetTurns s) (running s) (paused s) (verboseMode s)
    (stepperForward s) (servoMinAngle s) (servoMaxAngle s) (servoPos s)
    (bobbinHeight s) (wireDiameter s) (turnsPerLayer s) (bobbinLength s)
    (bobbinWidth s) v (lastCalcRequestedResistance s) (lastCommandTime s)
    (timeoutLimit s) (outputsEnabled s) (stepCount s) (totalSteps s)
    (initialStepDelay s) (minStepDelay s) (accelSteps s) (sweepControlMode s)
    (patternMinAngle s) (patternMaxAngle s) (patternScatter s)
    (patternTurnsPerLayer s) (addr s) (eeprom s) (enPin s) (dirPin s)
    (servoAttached s) (servoWritten s) (stepPulses s) (serialOut s).

Definition set_lastCalcRequestedResistance (v : F32.t) (s : state) : state :=
  mkState (targetTurns s) (running s) (paused s) (verboseMode s)
    (stepperForward s) (servoMinAngle s) (servoMaxAngle s) (servoPos s)
    (bobbinHeight s) (wireDiameter s) (turnsPerLayer s) (bobbinLength s)
    (bobbinWidth s) (avgTurnLength s) v (lastCommandTime s) (timeoutLimit s)
    (outputsEnabled s) (stepCount s) (totalSteps s) (initialStepDelay s)
    (minStepDelay s) (accelSteps s) (sweepControlMode s) (patternMinAngle s)
    (patternMaxAngle s) (patternScatter s) (patternTurnsPerLayer s) (addr s)
    (eeprom s) (enPin s) (dirPin s) (servoAttached s) (servoWritten s)
    (stepPulses s) (serialOut s).

Definition set_lastCommandTime (v : Z) (s : state) : state :=
  mkState (targetTurns s) (running s) (paused s) (verboseMode s)
    (stepperForward s) (servoMinAngle s) (servoMaxAngle s) (servoPos s)
    (bobbinHeight s) (wireDiameter s) (turnsPerLayer s) (bobbinLength s)
    (bobbinWidth s) (avgTurnLength s) (lastCalcRequestedResistance s) v
    (timeoutLimit s) (outputsEnabled s) (stepCount s) (totalSteps s)
    (initialStepDelay s) (minStepDelay s) (accelSteps s) (sweepControlMode s)
    (patternMinAngle s) (patternMaxAngle s) (patternScatter s)
    (patternTurnsPerLayer s) (addr s) (eeprom s) (enPin s) (dirPin s)
    (servoAttached s) (servoWritten s) (stepPulses s) (serialOut s).

Definition set_timeoutLimit (v : Z) (s : state) : state :=
  mkState (targetTurns s) (running s) (paused s) (verboseMode s)
    (stepperForward s) (servoMinAngle s) (servoMaxAngle s) (servoPos s)
    (bobbinHeight s) (wireDiameter s) (turnsPerLayer s) (bobbinLength s)
    (bobbinWidth s) (avgTurnLength s) (lastCalcRequestedResistance s)
    (lastCommandTime s) v (outputsEnabled s) (stepCount s) (totalSteps s)
    (initialStepDelay s) (minStepDelay s) (accelSteps s) (sweepControlMode s)
    (patternMinAngle s) (patternMaxAngle s) (patternScatter s)
    (patternTurnsPerLayer s) (addr s) (eeprom s) (enPin s) (dirPin s)
    (servoAttached s) (servoWritten s) (stepPulses s) (serialOut s).

Definition set_outputsEnabled (v : bool) (s : state) : state :=
  mkState (targetTurns s) (running s) (paused s) (verboseMode s)
    (stepperForward s) (servoMinAngle s) (servoMaxAngle s) (servoPos s)
    (bobbinHeight s) (wireDiameter s) (turnsPerLayer s) (bobbinLength s)
    (bobbinWidth s) (avgTurnLength s) (lastCalcRequestedResistance s)
    (lastCommandTime s) (timeoutLimit s) v (stepCount s) (totalSteps s)
    (initialStepDelay s) (minStepDelay s) (accelSteps s) (sweepControlMode s)
    (patternMinAngle s) (patternMaxAngle s) (patternScatter s)
    (patternTurnsPerLayer s) (addr s) (eeprom s) (enPin s) (dirPin s)
    (servoAttached s) (servoWritten s) (stepPulses s) (serialOut s).

Definition set_stepCount (v : Z) (s : state) : state :=
  mkState (targetTurns s) (running s) (paused s) (verboseMode s)
    (stepperForward s) (servoMinAngle s) (servoMaxAngle s) (servoPos s)
    (bobbinHeight s) (wireDiameter s) (turnsPerLayer s) (bobbinLength s)
    (bobbinWidth s) (avgTurnLength s) (lastCalcRequestedResistance s)
    (lastCommandTime s) (timeoutLimit s) (outputsEnabled s) v (totalSteps s)
    (initialStepDelay s) (minStepDelay s) (accelSteps s) (sweepControlMode s)
    (patternMinAngle s) (patternMaxAngle s) (patternScatter s)
    (patternTurnsPerLayer s) (addr s) (eeprom s) (enPin s) (dirPin s)
    (servoAttached s) (servoWritten s) (stepPulses s) (serialOut s).

Definition set_totalSteps (v : Z) (s : state) : state :=
  mkState (targetTurns s) (running s) (paused s) (verboseMode s)
    (stepperForward s) (servoMinAngle s) (servoMaxAngle s) (servoPos s)
    (bobbinHeight s) (wireDiameter s) (turnsPerLayer s) (bobbinLength s)
    (bobbinWidth s) (avgTurnLength s) (lastCalcRequestedResistance s)
    (lastCommandTime s) (timeoutLimit s) (outputsEnabled s) (stepCount s) v
    (initialStepDelay s) (minStepDelay s) (accelSteps s) (sweepControlMode s)
    (patternMinAngle s) (patternMaxAngle s) (patternScatter s)
    (patternTurnsPerLayer s) (addr s) (eeprom s) (enPin s) (dirPin s)
    (servoAttached s) (servoWritten s) (stepPulses s) (serialOut s).

Definition set_initialStepDelay (v : Z) (s : state) : state :=
  mkState (targetTurns s) (running s) (paused s) (verboseMode s)
    (stepperForward s) (servoMinAngle s) (servoMaxAngle s) (servoPos s)
    (bobbinHeight s) (wireDiameter s) (turnsPerLayer s) (bobbinLength s)
    (bobbinWidth s) (avgTurnLength s) (lastCalcRequestedResistance s)
    (lastCommandTime s) (timeoutLimit s) (outputsEnabled s) (stepCount s)
    (totalSteps s) v (minStepDelay s) (accelSteps s) (sweepControlMode s)
    (patternMinAngle s) (patternMaxAngle s) (patternScatter s)
    (patternTurnsPerLayer s) (addr s) (eeprom s) (enPin s) (dirPin s)
    (servoAttached s) (servoWritten s) (stepPulses s) (serialOut s).

Definition set_minStepDelay (v : Z) (s : state) : state :=
  mkState (targetTurns s) (running s) (paused s) (verboseMode s)
    (stepperForward s) (servoMinAngle s) (servoMaxAngle s) (servoPos s)
    (bobbinHeight s) (wireDiameter s) (turnsPerLayer s) (bobbinLength s)
    (bobbinWidth s) (avgTurnLength s) (lastCalcRequestedResistance s)
    (lastCommandTime s) (timeoutLimit s) (outputsEnabled s) (stepCount s)
    (totalSteps s) (initialStepDelay s) v (accelSteps s) (sweepControlMode s)
    (patternMinAngle s) (patternMaxAngle s) (patternScatter s)
    (patternTurnsPerLayer s) (addr s) (eeprom s) (enPin s) (dirPin s)
    (servoAttached s) (servoWritten s) (stepPulses s) (serialOut s).

Definition set_accelSteps (v : Z) (s : state) : state :=
  mkState (targetTurns s) (running s) (paused s) (verboseMode s)
    (stepperForward s) (servoMinAngle s) (servoMaxAngle s) (servoPos s)
    (bobbinHeight s) (wireDiameter s) (turnsPerLayer s) (bobbinLength s)
    (bobbinWidth s) (avgTurnLength s) (lastCalcRequestedResistance s)
    (lastCommandTime s) (timeoutLimit s) (outputsEnabled s) (stepCount s)
    (totalSteps s) (initialStepDelay s) (minStepDelay s) v (sweepControlMode
    s) (patternMinAngle s) (patternMaxAngle s) (patternScatter s)
    (patternTurnsPerLayer s) (addr s) (eeprom s) (enPin s) (dirPin s)
    (servoAttached s) (servoWritten s) (stepPulses s) (serialOut s).

Definition set_sweepControlMode (v : SweepControlMode) (s : state) : state :=
  mkState (targetTurns s) (running s) (paused s) (verboseMode s)
    (stepperForward s) (servoMinAngle s) (servoMaxAngle s) (servoPos s)
    (bobbinHeight s) (wireDiameter s) (turnsPerLayer s) (bobbinLength s)
    (bobbinWidth s) (avgTurnLength s) (lastCalcRequestedResistance s)
    (lastCommandTime s) (timeoutLimit s) (outputsEnabled s) (stepCount s)
    (totalSteps s) (initialStepDelay s) (minStepDelay s) (accelSteps s) v
    (patternMinAngle s) (patternMaxAngle s) (patternScatter s)
    (patternTurnsPerLayer s) (addr s) (eeprom s) (enPin s) (dirPin s)
    (servoAttached s) (servoWritten s) (stepPulses s) (serialOut s).

Definition set_patternMinAngle (v : F32.t) (s : state) : state :=
  mkState (targetTurns s) (running s) (paused s) (verboseMode s)
    (stepperForward s) (servoMinAngle s) (servoMaxAngle s) (servoPos s)
    (bobbinHeight s) (wireDiameter s) (turnsPerLayer s) (bobbinLength s)
    (bobbinWidth s) (avgTurnLength s) (lastCalcRequestedResistance s)
    (lastCommandTime s) (timeoutLimit s) (outputsEnabled s) (stepCount s)
    (totalSteps s) (initialStepDelay s) (minStepDelay s) (accelSteps s)
    (sweepControlMode s) v (patternMaxAngle s) (patternScatter s)
    (patternTurnsPerLayer s) (addr s) (eeprom s) (enPin s) (dirPin s)
    (servoAttached s) (servoWritten s) (stepPulses s) (serialOut s).

Definition set_patternMaxAngle (v : F32.t) (s : state) : state :=
  mkState (targetTurns s) (running s) (paused s) (verboseMode s)
    (stepperForward s) (servoMinAngle s) (servoMaxAngle s) (servoPos s)
    (bobbinHeight s) (wireDiameter s) (turnsPerLayer s) (bobbinLength s)
    (bobbinWidth s) (avgTurnLength s) (lastCalcRequestedResistance s)
    (lastCommandTime s) (timeoutLimit s) (outputsEnabled s) (stepCount s)
    (totalSteps s) (initialStepDelay s) (minStepDelay s) (accelSteps s)
    (sweepControlMode s) (patternMinAngle s) v (patternScatter s)
    (patternTurnsPerLayer s) (addr s) (eeprom s) (enPin s) (dirPin s)
    (servoAttached s) (servoWritten s) (stepPulses s) (serialOut s).

Definition set_patternScatter (v : F32.t) (s : state) : state :=
  mkState (targetTurns s) (running s) (paused s) (verboseMode s)
    (stepperForward s) (servoMinAngle s) (servoMaxAngle s) (servoPos s)
    (bobbinHeight s) (wireDiameter s) (turnsPerLayer s) (bobbinLength s)
    (bobbinWidth s) (avgTurnLength s) (lastCalcRequestedResistance s)
    (lastCommandTime s) (timeoutLimit s) (outputsEnabled s) (stepCount s)
    (totalSteps s) (initialStepDelay s) (minStepDelay s) (accelSteps s)
    (sweepControlMode s) (patternMinAngle s) (patternMaxAngle s) v
    (patternTurnsPerLayer s) (addr s) (eeprom s) (enPin s) (dirPin s)
    (servoAttached s) (servoWritten s) (stepPulses s) (serialOut s).

Definition set_patternTurnsPerLayer (v : Z) (s : state) : state :=
  mkState (targetTurns s) (running s) (paused s) (verboseMode s)
    (stepperForward s) (servoMinAngle s) (servoMaxAngle s) (servoPos s)
    (bobbinHeight s) (wireDiameter s) (turnsPerLayer s) (bobbinLength s)
    (bobbinWidth s) (avgTurnLength s) (lastCalcRequestedResistance s)
    (lastCommandTime s) (timeoutLimit s) (outputsEnabled s) (stepCount s)
    (totalSteps s) (initialStepDelay s) (minStepDelay s) (accelSteps s)
    (sweepControlMode s) (patternMinAngle s) (patternMaxAngle s)
    (patternScatter s) v (addr s) (eeprom s) (enPin s) (dirPin s)
    (servoAttached s) (servoWritten s) (stepPulses s) (serialOut s).

Definition set_addr (v : Z) (s : state) : state :=
  mkState (targetTurns s) (running s) (paused s) (verboseMode s)
    (stepperForward s) (servoMinAngle s) (servoMaxAngle s) (servoPos s)
    (bobbinHeight s) (wireDiameter s) (turnsPerLayer s) (bobbinLength s)
    (bobbinWidth s) (avgTurnLength s) (lastCalcRequestedResistance s)
    (lastCommandTime s) (timeoutLimit s) (outputsEnabled s) (stepCount s)
    (totalSteps s) (initialStepDelay s) (minStepDelay s) (accelSteps s)
    (sweepControlMode s) (patternMinAngle s) (patternMaxAngle s)
    (patternScatter s) (patternTurnsPerLayer s) v (eeprom s) (enPin s) (dirPin
    s) (servoAttached s) (servoWritten s) (stepPulses s) (serialOut s).

Definition set_eeprom (v : Z -> Z) (s : state) : state :=
  mkState (targetTurns s) (running s) (paused s) (verboseMode s)
    (stepperForward s) (servoMinAngle s) (servoMaxAngle s) (servoPos s)
    (bobbinHeight s) (wireDiameter s) (turnsPerLayer s) (bobbinLength s)
    (bobbinWidth s) (avgTurnLength s) (lastCalcRequestedResistance s)
    (lastCommandTime s) (timeoutLimit s) (outputsEnabled s) (stepCount s)
    (totalSteps s) (initialStepDelay s) (minStepDelay s) (accelSteps s)
    (sweepControlMode s) (patternMinAngle s) (patternMaxAngle s)
    (patternScatter s) (patternTurnsPerLayer s) (addr s) v (enPin s) (dirPin
    s) (servoAttached s) (servoWritten s) (stepPulses s) (serialOut s).

Definition set_enPin (v : bool) (s : state) : state :=
  mkState (targetTurns s) (running s) (paused s) (verboseMode s)
    (stepperForward s) (servoMinAngle s) (servoMaxAngle s) (servoPos s)
    (bobbinHeight s) (wireDiameter s) (turnsPerLayer s) (bobbinLength s)
    (bobbinWidth s) (avgTurnLength s) (lastCalcRequestedResistance s)
    (lastCommandTime s) (timeoutLimit s) (outputsEnabled s) (stepCount s)
    (totalSteps s) (initialStepDelay s) (minStepDelay s) (accelSteps s)
    (sweepControlMode s) (patternMinAngle s) (patternMaxAngle s)
    (patternScatter s) (patternTurnsPerLayer s) (addr s) (eeprom s) v (dirPin
    s) (servoAttached s) (servoWritten s) (stepPulses s) (serialOut s).

Definition set_dirPin (v : bool) (s : state) : state :=
  mkState (targetTurns s) (running s) (paused s) (verboseMode s)
    (stepperForward s) (servoMinAngle s) (servoMaxAngle s) (servoPos s)
    (bobbinHeight s) (wireDiameter s) (turnsPerLayer s) (bobbinLength s)
    (bobbinWidth s) (avgTurnLength s) (lastCalcRequestedResistance s)
    (lastCommandTime s) (timeoutLimit s) (outputsEnabled s) (stepCount s)
    (totalSteps s) (initialStepDelay s) (minStepDelay s) (accelSteps s)
    (sweepControlMode s) (patternMinAngle s) (patternMaxAngle s)
    (patternScatter s) (patternTurnsPerLayer s) (addr s) (eeprom s) (enPin s)
    v (servoAttached s) (servoWritten s) (stepPulses s) (serialOut s).

Definition set_servoAttached (v : bool) (s : state) : state :=
  mkState (targetTurns s) (running s) (paused s) (verboseMode s)
    (stepperForward s) (servoMinAngle s) (servoMaxAngle s) (servoPos s)
    (bobbinHeight s) (wireDiameter s) (turnsPerLayer s) (bobbinLength s)
    (bobbinWidth s) (avgTurnLength s) (lastCalcRequestedResistance s)
    (lastCommandTime s) (timeoutLimit s) (outputsEnabled s) (stepCount s)
    (totalSteps s) (initialStepDelay s) (minStepDelay s) (accelSteps s)
    (sweepControlMode s) (patternMinAngle s) (patternMaxAngle s)
    (patternScatter s) (patternTurnsPerLayer s) (addr s) (eeprom s) (enPin s)
    (dirPin s) v (servoWritten s) (stepPulses s) (serialOut s).

Definition set_servoWritten (v : Z) (s : state) : state :=
  mkState (targetTurns s) (running s) (paused s) (verboseMode s)
    (stepperForward s) (servoMinAngle s) (servoMaxAngle s) (servoPos s)
    (bobbinHeight s) (wireDiameter s) (turnsPerLayer s) (bobbinLength s)
    (bobbinWidth s) (avgTurnLength s) (lastCalcRequestedResistance s)
    (lastCommandTime s) (timeoutLimit s) (outputsEnabled s) (stepCount s)
    (totalSteps s) (initialStepDelay s) (minStepDelay s) (accelSteps s)
    (sweepControlMode s) (patternMinAngle s) (patternMaxAngle s)
    (patternScatter s) (patternTurnsPerLayer s) (addr s) (eeprom s) (enPin s)
    (dirPin s) (servoAttached s) v (stepPulses s) (serialOut s).

Definition set_stepPulses (v : Z) (s : state) : state :=
  mkState (targetTurns s) (running s) (paused s) (verboseMode s)
    (stepperForward s) (servoMinAngle s) (servoMaxAngle s) (servoPos s)
    (bobbinHeight s) (wireDiameter s) (turnsPerLayer s) (bobbinLength s)
    (bobbinWidth s) (avgTurnLength s) (lastCalcRequestedResistance s)
    (lastCommandTime s) (timeoutLimit s) (outputsEnabled s) (stepCount s)
    (totalSteps s) (initialStepDelay s) (minStepDelay s) (accelSteps s)
    (sweepControlMode s) (patternMinAngle s) (patternMaxAngle s)
    (patternScatter s) (patternTurnsPerLayer s) (addr s) (eeprom s) (enPin s)
    (dirPin s) (servoAttached s) (servoWritten s) v (serialOut s).

Definition set_serialOut (v : list string) (s : state) : state :=
  mkState (targetTurns s) (running s) (paused s) (verboseMode s)
    (stepperForward s) (servoMinAngle s) (servoMaxAngle s) (servoPos s)
    (bobbinHeight s) (wireDiameter s) (turnsPerLayer s) (bobbinLength s)
    (bobbinWidth s) (avgTurnLength s) (lastCalcRequestedResistance s)
    (lastCommandTime s) (timeoutLimit s) (outputsEnabled s) (stepCount s)
    (totalSteps s) (initialStepDelay s) (minStepDelay s) (accelSteps s)
    (sweepControlMode s) (patternMinAngle s) (patternMaxAngle s)
    (patternScatter s) (patternTurnsPerLayer s) (addr s) (eeprom s) (enPin s)
    (dirPin s) (servoAttached s) (servoWritten s) (stepPulses s) v.

(** ** Outcomes

    A call either returns with a new state, or runs into behaviour that C++
    leaves undefined (a null pointer handed to [strcmp], an integer division
    by zero), or enters the blocking single-layer diagnostic [TEST_LAYER],
    which polls the serial port in a loop of its own.  [processCommand]
    stops there with [Blocking]; the branch itself is [testLayer], which
    takes the lines that arrive while it runs, and [runCommand] is
    [processCommand] with that branch in place. *)

Inductive fault := NullDereference | DivisionByZero.

Inductive outcome :=
  | Ok (s : state)
  | Fault (f : fault)
  | Blocking.

Definition bind (o : outcome) (k : state -> outcome) : outcome :=
  match o with
  | Ok s => k s
  | Fault f => Fault f
  | Blocking => Blocking
  end.

Notation "'do' s <- o ; k" := (bind o (fun s => k))
  (at level 10, s name, o at level 100, k at level 200).

(** [Serial.println]: one more line on the serial port. *)
Definition say (line : string) (s : state) : state :=
  set_serialOut (serialOut s ++ [line]) s.

(** ** Enabling and disabling the outputs *)

Definition HIGH : bool := true.
Definition LOW : bool := false.

Definition enableOutputs (s : state) : state :=
  let s := set_enPin LOW s in
  let s := if negb (servoAttached s) then set_servoAttached true s else s in
  let s := set_outputsEnabled true s in
  say "STATUS: Outputs ENABLED" s.

Definition disableOutputs (s : state) : state :=
  let s := set_enPin HIGH s in
  let s := if servoAttached s then set_servoAttached false s else s in
  let s := set_outputsEnabled false s in
  say "STATUS: Outputs DISABLED" s.

Definition enableServo (s : state) : state :=
  if negb (servoAttached s) then set_servoAttached true s else s.

Definition disableServo (s : state) : state :=
  if servoAttached s then set_servoAttached false s else s.

(** [layServo.write((int)x)]. *)
Definition layServo_write (x : F32.t) (s : state) : state :=
  set_servoWritten (Mach.int16 (F32.trunc x)) s.

(** ** Derived winding parameters *)

Definition computeWindingParameters (s : state) : state :=
  let s :=
    if F32.gtb (wireDiameter s) (F32.of_Z 0)
    then set_turnsPerLayer
           (Mach.long32 (F32.trunc (F32.div (bobbinHeight s) (wireDiameter s)))) s
    else s in
  set_servoPos (servoMinAngle s) s.

Definition updateAndValidate (s : state) : state :=
  let anglesInvalid := false in
  let '(s, anglesInvalid) :=
    if F32.isnan (servoMinAngle s) || F32.ltb (servoMinAngle s) (F32.of_Z 0)
       || F32.gtb (servoMinAngle s) (F32.of_Z 180)
       || F32.geb (servoMinAngle s) (servoMaxAngle s)
    then (set_servoMinAngle (F32.of_Z 77) s, true)
    else (s, anglesInvalid) in
  let '(s, anglesInvalid) :=
    if F32.isnan (servoMaxAngle s) || F32.ltb (servoMaxAngle s) (F32.of_Z 0)
       || F32.gtb (servoMaxAngle s) (F32.of_Z 180)
       || F32.geb (servoMinAngle s) (servoMaxAngle s)
    then (set_servoMaxAngle (F32.of_Z 103) s, true)
    else (s, anglesInvalid) in
  let s :=
    if anglesInvalid
    then say "WARN: Invalid servo angles detected, resetting to defaults." s
    else s in
  let s :=
    if F32.isnan (wireDiameter s) || F32.leb (wireDiameter s) F32.zero
    then say "WARN: Invalid wire diameter detected, resetting to default."
           (set_wireDiameter (F32.of_ratio false 2 10) s)
    else s in
  computeWindingParameters s.

(** ** Servo positioning

    The locals [effectiveMin], [effectiveMax] and [pitchAngle] of
    [updateServoPosition] are named here so that they can be spoken about. *)

Definition scatterAmount (minAngle maxAngle scatterPercent : F32.t) : F32.t :=
  let angleRange := F32.sub maxAngle minAngle in
  F32.mul angleRange (F32.div scatterPercent (F32.of_Z 100)).

Definition effectiveMin (minAngle maxAngle scatterPercent : F32.t) : F32.t :=
  F32.add minAngle
    (F32.div (scatterAmount minAngle maxAngle scatterPercent) (F32.of_Z 2)).

Definition effectiveMax (minAngle maxAngle scatterPercent : F32.t) : F32.t :=
  F32.sub maxAngle
    (F32.div (scatterAmount minAngle maxAngle scatterPercent) (F32.of_Z 2)).

Definition pitchAngle (totalTurnsInLayer : Z)
    (minAngle maxAngle scatterPercent : F32.t) : F32.t :=
  let sweepRange :=
    F32.sub (effectiveMax minAngle maxAngle scatterPercent)
            (effectiveMin minAngle maxAngle scatterPercent) in
  F32.div sweepRange (F32.of_Z (totalTurnsInLayer - 1)).

Definition updateServoPosition (currentStepCount totalTurnsInLayer : Z)
    (minAngle maxAngle scatterPercent : F32.t) (s : state) : outcome :=
  let currentTurn := Z.quot currentStepCount stepsPerTurn in
  (* [currentTurn / totalTurnsInLayer] and [currentTurn % totalTurnsInLayer] *)
  if totalTurnsInLayer =? 0 then Fault DivisionByZero else
  let layer := Z.quot currentTurn totalTurnsInLayer in
  let turnInLayer := Z.rem currentTurn totalTurnsInLayer in
  let effectiveMin := effectiveMin minAngle maxAngle scatterPercent in
  let effectiveMax := effectiveMax minAngle maxAngle scatterPercent in
  if totalTurnsInLayer <=? 1 then
    let s := set_servoPos
               (if Z.rem layer 2 =? 0 then effectiveMin else effectiveMax) s in
    Ok (layServo_write (servoPos s) s)
  else
    let pitchAngle :=
      pitchAngle totalTurnsInLayer minAngle maxAngle scatterPercent in
    let s :=
      if Z.rem layer 2 =? 0
      then set_servoPos
             (F32.add effectiveMin (F32.mul (F32.of_Z turnInLayer) pitchAngle)) s
      else set_servoPos
             (F32.sub effectiveMax (F32.mul (F32.of_Z turnInLayer) pitchAngle)) s in
    Ok (layServo_write (servoPos s) s).

(** ** Timeout check.  [now] is the reading of [millis()]. *)

Definition checkTimeout (now : Z) (s : state) : state :=
  if Mach.ulong32 (now - lastCommandTime s) >? timeoutLimit s then
    if outputsEnabled s then
      let s := disableOutputs s in
      let s := set_running false s in
      say "STATUS: AUTO-TIMEOUT - Outputs disabled" s
    else s
  else s.

(** ** EEPROM

    The cells hold bytes; [EEPROM.put] and [EEPROM.get] copy the object
    representation of a value, least significant byte first. *)

Module EEPROM.

Definition cells := Z -> Z.

Definition write (i : Z) (b : Z) (m : cells) : cells :=
  fun x => if x =? i then b else m x.

Fixpoint put_bytes (n : nat) (i : Z) (v : Z) (m : cells) : cells :=
  match n with
  | O => m
  | S n' => put_bytes n' (i + 1) (Z.shiftr v 8) (write i (Z.land v 255) m)
  end.

Fixpoint get_bytes (n : nat) (i : Z) (m : cells) : Z :=
  match n with
  | O => 0
  | S n' => m i + 256 * get_bytes n' (i + 1) m
  end.

Definition put_float (i : Z) (x : F32.t) := put_bytes 4 i (F32.to_bits x).
Definition get_float (i : Z) (m : cells) : F32.t := F32.of_bits (get_bytes 4 i m).

Definition put_int (i : Z) (v : Z) := put_bytes 2 i v.
Definition get_int (i : Z) (m : cells) : Z := Mach.int16 (get_bytes 2 i m).

Definition put_long (i : Z) (v : Z) := put_bytes 4 i v.
Definition get_long (i : Z) (m : cells) : Z := Mach.long32 (get_bytes 4 i m).

Definition put_ulong (i : Z) (v : Z) := put_bytes 4 i v.
Definition get_ulong (i : Z) (m : cells) : Z := get_bytes 4 i m.

(** A device whose every cell holds 0xFF. *)
Definition erased : cells := fun _ => 255.

End EEPROM.

(** The address macros.  [ADDR_SERVO_MIN] is the current value of the global
    [addr]; every other macro is [(addr += sizeof(...))], so using it moves
    [addr] and yields the moved value. *)

Definition ADDR_SERVO_MIN (s : state) : Z * state := (addr s, s).

Definition addr_advance (k : Z) (s : state) : Z * state :=
  (Mach.int16 (addr s + k), set_addr (Mach.int16 (addr s + k)) s).

Definition ADDR_SERVO_MAX := addr_advance Mach.sizeof_float.
Definition ADDR_WIRE_DIAM := addr_advance Mach.sizeof_float.
Definition ADDR_STEP_DELAY := addr_advance Mach.sizeof_float.
Definition ADDR_TIMEOUT := addr_advance Mach.sizeof_int.
Definition ADDR_ACCEL_STEPS := addr_advance Mach.sizeof_ulong.
Definition ADDR_BOBBIN_LEN := addr_advance Mach.sizeof_long.
Definition ADDR_BOBBIN_WID := addr_advance Mach.sizeof_float.
Definition ADDR_BOBBIN_H := addr_advance Mach.sizeof_float.
Definition ADDR_LAST_CALC_R := addr_advance Mach.sizeof_float.
Definition ADDR_SWEEP_MODE := addr_advance Mach.sizeof_float.

(** [addr + sizeof(int)], in unsigned arithmetic; [addr] is not moved. *)
Definition EEPROM_SIZE (s : state) : Z := Mach.wrapu 16 (addr s + Mach.sizeof_int).

(** [EEPROM.put(ADDR, var)] and [EEPROM.get(ADDR, var)]: the address macro is
    evaluated, then the variable is copied to or from the cells. *)

Definition EEPROM_put {A : Type} (put : Z -> A -> EEPROM.cells -> EEPROM.cells)
    (ADDR : state -> Z * state) (var : state -> A) (s : state) : state :=
  let '(a, s) := ADDR s in
  set_eeprom (put a (var s) (eeprom s)) s.

Definition EEPROM_get {A : Type} (get : Z -> EEPROM.cells -> A)
    (ADDR : state -> Z * state) (set_var : A -> state -> state) (s : state)
    : state :=
  let '(a, s) := ADDR s in
  set_var (get a (eeprom s)) s.

Definition saveSettings (s : state) : state :=
  let s := EEPROM_put EEPROM.put_float ADDR_SERVO_MIN servoMinAngle s in
  let s := EEPROM_put EEPROM.put_float ADDR_SERVO_MAX servoMaxAngle s in
  let s := EEPROM_put EEPROM.put_float ADDR_WIRE_DIAM wireDiameter s in
  let s := EEPROM_put EEPROM.put_int ADDR_STEP_DELAY initialStepDelay s in
  let s := EEPROM_put EEPROM.put_ulong ADDR_TIMEOUT timeoutLimit s in
  let s := EEPROM_put EEPROM.put_long ADDR_ACCEL_STEPS accelSteps s in
  let s := EEPROM_put EEPROM.put_float ADDR_BOBBIN_LEN bobbinLength s in
  let s := EEPROM_put EEPROM.put_float ADDR_BOBBIN_WID bobbinWidth s in
  let s := EEPROM_put EEPROM.put_float ADDR_BOBBIN_H bobbinHeight s in
  let s := EEPROM_put EEPROM.put_float ADDR_LAST_CALC_R
             lastCalcRequestedResistance s in
  let s := EEPROM_put EEPROM.put_int ADDR_SWEEP_MODE
             (fun s => SweepControlMode_to_int (sweepControlMode s)) s in
  say "STATUS: Settings saved to EEPROM" s.

(** The loop [for (int i = 0; i < EEPROM_SIZE; i++) EEPROM.write(i, 0xFF)]. *)
Fixpoint clear_cells (n : nat) (i : Z) (m : EEPROM.cells) : EEPROM.cells :=
  match n with
  | O => m
  | S n' => clear_cells n' (i + 1) (EEPROM.write i 255 m)
  end.

Definition clearEEPROM (s : state) : state :=
  let s := say "INFO: Clearing EEPROM..." s in
  let s := set_eeprom (clear_cells (Z.to_nat (EEPROM_SIZE s)) 0 (eeprom s)) s in
  say "STATUS: EEPROM cleared." s.

(** ** Average turn length *)

Definition calculateAvgTurnLength (s : state) : state :=
  if F32.leb (bobbinLength s) (F32.of_Z 0) || F32.leb (bobbinWidth s) (F32.of_Z 0)
     || F32.leb (wireDiameter s) (F32.of_Z 0) || (targetTurns s <=? 0)
  then set_avgTurnLength (F32.of_Z 0) s
  else
    let corePerimeter :=
      F32.add (F32.mul (F32.of_Z 2) (bobbinLength s))
              (F32.mul F32.PI (bobbinWidth s)) in
    let turnsPerLayerNow :=
      Mach.long32 (F32.trunc (F32.div (bobbinHeight s) (wireDiameter s))) in
    let turnsPerLayerNow := if turnsPerLayerNow <=? 0 then 1 else turnsPerLayerNow in
    let totalLayers := F32.div (F32.of_Z (targetTurns s)) (F32.of_Z turnsPerLayerNow) in
    let windingThickness := F32.mul totalLayers (wireDiameter s) in
    let finalPerimeter :=
      F32.add (F32.mul (F32.of_Z 2) (bobbinLength s))
              (F32.mul F32.PI
                 (F32.add (bobbinWidth s)
                    (F32.mul (F32.of_Z 2) windingThickness))) in
    set_avgTurnLength
      (F32.div (F32.add corePerimeter finalPerimeter) (F32.of_Z 2)) s.

(** ** Loading the settings

    [loadSettings] reads the eleven fields and then runs one sanity check per
    field (the servo angles share one); each check is a definition of its
    own, in the order of the source. *)

Definition check_servo_angles (s : state) : state :=
  let servoAnglesInvalid := false in
  let '(s, servoAnglesInvalid) :=
    if F32.isnan (servoMinAngle s) || F32.ltb (servoMinAngle s) (F32.of_Z 0)
       || F32.gtb (servoMinAngle s) (F32.of_Z 180)
    then (set_servoMinAngle (F32.of_Z 77) s, true)
    else (s, servoAnglesInvalid) in
  let '(s, servoAnglesInvalid) :=
    if F32.isnan (servoMaxAngle s) || F32.ltb (servoMaxAngle s) (F32.of_Z 0)
       || F32.gtb (servoMaxAngle s) (F32.of_Z 180)
    then (set_servoMaxAngle (F32.of_Z 103) s, true)
    else (s, servoAnglesInvalid) in
  let '(s, servoAnglesInvalid) :=
    if F32.geb (servoMinAngle s) (servoMaxAngle s)
    then (set_servoMaxAngle (F32.of_Z 103)
            (set_servoMinAngle (F32.of_Z 77) s), true)
    else (s, servoAnglesInvalid) in
  if servoAnglesInvalid
  then say "WARN: Invalid servo angles in EEPROM, reset to defaults." s
  else s.

Definition check_wire_diameter (s : state) : state :=
  if F32.isnan (wireDiameter s) || F32.leb (wireDiameter s) F32.zero
  then say "WARN: Invalid wire diameter in EEPROM, reset to default."
         (set_wireDiameter (F32.of_ratio false 2 10) s)
  else s.

Definition check_step_delay (s : state) : state :=
  if (initialStepDelay s <=? minStepDelay s) || (initialStepDelay s >? 20000)
  then say "WARN: Invalid step delay in EEPROM, reset to default."
         (set_initialStepDelay 1000 s)
  else s.

Definition check_timeout_limit (s : state) : state :=
  if timeoutLimit s <? 1000
  then say "WARN: Invalid timeout in EEPROM, reset to default."
         (set_timeoutLimit 10000 s)
  else s.

Definition check_accel_steps (s : state) : state :=
  if (accelSteps s <=? 0) || (accelSteps s >? 10000)
  then say "WARN: Invalid accel steps in EEPROM, reset to default."
         (set_accelSteps 400 s)
  else s.

Definition check_bobbin_length (s : state) : state :=
  if F32.isnan (bobbinLength s) || F32.leb (bobbinLength s) F32.zero
     || F32.gtb (bobbinLength s) (F32.of_Z 1000)
  then say "WARN: Invalid bobbin length in EEPROM, reset to default."
         (set_bobbinLength (F32.of_Z 60) s)
  else s.

Definition check_bobbin_width (s : state) : state :=
  if F32.isnan (bobbinWidth s) || F32.leb (bobbinWidth s) F32.zero
     || F32.gtb (bobbinWidth s) (F32.of_Z 1000)
  then say "WARN: Invalid bobbin width in EEPROM, reset to default."
         (set_bobbinWidth (F32.of_Z 4) s)
  else s.

Definition check_bobbin_height (s : state) : state :=
  if F32.isnan (bobbinHeight s) || F32.leb (bobbinHeight s) F32.zero
     || F32.gtb (bobbinHeight s) (F32.of_Z 100)
  then say "WARN: Invalid bobbin height in EEPROM, reset to default."
         (set_bobbinHeight (F32.of_Z 9) s)
  else s.

Definition check_last_resistance (s : state) : state :=
  if F32.isnan (lastCalcRequestedResistance s)
     || F32.ltb (lastCalcRequestedResistance s) F32.zero
  then say "WARN: Invalid last calculated resistance in EEPROM, reset to default."
         (set_lastCalcRequestedResistance F32.zero s)
  else s.

Definition check_sweep_mode (s : state) : state :=
  if negb (SweepControlMode_eqb (sweepControlMode s) SWEEP_MODE_FIRMWARE)
     && negb (SweepControlMode_eqb (sweepControlMode s) SWEEP_MODE_GUI)
  then say "WARN: Invalid sweep control mode in EEPROM, reset to default."
         (set_sweepControlMode SWEEP_MODE_FIRMWARE s)
  else s.

Definition loadSettings (s : state) : state :=
  let s := EEPROM_get EEPROM.get_float ADDR_SERVO_MIN set_servoMinAngle s in
  let s := EEPROM_get EEPROM.get_float ADDR_SERVO_MAX set_servoMaxAngle s in
  let s := EEPROM_get EEPROM.get_float ADDR_WIRE_DIAM set_wireDiameter s in
  let s := EEPROM_get EEPROM.get_int ADDR_STEP_DELAY set_initialStepDelay s in
  let s := EEPROM_get EEPROM.get_ulong ADDR_TIMEOUT set_timeoutLimit s in
  let s := EEPROM_get EEPROM.get_long ADDR_ACCEL_STEPS set_accelSteps s in
  let s := EEPROM_get EEPROM.get_float ADDR_BOBBIN_LEN set_bobbinLength s in
  let s := EEPROM_get EEPROM.get_float ADDR_BOBBIN_WID set_bobbinWidth s in
  let s := EEPROM_get EEPROM.get_float ADDR_BOBBIN_H set_bobbinHeight s in
  let s := EEPROM_get EEPROM.get_float ADDR_LAST_CALC_R
             set_lastCalcRequestedResistance s in
  let s := EEPROM_get EEPROM.get_int ADDR_SWEEP_MODE
             (fun raw => set_sweepControlMode (SweepControlMode_of_int raw)) s in
  let s := check_servo_angles s in
  let s := check_wire_diameter s in
  let s := check_step_delay s in
  let s := check_timeout_limit s in
  let s := check_accel_steps s in
  let s := check_bobbin_length s in
  let s := check_bobbin_width s in
  let s := check_bobbin_height s in
  let s := check_last_resistance s in
  let s := check_sweep_mode s in
  let s := say "STATUS: Settings loaded from EEPROM" s in
  calculateAvgTurnLength s.

(** ** The acceleration profile

    [cos] is the C library's single-precision cosine; the firmware does not
    define it, and the profile is stated for any such function. *)

Section Profile.

Variable cosf : F32.t -> F32.t.

(** The local [multiplier] of [calculateSCurveDelay]. *)
Definition multiplier (currentStepInRamp totalRampSteps : Z) : F32.t :=
  let cos_input := F32.div (F32.of_Z currentStepInRamp) (F32.of_Z totalRampSteps) in
  let cos_output := cosf (F32.mul cos_input F32.PI) in
  F32.div (F32.sub (F32.of_Z 1) cos_output) (F32.of_Z 2).

Definition calculateSCurveDelay (currentStepInRamp totalRampSteps : Z)
    (s : state) : Z :=
  let multiplier := multiplier currentStepInRamp totalRampSteps in
  let delayRange := Mach.int16 (initialStepDelay s - minStepDelay s) in
  Mach.int16
    (initialStepDelay s
     - Mach.int16 (F32.trunc (F32.mul (F32.of_Z delayRange) multiplier))).

(** Returns the delay used for the pulse and the state after it. *)
Definition stepWithAcceleration (s : state) : Z * state :=
  let currentTurn := Z.quot (stepCount s) stepsPerTurn in
  let stepsIntoTurn := Z.rem (stepCount s) stepsPerTurn in
  let delayNow :=
    if (currentTurn =? 0) && (stepsIntoTurn <? accelSteps s) then
      calculateSCurveDelay stepsIntoTurn (accelSteps s) s
    else if (currentTurn =? Mach.long32 (targetTurns s - 1))
            && (stepsIntoTurn >=? Mach.long32 (stepsPerTurn - accelSteps s)) then
      let decelStepCount :=
        Mach.long32 (stepsIntoTurn - Mach.long32 (stepsPerTurn - accelSteps s)) in
      calculateSCurveDelay (Mach.long32 (accelSteps s - decelStepCount))
        (accelSteps s) s
    else minStepDelay s in
  let delayNow := if delayNow <? minStepDelay s then minStepDelay s else delayNow in
  let s := set_stepPulses (stepPulses s + 1) s in
  let s := set_stepCount (Mach.long32 (stepCount s + 1)) s in
  (delayNow, s).

End Profile.

(** ** Status report (the values printed are not recorded) *)

Definition printStatus (s : state) : state :=
  say "----------------------" (say "--- CURRENT STATUS ---" s).

(** ** Command processing

    [processCommand now cmd_str s]: [now] is the reading of [millis()] on
    entry, [cmd_str] the line handed over by [checkSerial].  For a report
    printed in several pieces only its leading fixed text is recorded. *)

Definition COPPER_RESISTIVITY : F32.t := CStr.of_decimal false 168 (-10).

(** The option list of [TEST_STEPPER_MOVE]. *)
Fixpoint test_move_options (toks : list string) (stepsToMove speed : Z)
    (dirFwd : bool) : Z * Z * bool :=
  match toks with
  | [] => (stepsToMove, speed, dirFwd)
  | token :: rest =>
      if String.eqb token "FWD" then test_move_options rest stepsToMove speed true
      else if String.eqb token "REV" then test_move_options rest stepsToMove speed false
      else
        match token with
        | String c0 r0 =>
            if Ascii.eqb c0 "S"%char
               && match r0 with String c1 _ => CStr.is_digit c1 | _ => false end
            then test_move_options rest stepsToMove (CStr.atoi r0) dirFwd
            else if CStr.is_digit c0
            then test_move_options rest (CStr.atol token) speed dirFwd
            else test_move_options rest stepsToMove speed dirFwd
        | EmptyString => test_move_options rest stepsToMove speed dirFwd
        end
  end.

(** A bounded run of step pulses, [for (i = 0; i < n; i++) { pulse }]. *)
Definition pulse_train (n : Z) (s : state) : state :=
  set_stepPulses (stepPulses s + Z.max 0 n) s.

Definition restoreDefaults (s : state) : state :=
  let s := say "INFO: Restoring all settings to factory defaults." s in
  let s := clearEEPROM s in
  let s := loadSettings s in
  let s := set_lastCalcRequestedResistance F32.zero s in
  let s := updateAndValidate s in
  saveSettings s.

Definition windCommand (action : string) (args : list string) (s : state)
    : outcome :=
  if String.eqb action "START" then
    let s := set_verboseMode
               (match args with arg :: _ => String.eqb arg "-V" | [] => false end) s in
    let s := if verboseMode s then say "INFO: Verbose mode enabled." s else s in
    let s := printStatus s in
    let s := set_dirPin (if stepperForward s then HIGH else LOW) s in
    let s := enableOutputs s in
    let s :=
      if SweepControlMode_eqb (sweepControlMode s) SWEEP_MODE_PATTERN
      then set_servoPos (patternMinAngle s) s
      else set_servoPos (servoMinAngle s) s in
    let s := layServo_write (servoPos s) s in
    let s := set_totalSteps (Mach.long32 (targetTurns s * stepsPerTurn)) s in
    let s := set_stepCount 0 s in
    let s := set_running true s in
    let s := set_paused false s in
    Ok (say "STATUS: Winding STARTED" s)
  else if String.eqb action "STOP" then
    let s := set_running false s in
    let s := set_verboseMode false s in
    Ok (say "STATUS: Winding STOPPED" s)
  else if String.eqb action "PAUSE" then
    if running s then
      Ok (say "STATUS: Winding PAUSED" (set_paused true (set_running false s)))
    else Ok s
  else if String.eqb action "RESUME" then
    if paused s then
      let s := enableOutputs s in
      let s := set_running true s in
      let s := set_paused false s in
      Ok (say "STATUS: Winding RESUMED" s)
    else Ok s
  else if String.eqb action "COUNT" then
    match args with
    | val :: _ =>
        let s := set_targetTurns (CStr.atol val) s in
        let s := set_stepCount 0 s in
        let s := calculateAvgTurnLength s in
        let s := set_lastCalcRequestedResistance F32.zero s in
        Ok (say "PARAM: Target turns = " s)
    | [] => Ok s
    end
  else if String.eqb action "SPEED" then
    match args with
    | val :: _ =>
        let speed := CStr.atoi val in
        if speed >? 0 then
          let s := set_minStepDelay (Mach.int16 (1000000 / speed / 2)) s in
          Ok (say "PARAM: Speed set to " s)
        else Ok s
    | [] => Ok s
    end
  else if String.eqb action "DIR" then
    match args with
    | val :: _ =>
        let s := set_stepperForward (String.eqb val "FWD") s in
        Ok (say "PARAM: Stepper direction = " s)
    | [] => Ok s
    end
  else if String.eqb action "SWEEP" then
    match args with
    | mode :: _ =>
        if String.eqb mode "FIRMWARE" then
          Ok (say "PARAM: Sweep control set to FIRMWARE."
                (set_sweepControlMode SWEEP_MODE_FIRMWARE s))
        else if String.eqb mode "GUI" then
          Ok (say "PARAM: Sweep control set to GUI."
                (set_sweepControlMode SWEEP_MODE_GUI s))
        else if String.eqb mode "PATTERN" then
          Ok (say "PARAM: Sweep control set to PATTERN."
                (set_sweepControlMode SWEEP_MODE_PATTERN s))
        else Ok s
    | [] => Fault NullDereference  (* strcmp(mode, ...) with mode == NULL *)
    end
  else if String.eqb action "PATTERN" then
    match args with
    | min_str :: max_str :: tpl_str :: scatter_str :: _ =>
        let s := set_patternMinAngle (CStr.atof min_str) s in
        let s := set_patternMaxAngle (CStr.atof max_str) s in
        let s := set_patternTurnsPerLayer (CStr.atol tpl_str) s in
        let s := set_patternScatter (CStr.atof scatter_str) s in
        Ok (say "PARAM: Sweep pattern received." s)
    | _ => Ok s
    end
  else if String.eqb action "SCATTER" then
    match args with
    | val :: _ =>
        let s := set_patternScatter (CStr.atof val) s in
        Ok (say "PARAM: Live scatter updated to " s)
    | [] => Ok s
    end
  else Ok s.

Definition servoCommand (action : string) (args : list string) (s : state)
    : outcome :=
  if String.eqb action "STATUS" then Ok (say "SERVO_STATUS:" s)
  else if String.eqb action "ENABLE" then
    Ok (say "STATUS: Servo ENABLED" (enableServo s))
  else if String.eqb action "DISABLE" then
    Ok (say "STATUS: Servo DISABLED" (disableServo s))
  else if String.eqb action "POS" then
    match args with
    | val :: _ =>
        let s := set_servoPos (CStr.atof val) s in
        let s := if negb (servoAttached s) then enableServo s else s in
        let s := layServo_write (servoPos s) s in
        Ok (say "STATUS: Servo moved to " s)
    | [] => Ok s
    end
  else if String.eqb action "CALIBRATE" then
    match args with
    | minStr :: maxStr :: _ =>
        let s := enableOutputs s in
        let s := set_servoMinAngle (CStr.atof minStr) s in
        let s := set_servoMaxAngle (CStr.atof maxStr) s in
        let s := updateAndValidate s in
        let s := say "PARAM: Servo Min/Max Angle = " s in
        let s := layServo_write (servoMinAngle s) s in
        let s := layServo_write (servoMaxAngle s) s in
        let s := layServo_write (servoMinAngle s) s in
        Ok (disableOutputs s)
    | _ => Ok (say "ERROR: Invalid format. Use: SERVO CALIBRATE <min> <max>" s)
    end
  else Ok s.

Definition stepperCommand (action : string) (args : list string) (s : state)
    : outcome :=
  if String.eqb action "STATUS" then Ok (say "STEPPER_STATUS:" s)
  else if String.eqb action "ENABLE" then
    Ok (say "STATUS: Stepper ENABLED" (set_enPin LOW s))
  else if String.eqb action "DISABLE" then
    Ok (say "STATUS: Stepper DISABLED" (set_enPin HIGH s))
  else if String.eqb action "MOVE" then
    match args with
    | val :: _ =>
        let stepsToMove := CStr.atol val in
        let s := say "INFO: Stepper moving " s in
        let s := enableOutputs s in
        let s := set_dirPin (if stepperForward s then HIGH else LOW) s in
        let s := pulse_train stepsToMove s in
        let s := say "STATUS: Stepper move completed." s in
        Ok (disableOutputs s)
    | [] => Ok s
    end
  else Ok s.

Definition sysCommand (action : string) (s : state) : outcome :=
  if String.eqb action "STATUS" then Ok (printStatus s)
  else if String.eqb action "SAVE" then Ok (saveSettings s)
  else if String.eqb action "LOAD" then Ok (updateAndValidate (loadSettings s))
  else if String.eqb action "RESET" then Ok (restoreDefaults s)
  else if String.eqb action "VERSION" then Ok (say "FIRMWARE_VERSION: " s)
  else if String.eqb action "HELP" then Ok (say "Commands:" s)
  else Ok s.

(** [BOBBIN]: the first value is the token taken as [action]. *)
Definition bobbinCommand (l_str : string) (args : list string) (s : state)
    : outcome :=
  match args with
  | w_str :: h_str :: _ =>
      let l := CStr.atof l_str in
      let w := CStr.atof w_str in
      let h := CStr.atof h_str in
      if F32.leb l (F32.of_Z 0) || F32.leb w (F32.of_Z 0) || F32.leb h (F32.of_Z 0)
      then Ok (say "ERROR: Bobbin dimensions must be positive numbers." s)
      else
        let s := set_bobbinLength l s in
        let s := set_bobbinWidth w s in
        let s := set_bobbinHeight h s in
        let s := updateAndValidate s in
        let s := calculateAvgTurnLength s in
        Ok (say "PARAM: Bobbin dimensions updated:" s)
  | _ => Ok (say "ERROR: Invalid BOBBIN format. Use: BOBBIN <len> <wid> <hgt>" s)
  end.

Definition wireDiaCommand (action : string) (s : state) : outcome :=
  let s := set_wireDiameter (CStr.atof action) s in
  let s := updateAndValidate s in
  let s := calculateAvgTurnLength s in
  Ok (say "PARAM: Wire diameter = " s).

(** The ten rounds of the resistance solver.  [inl] is the early return. *)
Fixpoint calc_rounds (n : nat) (calculatedTurns : Z)
    (targetResistance area_m2 : F32.t) (s : state) : state + Z * state :=
  match n with
  | O => inr (calculatedTurns, s)
  | S n' =>
      let s := set_targetTurns calculatedTurns s in
      let s := calculateAvgTurnLength s in
      if F32.leb (avgTurnLength s) (F32.of_Z 0) then
        inl (set_targetTurns 0
               (say "ERROR: Could not calculate average turn length." s))
      else
        let totalLength_m :=
          F32.div (F32.mul targetResistance area_m2) COPPER_RESISTIVITY in
        let calculatedTurns :=
          Mach.long32
            (F32.trunc (F32.div (F32.mul totalLength_m (F32.of_Z 1000))
                          (avgTurnLength s))) in
        calc_rounds n' calculatedTurns targetResistance area_m2 s
  end.

(** The requested resistance in Ohm: the value with its unit suffix [R] or
    [K] applied; [None] for any other suffix. *)
Definition calc_target (action : string) : option F32.t :=
  let targetResistance := CStr.atof action in
  let unit := CStr.toupper (CStr.last_char action) in
  if Ascii.eqb unit "K"%char
  then Some (F32.mul targetResistance (F32.of_Z 1000))
  else if negb (Ascii.eqb unit "R"%char) then None
  else Some targetResistance.

Definition calcCommand (action : string) (s : state) : outcome :=
  let ready := true in
  let '(s, ready) :=
    if F32.leb (bobbinLength s) (F32.of_Z 0) || F32.leb (bobbinWidth s) (F32.of_Z 0)
       || F32.leb (bobbinHeight s) (F32.of_Z 0)
    then (say "ERROR: Bobbin dimensions not set. Use: BOBBIN <L> <W> <H>" s, false)
    else (s, ready) in
  let '(s, ready) :=
    if F32.leb (wireDiameter s) (F32.of_Z 0)
    then (say "ERROR: Wire diameter not set. Use: WIRE_DIA <mm>" s, false)
    else (s, ready) in
  if negb ready then Ok s else
  match calc_target action with
  | None =>
      Ok (say "ERROR: Invalid CALC format. Use: CALC <value>R or CALC <value>K" s)
  | Some targetResistance =>
      if F32.leb targetResistance (F32.of_Z 0)
      then Ok (say "ERROR: Target resistance must be positive." s)
      else
        let s := say "INFO: Calculating turns for " s in
        let s := set_lastCalcRequestedResistance targetResistance s in
        let radius_m :=
          F32.div (F32.div (wireDiameter s) (F32.of_Z 2)) (F32.of_Z 1000) in
        let area_m2 := F32.mul (F32.mul F32.PI radius_m) radius_m in
        match calc_rounds 10 1000 targetResistance area_m2 s with
        | inl s => Ok s
        | inr (calculatedTurns, s) =>
            let s := set_targetTurns calculatedTurns s in
            let s := calculateAvgTurnLength s in
            let s := say "--- CALCULATION RESULTS ---" s in
            Ok (say "STATUS: Target turns updated." s)
        end
  end.

(** After the component: the action, which defaults to ["STATUS"] when the
    line has none, and the tokens that later [strtok_r] calls return. *)
Definition action_of (rest : list string) : string :=
  match rest with a :: _ => a | [] => "STATUS" end.

Definition args_of (rest : list string) : list string :=
  match rest with _ :: r => r | [] => [] end.

(** The component blocks, tried in the order of the source. *)
Definition componentCommand (component action : string) (args : list string)
    (s : state) : outcome :=
  if String.eqb component "WIND" then windCommand action args s
  else if String.eqb component "SERVO" then servoCommand action args s
  else if String.eqb component "STEPPER" then stepperCommand action args s
  else if String.eqb component "SYS" then sysCommand action s
  else if String.eqb component "BOBBIN" then bobbinCommand action args s
  else if String.eqb component "WIRE_DIA" then wireDiaCommand action s
  else if String.eqb component "CALC" then calcCommand action s
  else Ok (say "ERROR: Unknown command." s).

Definition processCommand (now : Z) (cmd_str : string) (s : state) : outcome :=
  let s := set_lastCommandTime now s in
  if String.prefix "TEST_LAYER" cmd_str then Blocking
  else if String.eqb cmd_str "TEST_STEPPER" then
    let s := enableOutputs s in
    let s := say "INFO: Stepper buzz test (50 steps)..." s in
    let s := set_dirPin HIGH s in
    let s := pulse_train 50 s in
    let s := say "STATUS: Stepper buzz test done." s in
    Ok (disableOutputs s)
  else if String.prefix "TEST_STEPPER_MOVE " cmd_str then
    let '(stepsToMove, _, dirFwd) :=
      test_move_options (CStr.tokens (CStr.drop 18 cmd_str)) 1600 1000 true in
    let s := say "INFO: Stepper moving " s in
    let s := enableOutputs s in
    let s := set_dirPin (if dirFwd then HIGH else LOW) s in
    let s := pulse_train stepsToMove s in
    let s := say "STATUS: Stepper test move completed." s in
    Ok (disableOutputs s)
  else if String.eqb cmd_str "RESTORE_DEFAULTS" then Ok (restoreDefaults s)
  else if String.eqb cmd_str "STATUS" then Ok (printStatus s)
  else
    match CStr.tokens cmd_str with
    | [] => Ok s
    | component :: rest =>
        componentCommand component (action_of rest) (args_of rest) s
    end.

(** The lines that [processCommand] recognises as a whole, before it splits
    the line into component and action. *)
Definition whole_line (cmd_str : string) : bool :=
  String.prefix "TEST_LAYER" cmd_str
  || String.eqb cmd_str "TEST_STEPPER"
  || String.prefix "TEST_STEPPER_MOVE " cmd_str
  || String.eqb cmd_str "RESTORE_DEFAULTS"
  || String.eqb cmd_str "STATUS".

(** The actions that the blocks of [WIND], [SERVO], [STEPPER] and [SYS]
    compare against. *)
Definition known_action (component action : string) : bool :=
  if String.eqb component "WIND" then
    existsb (String.eqb action)
      ["START"; "STOP"; "PAUSE"; "RESUME"; "COUNT"; "SPEED"; "DIR"; "SWEEP";
       "PATTERN"; "SCATTER"]%string
  else if String.eqb component "SERVO" then
    existsb (String.eqb action)
      ["STATUS"; "ENABLE"; "DISABLE"; "POS"; "CALIBRATE"]%string
  else if String.eqb component "STEPPER" then
    existsb (String.eqb action) ["STATUS"; "ENABLE"; "DISABLE"; "MOVE"]%string
  else if String.eqb component "SYS" then
    existsb (String.eqb action)
      ["STATUS"; "SAVE"; "LOAD"; "RESET"; "VERSION"; "HELP"]%string
  else false.

Definition known_component (component : string) : bool :=
  String.eqb component "WIND" || String.eqb component "SERVO"
  || String.eqb component "STEPPER" || String.eqb component "SYS"
  || String.eqb component "BOBBIN" || String.eqb component "WIRE_DIA"
  || String.eqb component "CALC".

(** ** The main loop

    One iteration of [loop()].  [line] is the command line completed by
    [checkSerial], if any; [t_cmd] and [t_chk] are the readings of
    [millis()] in [processCommand] and in [checkTimeout]. *)

Section Loop.

Variable cosf : F32.t -> F32.t.

Definition sweepStep (s : state) : outcome :=
  if (stepCount s >? 0) && (Z.rem (stepCount s) stepsPerTurn =? 0) then
    if SweepControlMode_eqb (sweepControlMode s) SWEEP_MODE_FIRMWARE then
      updateServoPosition (stepCount s) (turnsPerLayer s)
        (servoMinAngle s) (servoMaxAngle s) (F32.of_Z 0) s
    else if SweepControlMode_eqb (sweepControlMode s) SWEEP_MODE_PATTERN then
      updateServoPosition (stepCount s) (patternTurnsPerLayer s)
        (patternMinAngle s) (patternMaxAngle s) (patternScatter s) s
    else Ok s
  else Ok s.

Definition loop (line : option string) (t_cmd t_chk : Z) (s : state) : outcome :=
  do s <- match line with
          | Some cmd_str => processCommand t_cmd cmd_str s
          | None => Ok s
          end;
  let s := checkTimeout t_chk s in
  if running s && outputsEnabled s && (stepCount s <? totalSteps s) then
    do s <- (if running s && outputsEnabled s then
               let '(_, s) := stepWithAcceleration cosf s in
               let s :=
                 if verboseMode s && (stepCount s >? 0)
                    && (Z.rem (stepCount s) stepsPerTurn =? 0)
                 then say "  -> Turn: " s else s in
               sweepStep s
             else Ok s);
    if stepCount s >=? totalSteps s then
      let s := set_running false s in
      let s := set_verboseMode false s in
      let s := say "STATUS: Winding completed." s in
      Ok (disableOutputs s)
    else Ok s
  else Ok s.

(** [n] iterations with no incoming command, all at time [t]. *)
Fixpoint idle_loops (n : nat) (t : Z) (s : state) : outcome :=
  match n with
  | O => Ok s
  | S n' => do s <- loop None t t s; idle_loops n' t s
  end.

End Loop.

(** ** Power-on and [setup()] *)

Definition power_on (rom : EEPROM.cells) : state :=
  {| targetTurns := 0;
     running := false;
     paused := false;
     verboseMode := false;
     stepperForward := true;
     servoMinAngle := F32.of_Z 70;
     servoMaxAngle := F32.of_Z 100;
     servoPos := F32.of_Z 70;
     bobbinHeight := F32.of_Z 9;
     wireDiameter := F32.of_ratio false 2 10;
     turnsPerLayer := 45;
     bobbinLength := F32.of_Z 60;
     bobbinWidth := F32.of_Z 4;
     avgTurnLength := F32.of_Z 140;
     lastCalcRequestedResistance := F32.zero;
     lastCommandTime := 0;
     timeoutLimit := 10000;
     outputsEnabled := true;
     stepCount := 0;
     totalSteps := 0;
     initialStepDelay := 1000;
     minStepDelay := 300;
     accelSteps := 400;
     sweepControlMode := SWEEP_MODE_FIRMWARE;
     patternMinAngle := F32.zero;
     patternMaxAngle := F32.zero;
     patternScatter := F32.zero;
     patternTurnsPerLayer := 0;
     addr := 0;
     eeprom := rom;
     enPin := LOW;
     dirPin := LOW;
     servoAttached := false;
     servoWritten := 0;
     stepPulses := 0;
     serialOut := [] |}.

Definition setup (s : state) : state :=
  let s := set_enPin HIGH s in
  let s := set_outputsEnabled false s in
  let s := loadSettings s in
  let s := computeWindingParameters s in
  let s := say "--- Initial Settings Loaded ---" s in
  let s := printStatus s in
  say "Pickup Coil Winder READY" s.

(** The state in which the control loop starts. *)
Definition boot (rom : EEPROM.cells) : state := setup (power_on rom).

(** A run of commands, as [processCommand] sees them. *)
Fixpoint run_commands (cmds : list (Z * string)) (s : state) : outcome :=
  match cmds with
  | [] => Ok s
  | (now, cmd_str) :: rest => do s <- processCommand now cmd_str s; run_commands rest s
  end.

(** ** Devices and situations used below *)

(** A device whose every EEPROM cell holds 0. *)
Definition zeroed : EEPROM.cells := fun _ => 0.

(** Is the line a report of the [ERROR:] category? *)
Definition is_error (line : string) : bool := String.prefix "ERROR:" line.

(** The state of the machine never depends on the delay that
    [stepWithAcceleration] computes, so where a run of the loop is
    evaluated the cosine is taken to be this constant function. *)
Definition any_cos : F32.t -> F32.t := fun _ => F32.of_Z 1.

(** Is the bobbin and wire geometry set, as [CALC] requires? *)
Definition calc_ready (s : state) : bool :=
  negb (F32.leb (bobbinLength s) (F32.of_Z 0)
        || F32.leb (bobbinWidth s) (F32.of_Z 0)
        || F32.leb (bobbinHeight s) (F32.of_Z 0))
  && negb (F32.leb (wireDiameter s) (F32.of_Z 0)).

(** A device whose EEPROM holds 20000 as the initial step delay (cells 12
    and 13, low byte first) and 0 elsewhere. *)
Definition long_initial_delay : EEPROM.cells :=
  fun a => if a =? 12 then 32 else if a =? 13 then 78 else 0.

(** A cosine in three steps: 1 below 1, 0 from there to below [PI], -1 from
    [PI] on.  It is exact at 0 and at [PI], stays within [-1, 1] and never
    increases. *)
Definition stair_cosine (a : F32.t) : F32.t :=
  if F32.ltb a (F32.of_Z 1) then F32.of_Z 1
  else if F32.ltb a F32.PI then F32.zero
  else F32.of_Z (-1).

(** ** Rounding, specified

    A non-negative real [v] is given as a fraction [N / D] of integers after
    scaling by [2 ^ scale]; all exponents in play are above [- scale]. *)

Module Rnd.

Definition scale : Z := 1000.

(** [grid e] is the weight of one unit of exponent [e], scaled. *)
Definition grid (e : Z) : Z := 2 ^ (e + scale).

(** [located A G mrs]: the fraction [A / G] lies in [[m, m + 1)] for the
    mantissa [m] of the record, and the round and sticky bits say where:
    at [m], below the middle, at the middle, or above it. *)
Definition located (A G : Z) (mrs : shr_record) : Prop :=
  0 <= shr_m mrs /\ 0 < G /\
  match shr_r mrs, shr_s mrs with
  | false, false => A = shr_m mrs * G
  | false, true => shr_m mrs * G < A /\ 2 * A < (2 * shr_m mrs + 1) * G
  | true, false => 2 * A = (2 * shr_m mrs + 1) * G
  | true, true => (2 * shr_m mrs + 1) * G < 2 * A /\ A < (shr_m mrs + 1) * G
  end.

(** The float built from a rounded mantissa [m2] at the canonical exponent
    [E], with the carry into the next binade. *)
Definition finish (E : Z) (m2 : Z) : spec_float :=
  match m2 with
  | Zpos p =>
      if m2 <? 2 ^ 24 then S754_finite false p E
      else S754_finite false (2 ^ 23)%positive (E + 1)
  | _ => S754_zero false
  end.

(** [rounds_pos N D x]: [x] is the binary32 nearest to [N / D] (scaled), ties
    to even, for a positive value below [2 ^ 127]. *)
Definition rounds_pos (N D : Z) (x : spec_float) : Prop :=
  exists d mrs,
    0 < D /\ -400 <= d <= 127
    /\ grid (d - 1) * D <= N < grid d * D
    /\ located N (D * grid (fexp F32.prec F32.emax d)) mrs
    /\ x = finish (fexp F32.prec F32.emax d)
             (round_nearest_even (shr_m mrs) (loc_of_shr_record mrs)).

(** The same for a value that may be zero. *)
Definition rounds_to (N D : Z) (x : spec_float) : Prop :=
  (N = 0 /\ 0 < D /\ x = S754_zero false) \/ rounds_pos N D x.

(** Canonical form of a non-negative float: a 24-bit mantissa, or the
    least exponent. *)
Definition canon (x : spec_float) : Prop :=
  match x with
  | S754_zero false => True
  | S754_finite false p E =>
      -149 <= E <= 104 /\ Zpos p < 2 ^ 24 /\ (-149 < E -> 2 ^ 23 <= Zpos p)
  | _ => False
  end.

(** The scaled value of a float (zero for the values that have none). *)
Definition value (x : spec_float) : Z :=
  match x with
  | S754_finite s m e => (if s then - Zpos m else Zpos m) * grid e
  | _ => 0
  end.

(** A zero or a finite float in canonical form. *)
Definition wellformed (x : spec_float) : bool :=
  F32.is_finite x && valid_binary F32.prec F32.emax x.

End Rnd.

Abbreviation fexp32 := (fexp F32.prec F32.emax).
Abbreviation bra32 := (binary_round_aux F32.prec F32.emax).

(** ** Reading a command line

    [checkSerial rx inputBuffer]: [rx] holds the characters waiting in the
    receive buffer of the serial port, [inputBuffer] the characters collected
    so far, so that its length is [inputIndex].  The result says whether a
    command is ready, gives the command when one is ready (after which
    [inputIndex] is 0 again) and otherwise the characters collected, and
    gives the characters still waiting.

    The command is the C string that starts at [inputBuffer]: the line end
    writes a NUL after the characters collected, and a NUL that was received
    and stored among them ends the string earlier. *)

Definition MAX_CMD_LENGTH : Z := 64.

(** The C string held by an array of characters that is followed by a NUL:
    the characters before the first NUL. *)
Fixpoint c_str (s : string) : string :=
  match s with
  | EmptyString => EmptyString
  | String c r =>
      if Ascii.eqb c Ascii.zero then EmptyString else String c (c_str r)
  end.

Fixpoint checkSerial (rx : string) (inputBuffer : string)
    : bool * string * string :=
  match rx with
  | EmptyString => (false, inputBuffer, EmptyString)
  | String c rest =>
      if Ascii.eqb c "010"%char || Ascii.eqb c "013"%char then
        if 0 <? Z.of_nat (String.length inputBuffer)
        then (true, c_str inputBuffer, rest)
        else checkSerial rest inputBuffer
      else if Z.of_nat (String.length inputBuffer) <? MAX_CMD_LENGTH - 1
      then checkSerial rest (inputBuffer ++ String (CStr.toupper c) EmptyString)
      else checkSerial rest inputBuffer
  end.

(** A string with every letter in upper case. *)
Fixpoint uppercase (s : string) : string :=
  match s with
  | EmptyString => EmptyString
  | String c r => String (CStr.toupper c) (uppercase r)
  end.

(** Is the character other than NUL? *)
Definition not_nul (c : ascii) : bool := negb (Ascii.eqb c Ascii.zero).

(** Is the character a line end, [\n] or [\r]? *)
Definition is_line_end (c : ascii) : bool :=
  Ascii.eqb c "010"%char || Ascii.eqb c "013"%char.

Fixpoint string_forall (p : ascii -> bool) (s : string) : bool :=
  match s with
  | EmptyString => true
  | String c r => p c && string_forall p r
  end.

(** ** Runs of the main loop without incoming commands, one reading of
    [millis()] per iteration. *)
Fixpoint timed_loops (cosf : F32.t -> F32.t) (ts : list Z) (s : state)
    : outcome :=
  match ts with
  | [] => Ok s
  | t :: rest => do s <- loop cosf None t t s; timed_loops cosf rest s
  end.

(** Is the character a lower-case letter? *)
Definition is_lower (c : ascii) : bool :=
  let n := N_of_ascii c in ((97 <=? n) && (n <=? 122))%N.

(** What a collected character can be: no line end, no lower-case letter. *)
Definition command_char (c : ascii) : bool :=
  negb (is_line_end c) && negb (is_lower c).

(** The sweep of the running job has a divisor to work with: the turns per
    layer of the mode in force are not zero. *)
Definition sweep_safe (s : state) : Prop :=
  (SweepControlMode_eqb (sweepControlMode s) SWEEP_MODE_FIRMWARE = true ->
   turnsPerLayer s <> 0)
  /\ (SweepControlMode_eqb (sweepControlMode s) SWEEP_MODE_PATTERN = true ->
      patternTurnsPerLayer s <> 0).

(** The reading [t] of [millis()] is within the timeout limit of the last
    command. *)
Definition in_time (s : state) (t : Z) : Prop :=
  Mach.ulong32 (t - lastCommandTime s) <= timeoutLimit s.

(** ** What the sanity checks ask of a setting *)

(** A number from 0 to 180, as asked of a servo angle. *)
Definition valid_angle (x : F32.t) : bool :=
  negb (F32.isnan x || F32.ltb x (F32.of_Z 0) || F32.gtb x (F32.of_Z 180)).

(** A number above zero and not above [hi], as asked of a bobbin dimension. *)
Definition valid_dimension (hi : Z) (x : F32.t) : bool :=
  negb (F32.isnan x || F32.leb x F32.zero || F32.gtb x (F32.of_Z hi)).

(** ** Cells of the EEPROM *)

(** [m'] holds what [m] holds in every cell outside [lo, hi). *)
Definition same_outside (lo hi : Z) (m m' : EEPROM.cells) : Prop :=
  forall x, x < lo \/ hi <= x -> m' x = m x.

(** [m'] holds what [m] holds in every cell of [lo, hi). *)
Definition same_inside (lo hi : Z) (m m' : EEPROM.cells) : Prop :=
  forall x, lo <= x < hi -> m' x = m x.

(** The state with the sweep mode, the EEPROM cells and the serial output
    blanked: two states with the same image agree on every other variable. *)
Definition apart_from_mode (s : state) : state :=
  set_sweepControlMode SWEEP_MODE_FIRMWARE
    (set_eeprom (fun _ => 0) (set_serialOut [] s)).

(** ** Options of [TEST_STEPPER_MOVE] *)

(** [isdigit(token[0])]. *)
Definition starts_with_digit (t : string) : bool :=
  match t with
  | String c _ => CStr.is_digit c
  | EmptyString => false
  end.

(** [strcmp(token, "FWD") == 0 || strcmp(token, "REV") == 0]. *)
Definition is_direction (t : string) : bool :=
  String.eqb t "FWD" || String.eqb t "REV".

(** ** The single-layer diagnostic

    [processCommand] stops at [Blocking] when the line starts with
    [TEST_LAYER].  The branch itself is [testLayer]: it polls the serial port
    once per step, so the lines that arrive while it runs are given as a
    list, one entry per iteration of its loop: the line that [checkSerial]
    completes in that iteration, if any, and the reading of [millis()] for
    the command it may pass on.  When the list ends before the loop does, the
    result is [Blocking]. *)

(** The locals [testTurns], [testMinStepDelay], [testMinAngle],
    [testMaxAngle] and [resume]. *)
Record layer_test : Type := mkLayerTest {
  testTurns : Z;
  testMinStepDelay : Z;
  testMinAngle : F32.t;
  testMaxAngle : F32.t;
  resume : bool
}.

(** One token of the argument list, by its first character. *)
Definition test_layer_option (token : string) (s : state) (o : layer_test)
    : layer_test :=
  match token with
  | String c r =>
      if Ascii.eqb c "S"%char then
        let speed := CStr.atoi r in
        if speed >? 0
        then mkLayerTest (testTurns o) (Mach.int16 (1000000 / speed / 2))
               (testMinAngle o) (testMaxAngle o) (resume o)
        else o
      else if Ascii.eqb c "C"%char then
        mkLayerTest (CStr.atol r) (testMinStepDelay o)
          (testMinAngle o) (testMaxAngle o) (resume o)
      else if Ascii.eqb c "A"%char then
        let sweepAngle := CStr.atof r in
        if F32.gtb sweepAngle (F32.of_Z 0) && F32.leb sweepAngle (F32.of_Z 180)
        then
          let center :=
            F32.div (F32.add (servoMinAngle s) (servoMaxAngle s)) (F32.of_Z 2) in
          mkLayerTest (testTurns o) (testMinStepDelay o)
            (F32.sub center (F32.div sweepAngle (F32.of_Z 2)))
            (F32.add center (F32.div sweepAngle (F32.of_Z 2))) (resume o)
        else o
      else if Ascii.eqb c "R"%char then
        if String.eqb r "1"
        then mkLayerTest (testTurns o) (testMinStepDelay o)
               (testMinAngle o) (testMaxAngle o) true
        else o
      else o
  | EmptyString => o
  end.

Fixpoint test_layer_options (toks : list string) (s : state) (o : layer_test)
    : layer_test :=
  match toks with
  | [] => o
  | token :: rest => test_layer_options rest s (test_layer_option token s o)
  end.

(** The loop [while (stepCount < totalSteps && running)]; [delay] is the
    current value of [testMinStepDelay]. *)
Fixpoint test_layer_loop (inputs : list (option string * Z)) (o : layer_test)
    (delay : Z) (s : state) : outcome :=
  if (stepCount s <? totalSteps s) && running s then
    match inputs with
    | [] => Blocking
    | (line, now) :: rest =>
        let passed_on :=
          match line with
          | Some l => String.eqb l "STOP" || String.prefix "S " l
          | None => false
          end in
        do s <- (if passed_on
                 then processCommand now
                        (match line with Some l => l | None => EmptyString end) s
                 else Ok s);
        let delay :=
          match line with
          | Some l =>
              if passed_on && String.prefix "S " l then minStepDelay s else delay
          | None => delay
          end in
        if negb (running s) then Ok s
        else
          let s := set_stepPulses (stepPulses s + 1) s in
          let s := set_stepCount (Mach.long32 (stepCount s + 1)) s in
          do s <- (if (stepCount s >? 0) && (Z.rem (stepCount s) stepsPerTurn =? 0)
                   then updateServoPosition (stepCount s) (testTurns o)
                          (testMinAngle o) (testMaxAngle o) (F32.of_Z 0)
                          (say "  -> Turn: " s)
                   else Ok s);
          test_layer_loop rest o delay s
    end
  else Ok s.

(** The locals after the argument list is read; they start from the current
    configuration. *)
Definition test_layer_setup (cmd_str : string) (s : state) : layer_test :=
  test_layer_options (CStr.tokens (CStr.drop 10 cmd_str)) s
    (mkLayerTest (turnsPerLayer s) (minStepDelay s)
       (servoMinAngle s) (servoMaxAngle s) false).

Definition testLayer (now : Z) (cmd_str : string)
    (inputs : list (option string * Z)) (s : state) : outcome :=
  let s := set_lastCommandTime now s in
  let o := test_layer_setup cmd_str s in
  let s :=
    if negb (resume o)
    then let s := set_servoPos (testMinAngle o) s in
         layServo_write (servoPos s) s
    else s in
  let s := enableOutputs s in
  let s := say "INFO: Testing 1 layer..." s in
  let s := say "  - Turns: " s in
  let s := say "  - Speed Delay (us): " s in
  let s := say "  - Servo Sweep: " s in
  let s := set_totalSteps (Mach.long32 (testTurns o * stepsPerTurn)) s in
  let s := set_stepCount 0 s in
  let s := set_dirPin (if stepperForward s then HIGH else LOW) s in
  let s := set_running true s in
  do s <- test_layer_loop inputs o (testMinStepDelay o) s;
  let s := say (if running s then "STATUS: Layer test done."
                else "STATUS: Test STOPPED.") s in
  let s := set_running false s in
  Ok (disableOutputs s).

(** ** A command line from arrival to return

    The call [processCommand(cmd_str)] as a whole, the layer test included:
    [inputs] are the lines that arrive while a layer test runs, as for
    [testLayer]; a line that is no layer test does not read them. *)
Definition runCommand (now : Z) (cmd_str : string)
    (inputs : list (option string * Z)) (s : state) : outcome :=
  if String.prefix "TEST_LAYER" cmd_str
  then testLayer now cmd_str inputs s
  else processCommand now cmd_str s.

(** The reading of [millis()] for the last of [inputs] that the layer test
    passes on to [processCommand], a line [STOP] or [S ...]; [t] when there
    is none. *)
Fixpoint last_passed_on (inputs : list (option string * Z)) (t : Z) : Z :=
  match inputs with
  | [] => t
  | (Some l, now) :: rest =>
      last_passed_on rest
        (if String.eqb l "STOP" || String.prefix "S " l then now else t)
  | (None, _) :: rest => last_passed_on rest t
  end.

(** ** What [CALC] may change *)

(** The state with the target turns, the average turn length, the last
    requested resistance and the serial output blanked. *)
Definition apart_from_calc (s : state) : state :=
  set_targetTurns 0
    (set_avgTurnLength F32.zero
       (set_lastCalcRequestedResistance F32.zero (set_serialOut [] s))).

(** * Properties *)

(** ** Machine integers and floats *)

Lemma wraps_small w x :
  0 < w -> - 2 ^ (w - 1) <= x < 2 ^ (w - 1) -> Mach.wraps w x = x.
Proof.
  intros Hw Hx. unfold Mach.wraps.
  assert (E : 2 ^ w = 2 * 2 ^ (w - 1)).
  { replace w with (Z.succ (w - 1)) at 1 by lia.
    rewrite Z.pow_succ_r by lia. reflexivity. }
  assert (P : 0 < 2 ^ (w - 1)) by (apply Z.pow_pos_nonneg; lia).
  destruct (Z_lt_le_dec x 0) as [Hn | Hp].
  - replace (x mod 2 ^ w) with (x + 2 ^ w).
    + destruct (Z.ltb_spec (x + 2 ^ w) (2 ^ (w - 1))); lia.
    + apply Z.mod_unique with (q := -1); lia.
  - rewrite Z.mod_small by lia.
    destruct (Z.ltb_spec x (2 ^ (w - 1))); lia.
Qed.

Lemma wrapu_small w x : 0 <= x < 2 ^ w -> Mach.wrapu w x = x.
Proof. intros Hx. unfold Mach.wrapu. apply Z.mod_small. exact Hx. Qed.

Example f32_77 : F32.to_bits (F32.of_Z 77) = 0x429A0000.
Proof. reflexivity. Qed.

Example f32_0_2 : F32.to_bits (F32.of_ratio false 2 10) = 0x3E4CCCCD.
Proof. reflexivity. Qed.

Example f32_bits_roundtrip_103 : F32.of_bits (F32.to_bits (F32.of_Z 103)) = F32.of_Z 103.
Proof. reflexivity. Qed.

Example f32_all_ones_is_nan : F32.of_bits 0xFFFFFFFF = S754_nan.
Proof. reflexivity. Qed.

Example f32_trunc_9_over_0_2 :
  F32.trunc (F32.div (F32.of_Z 9) (F32.of_ratio false 2 10)) = 45.
Proof. reflexivity. Qed.

Example tokens_wind_count : CStr.tokens "WIND  COUNT 8000 "%string = ["WIND"; "COUNT"; "8000"]%string.
Proof. reflexivity. Qed.

Example atol_8000 : CStr.atol "8000"%string = 8000.
Proof. reflexivity. Qed.

Example atol_negative : CStr.atol "-12X"%string = -12.
Proof. reflexivity. Qed.

Example atof_0_2 : F32.to_bits (CStr.atof "0.2"%string) = 0x3E4CCCCD.
Proof. reflexivity. Qed.

Example atof_word : CStr.atof "STATUS"%string = F32.zero.
Proof. reflexivity. Qed.

Example atof_exp : F32.to_bits (CStr.atof "1.5E2"%string) = F32.to_bits (F32.of_Z 150).
Proof. reflexivity. Qed.

(** ** Proof tools *)

Ltac split_ifs :=
  repeat match goal with
         | |- context [if ?c then _ else _] => destruct c
         end.

Ltac head_of t :=
  lazymatch t with
  | ?g _ => head_of g
  | _ => t
  end.

(** [p (f x) = p x] for a step [f] that does not write the field [p]. *)
Ltac frame_of p f x :=
  let h := head_of f in
  generalize x; intro;
  first
    [ cbv beta iota delta
        [h EEPROM_get EEPROM_put ADDR_SERVO_MIN ADDR_SERVO_MAX ADDR_WIRE_DIAM
         ADDR_STEP_DELAY ADDR_TIMEOUT ADDR_ACCEL_STEPS ADDR_BOBBIN_LEN
         ADDR_BOBBIN_WID ADDR_BOBBIN_H ADDR_LAST_CALC_R ADDR_SWEEP_MODE
         addr_advance];
      split_ifs; reflexivity
    | cbv beta iota zeta delta [h]; split_ifs; reflexivity ].

(** Removes the outermost step of [p (f x) = v] when [f] leaves [p] alone. *)
Ltac peel :=
  lazymatch goal with
  | |- ?p (?f ?x) = _ =>
      let E := fresh "E" in
      assert (E : p (f x) = p x) by (frame_of p f x);
      rewrite E; clear E
  end.

Lemma Ok_inj (P : state -> Prop) x s' : P x -> Ok x = Ok s' -> P s'.
Proof. intros H E. injection E as <-. exact H. Qed.

Ltac split_outcome :=
  repeat match goal with
         | |- (if ?c then _ else _) = Ok _ -> _ => destruct c
         | |- match ?l with nil => _ | cons _ _ => _ end = Ok _ -> _ => destruct l
         end.

(** ** The command clock is written on entry only

    No function called by [processCommand] writes [lastCommandTime]. *)

Lemma loadSettings_lastCommandTime s :
  lastCommandTime (loadSettings s) = lastCommandTime s.
Proof. cbv beta zeta delta [loadSettings]. do 23 peel. reflexivity. Qed.

Lemma updateAndValidate_lastCommandTime s :
  lastCommandTime (updateAndValidate s) = lastCommandTime s.
Proof.
  cbv beta zeta delta [updateAndValidate computeWindingParameters].
  split_ifs; reflexivity.
Qed.

Ltac clock_step0 :=
  lazymatch goal with
  | |- lastCommandTime (loadSettings _) = _ =>
      rewrite loadSettings_lastCommandTime
  | |- lastCommandTime (updateAndValidate _) = _ =>
      rewrite updateAndValidate_lastCommandTime
  | |- _ (if ?c then _ else _) = _ => destruct c
  | |- _ (match ?l with nil => _ | cons _ _ => _ end) = _ => destruct l
  | |- _ => peel
  end.

Lemma restoreDefaults_lastCommandTime s :
  lastCommandTime (restoreDefaults s) = lastCommandTime s.
Proof.
  cbv beta zeta delta [restoreDefaults]. repeat clock_step0. reflexivity.
Qed.

Ltac clock_step :=
  lazymatch goal with
  | |- lastCommandTime (restoreDefaults _) = _ =>
      rewrite restoreDefaults_lastCommandTime
  | |- _ => clock_step0
  end.

Ltac clock := repeat clock_step; first [assumption | reflexivity].

Ltac outcome_clock s :=
  split_outcome;
  first [ discriminate
        | apply (Ok_inj (fun s' => lastCommandTime s' = lastCommandTime s)); clock ].

Lemma windCommand_lastCommandTime action args s s' :
  windCommand action args s = Ok s' -> lastCommandTime s' = lastCommandTime s.
Proof. cbv beta zeta delta [windCommand]. outcome_clock s. Qed.

Lemma servoCommand_lastCommandTime action args s s' :
  servoCommand action args s = Ok s' -> lastCommandTime s' = lastCommandTime s.
Proof. cbv beta zeta delta [servoCommand]. outcome_clock s. Qed.

Lemma stepperCommand_lastCommandTime action args s s' :
  stepperCommand action args s = Ok s' -> lastCommandTime s' = lastCommandTime s.
Proof. cbv beta zeta delta [stepperCommand]. outcome_clock s. Qed.

Lemma sysCommand_lastCommandTime action s s' :
  sysCommand action s = Ok s' -> lastCommandTime s' = lastCommandTime s.
Proof. cbv beta zeta delta [sysCommand]. outcome_clock s. Qed.

Lemma bobbinCommand_lastCommandTime action args s s' :
  bobbinCommand action args s = Ok s' -> lastCommandTime s' = lastCommandTime s.
Proof. cbv beta zeta delta [bobbinCommand]. outcome_clock s. Qed.

Lemma wireDiaCommand_lastCommandTime action s s' :
  wireDiaCommand action s = Ok s' -> lastCommandTime s' = lastCommandTime s.
Proof. cbv beta zeta delta [wireDiaCommand]. outcome_clock s. Qed.

Lemma calc_rounds_lastCommandTime n turns R a s :
  match calc_rounds n turns R a s with
  | inl s' => lastCommandTime s' = lastCommandTime s
  | inr (_, s') => lastCommandTime s' = lastCommandTime s
  end.
Proof.
  revert turns s. induction n as [|n IH]; intros turns s.
  - reflexivity.
  - cbn [calc_rounds]. cbv zeta.
    assert (F : lastCommandTime (calculateAvgTurnLength (set_targetTurns turns s))
                = lastCommandTime s) by (peel; reflexivity).
    revert F. generalize (calculateAvgTurnLength (set_targetTurns turns s)).
    intros s1 F.
    destruct (F32.leb (avgTurnLength s1) (F32.of_Z 0)).
    + exact F.
    + match goal with
      | |- context [calc_rounds n ?t R a s1] => specialize (IH t s1)
      end.
      destruct (calc_rounds n _ R a s1) as [s'|[t' s']]; congruence.
Qed.

Lemma calcCommand_lastCommandTime action s s' :
  calcCommand action s = Ok s' -> lastCommandTime s' = lastCommandTime s.
Proof.
  cbv beta zeta delta [calcCommand].
  destruct (F32.leb (bobbinLength s) (F32.of_Z 0)
            || F32.leb (bobbinWidth s) (F32.of_Z 0)
            || F32.leb (bobbinHeight s) (F32.of_Z 0)); cbv beta iota.
  all: match goal with
       | |- context [F32.leb (wireDiameter ?x) _] =>
           destruct (F32.leb (wireDiameter x) (F32.of_Z 0))
       end; cbv beta iota.
  all: try (cbn [negb]; cbv iota;
            apply (Ok_inj (fun s' => lastCommandTime s' = lastCommandTime s));
            clock).
  cbn [negb]. cbv iota.
  destruct (calc_target action) as [targetResistance|].
  all: try (apply (Ok_inj (fun s' => lastCommandTime s' = lastCommandTime s));
            clock).
  all: destruct (F32.leb _ _);
    try (apply (Ok_inj (fun s' => lastCommandTime s' = lastCommandTime s)); clock).
  all: match goal with
       | |- context [calc_rounds ?n ?t ?R ?a ?x] =>
           pose proof (calc_rounds_lastCommandTime n t R a x) as F;
           destruct (calc_rounds n t R a x) as [s1|[t1 s1]]
       end.
  all: apply (Ok_inj (fun s' => lastCommandTime s' = lastCommandTime s)).
  all: repeat clock_step0; try exact F; try (rewrite F; reflexivity).
Qed.

Lemma componentCommand_lastCommandTime component action args s s' :
  componentCommand component action args s = Ok s' ->
  lastCommandTime s' = lastCommandTime s.
Proof.
  unfold componentCommand.
  repeat match goal with
         | |- (if ?c then _ else _) = Ok _ -> _ => destruct c
         end;
    eauto using windCommand_lastCommandTime, servoCommand_lastCommandTime,
      stepperCommand_lastCommandTime, sysCommand_lastCommandTime,
      bobbinCommand_lastCommandTime, wireDiaCommand_lastCommandTime,
      calcCommand_lastCommandTime.
  apply (Ok_inj (fun s' => lastCommandTime s' = lastCommandTime s)). reflexivity.
Qed.

(** Every command line that [processCommand] returns from has set the
    clock to the time of its arrival. *)
Lemma processCommand_sets_clock now cmd_str s s' :
  processCommand now cmd_str s = Ok s' -> lastCommandTime s' = now.
Proof.
  cbv beta zeta delta [processCommand].
  destruct (String.prefix "TEST_LAYER" cmd_str); [discriminate|].
  destruct (String.eqb cmd_str "TEST_STEPPER").
  { apply (Ok_inj (fun s' => lastCommandTime s' = now)). clock. }
  destruct (String.prefix "TEST_STEPPER_MOVE " cmd_str).
  { destruct (test_move_options _ _ _ _) as [[stepsToMove speed] dirFwd].
    apply (Ok_inj (fun s' => lastCommandTime s' = now)). clock. }
  destruct (String.eqb cmd_str "RESTORE_DEFAULTS").
  { apply (Ok_inj (fun s' => lastCommandTime s' = now)). clock. }
  destruct (String.eqb cmd_str "STATUS").
  { apply (Ok_inj (fun s' => lastCommandTime s' = now)). clock. }
  destruct (CStr.tokens cmd_str) as [|component rest].
  { apply (Ok_inj (fun s' => lastCommandTime s' = now)). reflexivity. }
  intros E. apply componentCommand_lastCommandTime in E. exact E.
Qed.

(** A line that is none of the whole-line forms is handled by the block of
    its first token. *)
Lemma processCommand_component now cmd_str s component rest :
  whole_line cmd_str = false ->
  CStr.tokens cmd_str = component :: rest ->
  processCommand now cmd_str s
  = componentCommand component (action_of rest) (args_of rest)
      (set_lastCommandTime now s).
Proof.
  unfold whole_line. intros W T.
  repeat (apply orb_false_elim in W; destruct W as [W ?]).
  cbv beta zeta delta [processCommand].
  repeat match goal with
         | H : ?c = false |- context [if ?c then _ else _] => rewrite H
         end.
  rewrite T. reflexivity.
Qed.

(** ** Persistence: the address macros move [addr] *)

Lemma EEPROM_put_addr (A : Type) put k (var : state -> A) s :
  addr (EEPROM_put put (addr_advance k) var s) = Mach.int16 (addr s + k).
Proof. reflexivity. Qed.

Lemma EEPROM_get_addr (A : Type) (get : Z -> EEPROM.cells -> A) k set_var s :
  (forall v x, addr (set_var v x) = addr x) ->
  addr (EEPROM_get get (addr_advance k) set_var s) = Mach.int16 (addr s + k).
Proof. intros F. cbv beta iota delta [EEPROM_get addr_advance]. apply F. Qed.

Lemma int16_small x : -32768 <= x < 32768 -> Mach.int16 x = x.
Proof. intros H. apply wraps_small; [lia | exact H]. Qed.

Ltac int16_inside_out :=
  repeat match goal with
         | |- context [Mach.int16 ?x] =>
             lazymatch x with
             | context [Mach.int16 _] => fail
             | _ => rewrite (int16_small x) by lia
             end
         end.

(** One pass of [saveSettings] leaves [addr] 38 cells further. *)
Lemma saveSettings_addr s :
  0 <= addr s <= 32000 -> addr (saveSettings s) = addr s + 38.
Proof.
  intros H.
  cbv beta zeta delta
    [saveSettings ADDR_SERVO_MAX ADDR_WIRE_DIAM ADDR_STEP_DELAY ADDR_TIMEOUT
     ADDR_ACCEL_STEPS ADDR_BOBBIN_LEN ADDR_BOBBIN_WID ADDR_BOBBIN_H
     ADDR_LAST_CALC_R ADDR_SWEEP_MODE].
  peel. rewrite !EEPROM_put_addr.
  change (addr (EEPROM_put ?p ADDR_SERVO_MIN ?v s)) with (addr s).
  unfold Mach.sizeof_float, Mach.sizeof_int, Mach.sizeof_ulong, Mach.sizeof_long.
  int16_inside_out. lia.
Qed.

(** So does one pass of [loadSettings]. *)
Lemma loadSettings_addr s :
  0 <= addr s <= 32000 -> addr (loadSettings s) = addr s + 38.
Proof.
  intros H.
  cbv beta zeta delta
    [loadSettings ADDR_SERVO_MAX ADDR_WIRE_DIAM ADDR_STEP_DELAY ADDR_TIMEOUT
     ADDR_ACCEL_STEPS ADDR_BOBBIN_LEN ADDR_BOBBIN_WID ADDR_BOBBIN_H
     ADDR_LAST_CALC_R ADDR_SWEEP_MODE].
  do 12 peel.
  rewrite !EEPROM_get_addr by reflexivity.
  change (addr (EEPROM_get ?g ADDR_SERVO_MIN ?v s)) with (addr s).
  unfold Mach.sizeof_float, Mach.sizeof_int, Mach.sizeof_ulong, Mach.sizeof_long.
  int16_inside_out. lia.
Qed.

(** The first field is written at, and read from, the value [addr] has when
    the function is entered. *)
Lemma saveSettings_first_cell s :
  EEPROM.get_float (addr s)
    (eeprom (EEPROM_put EEPROM.put_float ADDR_SERVO_MIN servoMinAngle s))
  = F32.of_bits
      (EEPROM.get_bytes 4 (addr s)
         (EEPROM.put_bytes 4 (addr s) (F32.to_bits (servoMinAngle s)) (eeprom s))).
Proof. reflexivity. Qed.

(** C1. On a device with erased EEPROM the servo is calibrated to 80..100
    degrees, a validated configuration; [SYS SAVE] followed by [SYS LOAD]
    does not give it back.  [setup] has left [addr] at 38, so the save
    writes the minimum angle at cell 38 and leaves [addr] at 76; the load
    then reads the minimum angle from cell 76 and returns the default 77.
    Had the load started where the save did, it would have read 80. *)
Theorem save_then_load_reads_other_cells :
  exists s1 s2 s3,
    processCommand 1000 "SERVO CALIBRATE 80 100" (boot EEPROM.erased) = Ok s1
    /\ processCommand 2000 "SYS SAVE" s1 = Ok s2
    /\ processCommand 3000 "SYS LOAD" s2 = Ok s3
    /\ servoMinAngle s1 = F32.of_Z 80
    /\ addr s1 = 38 /\ addr s2 = 76 /\ addr s3 = 114
    /\ EEPROM.get_float 38 (eeprom s2) = F32.of_Z 80
    /\ servoMinAngle s3 = F32.of_Z 77
    /\ servoMinAngle (loadSettings (set_addr 38 s2)) = F32.of_Z 80.
Proof.
  do 3 eexists.
  split; [vm_compute; reflexivity|].
  split; [vm_compute; reflexivity|].
  split; [vm_compute; reflexivity|].
  repeat split; vm_compute; reflexivity.
Qed.

(** ** Persistence: loading from an erased device *)

Lemma get_bytes_erased n i m :
  (forall x, m x = 255) -> EEPROM.get_bytes n i m = 256 ^ Z.of_nat n - 1.
Proof.
  intros H. revert i. induction n as [|n IH]; intros i.
  - reflexivity.
  - cbn [EEPROM.get_bytes]. rewrite H, IH.
    rewrite Nat2Z.inj_succ, Z.pow_succ_r by lia. lia.
Qed.

Lemma read_timeout_erased s :
  (forall i, eeprom s i = 255) ->
  timeoutLimit (EEPROM_get EEPROM.get_ulong ADDR_TIMEOUT set_timeoutLimit s)
  = 4294967295.
Proof.
  intros H. cbv beta iota delta [EEPROM_get ADDR_TIMEOUT addr_advance].
  change (timeoutLimit (set_timeoutLimit ?v _)) with v.
  unfold EEPROM.get_ulong. apply (get_bytes_erased 4). exact H.
Qed.

(** C2. When every cell holds 0xFF, [loadSettings] leaves [timeoutLimit] at
    0xFFFFFFFF: the sanity check only rejects limits below 1000, so the
    documented default of 10000 is not restored. *)
Theorem loadSettings_erased_timeoutLimit s :
  (forall i, eeprom s i = 255) -> timeoutLimit (loadSettings s) = 4294967295.
Proof.
  intros H.
  cbv beta zeta delta [loadSettings]. do 8 peel.
  match goal with
  | |- timeoutLimit (check_timeout_limit ?x) = _ =>
      assert (E : timeoutLimit x = 4294967295);
      [ | revert E; generalize x; intros y E ]
  end.
  { do 9 peel. apply read_timeout_erased.
    intro i. rewrite <- (H i). apply (f_equal (fun m => m i)).
    do 4 peel. reflexivity. }
  unfold check_timeout_limit. rewrite E. exact E.
Qed.

Lemma loadSettings_erased_timeoutLimit_witness :
  timeoutLimit (loadSettings (power_on EEPROM.erased)) = 4294967295.
Proof. apply loadSettings_erased_timeoutLimit. intro i. reflexivity. Defined.

(** The other ten fields do come back as their defaults (here from the
    power-on state, whose [minStepDelay] is 300). *)
Example loadSettings_erased_other_fields :
  let s := loadSettings (power_on EEPROM.erased) in
  servoMinAngle s = F32.of_Z 77 /\ servoMaxAngle s = F32.of_Z 103
  /\ wireDiameter s = F32.of_ratio false 2 10
  /\ initialStepDelay s = 1000 /\ accelSteps s = 400
  /\ bobbinLength s = F32.of_Z 60 /\ bobbinWidth s = F32.of_Z 4
  /\ bobbinHeight s = F32.of_Z 9
  /\ lastCalcRequestedResistance s = F32.zero
  /\ sweepControlMode s = SWEEP_MODE_FIRMWARE.
Proof. repeat split; vm_compute; reflexivity. Qed.

(** [RESTORE_DEFAULTS] on a booted device: [clearEEPROM] fills cells 0..39,
    while the [loadSettings] that follows reads cells 38..77. *)
Example restore_defaults_reads_beyond_cleared_cells :
  let s := boot zeroed in
  EEPROM_SIZE s = 40
  /\ eeprom (clearEEPROM s) 39 = 255 /\ eeprom (clearEEPROM s) 40 = 0
  /\ addr (clearEEPROM s) = 38
  /\ addr (loadSettings (clearEEPROM s)) = 76.
Proof. repeat split; vm_compute; reflexivity. Qed.

(** ** Turns per layer *)

Lemma computeWindingParameters_turnsPerLayer s :
  F32.gtb (wireDiameter s) (F32.of_Z 0) = true ->
  turnsPerLayer (computeWindingParameters s)
  = Mach.long32 (F32.trunc (F32.div (bobbinHeight s) (wireDiameter s))).
Proof. intros H. unfold computeWindingParameters. rewrite H. reflexivity. Qed.

(** C3. [BOBBIN 60 4 1] and [WIRE_DIA 2] are accepted, height and diameter
    are positive, and the recomputed [turnsPerLayer] is
    [(long)(1.0 / 2.0) = 0]: [computeWindingParameters] has no lower bound
    of 1, unlike the local copy in [calculateAvgTurnLength]. *)
Theorem turnsPerLayer_can_be_zero :
  exists s,
    run_commands [(1000, "BOBBIN 60 4 1"%string); (2000, "WIRE_DIA 2"%string)]
      (boot EEPROM.erased) = Ok s
    /\ bobbinHeight s = F32.of_Z 1
    /\ wireDiameter s = F32.of_Z 2
    /\ F32.gtb (bobbinHeight s) F32.zero = true
    /\ F32.gtb (wireDiameter s) F32.zero = true
    /\ turnsPerLayer s = 0.
Proof.
  eexists. split; [vm_compute; reflexivity|].
  repeat split; vm_compute; reflexivity.
Qed.

(** ** Pause and resume *)

Lemma processCommand_WIND_PAUSE now s :
  processCommand now "WIND PAUSE" s
  = if running s
    then Ok (say "STATUS: Winding PAUSED"
               (set_paused true (set_running false (set_lastCommandTime now s))))
    else Ok (set_lastCommandTime now s).
Proof. reflexivity. Qed.

Lemma processCommand_WIND_RESUME now s :
  processCommand now "WIND RESUME" s
  = if paused s
    then Ok (say "STATUS: Winding RESUMED"
               (set_paused false
                  (set_running true (enableOutputs (set_lastCommandTime now s)))))
    else Ok (set_lastCommandTime now s).
Proof. reflexivity. Qed.

(** C4 (as stated, refuted). A winding job is started and then paused: the
    machine is PAUSED, yet the outputs are still enabled (the enable pin is
    low and the servo attached). *)
Lemma wind_pause_leaves_outputs_enabled :
  exists s s',
    run_commands [(1000, "WIND COUNT 2"%string); (2000, "WIND START"%string)]
      (boot zeroed) = Ok s
    /\ running s = true /\ outputsEnabled s = true
    /\ processCommand 3000 "WIND PAUSE" s = Ok s'
    /\ running s' = false /\ paused s' = true
    /\ outputsEnabled s' = true /\ enPin s' = LOW /\ servoAttached s' = true.
Proof.
  do 2 eexists.
  split; [vm_compute; reflexivity|].
  split; [reflexivity|]. split; [reflexivity|].
  split; [vm_compute; reflexivity|].
  repeat split.
Qed.

(** C4 (amended). [WIND PAUSE] acts only while running: it clears [running],
    sets [paused], and leaves the step count, the pulses emitted and the
    outputs as they are; otherwise only the command clock changes.
    [WIND RESUME] acts only while paused: it enables the outputs, sets
    [running], clears [paused] and leaves the step count; otherwise only the
    command clock changes.  A pause followed by a resume returns to running
    with the same step count, total and pulses emitted. *)
Theorem wind_pause_resume now s :
  (running s = true ->
   exists s',
     processCommand now "WIND PAUSE" s = Ok s'
     /\ running s' = false /\ paused s' = true
     /\ stepCount s' = stepCount s /\ totalSteps s' = totalSteps s
     /\ stepPulses s' = stepPulses s
     /\ outputsEnabled s' = outputsEnabled s /\ enPin s' = enPin s
     /\ servoAttached s' = servoAttached s)
  /\ (running s = false ->
      processCommand now "WIND PAUSE" s = Ok (set_lastCommandTime now s))
  /\ (paused s = true ->
      exists s',
        processCommand now "WIND RESUME" s = Ok s'
        /\ running s' = true /\ paused s' = false
        /\ outputsEnabled s' = true /\ enPin s' = LOW
        /\ stepCount s' = stepCount s /\ totalSteps s' = totalSteps s
        /\ stepPulses s' = stepPulses s)
  /\ (paused s = false ->
      processCommand now "WIND RESUME" s = Ok (set_lastCommandTime now s))
  /\ (running s = true ->
      forall later,
      exists s1 s2,
        processCommand now "WIND PAUSE" s = Ok s1
        /\ processCommand later "WIND RESUME" s1 = Ok s2
        /\ running s2 = true /\ paused s2 = false
        /\ stepCount s2 = stepCount s /\ totalSteps s2 = totalSteps s
        /\ stepPulses s2 = stepPulses s).
Proof.
  split; [|split; [|split; [|split]]].
  - intros R. eexists. rewrite processCommand_WIND_PAUSE, R.
    split; [reflexivity|]. repeat split.
  - intros R. rewrite processCommand_WIND_PAUSE, R. reflexivity.
  - intros P. eexists. rewrite processCommand_WIND_RESUME, P.
    split; [reflexivity|].
    unfold enableOutputs. repeat split; split_ifs; reflexivity.
  - intros P. rewrite processCommand_WIND_RESUME, P. reflexivity.
  - intros R later. do 2 eexists.
    rewrite processCommand_WIND_PAUSE, R.
    split; [reflexivity|].
    rewrite processCommand_WIND_RESUME.
    split; [reflexivity|].
    unfold enableOutputs. repeat split; split_ifs; reflexivity.
Qed.

Lemma wind_pause_resume_witness :
  exists s,
    run_commands [(1000, "WIND COUNT 2"%string); (2000, "WIND START"%string)]
      (boot zeroed) = Ok s
    /\ running s = true
    /\ exists s1 s2,
         processCommand 3000 "WIND PAUSE" s = Ok s1
         /\ processCommand 4000 "WIND RESUME" s1 = Ok s2
         /\ running s2 = true /\ paused s2 = false
         /\ stepCount s2 = stepCount s /\ totalSteps s2 = totalSteps s
         /\ stepPulses s2 = stepPulses s.
Proof.
  eexists. split; [vm_compute; reflexivity|].
  split; [reflexivity|].
  apply (proj2 (proj2 (proj2 (proj2 (wind_pause_resume 3000 _))))).
  reflexivity.
Defined.

(** ** The safety timeout *)

(** The machine state does not depend on the cosine. *)
Lemma loop_cos_irrelevant cosf1 cosf2 line t_cmd t_chk s :
  loop cosf1 line t_cmd t_chk s = loop cosf2 line t_cmd t_chk s.
Proof. reflexivity. Qed.

Lemma checkTimeout_fires now s :
  Mach.ulong32 (now - lastCommandTime s) > timeoutLimit s ->
  outputsEnabled s = true ->
  checkTimeout now s
  = say "STATUS: AUTO-TIMEOUT - Outputs disabled"
      (set_running false (disableOutputs s)).
Proof.
  intros T O. unfold checkTimeout.
  destruct (Z.gtb_spec (Mach.ulong32 (now - lastCommandTime s)) (timeoutLimit s));
    [|lia].
  rewrite O. reflexivity.
Qed.

(** While the machine is not running, an iteration without a command that
    finds the outputs disabled changes nothing. *)
Lemma loop_idle cosf t s :
  running s = false -> outputsEnabled s = false ->
  loop cosf None t t s = Ok s.
Proof.
  intros R O. unfold loop, bind, checkTimeout. rewrite O.
  destruct (_ >? _); rewrite R; reflexivity.
Qed.

(** C6 (as stated, refuted). A job of two turns is started and, after 100
    pulses, paused at time 2000.  At time 13000 the timeout (10000 ms)
    fires: outputs off, not running.  A [WIND RESUME] at time 20000 turns
    the outputs back on and the machine runs again from step 100; the next
    loop iteration emits pulse 101. *)
Lemma timeout_does_not_end_a_paused_job :
  exists s1 s2 s3 s4 s5 s6,
    run_commands [(1000, "WIND COUNT 2"%string); (1001, "WIND START"%string)]
      (boot zeroed) = Ok s1
    /\ idle_loops any_cos 100 1500 s1 = Ok s2
    /\ processCommand 2000 "WIND PAUSE" s2 = Ok s3
    /\ (Mach.ulong32 (13000 - lastCommandTime s3) >? timeoutLimit s3) = true
    /\ outputsEnabled s3 = true
    /\ checkTimeout 13000 s3 = s4
    /\ outputsEnabled s4 = false /\ running s4 = false /\ stepCount s4 = 100
    /\ processCommand 20000 "WIND RESUME" s4 = Ok s5
    /\ running s5 = true /\ outputsEnabled s5 = true /\ stepCount s5 = 100
    /\ loop any_cos None 20001 20001 s5 = Ok s6
    /\ running s6 = true /\ stepCount s6 = 101.
Proof.
  do 6 eexists.
  split; [vm_compute; reflexivity|].
  split; [vm_compute; reflexivity|].
  split; [vm_compute; reflexivity|].
  split; [vm_compute; reflexivity|].
  split; [vm_compute; reflexivity|].
  split; [vm_compute; reflexivity|].
  split; [vm_compute; reflexivity|].
  split; [vm_compute; reflexivity|].
  split; [vm_compute; reflexivity|].
  split; [vm_compute; reflexivity|].
  split; [vm_compute; reflexivity|].
  split; [vm_compute; reflexivity|].
  split; [vm_compute; reflexivity|].
  split; [vm_compute; reflexivity|].
  split; vm_compute; reflexivity.
Qed.

(** C6 (amended). When more than [timeoutLimit] has passed since the last
    command and the outputs are enabled, [checkTimeout] disables the outputs
    and clears [running], whatever the progress of the job and whether the
    machine was running or paused; the step count and the [paused] flag stay
    as they were.  Nothing resumes the job by itself: further loop
    iterations without a command leave the state alone.  A later
    [WIND RESUME] is ignored if the machine was running when the timeout
    fired; if it was paused, [WIND RESUME] enables the outputs and continues
    from the retained step count. *)
Theorem checkTimeout_cuts_off now s :
  Mach.ulong32 (now - lastCommandTime s) > timeoutLimit s ->
  outputsEnabled s = true ->
  let s' := checkTimeout now s in
  outputsEnabled s' = false /\ enPin s' = HIGH /\ servoAttached s' = false
  /\ running s' = false
  /\ stepCount s' = stepCount s /\ totalSteps s' = totalSteps s
  /\ paused s' = paused s
  /\ (forall cosf t, loop cosf None t t s' = Ok s')
  /\ (paused s = false ->
      forall t, processCommand t "WIND RESUME" s' = Ok (set_lastCommandTime t s'))
  /\ (paused s = true ->
      forall t, exists s'',
        processCommand t "WIND RESUME" s' = Ok s''
        /\ running s'' = true /\ outputsEnabled s'' = true
        /\ stepCount s'' = stepCount s /\ totalSteps s'' = totalSteps s).
Proof.
  intros T O s'. subst s'. rewrite (checkTimeout_fires now s T O).
  unfold disableOutputs.
  destruct (servoAttached (set_enPin HIGH s)) eqn:A.
  - repeat match goal with |- _ /\ _ => split end; try reflexivity.
    + intros cosf t. apply loop_idle; reflexivity.
    + intros P t. rewrite processCommand_WIND_RESUME.
      cbn [paused say set_serialOut set_running set_outputsEnabled
           set_servoAttached set_enPin].
      rewrite P. reflexivity.
    + intros P t. eexists. rewrite processCommand_WIND_RESUME.
      cbn [paused say set_serialOut set_running set_outputsEnabled
           set_servoAttached set_enPin].
      rewrite P. split; [reflexivity|].
      repeat split; unfold enableOutputs; split_ifs; reflexivity.
  - repeat match goal with |- _ /\ _ => split end; try reflexivity.
    + exact A.
    + intros cosf t. apply loop_idle; reflexivity.
    + intros P t. rewrite processCommand_WIND_RESUME.
      cbn [paused say set_serialOut set_running set_outputsEnabled
           set_servoAttached set_enPin].
      rewrite P. reflexivity.
    + intros P t. eexists. rewrite processCommand_WIND_RESUME.
      cbn [paused say set_serialOut set_running set_outputsEnabled
           set_servoAttached set_enPin].
      rewrite P. split; [reflexivity|].
      repeat split; unfold enableOutputs; split_ifs; reflexivity.
Qed.

Lemma checkTimeout_cuts_off_witness :
  exists s,
    run_commands [(1000, "WIND COUNT 2"%string); (1001, "WIND START"%string)]
      (boot zeroed) = Ok s
    /\ Mach.ulong32 (13000 - lastCommandTime s) > timeoutLimit s
    /\ outputsEnabled s = true
    /\ outputsEnabled (checkTimeout 13000 s) = false
    /\ running (checkTimeout 13000 s) = false.
Proof.
  eexists. split; [vm_compute; reflexivity|].
  split; [reflexivity|]. split; [reflexivity|].
  match goal with
  | |- outputsEnabled (checkTimeout ?t ?s) = _ /\ _ =>
      pose proof (checkTimeout_cuts_off t s eq_refl eq_refl) as H
  end.
  split; [exact (proj1 H) | exact (proj1 (proj2 (proj2 (proj2 H))))].
Defined.

(** ** Unknown commands and the command clock *)

Ltac use_false_tests :=
  repeat match goal with
         | H : ?c = false |- context [if ?c then _ else _] => rewrite H
         end.

Ltac split_orb_false H :=
  repeat (apply orb_false_elim in H; let H' := fresh "N" in destruct H as [H' H]).

Lemma componentCommand_unknown component action args s :
  known_component component = false ->
  componentCommand component action args s
  = Ok (say "ERROR: Unknown command." s).
Proof.
  unfold known_component. intros K.
  apply orb_false_elim in K; destruct K as [K N7].
  apply orb_false_elim in K; destruct K as [K N6].
  apply orb_false_elim in K; destruct K as [K N5].
  apply orb_false_elim in K; destruct K as [K N4].
  apply orb_false_elim in K; destruct K as [K N3].
  apply orb_false_elim in K; destruct K as [N1 N2].
  unfold componentCommand. use_false_tests. reflexivity.
Qed.

Lemma componentCommand_unknown_action component action args s :
  known_component component = true ->
  known_action component action = false ->
  String.eqb component "BOBBIN" = false ->
  String.eqb component "WIRE_DIA" = false ->
  String.eqb component "CALC" = false ->
  componentCommand component action args s = Ok s.
Proof.
  unfold known_component, known_action, componentCommand.
  intros K A NB NW NC. rewrite NB, NW, NC in *.
  destruct (String.eqb component "WIND").
  { cbn [existsb] in A. rewrite orb_false_r in A. split_orb_false A.
    cbv beta zeta delta [windCommand]. use_false_tests. reflexivity. }
  destruct (String.eqb component "SERVO").
  { cbn [existsb] in A. rewrite orb_false_r in A. split_orb_false A.
    cbv beta zeta delta [servoCommand]. use_false_tests. reflexivity. }
  destruct (String.eqb component "STEPPER").
  { cbn [existsb] in A. rewrite orb_false_r in A. split_orb_false A.
    cbv beta zeta delta [stepperCommand]. use_false_tests. reflexivity. }
  destruct (String.eqb component "SYS").
  { cbn [existsb] in A. rewrite orb_false_r in A. split_orb_false A.
    cbv beta zeta delta [sysCommand]. use_false_tests. reflexivity. }
  discriminate K.
Qed.

(** C7 (as stated, refuted). The unknown command [FOO] is answered with the
    error report, and it moves the command clock from 0 to 5000; [WIND FOO],
    an unknown action, draws no report at all. *)
Lemma unknown_command_moves_the_clock :
  lastCommandTime (boot zeroed) = 0
  /\ processCommand 5000 "FOO" (boot zeroed)
     = Ok (say "ERROR: Unknown command." (set_lastCommandTime 5000 (boot zeroed)))
  /\ (exists s', processCommand 5000 "FOO" (boot zeroed) = Ok s'
                 /\ lastCommandTime s' = 5000)
  /\ (exists s', processCommand 5000 "WIND FOO" (boot zeroed) = Ok s'
                 /\ serialOut s' = serialOut (boot zeroed)
                 /\ lastCommandTime s' = 5000).
Proof.
  split; [reflexivity|]. split; [vm_compute; reflexivity|].
  split; eexists; (split; [vm_compute; reflexivity|]); repeat split.
Qed.

(** ** Commands with a missing argument *)


Lemma calcCommand_not_ready action s :
  calc_ready s = false ->
  exists errs,
    errs <> [] /\ forallb is_error errs = true
    /\ calcCommand action s = Ok (set_serialOut (serialOut s ++ errs) s).
Proof.
  unfold calc_ready, calcCommand. intros R.
  destruct (F32.leb (bobbinLength s) (F32.of_Z 0)
            || F32.leb (bobbinWidth s) (F32.of_Z 0)
            || F32.leb (bobbinHeight s) (F32.of_Z 0)) eqn:B.
  - change (wireDiameter (say ?l s)) with (wireDiameter s).
    destruct (F32.leb (wireDiameter s) (F32.of_Z 0)) eqn:W.
    + exists ["ERROR: Bobbin dimensions not set. Use: BOBBIN <L> <W> <H>";
              "ERROR: Wire diameter not set. Use: WIRE_DIA <mm>"]%string.
      split; [discriminate|]. split; [reflexivity|].
      cbn [negb]. unfold say. cbn [serialOut set_serialOut].
      rewrite <- app_assoc. reflexivity.
    + exists ["ERROR: Bobbin dimensions not set. Use: BOBBIN <L> <W> <H>"]%string.
      split; [discriminate|]. split; reflexivity.
  - destruct (F32.leb (wireDiameter s) (F32.of_Z 0)) eqn:W.
    + exists ["ERROR: Wire diameter not set. Use: WIRE_DIA <mm>"]%string.
      split; [discriminate|]. split; reflexivity.
    + discriminate R.
Qed.

Lemma calcCommand_ready action s :
  calc_ready s = true ->
  calcCommand action s
  = match calc_target action with
    | None =>
        Ok (say "ERROR: Invalid CALC format. Use: CALC <value>R or CALC <value>K" s)
    | Some targetResistance =>
        if F32.leb targetResistance (F32.of_Z 0)
        then Ok (say "ERROR: Target resistance must be positive." s)
        else calcCommand action s
    end.
Proof.
  unfold calc_ready. intros R.
  apply andb_prop in R. destruct R as [B W].
  apply negb_true_iff in B. apply negb_true_iff in W.
  cbv beta zeta delta [calcCommand]. rewrite B. cbv beta iota. rewrite W.
  cbv beta iota. cbn [negb]. cbv iota.
  destruct (calc_target action) as [targetResistance|]; [|reflexivity].
  destruct (F32.leb targetResistance (F32.of_Z 0)); reflexivity.
Qed.

(** *** Which lines reach the component blocks

    A line whose first token is one of the seven components is none of the
    lines that [processCommand] recognises as a whole. *)

Lemma append_nil_r (s : string) : (s ++ EmptyString)%string = s.
Proof. induction s as [|c s IH]; cbn; [reflexivity|rewrite IH; reflexivity]. Qed.

Lemma tokens_from_head : forall r cur,
  cur <> EmptyString ->
  exists w rest, CStr.tokens_from cur r = (cur ++ w)%string :: rest.
Proof.
  induction r as [|c r IH]; intros cur NE.
  - cbn [CStr.tokens_from].
    destruct (String.eqb_spec cur EmptyString) as [E|_]; [contradiction|].
    exists EmptyString, []. rewrite append_nil_r. reflexivity.
  - cbn [CStr.tokens_from]. destruct (Ascii.eqb c " ").
    + destruct (String.eqb_spec cur EmptyString) as [E|_]; [contradiction|].
      exists EmptyString. eexists. rewrite append_nil_r. reflexivity.
    + destruct (IH (cur ++ String c EmptyString)%string) as (w & rest & E).
      { destruct cur; discriminate. }
      exists (String c w), rest. rewrite E. f_equal.
      clear. induction cur as [|x cur IH]; cbn; [reflexivity|].
      rewrite IH. reflexivity.
Qed.

Lemma tokens_first_char c r component rest :
  Ascii.eqb c " " = false ->
  CStr.tokens (String c r) = component :: rest ->
  exists w, component = String c w.
Proof.
  intros NS T. unfold CStr.tokens in T. cbn [CStr.tokens_from] in T.
  rewrite NS in T. cbn [append] in T.
  destruct (tokens_from_head r (String c EmptyString)) as (w & rest' & E);
    [discriminate|].
  rewrite E in T. injection T as <- _. exists w. reflexivity.
Qed.

Lemma prefix_first_char c p (s : string) :
  String.prefix (String c p) s = true -> exists r, s = String c r.
Proof.
  intros H. apply String.prefix_correct in H.
  destruct s as [|x r]; [discriminate H|].
  cbn in H. injection H as -> _. exists r. reflexivity.
Qed.

Lemma whole_line_first_token cmd_str component rest :
  CStr.tokens cmd_str = component :: rest ->
  whole_line cmd_str = true ->
  (exists w, component = String "T" w)
  \/ component = "RESTORE_DEFAULTS"%string \/ component = "STATUS"%string.
Proof.
  intros T W. unfold whole_line in W.
  repeat (apply orb_true_iff in W; destruct W as [W|W]).
  - left. destruct (prefix_first_char _ _ _ W) as [r ->].
    exact (tokens_first_char "T" r component rest eq_refl T).
  - left. apply String.eqb_eq in W. subst cmd_str.
    injection T as <- _. eexists. reflexivity.
  - left. destruct (prefix_first_char _ _ _ W) as [r ->].
    exact (tokens_first_char "T" r component rest eq_refl T).
  - right. left. apply String.eqb_eq in W. subst cmd_str.
    injection T as <- _. reflexivity.
  - right. right. apply String.eqb_eq in W. subst cmd_str.
    injection T as <- _. reflexivity.
Qed.

Lemma component_line cmd_str component rest :
  CStr.tokens cmd_str = component :: rest ->
  known_component component = true ->
  whole_line cmd_str = false.
Proof.
  intros T K. destruct (whole_line cmd_str) eqn:W; [|reflexivity].
  destruct (whole_line_first_token _ _ _ T W) as [[w ->]|[->| ->]];
    discriminate K.
Qed.

(** A line with a component for its first token is handled by the block of
    that component. *)
Lemma processCommand_known now cmd_str s component rest :
  CStr.tokens cmd_str = component :: rest ->
  known_component component = true ->
  processCommand now cmd_str s
  = componentCommand component (action_of rest) (args_of rest)
      (set_lastCommandTime now s).
Proof.
  intros T K. apply processCommand_component; [|exact T].
  exact (component_line _ _ _ T K).
Qed.



(** Two commands are left out of the statement above.  [WIND SWEEP] without
    a mode hands a null pointer to [strcmp]. *)
Lemma wind_sweep_without_mode now s :
  processCommand now "WIND SWEEP" s = Fault NullDereference.
Proof. reflexivity. Qed.

(** [WIRE_DIA] without a value: the action has defaulted to ["STATUS"], so
    the test [if (action)] holds, the diameter becomes [atof("STATUS") = 0],
    and the validation replaces it by the default 0.2 mm. *)
Lemma wire_dia_without_value :
  exists s s',
    processCommand 1000 "WIRE_DIA 0.1" (boot zeroed) = Ok s
    /\ turnsPerLayer s = 90
    /\ processCommand 2000 "WIRE_DIA" s = Ok s'
    /\ wireDiameter s' = F32.of_ratio false 2 10
    /\ turnsPerLayer s' = 45.
Proof.
  do 2 eexists.
  split; [vm_compute; reflexivity|]. split; [vm_compute; reflexivity|].
  split; [vm_compute; reflexivity|]. split; vm_compute; reflexivity.
Qed.


(** ** The guide position *)

Lemma SFcompare_refl_finite s m e :
  SFcompare (S754_finite s m e) (S754_finite s m e) = Some Eq.
Proof.
  cbn [SFcompare]. rewrite Z.compare_refl.
  assert (R : Pos.compare_cont Eq m m = Eq) by apply Pos.compare_cont_refl.
  rewrite R. destruct s; reflexivity.
Qed.

Lemma eqb_refl_finite x : F32.is_finite x = true -> F32.eqb x x = true.
Proof.
  destruct x as [b|b| |b m e]; try discriminate; intros _.
  - reflexivity.
  - unfold F32.eqb, SFeqb. rewrite SFcompare_refl_finite. reflexivity.
Qed.

Lemma add_zero_r x b :
  F32.is_finite x = true -> F32.eqb (F32.add x (S754_zero b)) x = true.
Proof.
  destruct x as [bx|bx| |bx m e]; try discriminate; intros _.
  - destruct bx, b; reflexivity.
  - apply eqb_refl_finite. reflexivity.
Qed.

Lemma sub_zero_r x b :
  F32.is_finite x = true -> F32.eqb (F32.sub x (S754_zero b)) x = true.
Proof.
  destruct x as [bx|bx| |bx m e]; try discriminate; intros _.
  - destruct bx, b; reflexivity.
  - apply eqb_refl_finite. reflexivity.
Qed.

Lemma mul_zero_l y :
  F32.is_finite y = true -> exists b, F32.mul (S754_zero false) y = S754_zero b.
Proof.
  destruct y as [b|b| |b m e]; try discriminate; intros _; eexists; reflexivity.
Qed.

Lemma mul_zero_r x :
  F32.is_finite x = true -> exists b, F32.mul x (S754_zero false) = S754_zero b.
Proof.
  destruct x as [b|b| |b m e]; try discriminate; intros _; eexists; reflexivity.
Qed.

Lemma half_of_zero b : exists b', F32.div (S754_zero b) (F32.of_Z 2) = S754_zero b'.
Proof. eexists. reflexivity. Qed.

(** C9. The guide position is not kept within [effectiveMin, effectiveMax],
    although the sweep is meant to run from the one to the other.
    The pattern [WIND PATTERN 0 180 82 0] gives 82 turns per layer between
    0 and 180 degrees without scatter, so the effective maximum is 180;
    after 81 turns (even layer 0, turn 81 of the layer) the position is
    [0 + 81 * (180 / 81)], which in binary32 is the float next above 180.
    The pattern [WIND PATTERN 60 100 40 0] gives 40 turns per layer between
    60 and 100 degrees, so the effective minimum is 60; after 79 turns (odd
    layer 1, turn 39 of the layer) the position is [100 - 39 * (40 / 39)],
    the float next below 60, and the angle written to the servo is 59. *)
Theorem guide_position_leaves_effective_range :
  (exists s s',
     run_commands [(1000, "WIND SWEEP PATTERN"%string);
                   (1001, "WIND PATTERN 0 180 82 0"%string)] (boot zeroed) = Ok s
     /\ patternTurnsPerLayer s = 82
     /\ F32.ltb (patternMinAngle s) (patternMaxAngle s) = true
     /\ patternScatter s = F32.zero
     /\ effectiveMax (patternMinAngle s) (patternMaxAngle s) (patternScatter s)
        = F32.of_Z 180
     /\ updateServoPosition (81 * stepsPerTurn) (patternTurnsPerLayer s)
          (patternMinAngle s) (patternMaxAngle s) (patternScatter s) s = Ok s'
     /\ F32.gtb (servoPos s')
          (effectiveMax (patternMinAngle s) (patternMaxAngle s) (patternScatter s))
        = true
     /\ F32.to_bits (servoPos s') = 0x43340001)
  /\ (exists s s',
        run_commands [(1000, "WIND SWEEP PATTERN"%string);
                      (1001, "WIND PATTERN 60 100 40 0"%string)] (boot zeroed)
        = Ok s
        /\ patternTurnsPerLayer s = 40
        /\ F32.ltb (patternMinAngle s) (patternMaxAngle s) = true
        /\ patternScatter s = F32.zero
        /\ effectiveMin (patternMinAngle s) (patternMaxAngle s) (patternScatter s)
           = F32.of_Z 60
        /\ updateServoPosition (79 * stepsPerTurn) (patternTurnsPerLayer s)
             (patternMinAngle s) (patternMaxAngle s) (patternScatter s) s = Ok s'
        /\ F32.ltb (servoPos s')
             (effectiveMin (patternMinAngle s) (patternMaxAngle s)
                (patternScatter s))
           = true
        /\ F32.to_bits (servoPos s') = 0x426FFFFF
        /\ servoWritten s' = 59).
Proof.
  split.
  - do 2 eexists.
    split; [vm_compute; reflexivity|]. split; [vm_compute; reflexivity|].
    split; [vm_compute; reflexivity|]. split; [vm_compute; reflexivity|].
    split; [vm_compute; reflexivity|]. split; [vm_compute; reflexivity|].
    split; vm_compute; reflexivity.
  - do 2 eexists.
    split; [vm_compute; reflexivity|]. split; [vm_compute; reflexivity|].
    split; [vm_compute; reflexivity|]. split; [vm_compute; reflexivity|].
    split; [vm_compute; reflexivity|]. split; [vm_compute; reflexivity|].
    split; [vm_compute; reflexivity|]. split; vm_compute; reflexivity.
Qed.

(** What does hold of the guide position.  For more than one turn per
    layer, and angles for which the effective bounds and the pitch are
    finite, the position at the first turn of a layer equals (as floats
    compare) the effective minimum on even layers and the effective maximum
    on odd layers; and for a scatter of zero the effective bounds equal the
    nominal minimum and maximum. *)
Lemma guide_position_at_layer_start c N mn mx sc s :
  1 < N ->
  F32.is_finite (effectiveMin mn mx sc) = true ->
  F32.is_finite (effectiveMax mn mx sc) = true ->
  F32.is_finite (pitchAngle N mn mx sc) = true ->
  (exists s',
     updateServoPosition c N mn mx sc s = Ok s'
     /\ servoPos s'
        = (if Z.rem (Z.quot (Z.quot c stepsPerTurn) N) 2 =? 0
           then F32.add (effectiveMin mn mx sc)
                  (F32.mul (F32.of_Z (Z.rem (Z.quot c stepsPerTurn) N))
                     (pitchAngle N mn mx sc))
           else F32.sub (effectiveMax mn mx sc)
                  (F32.mul (F32.of_Z (Z.rem (Z.quot c stepsPerTurn) N))
                     (pitchAngle N mn mx sc)))
     /\ (Z.rem (Z.quot c stepsPerTurn) N = 0 ->
         F32.eqb (servoPos s')
           (if Z.rem (Z.quot (Z.quot c stepsPerTurn) N) 2 =? 0
            then effectiveMin mn mx sc else effectiveMax mn mx sc) = true))
  /\ (sc = F32.zero ->
      F32.is_finite mn = true -> F32.is_finite mx = true ->
      F32.is_finite (F32.sub mx mn) = true ->
      F32.eqb (effectiveMin mn mx sc) mn = true
      /\ F32.eqb (effectiveMax mn mx sc) mx = true).
Proof.
  intros HN Fmin Fmax Fp. split.
  - unfold updateServoPosition.
    destruct (Z.eqb_spec N 0) as [->|_]; [lia|].
    destruct (Z.leb_spec N 1) as [?|_]; [lia|].
    cbv zeta.
    set (layer := Z.quot (Z.quot c stepsPerTurn) N).
    set (turnInLayer := Z.rem (Z.quot c stepsPerTurn) N).
    destruct (Z.rem layer 2 =? 0).
    + eexists. split; [reflexivity|]. split; [reflexivity|].
      intros T0. rewrite T0.
      change (servoPos (layServo_write ?x (set_servoPos ?v s))) with v.
      change (F32.of_Z 0) with (S754_zero false).
      destruct (mul_zero_l _ Fp) as [b ->]. apply add_zero_r. exact Fmin.
    + eexists. split; [reflexivity|]. split; [reflexivity|].
      intros T0. rewrite T0.
      change (servoPos (layServo_write ?x (set_servoPos ?v s))) with v.
      change (F32.of_Z 0) with (S754_zero false).
      destruct (mul_zero_l _ Fp) as [b ->]. apply sub_zero_r. exact Fmax.
  - intros -> Fmn Fmx Fr.
    unfold effectiveMin, effectiveMax, scatterAmount.
    change (F32.div F32.zero (F32.of_Z 100)) with (S754_zero false).
    destruct (mul_zero_r _ Fr) as [b ->].
    destruct (half_of_zero b) as [b' ->].
    split; [apply add_zero_r | apply sub_zero_r]; assumption.
Qed.

Lemma guide_position_at_layer_start_witness :
  exists s',
    updateServoPosition (45 * stepsPerTurn) 45 (F32.of_Z 77) (F32.of_Z 103)
      F32.zero (boot zeroed) = Ok s'
    /\ F32.eqb (servoPos s') (F32.of_Z 103) = true.
Proof.
  destruct (guide_position_at_layer_start (45 * stepsPerTurn) 45
              (F32.of_Z 77) (F32.of_Z 103) F32.zero (boot zeroed)
              eq_refl eq_refl eq_refl eq_refl) as [(s' & E & _ & P) _].
  exists s'. split; [exact E|]. apply P. reflexivity.
Defined.

(** ** Division by zero in the sweep *)

Lemma idle_loops_cos_irrelevant cosf1 cosf2 n t s :
  idle_loops cosf1 n t s = idle_loops cosf2 n t s.
Proof.
  revert s. induction n as [|n IH]; intros s; [reflexivity|].
  cbn [idle_loops]. rewrite (loop_cos_irrelevant cosf1 cosf2).
  destruct (loop cosf2 None t t s); cbn [bind]; auto.
Qed.

Lemma sweepStep_pattern_zero_turns x :
  sweepControlMode x = SWEEP_MODE_PATTERN ->
  patternTurnsPerLayer x = 0 ->
  0 < stepCount x -> Z.rem (stepCount x) stepsPerTurn = 0 ->
  sweepStep x = Fault DivisionByZero.
Proof.
  intros M P G HZ. unfold sweepStep. rewrite HZ, M, P.
  destruct (Z.gtb_spec (stepCount x) 0); [reflexivity | lia].
Qed.

(** One iteration that completes a rotation in PATTERN mode with zero turns
    per layer. *)
Lemma loop_pattern_zero_turns cosf t s :
  sweepControlMode s = SWEEP_MODE_PATTERN ->
  patternTurnsPerLayer s = 0 ->
  running s = true -> outputsEnabled s = true ->
  Mach.ulong32 (t - lastCommandTime s) <= timeoutLimit s ->
  0 <= stepCount s < totalSteps s -> totalSteps s < 2 ^ 31 ->
  Z.rem (stepCount s + 1) stepsPerTurn = 0 ->
  loop cosf None t t s = Fault DivisionByZero.
Proof.
  intros M P R O T C B HZ.
  unfold loop. cbn [bind]. unfold checkTimeout.
  destruct (Z.gtb_spec (Mach.ulong32 (t - lastCommandTime s)) (timeoutLimit s));
    [lia|].
  rewrite R, O. cbn [andb].
  destruct (Z.ltb_spec (stepCount s) (totalSteps s)); [|lia].
  cbv beta iota zeta delta [stepWithAcceleration].
  assert (W : Mach.long32 (stepCount s + 1) = stepCount s + 1).
  { apply wraps_small; lia. }
  match goal with
  | |- bind (sweepStep ?x) _ = _ =>
      rewrite (sweepStep_pattern_zero_turns x); [reflexivity| | | |]
  end.
  - match goal with |- context [if ?c then _ else _] => destruct c end; exact M.
  - match goal with |- context [if ?c then _ else _] => destruct c end; exact P.
  - match goal with |- context [if ?c then _ else _] => destruct c end;
      change (0 < Mach.long32 (stepCount s + 1)); rewrite W; lia.
  - match goal with |- context [if ?c then _ else _] => destruct c end;
      change (Z.rem (Mach.long32 (stepCount s + 1)) stepsPerTurn = 0);
      rewrite W; exact HZ.
Qed.

(** C10. [updateServoPosition] called with zero turns per layer divides by
    zero before it reaches its guard; [patternTurnsPerLayer] is zero at
    power-on and after [setup], and [WIND PATTERN] stores a zero without
    checking it; so a job started in PATTERN mode divides by zero in the
    iteration that completes the first rotation (pulse 3200), with or
    without a [WIND PATTERN] that passes zero turns. *)
Theorem pattern_mode_division_by_zero :
  (forall c mn mx sc s, updateServoPosition c 0 mn mx sc s = Fault DivisionByZero)
  /\ (forall rom, patternTurnsPerLayer (power_on rom) = 0)
  /\ patternTurnsPerLayer (boot zeroed) = 0
  /\ (forall now s, exists s',
        processCommand now "WIND PATTERN 70 100 0 0" s = Ok s'
        /\ patternTurnsPerLayer s' = 0)
  /\ (forall cosf, exists s1 s2,
        run_commands [(1000, "WIND SWEEP PATTERN"%string);
                      (1001, "WIND COUNT 2"%string);
                      (1002, "WIND START"%string)] (boot zeroed) = Ok s1
        /\ idle_loops cosf 3199 2000 s1 = Ok s2
        /\ stepCount s2 = 3199 /\ running s2 = true
        /\ loop cosf None 2000 2000 s2 = Fault DivisionByZero)
  /\ (forall cosf, exists s1 s2,
        run_commands [(1000, "WIND SWEEP PATTERN"%string);
                      (1001, "WIND PATTERN 70 100 0 0"%string);
                      (1002, "WIND COUNT 2"%string);
                      (1003, "WIND START"%string)] (boot zeroed) = Ok s1
        /\ idle_loops cosf 3199 2000 s1 = Ok s2
        /\ loop cosf None 2000 2000 s2 = Fault DivisionByZero)
  /\ (forall cosf t s,
        sweepControlMode s = SWEEP_MODE_PATTERN ->
        patternTurnsPerLayer s = 0 ->
        running s = true -> outputsEnabled s = true ->
        Mach.ulong32 (t - lastCommandTime s) <= timeoutLimit s ->
        0 <= stepCount s < totalSteps s -> totalSteps s < 2 ^ 31 ->
        Z.rem (stepCount s + 1) stepsPerTurn = 0 ->
        loop cosf None t t s = Fault DivisionByZero).
Proof.
  split; [reflexivity|]. split; [reflexivity|]. split; [reflexivity|].
  split.
  { intros now s. eexists. split; reflexivity. }
  split; [|split; [|exact loop_pattern_zero_turns]].
  - intros cosf. do 2 eexists.
    split; [vm_compute; reflexivity|].
    rewrite (idle_loops_cos_irrelevant cosf any_cos).
    rewrite (loop_cos_irrelevant cosf any_cos).
    split; [vm_compute; reflexivity|].
    split; [vm_compute; reflexivity|].
    split; vm_compute; reflexivity.
  - intros cosf. do 2 eexists.
    split; [vm_compute; reflexivity|].
    rewrite (idle_loops_cos_irrelevant cosf any_cos).
    rewrite (loop_cos_irrelevant cosf any_cos).
    split; [vm_compute; reflexivity|].
    vm_compute; reflexivity.
Qed.

Lemma pattern_mode_division_by_zero_witness :
  exists s,
    run_commands [(1000, "WIND SWEEP PATTERN"%string);
                  (1001, "WIND COUNT 2"%string);
                  (1002, "WIND START"%string)] (boot zeroed) = Ok s
    /\ loop any_cos None 2000 2000 (set_stepCount 6399 s)
       = Fault DivisionByZero.
Proof.
  eexists. split; [vm_compute; reflexivity|].
  apply (proj2 (proj2 (proj2 (proj2 (proj2 (proj2
           pattern_mode_division_by_zero)))))).
  - reflexivity.
  - reflexivity.
  - reflexivity.
  - reflexivity.
  - vm_compute. discriminate.
  - split; [vm_compute; discriminate | reflexivity].
  - reflexivity.
  - reflexivity.
Defined.

(** The same happens in FIRMWARE mode once [turnsPerLayer] is zero. *)
Example firmware_mode_division_by_zero :
  exists s1 s2,
    run_commands [(1000, "BOBBIN 60 4 1"%string); (1001, "WIRE_DIA 2"%string);
                  (1002, "WIND COUNT 2"%string); (1003, "WIND START"%string)]
      (boot zeroed) = Ok s1
    /\ turnsPerLayer s1 = 0
    /\ idle_loops any_cos 3199 2000 s1 = Ok s2
    /\ loop any_cos None 2000 2000 s2 = Fault DivisionByZero.
Proof.
  do 2 eexists.
  split; [vm_compute; reflexivity|]. split; [vm_compute; reflexivity|].
  split; [vm_compute; reflexivity|]. vm_compute; reflexivity.
Qed.

(** ** The acceleration profile

    Whatever the cosine returns, the delay that [stepWithAcceleration] uses
    for a pulse is not below [minStepDelay], and each call counts one
    pulse. *)
Lemma stepWithAcceleration_delay_floor cosf s :
  minStepDelay s <= fst (stepWithAcceleration cosf s).
Proof.
  unfold stepWithAcceleration. cbv zeta. cbn [fst].
  match goal with
  | |- _ <= (if ?d <? _ then _ else _) => destruct (Z.ltb_spec d (minStepDelay s))
  end; lia.
Qed.

Lemma stepWithAcceleration_counts cosf s :
  stepCount (snd (stepWithAcceleration cosf s)) = Mach.long32 (stepCount s + 1)
  /\ stepPulses (snd (stepWithAcceleration cosf s)) = stepPulses s + 1.
Proof. split; reflexivity. Qed.

(** ** Rounding of binary32 operations

    [binary_round_aux] rounds to nearest, ties to even; the operations the
    ramp uses are characterised through it, which makes each of them
    monotone. *)

Import Rnd.

Lemma grid_pos e : -1000 <= e -> 0 < grid e.
Proof. intros H. unfold grid, scale. apply Z.pow_pos_nonneg; lia. Qed.

Lemma grid_succ e : -1000 <= e -> grid (e + 1) = 2 * grid e.
Proof.
  intros H. unfold grid, scale.
  replace (e + 1 + 1000) with (Z.succ (e + 1000)) by lia.
  apply Z.pow_succ_r. lia.
Qed.

Lemma grid_add e n : -1000 <= e -> 0 <= n -> grid (e + n) = grid e * 2 ^ n.
Proof.
  intros H Hn. unfold grid, scale.
  replace (e + n + 1000) with (e + 1000 + n) by lia.
  apply Z.pow_add_r; lia.
Qed.

Lemma grid_le e1 e2 : -1000 <= e1 <= e2 -> grid e1 <= grid e2.
Proof. intros H. unfold grid, scale. apply Z.pow_le_mono_r; lia. Qed.

Lemma grid_lt e1 e2 : -1000 <= e1 < e2 -> grid e1 < grid e2.
Proof. intros H. unfold grid, scale. apply Z.pow_lt_mono_r; lia. Qed.

Lemma digits2_pos_bounds p :
  2 ^ (Zpos (digits2_pos p) - 1) <= Zpos p < 2 ^ Zpos (digits2_pos p).
Proof.
  induction p as [p IH|p IH|]; cbn [digits2_pos].
  - rewrite Pos2Z.inj_succ.
    replace (Z.succ (Zpos (digits2_pos p)) - 1) with (Z.succ (Zpos (digits2_pos p) - 1)) by lia.
    rewrite !Z.pow_succ_r by lia. lia.
  - rewrite Pos2Z.inj_succ.
    replace (Z.succ (Zpos (digits2_pos p)) - 1) with (Z.succ (Zpos (digits2_pos p) - 1)) by lia.
    rewrite !Z.pow_succ_r by lia. lia.
  - cbn. lia.
Qed.

(** The number of digits is determined by the binade. *)
Lemma digits_unique m d :
  0 < d -> 2 ^ (d - 1) <= m < 2 ^ d -> Zdigits2 m = d.
Proof.
  intros Hd H. destruct m as [|p|p]; try (assert (0 < 2 ^ (d - 1)) by (apply Z.pow_pos_nonneg; lia); lia).
  cbn [Zdigits2]. pose proof (digits2_pos_bounds p) as B.
  set (k := Zpos (digits2_pos p)) in *.
  assert (0 < k) by (unfold k; lia).
  destruct (Z.lt_trichotomy k d) as [L|[E|G]]; [|exact E|].
  - assert (2 ^ k <= 2 ^ (d - 1)) by (apply Z.pow_le_mono_r; lia). lia.
  - assert (2 ^ d <= 2 ^ (k - 1)) by (apply Z.pow_le_mono_r; lia). lia.
Qed.

(** *** Shifting right *)

Lemma shr_1_spec mrs :
  0 <= shr_m mrs ->
  shr_1 mrs = Build_shr_record (shr_m mrs / 2) (Z.odd (shr_m mrs))
                (shr_r mrs || shr_s mrs).
Proof.
  destruct mrs as [m r s]. cbn [shr_m shr_r shr_s]. intros Hm.
  destruct m as [|[p|p|]|p]; try lia; cbn [shr_1].
  - reflexivity.
  - f_equal. rewrite Pos2Z.inj_xI. apply Z.div_unique with (r := 1); lia.
  - f_equal. rewrite (Pos2Z.inj_xO p). apply Z.div_unique with (r := 0); lia.
  - reflexivity.
Qed.

Lemma located_shr_1 A G mrs :
  located A G mrs -> located A (2 * G) (shr_1 mrs).
Proof.
  intros (Hm & HG & H). rewrite shr_1_spec by exact Hm.
  destruct mrs as [m r s]. cbn [shr_m shr_r shr_s] in *.
  pose proof (Z.div_mod m 2 ltac:(lia)) as DM.
  pose proof (Z.mod_pos_bound m 2 ltac:(lia)) as MB.
  assert (OD : Z.odd m = true -> m mod 2 = 1).
  { intros O. rewrite Zmod_odd, O. reflexivity. }
  assert (EV : Z.odd m = false -> m mod 2 = 0).
  { intros O. rewrite Zmod_odd, O. reflexivity. }
  set (q := m / 2) in *.
  unfold located. cbn [shr_m shr_r shr_s].
  split; [unfold q; apply Z.div_pos; lia|]. split; [lia|].
  destruct (Z.odd m) eqn:O; [specialize (OD eq_refl)|specialize (EV eq_refl)];
    destruct r, s; cbn [orb]; nia.
Qed.

Lemma iter_pos_shr_1 p A G mrs :
  located A G mrs -> located A (G * 2 ^ Zpos p) (iter_pos shr_1 p mrs).
Proof.
  revert A G mrs. induction p as [p IH|p IH|]; intros A G mrs H; cbn [iter_pos].
  - apply located_shr_1 in H. apply IH in H. apply IH in H.
    replace (G * 2 ^ Zpos p~1) with (2 * G * 2 ^ Zpos p * 2 ^ Zpos p); [exact H|].
    rewrite (Pos2Z.inj_xI p). rewrite Z.pow_add_r, Z.pow_mul_r by lia.
    change (2 ^ 2) with 4. rewrite Z.pow_1_r.
    replace (4 ^ Zpos p) with (2 ^ Zpos p * 2 ^ Zpos p).
    + ring.
    + rewrite <- Z.pow_mul_l. reflexivity.
  - apply IH in H. apply IH in H.
    replace (G * 2 ^ Zpos p~0) with (G * 2 ^ Zpos p * 2 ^ Zpos p); [exact H|].
    rewrite (Pos2Z.inj_xO p). rewrite Z.pow_mul_r by lia.
    change (2 ^ 2) with 4.
    replace (4 ^ Zpos p) with (2 ^ Zpos p * 2 ^ Zpos p).
    + ring.
    + rewrite <- Z.pow_mul_l. reflexivity.
  - apply located_shr_1 in H. rewrite Z.pow_1_r.
    replace (G * 2) with (2 * G) by ring. exact H.
Qed.

Lemma shr_m_iter p mrs :
  0 <= shr_m mrs -> shr_m (iter_pos shr_1 p mrs) = shr_m mrs / 2 ^ Zpos p.
Proof.
  revert mrs. induction p as [p IH|p IH|]; intros mrs H; cbn [iter_pos].
  - assert (H1 : 0 <= shr_m (shr_1 mrs)).
    { rewrite shr_1_spec by exact H. cbn. apply Z.div_pos; lia. }
    assert (H2 : 0 <= shr_m (iter_pos shr_1 p (shr_1 mrs))).
    { rewrite IH by exact H1. apply Z.div_pos; [exact H1|]. apply Z.pow_pos_nonneg; lia. }
    rewrite IH by exact H2. rewrite IH by exact H1.
    rewrite shr_1_spec by exact H. cbn [shr_m].
    rewrite !Z.div_div by (try apply Z.pow_pos_nonneg; lia).
    f_equal. rewrite (Pos2Z.inj_xI p), Z.pow_add_r, Z.pow_mul_r by lia.
    change (2 ^ 2) with 4. rewrite Z.pow_1_r.
    replace (4 ^ Zpos p) with (2 ^ Zpos p * 2 ^ Zpos p) by (rewrite <- Z.pow_mul_l; reflexivity).
    ring.
  - assert (H2 : 0 <= shr_m (iter_pos shr_1 p mrs)).
    { rewrite IH by exact H. apply Z.div_pos; [exact H|]. apply Z.pow_pos_nonneg; lia. }
    rewrite IH by exact H2. rewrite IH by exact H.
    rewrite !Z.div_div by (try apply Z.pow_pos_nonneg; lia).
    f_equal. rewrite (Pos2Z.inj_xO p), Z.pow_mul_r by lia.
    change (2 ^ 2) with 4.
    replace (4 ^ Zpos p) with (2 ^ Zpos p * 2 ^ Zpos p) by (rewrite <- Z.pow_mul_l; reflexivity).
    ring.
  - rewrite shr_1_spec by exact H. cbn [shr_m]. rewrite Z.pow_1_r. reflexivity.
Qed.


Lemma fexp32_eq d : fexp32 d = Z.max (d - 24) (-149).
Proof. reflexivity. Qed.

(** What a located fraction says about its integer part. *)
Lemma located_bounds A G mrs :
  located A G mrs -> shr_m mrs * G <= A < (shr_m mrs + 1) * G.
Proof.
  intros (Hm & HG & H). destruct (shr_r mrs), (shr_s mrs); nia.
Qed.

Lemma located_of_loc_m m l : shr_m (shr_record_of_loc m l) = m.
Proof. destruct l as [|[| |]]; reflexivity. Qed.

Lemma loc_of_shr_of_loc m l : loc_of_shr_record (shr_record_of_loc m l) = l.
Proof. destruct l as [|[| |]]; reflexivity. Qed.

(** The binade of a located fraction with a positive integer part. *)
Lemma located_binade N D e mrs :
  -1000 <= e -> 0 < D -> 0 < shr_m mrs ->
  located N (D * grid e) mrs ->
  grid (Zdigits2 (shr_m mrs) + e - 1) * D <= N
  < grid (Zdigits2 (shr_m mrs) + e) * D.
Proof.
  intros He HD Hm L. pose proof (located_bounds _ _ _ L) as B.
  destruct (shr_m mrs) as [|p|p] eqn:M; try lia.
  cbn [Zdigits2]. pose proof (digits2_pos_bounds p) as P.
  set (k := Zpos (digits2_pos p)) in *.
  assert (0 < k) by (unfold k; lia).
  pose proof (grid_pos e He) as G0.
  replace (k + e - 1) with (e + (k - 1)) by lia.
  replace (k + e) with (e + k) by lia.
  rewrite !grid_add by lia. nia.
Qed.

(** The first truncation brings a fraction to its canonical grid. *)
Lemma shr_fexp_located N D m e l :
  -1000 <= e -> 0 < D -> 0 < m ->
  located N (D * grid e) (shr_record_of_loc m l) ->
  e <= fexp32 (Zdigits2 m + e) ->
  exists mrs,
    shr_fexp F32.prec F32.emax m e l = (mrs, fexp32 (Zdigits2 m + e))
    /\ located N (D * grid (fexp32 (Zdigits2 m + e))) mrs.
Proof.
  intros He HD Hm L HE. unfold shr_fexp, shr.
  set (E := fexp32 (Zdigits2 m + e)) in *.
  destruct (E - e) as [|p|p] eqn:Hn; try lia.
  - exists (shr_record_of_loc m l). replace E with e by lia. split; [reflexivity|exact L].
  - exists (iter_pos shr_1 p (shr_record_of_loc m l)).
    split; [f_equal; lia|].
    replace E with (e + Zpos p) by lia. rewrite grid_add by lia.
    rewrite Z.mul_assoc. apply iter_pos_shr_1. exact L.
Qed.

(** The mantissa on the canonical grid has at most 24 digits, and exactly
    24 above the subnormal range. *)
Lemma canonical_mantissa_bounds N D d mrs :
  0 < D -> -400 <= d <= 127 ->
  grid (d - 1) * D <= N < grid d * D ->
  located N (D * grid (fexp32 d)) mrs ->
  shr_m mrs < 2 ^ 24 /\ (-149 < d - 24 -> 2 ^ 23 <= shr_m mrs).
Proof.
  intros HD Hd B L. pose proof (located_bounds _ _ _ L) as LB.
  destruct L as (Hm & HG & _).
  rewrite fexp32_eq in *.
  destruct (Z.max_spec (d - 24) (-149)) as [[C Hmax]|[C Hmax]];
    rewrite Hmax in *; clear Hmax.
  - (* subnormal grid *)
    split; [|lia].
    assert (grid d <= grid (-149 + 24)) by (apply grid_le; lia).
    rewrite (grid_add (-149) 24) in H by lia.
    pose proof (grid_pos (-149) ltac:(lia)).
    change (2 ^ 24) with 16777216 in *. nia.
  - pose proof (grid_pos (d - 24) ltac:(lia)) as G0.
    replace d with (d - 24 + 24) in B at 2 by lia.
    replace (d - 1) with (d - 24 + 23) in B by lia.
    rewrite !grid_add in B by lia.
    change (2 ^ 24) with 16777216 in *. change (2 ^ 23) with 8388608 in *.
    split; [nia|]. intros _. nia.
Qed.

Lemma round_nearest_even_bounds m l :
  m <= round_nearest_even m l <= m + 1.
Proof.
  destruct l as [|[| |]]; cbn [round_nearest_even]; try lia.
  destruct (Z.even m); lia.
Qed.

(** The second truncation and the final test, for a mantissa already on
    its canonical grid. *)
Lemma finish_spec E m2 :
  -149 <= E <= 103 ->
  0 <= m2 <= 2 ^ 24 ->
  (-149 < E -> m2 = 0 \/ 2 ^ 23 <= m2) ->
  (let '(mrs, e) := shr_fexp F32.prec F32.emax m2 E loc_Exact in
   match shr_m mrs with
   | Z0 => S754_zero false
   | Zpos m => if e <=? F32.emax - F32.prec then S754_finite false m e
               else S754_infinity false
   | Zneg _ => S754_nan
   end) = finish E m2.
Proof.
  intros HE Hm HN. unfold shr_fexp, shr. cbn [shr_record_of_loc].
  destruct m2 as [|p|p]; try lia.
  - cbn [Zdigits2]. rewrite fexp32_eq.
    destruct (Z.max (0 + E - 24) (-149) - E) as [|q|q] eqn:Hn; try lia; reflexivity.
  - cbn [Zdigits2]. pose proof (digits2_pos_bounds p) as P.
    set (k := Zpos (digits2_pos p)) in *.
    assert (0 < k) by (unfold k; lia).
    rewrite fexp32_eq. unfold finish.
    destruct (Z.ltb_spec (Zpos p) (2 ^ 24)) as [Lt|Ge].
    + assert (k <= 24).
      { destruct (Z_le_gt_dec k 24); [assumption|].
        assert (2 ^ 24 <= 2 ^ (k - 1)) by (apply Z.pow_le_mono_r; lia). lia. }
      assert (k = 24 \/ E = -149).
      { destruct (Z.eq_dec E (-149)); [right; assumption|left].
        destruct (HN ltac:(lia)) as [?|?]; [lia|].
        destruct (Z_le_gt_dec 24 k); [lia|].
        assert (2 ^ k <= 2 ^ 23) by (apply Z.pow_le_mono_r; lia). lia. }
      destruct (Z.max (k + E - 24) (-149) - E) as [|q|q] eqn:Hn; try lia;
        cbn [shr_m]; unfold F32.emax, F32.prec;
        destruct (Z.leb_spec E (128 - 24)); try lia; reflexivity.
    + assert (Zpos p = 2 ^ 24) by lia.
      assert (k = 25).
      { unfold k. change (Zpos (digits2_pos p)) with (Zdigits2 (Zpos p)).
        apply digits_unique; [lia|]. rewrite H0. cbn. lia. }
      rewrite H1.
      replace (Z.max (25 + E - 24) (-149) - E) with 1 by lia.
      cbn [iter_pos]. rewrite shr_1_spec by (cbn; lia). cbn [shr_m].
      rewrite H0. change (2 ^ 24 / 2) with (Zpos (2 ^ 23)).
      unfold F32.emax, F32.prec.
      destruct (Z.leb_spec (E + 1) (128 - 24)); try lia. reflexivity.
Qed.

(** [binary_round_aux] rounds to nearest, ties to even. *)
Lemma bra32_rounds_pos N D m e l :
  -400 <= e -> 0 < D -> 0 < m ->
  Zdigits2 m + e <= 127 ->
  located N (D * grid e) (shr_record_of_loc m l) ->
  e <= fexp32 (Zdigits2 m + e) ->
  rounds_pos N D (bra32 false m e l).
Proof.
  intros He HD Hm Hd L HE.
  destruct (shr_fexp_located N D m e l ltac:(lia) HD Hm L HE) as (mrs & S1 & L1).
  set (d := Zdigits2 m + e) in *.
  assert (Hd0 : -400 <= d).
  { unfold d. destruct m; cbn [Zdigits2]; lia. }
  assert (B : grid (d - 1) * D <= N < grid d * D).
  { pose proof (located_binade N D e _ ltac:(lia) HD
                  ltac:(rewrite located_of_loc_m; exact Hm) L) as B.
    rewrite located_of_loc_m in B. exact B. }
  destruct (canonical_mantissa_bounds N D d mrs HD ltac:(lia) B L1) as (U & Lo).
  pose proof (round_nearest_even_bounds (shr_m mrs) (loc_of_shr_record mrs)) as RB.
  exists d, mrs. split; [exact HD|]. split; [lia|]. split; [exact B|].
  split; [exact L1|].
  unfold binary_round_aux. rewrite S1.
  destruct L1 as (M0 & _ & _).
  apply finish_spec.
  - rewrite fexp32_eq. lia.
  - lia.
  - intros HEE. rewrite fexp32_eq in HEE. right.
    assert (2 ^ 23 <= shr_m mrs) by (apply Lo; lia). lia.
Qed.

Lemma value_finish E m2 :
  -1000 <= E -> 0 <= m2 <= 2 ^ 24 -> value (finish E m2) = m2 * grid E.
Proof.
  intros HE Hm. unfold finish. destruct m2 as [|p|p]; try lia.
  - reflexivity.
  - destruct (Z.ltb_spec (Zpos p) (2 ^ 24)).
    + reflexivity.
    + cbn [value]. rewrite grid_succ by lia.
      replace (Zpos p) with (2 ^ 24) by lia.
      change (2 ^ 24) with (Zpos (2 ^ 23) * 2). ring.
Qed.

Lemma canon_finish E m2 :
  -149 <= E <= 103 -> 0 <= m2 <= 2 ^ 24 ->
  (-149 < E -> m2 = 0 \/ 2 ^ 23 <= m2) ->
  canon (finish E m2).
Proof.
  intros HE Hm HN. unfold finish. destruct m2 as [|p|p]; try lia.
  - exact I.
  - destruct (Z.ltb_spec (Zpos p) (2 ^ 24)); cbn [canon].
    + split; [lia|]. split; [assumption|]. intros HH.
      destruct (HN HH); [lia|assumption].
    + split; [lia|]. split; [reflexivity|]. intros _. reflexivity.
Qed.

Lemma located_scale A G mrs c :
  0 < c -> located A G mrs -> located (A * c) (G * c) mrs.
Proof.
  intros Hc (Hm & HG & H). split; [exact Hm|]. split; [nia|].
  destruct (shr_r mrs), (shr_s mrs).
  - destruct H as [H1 H2]. split.
    + replace ((2 * shr_m mrs + 1) * (G * c)) with ((2 * shr_m mrs + 1) * G * c) by ring.
      replace (2 * (A * c)) with (2 * A * c) by ring.
      apply Z.mul_lt_mono_pos_r; assumption.
    + replace ((shr_m mrs + 1) * (G * c)) with ((shr_m mrs + 1) * G * c) by ring.
      apply Z.mul_lt_mono_pos_r; assumption.
  - replace ((2 * shr_m mrs + 1) * (G * c)) with ((2 * shr_m mrs + 1) * G * c) by ring.
    replace (2 * (A * c)) with (2 * A * c) by ring. rewrite H. reflexivity.
  - destruct H as [H1 H2]. split.
    + replace (shr_m mrs * (G * c)) with (shr_m mrs * G * c) by ring.
      apply Z.mul_lt_mono_pos_r; assumption.
    + replace ((2 * shr_m mrs + 1) * (G * c)) with ((2 * shr_m mrs + 1) * G * c) by ring.
      replace (2 * (A * c)) with (2 * A * c) by ring.
      apply Z.mul_lt_mono_pos_r; assumption.
  - rewrite H. ring.
Qed.

(** Rounding to nearest even is monotone on a common grid. *)
Lemma round_nearest_even_mono a a' K mrs mrs' :
  located a K mrs -> located a' K mrs' -> a <= a' ->
  round_nearest_even (shr_m mrs) (loc_of_shr_record mrs)
  <= round_nearest_even (shr_m mrs') (loc_of_shr_record mrs').
Proof.
  intros L L' Ha.
  pose proof (located_bounds _ _ _ L) as B.
  pose proof (located_bounds _ _ _ L') as B'.
  pose proof (round_nearest_even_bounds (shr_m mrs) (loc_of_shr_record mrs)) as R.
  pose proof (round_nearest_even_bounds (shr_m mrs') (loc_of_shr_record mrs')) as R'.
  destruct L as (Hm & HK & H), L' as (Hm' & _ & H').
  assert (shr_m mrs <= shr_m mrs') by nia.
  destruct (Z.eq_dec (shr_m mrs) (shr_m mrs')) as [Q|Q]; [|lia].
  clear R R'. destruct mrs as [m r s], mrs' as [m' r' s'].
  cbn [shr_m shr_r shr_s] in *. subst m'.
  set (mK := m * K) in *.
  assert (EK : (2 * m + 1) * K = 2 * mK + K) by (unfold mK; ring).
  assert (EK1 : (m + 1) * K = mK + K) by (unfold mK; ring).
  rewrite ?EK, ?EK1 in *.
  destruct r, s, r', s'; cbn [loc_of_shr_record round_nearest_even];
    try lia; destruct (Z.even m); lia.
Qed.

Lemma rounds_pos_positive N D x : rounds_pos N D x -> 0 < N /\ 0 < D.
Proof.
  intros (d & mrs & HD & Hd & B & _).
  pose proof (grid_pos (d - 1) ltac:(lia)). split; [nia|assumption].
Qed.

(** The facts a rounding carries. *)
Lemma rounds_pos_facts N D x :
  rounds_pos N D x ->
  exists d mrs m2,
    0 < D /\ -400 <= d <= 127
    /\ grid (d - 1) * D <= N < grid d * D
    /\ located N (D * grid (fexp32 d)) mrs
    /\ shr_m mrs <= m2 <= shr_m mrs + 1
    /\ m2 = round_nearest_even (shr_m mrs) (loc_of_shr_record mrs)
    /\ 0 <= shr_m mrs < 2 ^ 24
    /\ (-149 < d - 24 -> 2 ^ 23 <= shr_m mrs)
    /\ x = finish (fexp32 d) m2
    /\ value x = m2 * grid (fexp32 d)
    /\ canon x.
Proof.
  intros (d & mrs & HD & Hd & B & L & X).
  destruct (canonical_mantissa_bounds N D d mrs HD Hd B L) as (U & Lo).
  pose proof (round_nearest_even_bounds (shr_m mrs) (loc_of_shr_record mrs)) as RB.
  assert (M0 : 0 <= shr_m mrs) by (destruct L as (M0 & _); exact M0).
  exists d, mrs, (round_nearest_even (shr_m mrs) (loc_of_shr_record mrs)).
  repeat (split; [first [assumption | lia | reflexivity]|]).
  pose proof (fexp32_eq d) as FE.
  split.
  - rewrite X. apply value_finish; lia.
  - rewrite X. apply canon_finish; lia.
Qed.

(** Rounding is monotone. *)
Lemma rounds_pos_mono N D x N' D' x' :
  rounds_pos N D x -> rounds_pos N' D' x' ->
  N * D' <= N' * D -> value x <= value x'.
Proof.
  intros R R' Le.
  destruct (rounds_pos_facts _ _ _ R)
    as (d & mrs & m2 & HD & Hd & B & L & RB & M2 & U & Lo & _ & V & _).
  destruct (rounds_pos_facts _ _ _ R')
    as (d' & mrs' & m2' & HD' & Hd' & B' & L' & RB' & M2' & U' & Lo' & _ & V' & _).
  rewrite V, V'.
  pose proof (fexp32_eq d) as FE. pose proof (fexp32_eq d') as FE'.
  set (E := fexp32 d) in *. set (E' := fexp32 d') in *.
  pose proof (grid_pos E ltac:(lia)) as GE.
  pose proof (grid_pos E' ltac:(lia)) as GE'.
  destruct (Z.lt_trichotomy E E') as [Lt|[Eq|Gt]].
  - (* a lower binade *)
    assert (2 ^ 23 <= shr_m mrs') by (apply Lo'; lia).
    assert (G : grid (E + 24) <= grid (E' + 23)) by (apply grid_le; lia).
    rewrite !grid_add in G by lia.
    change (2 ^ 24) with 16777216 in *. change (2 ^ 23) with 8388608 in *.
    nia.
  - (* the same grid *)
    rewrite <- Eq in *.
    apply Z.mul_le_mono_nonneg_r; [lia|].
    rewrite M2, M2'.
    apply (round_nearest_even_mono (N * D') (N' * D) (D * grid E * D')).
    + apply located_scale; assumption.
    + replace (D * grid E * D') with (D' * grid E * D) by ring.
      apply located_scale; assumption.
    + exact Le.
  - (* a higher binade: impossible *)
    exfalso.
    assert (d' <= d - 1) by lia.
    assert (G : grid d' <= grid (d - 1)) by (apply grid_le; lia).
    pose proof (grid_pos d' ltac:(lia)).
    assert (N' * D < grid d' * D' * D) by (apply Z.mul_lt_mono_pos_r; lia).
    assert (grid (d - 1) * D * D' <= N * D') by (apply Z.mul_le_mono_nonneg_r; lia).
    assert (grid d' * D' * D <= grid (d - 1) * D * D').
    { replace (grid d' * D' * D) with (grid d' * (D * D')) by ring.
      replace (grid (d - 1) * D * D') with (grid (d - 1) * (D * D')) by ring.
      apply Z.mul_le_mono_nonneg_r; nia. }
    lia.
Qed.

Lemma rounds_to_canon N D x : rounds_to N D x -> canon x.
Proof.
  intros [(_ & _ & ->)|R]; [exact I|].
  destruct (rounds_pos_facts _ _ _ R)
    as (d & mrs & m2 & _ & _ & _ & _ & _ & _ & _ & _ & _ & _ & C).
  exact C.
Qed.

Lemma canon_value_nonneg x : canon x -> 0 <= value x.
Proof.
  destruct x as [[|]| | |[|] p E]; cbn [canon value]; try lia; try tauto.
  intros (HE & _). pose proof (grid_pos E ltac:(lia)). nia.
Qed.

Lemma rounds_to_mono N D x N' D' x' :
  rounds_to N D x -> rounds_to N' D' x' ->
  N * D' <= N' * D -> value x <= value x'.
Proof.
  intros R R' Le. pose proof (rounds_to_canon _ _ _ R') as C'.
  destruct R as [(-> & HD & ->)|R].
  - cbn [value]. apply canon_value_nonneg. exact C'.
  - destruct R' as [(-> & HD' & ->)|R'].
    + destruct (rounds_pos_positive _ _ _ R). nia.
    + eapply rounds_pos_mono; eassumption.
Qed.

(** Canonical floats are ordered by exponent first. *)
Lemma canon_exponent_lt p E p' E' :
  -149 <= E -> Zpos p < 2 ^ 24 -> E < E' -> 2 ^ 23 <= Zpos p' ->
  Zpos p * grid E < Zpos p' * grid E'.
Proof.
  intros HE Hp Lt Hp'.
  assert (G : grid (E + 24) <= grid (E' + 23)) by (apply grid_le; lia).
  rewrite !grid_add in G by lia.
  pose proof (grid_pos E ltac:(lia)). pose proof (grid_pos E' ltac:(lia)).
  change (2 ^ 24) with 16777216 in *. change (2 ^ 23) with 8388608 in *.
  nia.
Qed.

Lemma canon_value_inj x x' : canon x -> canon x' -> value x = value x' -> x = x'.
Proof.
  destruct x as [[|]| | |[|] p E]; cbn [canon]; try tauto;
    destruct x' as [[|]| | |[|] p' E']; cbn [canon]; try tauto; cbn [value].
  - intros _ (HE & _) V. pose proof (grid_pos E' ltac:(lia)). nia.
  - intros (HE & _) _ V. pose proof (grid_pos E ltac:(lia)). nia.
  - intros (HE & Hp & Hn) (HE' & Hp' & Hn') V.
    destruct (Z.lt_trichotomy E E') as [Lt|[Eq|Gt]].
    + pose proof (canon_exponent_lt p E p' E' ltac:(lia) Hp Lt ltac:(apply Hn'; lia)). lia.
    + subst E'. pose proof (grid_pos E ltac:(lia)).
      assert (Zpos p = Zpos p') by nia. congruence.
    + pose proof (canon_exponent_lt p' E' p E ltac:(lia) Hp' Gt ltac:(apply Hn; lia)). lia.
Qed.

(** A value has one rounding. *)
Lemma rounds_to_unique N D x N' D' x' :
  rounds_to N D x -> rounds_to N' D' x' -> N * D' = N' * D -> x = x'.
Proof.
  intros R R' Q. apply canon_value_inj.
  - eapply rounds_to_canon; eassumption.
  - eapply rounds_to_canon; eassumption.
  - apply Z.le_antisymm; eapply rounds_to_mono; try eassumption; lia.
Qed.

(** A canonical float below [2 ^ 127] is the rounding of its own value. *)
Lemma rounds_to_exact x :
  canon x -> value x < grid 127 -> rounds_to (value x) 1 x.
Proof.
  destruct x as [[|]| | |[|] p E]; cbn [canon]; try tauto.
  - intros _ _. left. split; [reflexivity|]. split; [lia|reflexivity].
  - intros (HE & Hp & Hn) Small. right. cbn [value] in *.
    pose proof (digits2_pos_bounds p) as P.
    set (k := Zpos (digits2_pos p)) in *.
    assert (0 < k) by (unfold k; lia).
    assert (k <= 24).
    { destruct (Z_le_gt_dec k 24); [assumption|].
      assert (2 ^ 24 <= 2 ^ (k - 1)) by (apply Z.pow_le_mono_r; lia). lia. }
    assert (K : k = 24 \/ E = -149).
    { destruct (Z.eq_dec E (-149)); [right; assumption|left].
      assert (2 ^ 23 <= Zpos p) by (apply Hn; lia).
      destruct (Z_le_gt_dec 24 k); [lia|].
      assert (2 ^ k <= 2 ^ 23) by (apply Z.pow_le_mono_r; lia). lia. }
    assert (FE : fexp32 (k + E) = E).
    { rewrite fexp32_eq. clear P Hp Hn. clearbody k. lia. }
    pose proof (grid_pos E ltac:(lia)) as G0.
    assert (k + E <= 127).
    { destruct (Z_le_gt_dec (k + E) 127); [assumption|exfalso].
      assert (G : grid 127 <= grid (E + (k - 1))) by (apply grid_le; lia).
      rewrite grid_add in G by lia. nia. }
    exists (k + E), (Build_shr_record (Zpos p) false false).
    split; [lia|]. split; [lia|]. split.
    { replace (k + E - 1) with (E + (k - 1)) by lia.
      replace (k + E) with (E + k) by lia.
      rewrite !grid_add by lia. nia. }
    rewrite FE. split.
    { split; [cbn; lia|]. split; [lia|]. cbn [shr_r shr_s shr_m]. ring. }
    cbn [shr_m loc_of_shr_record round_nearest_even]. unfold finish.
    destruct (Z.ltb_spec (Zpos p) (2 ^ 24)); [reflexivity|lia].
Qed.

(** *** Well-formed floats and their order *)

Lemma bounded_spec p E :
  bounded F32.prec F32.emax p E = true
  <-> -149 <= E <= 104 /\ Zpos p < 2 ^ 24 /\ (-149 < E -> 2 ^ 23 <= Zpos p).
Proof.
  unfold bounded, canonical_mantissa. rewrite andb_true_iff, Z.eqb_eq, Z.leb_le.
  rewrite fexp32_eq. change (F32.emax - F32.prec) with 104.
  pose proof (digits2_pos_bounds p) as P.
  set (k := Zpos (digits2_pos p)) in *.
  assert (0 < k) by (unfold k; lia).
  assert (K24 : k <= 24 <-> Zpos p < 2 ^ 24).
  { split; intros.
    - assert (2 ^ k <= 2 ^ 24) by (apply Z.pow_le_mono_r; lia). lia.
    - destruct (Z_le_gt_dec k 24); [assumption|].
      assert (2 ^ 24 <= 2 ^ (k - 1)) by (apply Z.pow_le_mono_r; lia). lia. }
  assert (K23 : 24 <= k <-> 2 ^ 23 <= Zpos p).
  { split; intros.
    - assert (2 ^ 23 <= 2 ^ (k - 1)) by (apply Z.pow_le_mono_r; lia). lia.
    - destruct (Z_le_gt_dec 24 k); [assumption|].
      assert (2 ^ k <= 2 ^ 23) by (apply Z.pow_le_mono_r; lia). lia. }
  clearbody k. clear P. split.
  - intros (Q & L). split; [lia|]. split.
    + apply K24. lia.
    + intros. apply K23. lia.
  - intros (HE & Hp & Hn). apply K24 in Hp. split; [|lia].
    destruct (Z.eq_dec E (-149)) as [->|NE]; [lia|].
    assert (24 <= k) by (apply K23, Hn; lia). lia.
Qed.

Lemma canon_wellformed x : canon x -> wellformed x = true.
Proof.
  destruct x as [[|]| | |[|] p E]; cbn [canon]; try tauto; try reflexivity.
  intros C. unfold wellformed. cbn [F32.is_finite valid_binary andb].
  apply bounded_spec. exact C.
Qed.

Lemma wellformed_nonneg_canon x :
  wellformed x = true -> 0 <= value x -> x = S754_zero true \/ canon x.
Proof.
  destruct x as [[|]| | |[|] p E]; cbn [canon]; try discriminate; auto.
  - unfold wellformed. cbn [F32.is_finite valid_binary andb value].
    intros B V. apply bounded_spec in B.
    pose proof (grid_pos E ltac:(lia)). nia.
  - unfold wellformed. cbn [F32.is_finite valid_binary andb].
    intros B _. right. apply bounded_spec. exact B.
Qed.

Lemma mul_compare_mono_r a b g : 0 < g -> (a * g ?= b * g) = (a ?= b).
Proof.
  intros Hg. destruct (Z.compare_spec a b).
  - subst. apply Z.compare_refl.
  - apply Z.compare_lt_iff. nia.
  - apply Z.compare_gt_iff. nia.
Qed.

(** The order of floats is the order of their values. *)
Lemma SFcompare_value x y :
  wellformed x = true -> wellformed y = true ->
  SFcompare x y = Some (value x ?= value y).
Proof.
  destruct x as [sx| | |sx p E]; try discriminate;
    destruct y as [sy| | |sy q F]; try discriminate;
    unfold wellformed; cbn [F32.is_finite valid_binary andb value SFcompare].
  - reflexivity.
  - intros _ B. apply bounded_spec in B. pose proof (grid_pos F ltac:(lia)).
    f_equal. symmetry. destruct sy.
    + apply Z.compare_gt_iff. nia.
    + apply Z.compare_lt_iff. nia.
  - intros B _. apply bounded_spec in B. pose proof (grid_pos E ltac:(lia)).
    f_equal. symmetry. destruct sx.
    + apply Z.compare_lt_iff. nia.
    + apply Z.compare_gt_iff. nia.
  - intros B B'. apply bounded_spec in B, B'.
    destruct B as (HE & Hp & Hn), B' as (HF & Hq & Hm).
    pose proof (grid_pos E ltac:(lia)) as GE.
    pose proof (grid_pos F ltac:(lia)) as GF.
    f_equal. symmetry. destruct sx, sy.
    + destruct (Z.compare_spec E F) as [Q|Lt|Gt].
      * subst F. rewrite mul_compare_mono_r by assumption.
        change (Pos.compare_cont Eq p q) with (Zpos p ?= Zpos q).
        rewrite Z.compare_opp. apply Z.compare_antisym.
      * pose proof (canon_exponent_lt p E q F ltac:(lia) Hp Lt ltac:(apply Hm; lia)).
        apply Z.compare_gt_iff. lia.
      * pose proof (canon_exponent_lt q F p E ltac:(lia) Hq Gt ltac:(apply Hn; lia)).
        apply Z.compare_lt_iff. lia.
    + apply Z.compare_lt_iff. nia.
    + apply Z.compare_gt_iff. nia.
    + destruct (Z.compare_spec E F) as [Q|Lt|Gt].
      * subst F. rewrite mul_compare_mono_r by assumption. reflexivity.
      * pose proof (canon_exponent_lt p E q F ltac:(lia) Hp Lt ltac:(apply Hm; lia)).
        apply Z.compare_lt_iff. lia.
      * pose proof (canon_exponent_lt q F p E ltac:(lia) Hq Gt ltac:(apply Hn; lia)).
        apply Z.compare_gt_iff. lia.
Qed.

Lemma leb_value x y :
  wellformed x = true -> wellformed y = true ->
  F32.leb x y = true <-> value x <= value y.
Proof.
  intros X Y. unfold F32.leb, SFleb. rewrite (SFcompare_value x y X Y).
  destruct (Z.compare_spec (value x) (value y)); split; intros; try lia;
    try reflexivity; try discriminate.
Qed.

Lemma ltb_value x y :
  wellformed x = true -> wellformed y = true ->
  F32.ltb x y = true <-> value x < value y.
Proof.
  intros X Y. unfold F32.ltb, SFltb. rewrite (SFcompare_value x y X Y).
  destruct (Z.compare_spec (value x) (value y)); split; intros; try lia;
    try reflexivity; try discriminate.
Qed.

(** *** Alignment *)

Lemma iter_xO m d : Zpos (Pos.iter xO m d) = Zpos m * 2 ^ Zpos d.
Proof.
  induction d as [|d IH] using Pos.peano_ind.
  - cbn [Pos.iter]. rewrite (Pos2Z.inj_xO m). change (2 ^ 1) with 2. ring.
  - rewrite Pos.iter_succ, (Pos2Z.inj_xO (Pos.iter xO m d)), IH.
    rewrite Pos2Z.inj_succ, Z.pow_succ_r by lia. ring.
Qed.

Lemma digits_shift m k :
  0 <= k -> Zdigits2 (Zpos m * 2 ^ k) = Zdigits2 (Zpos m) + k.
Proof.
  intros Hk. pose proof (digits2_pos_bounds m) as P. cbn [Zdigits2].
  set (d := Zpos (digits2_pos m)) in *.
  assert (0 < d) by (unfold d; lia).
  assert (0 < 2 ^ k) by (apply Z.pow_pos_nonneg; lia).
  apply digits_unique; [lia|].
  replace (d + k - 1) with (d - 1 + k) by lia.
  rewrite !Z.pow_add_r by lia. nia.
Qed.

Lemma shl_align_spec m e e' :
  -1000 <= e -> -1000 <= e' ->
  let '(m', f) := shl_align m e e' in
  f = Z.min e e' /\ Zpos m' * grid f = Zpos m * grid e
  /\ Zdigits2 (Zpos m') + f = Zdigits2 (Zpos m) + e.
Proof.
  intros He He'. unfold shl_align.
  destruct (e' - e) as [|d|d] eqn:Q.
  - split; [lia|]. split; reflexivity.
  - split; [lia|]. split; reflexivity.
  - split; [lia|]. rewrite iter_xO.
    replace e with (e' + Zpos d) by lia. split.
    + rewrite grid_add by lia. ring.
    + rewrite digits_shift by lia. lia.
Qed.

(** *** Rounding an integer mantissa *)

Lemma binary_round_spec m e :
  -400 <= e -> Zdigits2 (Zpos m) + e <= 127 ->
  rounds_pos (Zpos m * grid e) 1 (binary_round F32.prec F32.emax false m e).
Proof.
  intros He Hd. unfold binary_round.
  change (Zpos (digits2_pos m)) with (Zdigits2 (Zpos m)).
  pose proof (fexp32_eq (Zdigits2 (Zpos m) + e)) as FE.
  pose proof (shl_align_spec m e (fexp32 (Zdigits2 (Zpos m) + e))
                ltac:(lia) ltac:(lia)) as S.
  destruct (shl_align m e (fexp32 (Zdigits2 (Zpos m) + e))) as [m' f].
  destruct S as (Hf & V & Dg).
  rewrite <- V.
  apply bra32_rounds_pos; try lia.
  - cbn [shr_record_of_loc]. split; [cbn [shr_m]; lia|]. split.
    + pose proof (grid_pos f ltac:(lia)). lia.
    + cbn [shr_record_of_loc shr_r shr_s shr_m]. ring.
  - rewrite Dg. lia.
Qed.

Lemma binary_normalize_spec m e :
  0 <= m -> -400 <= e -> m * grid e < grid 127 ->
  rounds_to (m * grid e) 1 (binary_normalize F32.prec F32.emax m e false).
Proof.
  intros Hm He Small. destruct m as [|p|p]; try lia.
  - left. split; [reflexivity|]. split; [lia|reflexivity].
  - right. apply binary_round_spec; [assumption|].
    pose proof (digits2_pos_bounds p) as P. cbn [Zdigits2].
    set (k := Zpos (digits2_pos p)) in *.
    assert (0 < k) by (unfold k; lia).
    destruct (Z_le_gt_dec (k + e) 127); [assumption|exfalso].
    assert (G : grid 127 <= grid (e + (k - 1))) by (apply grid_le; lia).
    rewrite grid_add in G by lia.
    pose proof (grid_pos e ltac:(lia)). nia.
Qed.

Lemma of_Z_spec z :
  0 <= z < 2 ^ 100 -> rounds_to (z * grid 0) 1 (F32.of_Z z).
Proof.
  intros Hz. apply binary_normalize_spec; try lia.
  assert (G : grid 127 = grid (0 + 127)) by reflexivity.
  rewrite G, grid_add by lia. pose proof (grid_pos 0 ltac:(lia)).
  assert (2 ^ 100 < 2 ^ 127) by (apply Z.pow_lt_mono_r; lia). nia.
Qed.

Lemma grid_mul a b :
  -1000 <= a -> -1000 <= b -> -1000 <= a + b ->
  grid a * grid b = grid 0 * grid (a + b).
Proof.
  intros. unfold grid. rewrite <- !Z.pow_add_r by (unfold scale; lia).
  f_equal. lia.
Qed.

Lemma grid_lt_inv a b : -1000 <= b -> grid a < grid b -> a < b.
Proof.
  intros Hb Lt. destruct (Z_lt_ge_dec a b); [assumption|].
  assert (grid b <= grid a) by (apply grid_le; lia). lia.
Qed.

(** The binade of a positive canonical float. *)
Lemma digits_binade p E :
  -1000 <= E ->
  grid (Zdigits2 (Zpos p) + E - 1) <= Zpos p * grid E
  < grid (Zdigits2 (Zpos p) + E).
Proof.
  intros HE. pose proof (digits2_pos_bounds p) as P. cbn [Zdigits2].
  set (k := Zpos (digits2_pos p)) in *.
  assert (0 < k) by (unfold k; lia).
  pose proof (grid_pos E HE).
  replace (k + E - 1) with (E + (k - 1)) by lia.
  replace (k + E) with (E + k) by lia.
  rewrite !grid_add by lia. nia.
Qed.

Lemma digits_ge p k : 0 <= k -> 2 ^ k <= Zpos p -> k + 1 <= Zdigits2 (Zpos p).
Proof.
  intros Hk Hp. pose proof (digits2_pos_bounds p) as P. cbn [Zdigits2].
  set (d := Zpos (digits2_pos p)) in *.
  destruct (Z_le_gt_dec (k + 1) d); [assumption|].
  assert (0 < d) by (unfold d; lia).
  assert (2 ^ d <= 2 ^ k) by (apply Z.pow_le_mono_r; lia). lia.
Qed.

Lemma digits_le p k : 0 <= k -> Zpos p < 2 ^ k -> Zdigits2 (Zpos p) <= k.
Proof.
  intros Hk Hp. pose proof (digits2_pos_bounds p) as P. cbn [Zdigits2].
  set (d := Zpos (digits2_pos p)) in *.
  destruct (Z_le_gt_dec d k); [assumption|].
  assert (2 ^ k <= 2 ^ (d - 1)) by (apply Z.pow_le_mono_r; lia). lia.
Qed.

(** *** Multiplication *)

Lemma mul_spec x y :
  canon x -> canon y -> value x * value y < grid 127 * grid 0 ->
  rounds_to (value x * value y) (grid 0) (F32.mul x y).
Proof.
  pose proof (grid_pos 0 ltac:(lia)) as G0.
  destruct x as [[|]| | |[|] p E]; cbn [canon]; try tauto;
    destruct y as [[|]| | |[|] q F]; cbn [canon]; try tauto; intros X Y Small.
  - left. split; [reflexivity|]. split; [assumption|reflexivity].
  - left. split; [reflexivity|]. split; [assumption|reflexivity].
  - left. split; [apply Z.mul_0_r|]. split; [assumption|reflexivity].
  - right. destruct X as (HE & Hp & Hn), Y as (HF & Hq & Hm).
    cbn [value] in *. unfold F32.mul, SFmul. cbn [xorb].
    assert (V : Zpos p * grid E * (Zpos q * grid F)
                = Zpos (p * q) * (grid 0 * grid (E + F))).
    { rewrite <- grid_mul by lia. rewrite Pos2Z.inj_mul. ring. }
    pose proof (digits_binade (p * q) (E + F) ltac:(lia)) as B.
    apply bra32_rounds_pos; try lia.
    + rewrite V in Small.
      assert (L : grid (Zdigits2 (Zpos (p * q)) + (E + F) - 1) < grid 127) by nia.
      apply grid_lt_inv in L; lia.
    + cbn [shr_record_of_loc]. split; [cbn [shr_m]; lia|]. split.
      * pose proof (grid_pos (E + F) ltac:(lia)). nia.
      * cbn [shr_r shr_s shr_m]. exact V.
    + rewrite fexp32_eq.
      destruct (Z_le_gt_dec (E + F) (-149)); [lia|].
      assert (2 ^ 23 <= Zpos (p * q)).
      { rewrite Pos2Z.inj_mul.
        destruct (Z_le_gt_dec E (-149)).
        - assert (2 ^ 23 <= Zpos q) by (apply Hm; lia). nia.
        - assert (2 ^ 23 <= Zpos p) by (apply Hn; lia). nia. }
      pose proof (digits_ge (p * q) 23 ltac:(lia) H). lia.
Qed.

(** *** Conversion to an integer *)

Lemma trunc_spec x : canon x -> F32.trunc x = value x / grid 0.
Proof.
  destruct x as [[|]| | |[|] p E]; cbn [canon]; try tauto.
  intros (HE & _). cbn [F32.trunc value].
  pose proof (grid_pos 0 ltac:(lia)) as G0.
  destruct E as [|e|e].
  + rewrite Z.shiftl_0_r. symmetry. apply Z.div_mul. lia.
  + rewrite Z.shiftl_mul_pow2 by lia.
    change (grid (Zpos e)) with (grid (0 + Zpos e)). rewrite grid_add by lia.
    replace (Zpos p * (grid 0 * 2 ^ Zpos e))
      with (Zpos p * 2 ^ Zpos e * grid 0) by ring.
    rewrite Z.div_mul by lia. reflexivity.
  + rewrite Z.shiftr_div_pow2 by lia.
    assert (Q : grid 0 = 2 ^ Zpos e * grid (Zneg e)).
    { replace 0 with (Zneg e + Zpos e) at 1 by lia.
      rewrite grid_add by lia. ring. }
    rewrite Q. pose proof (grid_pos (Zneg e) ltac:(lia)).
    rewrite Z.div_mul_cancel_r by lia. reflexivity.
Qed.

(** *** Division *)

Lemma new_location_located G q r :
  0 < G -> 0 <= q -> 0 <= r < G ->
  located (q * G + r) G (shr_record_of_loc q (new_location G r)).
Proof.
  intros HG Hq Hr. unfold new_location.
  destruct (Z.even G) eqn:Ev.
  - unfold new_location_even. destruct (Z.eqb_spec r 0) as [->|NZ].
    + split; [cbn; lia|]. split; [lia|]. cbn. lia.
    + destruct (Z.compare_spec (2 * r) G);
        (split; [cbn; lia|]); (split; [lia|]); cbn [shr_record_of_loc shr_r shr_s shr_m]; lia.
  - unfold new_location_odd. destruct (Z.eqb_spec r 0) as [->|NZ].
    + split; [cbn; lia|]. split; [lia|]. cbn. lia.
    + assert (Od : Z.odd G = true) by (rewrite <- Z.negb_even, Ev; reflexivity).
      apply Z.odd_spec in Od. destruct Od as [h Hh].
      destruct (Z.compare_spec (2 * r + 1) G);
        (split; [cbn; lia|]); (split; [lia|]); cbn [shr_record_of_loc shr_r shr_s shr_m]; lia.
Qed.

Lemma grid_mul_lt_inv a b c d :
  -1000 <= a -> -1000 <= b -> -1000 <= a + b -> -1000 <= c -> -1000 <= d ->
  -1000 <= c + d ->
  grid a * grid b < grid c * grid d -> a + b < c + d.
Proof.
  intros A B AB C D CD Lt.
  rewrite (grid_mul a b), (grid_mul c d) in Lt by lia.
  pose proof (grid_pos 0 ltac:(lia)).
  apply grid_lt_inv; [lia|]. nia.
Qed.

(** The quotient of two positive canonical floats whose ratio is between
    [2 ^ -100] and [2 ^ 100]. *)
Lemma div_finite_spec p E q F :
  canon (S754_finite false p E) -> canon (S754_finite false q F) ->
  Zpos q * grid F * grid (-100) <= Zpos p * grid E * grid 0 ->
  Zpos p * grid E * grid 0 < Zpos q * grid F * grid 100 ->
  rounds_pos (Zpos p * grid E * grid 0) (Zpos q * grid F)
    (F32.div (S754_finite false p E) (S754_finite false q F)).
Proof.
  intros (HE & Hp & Hn) (HF & Hq & Hm) Lo Hi.
  pose proof (digits_binade p E ltac:(lia)) as Bp.
  pose proof (digits_binade q F ltac:(lia)) as Bq.
  pose proof (digits_le p 24 ltac:(lia) Hp) as Dp.
  pose proof (digits_le q 24 ltac:(lia) Hq) as Dq.
  pose proof (digits_ge p 0 ltac:(lia) ltac:(lia)) as Dp1.
  pose proof (digits_ge q 0 ltac:(lia) ltac:(lia)) as Dq1.
  pose proof (digits2_pos_bounds p) as Pp.
  pose proof (digits2_pos_bounds q) as Pq.
  change (Zpos (digits2_pos p)) with (Zdigits2 (Zpos p)) in Pp.
  change (Zpos (digits2_pos q)) with (Zdigits2 (Zpos q)) in Pq.
  set (d1 := Zdigits2 (Zpos p)) in *. set (d2 := Zdigits2 (Zpos q)) in *.
  pose proof (grid_pos 0 ltac:(lia)) as G0.
  pose proof (grid_pos (-100) ltac:(lia)) as Gm.
  pose proof (grid_pos 100 ltac:(lia)) as GM.
  pose proof (grid_pos E ltac:(lia)) as GE.
  pose proof (grid_pos F ltac:(lia)) as GF.
  (* the ratio of the magnitudes *)
  assert (Rlo : -100 <= d1 + E - (d2 + F)).
  { assert (grid (d2 + F - 1) * grid (-100) < grid (d1 + E) * grid 0) by nia.
    apply grid_mul_lt_inv in H; lia. }
  assert (Rhi : d1 + E - (d2 + F) <= 100).
  { assert (grid (d1 + E - 1) * grid 0 < grid (d2 + F) * grid 100) by nia.
    apply grid_mul_lt_inv in H; lia. }
  unfold F32.div, SFdiv, SFdiv_core_binary. cbn [xorb].
  fold d1 d2. rewrite fexp32_eq.
  replace (Z.min (Z.max (d1 + E - (d2 + F) - 24) (-149)) (E - F))
    with (d1 + E - (d2 + F) - 24) by lia.
  set (e' := d1 + E - (d2 + F) - 24).
  assert (S : E - F - e' = 24 + d2 - d1) by (unfold e'; lia).
  destruct (E - F - e') as [|s|s] eqn:Q; try lia.
  rewrite Z.shiftl_mul_pow2 by lia. rewrite S.
  set (m' := Zpos p * 2 ^ (24 + d2 - d1)).
  pose proof (Z_div_mod m' (Zpos q) ltac:(lia)) as DM.
  destruct (Z.div_eucl m' (Zpos q)) as [k r]. destruct DM as (DM & Hr).
  (* the quotient has 24 or 25 digits *)
  assert (M1 : 2 ^ (23 + d2) <= m').
  { assert (P1 : 2 ^ (23 + d2) = 2 ^ (d1 - 1) * 2 ^ (24 + d2 - d1))
      by (rewrite <- Z.pow_add_r by lia; f_equal; lia).
    rewrite P1. unfold m'.
    apply Z.mul_le_mono_nonneg_r; [apply Z.pow_nonneg|]; lia. }
  assert (M2 : m' < 2 ^ (24 + d2)).
  { assert (P2 : 2 ^ (24 + d2) = 2 ^ d1 * 2 ^ (24 + d2 - d1))
      by (rewrite <- Z.pow_add_r by lia; f_equal; lia).
    rewrite P2. unfold m'.
    apply Z.mul_lt_mono_pos_r; [apply Z.pow_pos_nonneg|]; lia. }
  assert (K1 : 2 ^ 23 <= k).
  { destruct (Z_le_gt_dec (2 ^ 23) k); [assumption|exfalso].
    assert (P3 : 2 ^ (23 + d2) = 2 ^ d2 * 2 ^ 23)
      by (rewrite <- Z.pow_add_r by lia; f_equal; lia).
    rewrite P3 in M1.
    change (2 ^ 23) with 8388608 in *. nia. }
  assert (K2 : k < 2 ^ 25).
  { destruct (Z_lt_ge_dec k (2 ^ 25)); [assumption|exfalso].
    assert (P4 : 2 ^ (24 + d2) = 2 ^ (d2 - 1) * 2 ^ 25)
      by (rewrite <- Z.pow_add_r by lia; f_equal; lia).
    rewrite P4 in M2.
    change (2 ^ 25) with 33554432 in *. nia. }
  destruct k as [|k|k]; try lia.
  pose proof (digits_ge k 23 ltac:(lia) K1) as Dk1.
  pose proof (digits_le k 25 ltac:(lia) K2) as Dk2.
  apply bra32_rounds_pos; try lia.
  - (* the location of the remainder *)
    pose proof (grid_pos e' ltac:(unfold e'; lia)) as Ge.
    assert (C : Zpos p * grid E * grid 0 = m' * (grid F * grid e')).
    { unfold m'. rewrite (grid_mul F e') by (unfold e'; lia).
      replace E with (F + e' + (24 + d2 - d1)) at 1 by (unfold e'; lia).
      rewrite grid_add by (unfold e'; lia). ring. }
    assert (C' : Zpos q * grid F * grid e' = Zpos q * (grid F * grid e')) by ring.
    rewrite C, C'. apply located_scale; [nia|].
    rewrite DM, (Z.mul_comm (Zpos q)).
    apply new_location_located; lia.
  - rewrite fexp32_eq. lia.
Qed.

Lemma div_spec x y :
  canon x -> canon y -> 0 < value y ->
  (0 < value x -> value y * grid (-100) <= value x * grid 0
                  /\ value x * grid 0 < value y * grid 100) ->
  rounds_to (value x * grid 0) (value y) (F32.div x y).
Proof.
  destruct x as [[|]| | |[|] p E]; cbn [canon]; try tauto;
    destruct y as [[|]| | |[|] q F]; cbn [canon]; try tauto;
    cbn [value]; intros X Y Py R; try lia.
  - left. split; [reflexivity|]. split; [assumption|reflexivity].
  - right. destruct R as (Lo & Hi).
    { destruct X as (HE & _). pose proof (grid_pos E ltac:(lia)). nia. }
    apply div_finite_spec; assumption.
Qed.

(** *** Subtraction from one *)

Lemma one_eq : F32.of_Z 1 = S754_finite false (2 ^ 23) (-23).
Proof. reflexivity. Qed.

Lemma value_one : value (F32.of_Z 1) = grid 0.
Proof.
  rewrite one_eq. cbn [value]. change 0 with (-23 + 23) at 1.
  rewrite grid_add by lia. reflexivity.
Qed.

Lemma canon_one : canon (F32.of_Z 1).
Proof. rewrite one_eq. cbn. lia. Qed.

Lemma grid_0_lt_127 : 0 < grid 0 /\ 65536 * grid 0 < grid 127.
Proof.
  pose proof (grid_pos 0 ltac:(lia)). split; [assumption|].
  change (grid 127) with (grid (0 + 127)). rewrite grid_add by lia.
  assert (65536 < 2 ^ 127) by reflexivity. nia.
Qed.

Lemma sub_one_spec c :
  wellformed c = true -> - grid 0 <= value c <= grid 0 ->
  rounds_to (grid 0 - value c) 1 (F32.sub (F32.of_Z 1) c).
Proof.
  intros W V. destruct grid_0_lt_127 as (G0 & G127).
  destruct c as [s| | |s q F]; try discriminate.
  - rewrite one_eq. cbn [F32.sub SFsub value]. rewrite Z.sub_0_r.
    rewrite <- value_one, one_eq. apply rounds_to_exact.
    + rewrite <- one_eq. exact canon_one.
    + rewrite <- one_eq, value_one. lia.
  - unfold wellformed in W. cbn [F32.is_finite valid_binary andb] in W.
    apply bounded_spec in W. destruct W as (HF & Hq & Hm).
    rewrite one_eq. unfold F32.sub, SFsub. cbn [cond_Zopp].
    set (ez := Z.min (-23) F).
    pose proof (shl_align_spec (2 ^ 23) (-23) ez ltac:(lia) ltac:(unfold ez; lia)) as S1.
    pose proof (shl_align_spec q F ez ltac:(lia) ltac:(unfold ez; lia)) as S2.
    destruct (shl_align (2 ^ 23) (-23) ez) as [m1 f1].
    destruct (shl_align q F ez) as [m2 f2].
    destruct S1 as (Q1 & V1 & _), S2 as (Q2 & V2 & _). cbn [fst].
    assert (H1 : f1 = ez) by (unfold ez in *; lia).
    assert (H2 : f2 = ez) by (unfold ez in *; lia).
    rewrite H1 in V1. rewrite H2 in V2. clear Q1 Q2 H1 H2 f1 f2.
    pose proof (grid_pos ez ltac:(unfold ez; lia)) as Ge.
    assert (G1 : Zpos m1 * grid ez = grid 0).
    { rewrite V1. pose proof value_one as VO. rewrite one_eq in VO. exact VO. }
    cbn [value] in V.
    assert (E : grid 0 - value (S754_finite s q F)
                = (Zpos m1 - cond_Zopp s (Zpos m2)) * grid ez).
    { cbn [value]. rewrite Z.mul_sub_distr_r, G1. f_equal.
      destruct s; cbn [cond_Zopp]; lia. }
    rewrite E. apply binary_normalize_spec.
    + assert (0 <= (Zpos m1 - cond_Zopp s (Zpos m2)) * grid ez)
        by (rewrite <- E; cbn [value]; lia).
      nia.
    + unfold ez. lia.
    + rewrite <- E. cbn [value]. lia.
Qed.

(** *** Exact values *)

Lemma rounds_to_zero D x : rounds_to 0 D x -> x = S754_zero false.
Proof.
  intros [(_ & _ & ->)|R]; [reflexivity|].
  destruct (rounds_pos_positive _ _ _ R). lia.
Qed.

Lemma located_exact k G mrs :
  located (k * G) G mrs ->
  shr_m mrs = k /\ shr_r mrs = false /\ shr_s mrs = false.
Proof.
  intros (Hm & HG & H).
  assert (Lt : forall a b, a * G < b * G -> a < b)
    by (intros a b; apply Z.mul_lt_mono_pos_r; exact HG).
  assert (Eq : forall a b, a * G = b * G -> a = b)
    by (intros a b; apply Z.mul_reg_r; lia).
  destruct (shr_r mrs), (shr_s mrs).
  - exfalso. destruct H as (H1 & H2).
    apply Lt in H2. replace (2 * (k * G)) with (2 * k * G) in H1 by ring.
    apply Lt in H1. lia.
  - exfalso. replace (2 * (k * G)) with (2 * k * G) in H by ring.
    apply Eq in H. lia.
  - exfalso. destruct H as (H1 & H2).
    apply Lt in H1. replace (2 * (k * G)) with (2 * k * G) in H2 by ring.
    apply Lt in H2. lia.
  - apply Eq in H. split; [lia|]. split; reflexivity.
Qed.

(** Integers below [2 ^ 24] convert exactly. *)
Lemma of_Z_exact i :
  0 <= i < 2 ^ 24 ->
  value (F32.of_Z i) = i * grid 0 /\ canon (F32.of_Z i).
Proof.
  intros Hi.
  assert (R : rounds_to (i * grid 0) 1 (F32.of_Z i)).
  { apply of_Z_spec. assert (2 ^ 24 < 2 ^ 100) by (apply Z.pow_lt_mono_r; lia). lia. }
  split; [|eapply rounds_to_canon; exact R].
  pose proof (grid_pos 0 ltac:(lia)) as G0.
  destruct R as [(Q & _ & ->)|R]; [cbn [value]; lia|].
  destruct (rounds_pos_facts _ _ _ R)
    as (d & mrs & m2 & _ & Hd & B & L & _ & M2 & _ & _ & _ & V & _).
  rewrite V. pose proof (fexp32_eq d) as FE.
  assert (d <= 24).
  { assert (grid (d - 1) < grid 24).
    { change (grid 24) with (grid (0 + 24)). rewrite grid_add by lia.
      change (2 ^ 24) with 16777216 in *. nia. }
    apply grid_lt_inv in H; lia. }
  set (E := fexp32 d) in *.
  assert (Q : grid 0 = grid E * 2 ^ (- E)).
  { rewrite <- grid_add by lia. f_equal. lia. }
  assert (Q' : i * grid 0 = i * 2 ^ (- E) * (1 * grid E)) by (rewrite Q; ring).
  rewrite Q' in L. apply located_exact in L. destruct L as (Lm & Lr & Ls).
  rewrite M2. destruct mrs as [m r s]. cbn [shr_m shr_r shr_s] in *.
  subst m r s. cbn [loc_of_shr_record round_nearest_even].
  rewrite Q. ring.
Qed.

Lemma canon_PI : canon F32.PI.
Proof. cbn. lia. Qed.

Lemma value_PI_bounds : 0 < value F32.PI < 4 * grid 0.
Proof.
  change F32.PI with (S754_finite false 13176795 (-22)). cbn [value].
  assert (Q : grid 0 = grid (-22) * 2 ^ 22)
    by (rewrite <- grid_add by lia; reflexivity).
  rewrite Q. pose proof (grid_pos (-22) ltac:(lia)).
  change (2 ^ 22) with 4194304. lia.
Qed.

Lemma two_eq : F32.of_Z 2 = S754_finite false (2 ^ 23) (-22).
Proof. reflexivity. Qed.

Lemma minus_one_eq : F32.of_Z (-1) = S754_finite true (2 ^ 23) (-23).
Proof. reflexivity. Qed.

Lemma value_minus_one : value (F32.of_Z (-1)) = - grid 0.
Proof.
  pose proof value_one as V. rewrite one_eq in V. rewrite minus_one_eq.
  cbn [value] in *. lia.
Qed.

(** A canonical float below one is at most [1 - 2 ^ -24]. *)
Lemma canon_below_one x :
  canon x -> value x < grid 0 -> value x <= grid 0 - grid (-24).
Proof.
  pose proof (grid_pos (-24) ltac:(lia)) as G24.
  assert (Q0 : grid 0 = grid (-24) * 2 ^ 24)
    by (rewrite <- grid_add by lia; reflexivity).
  destruct x as [[|]| | |[|] p E]; cbn [canon]; try tauto; cbn [value].
  - intros _ _. change (2 ^ 24) with 16777216 in Q0. lia.
  - intros (HE & Hp & Hn) Lt.
    pose proof (grid_pos E ltac:(lia)) as GE.
    assert (E <= -24).
    { destruct (Z_le_gt_dec E (-24)); [assumption|exfalso].
      assert (2 ^ 23 <= Zpos p) by (apply Hn; lia).
      assert (grid (E + 23) < grid 0).
      { rewrite grid_add by lia. change (2 ^ 23) with 8388608 in *. nia. }
      apply grid_lt_inv in H0; lia. }
    destruct (Z.eq_dec E (-24)) as [->|NE].
    + change (2 ^ 24) with 16777216 in *. nia.
    + assert (G1 : grid (E + 24) <= grid (-1)) by (apply grid_le; lia).
      rewrite grid_add in G1 by lia.
      assert (Q1 : grid 0 = grid (-1) * 2)
        by (change 0 with (-1 + 1) at 1; apply grid_succ; lia).
      assert (Q2 : grid (-24) <= grid (-1)) by (apply grid_le; lia).
      change (2 ^ 24) with 16777216 in *. nia.
Qed.

(** *** The stages of the ramp *)

Lemma value_two : value (F32.of_Z 2) = 2 * grid 0.
Proof.
  pose proof value_one as V. rewrite one_eq in V. rewrite two_eq.
  cbn [value] in *. change (-22) with (-23 + 1). rewrite grid_succ by lia. lia.
Qed.

Lemma canon_two : canon (F32.of_Z 2).
Proof. rewrite two_eq. cbn. lia. Qed.

Lemma grid_0_split : grid 0 = grid (-100) * 2 ^ 100 /\ grid 100 = grid 0 * 2 ^ 100.
Proof.
  split.
  - change 0 with (-100 + 100) at 1. apply grid_add; lia.
  - change 100 with (0 + 100) at 1. apply grid_add; lia.
Qed.

(** Conversion of a non-negative [long]. *)
Lemma of_Z_long i :
  0 <= i < 2 ^ 31 ->
  rounds_to (i * grid 0) 1 (F32.of_Z i)
  /\ canon (F32.of_Z i)
  /\ (1 <= i -> grid 0 <= value (F32.of_Z i))
  /\ value (F32.of_Z i) <= 2 ^ 31 * grid 0.
Proof.
  intros Hi. destruct grid_0_lt_127 as (G0 & G127).
  assert (R : rounds_to (i * grid 0) 1 (F32.of_Z i)).
  { apply of_Z_spec. assert (2 ^ 31 < 2 ^ 100) by reflexivity. lia. }
  split; [exact R|]. split; [eapply rounds_to_canon; exact R|]. split.
  - intros H1. rewrite <- value_one.
    eapply rounds_to_mono; [|exact R|].
    + apply rounds_to_exact; [exact canon_one|rewrite value_one; lia].
    + rewrite value_one. nia.
  - set (y := S754_finite false (2 ^ 23) 8).
    assert (Vy : value y = 2 ^ 31 * grid 0).
    { unfold y. cbn [value]. change 8 with (0 + 8). rewrite grid_add by lia.
      change (2 ^ 31) with (Zpos (2 ^ 23) * 2 ^ 8). ring. }
    rewrite <- Vy.
    eapply rounds_to_mono; [exact R| |].
    + apply rounds_to_exact; [unfold y; cbn; lia|].
      rewrite Vy. change (grid 127) with (grid (0 + 127)).
      rewrite grid_add by lia.
      assert (2 ^ 31 < 2 ^ 127) by reflexivity. nia.
    + rewrite Vy. nia.
Qed.

Lemma of_Z_mono i j :
  0 <= i <= j -> j < 2 ^ 31 -> value (F32.of_Z i) <= value (F32.of_Z j).
Proof.
  intros Hi Hj. destruct grid_0_lt_127 as (G0 & _).
  destruct (of_Z_long i ltac:(lia)) as (Ri & _).
  destruct (of_Z_long j ltac:(lia)) as (Rj & _).
  eapply rounds_to_mono; [exact Ri|exact Rj|]. nia.
Qed.

(** The ramp progress [i / n]. *)
Lemma progress_spec i n :
  0 < n < 2 ^ 31 -> 0 <= i <= n ->
  rounds_to (value (F32.of_Z i) * grid 0) (value (F32.of_Z n))
    (F32.div (F32.of_Z i) (F32.of_Z n)).
Proof.
  intros Hn Hi.
  destruct (of_Z_long i ltac:(lia)) as (Ri & Ci & Li & Ui).
  destruct (of_Z_long n ltac:(lia)) as (Rn & Cn & Ln & Un).
  pose proof (of_Z_mono i n Hi ltac:(lia)) as Le.
  specialize (Ln ltac:(lia)).
  pose proof (grid_pos 0 ltac:(lia)) as G0.
  pose proof (grid_pos (-100) ltac:(lia)) as Gm.
  destruct grid_0_split as (Q1 & Q2).
  assert (P : 2 ^ 31 < 2 ^ 100) by reflexivity.
  apply div_spec; try assumption; [lia|].
  intros Pi. split.
  - (* the numerator is at least 1, the denominator below 2 ^ 31 *)
    assert (A : value (F32.of_Z n) * grid (-100) <= 2 ^ 31 * grid 0 * grid (-100))
      by (apply Z.mul_le_mono_nonneg_r; lia).
    assert (B : 2 ^ 31 * grid 0 * grid (-100) <= grid 0 * grid 0).
    { rewrite Q1 at 3.
      replace (2 ^ 31 * grid 0 * grid (-100)) with (grid 0 * (grid (-100) * 2 ^ 31)) by ring.
      apply Z.mul_le_mono_nonneg_l; [lia|].
      apply Z.mul_le_mono_nonneg_l; lia. }
    assert (C : grid 0 * grid 0 <= value (F32.of_Z i) * grid 0).
    { apply Z.mul_le_mono_nonneg_r; [lia|].
      apply Li. destruct (Z_le_gt_dec 1 i); [assumption|exfalso].
      assert (i = 0) by lia. subst i. cbn in Pi. lia. }
    lia.
  - assert (A : value (F32.of_Z i) * grid 0 <= value (F32.of_Z n) * grid 0)
      by (apply Z.mul_le_mono_nonneg_r; lia).
    assert (B : value (F32.of_Z n) * grid 0 < value (F32.of_Z n) * grid 100).
    { apply Z.mul_lt_mono_pos_l; [lia|]. rewrite Q2.
      assert (1 < 2 ^ 100) by reflexivity. nia. }
    lia.
Qed.

Lemma progress_le_one i n :
  0 < n < 2 ^ 31 -> 0 <= i <= n ->
  canon (F32.div (F32.of_Z i) (F32.of_Z n))
  /\ value (F32.div (F32.of_Z i) (F32.of_Z n)) <= grid 0.
Proof.
  intros Hn Hi. pose proof (progress_spec i n Hn Hi) as R.
  split; [eapply rounds_to_canon; exact R|].
  rewrite <- value_one.
  destruct grid_0_lt_127 as (G0 & G127).
  pose proof (of_Z_mono i n Hi ltac:(lia)) as Le.
  eapply rounds_to_mono; [exact R| |].
  - apply rounds_to_exact; [exact canon_one|rewrite value_one; lia].
  - rewrite value_one, Z.mul_1_r, (Z.mul_comm (grid 0)).
    apply Z.mul_le_mono_nonneg_r; lia.
Qed.

Lemma progress_mono i j n :
  0 < n < 2 ^ 31 -> 0 <= i <= j -> j <= n ->
  value (F32.div (F32.of_Z i) (F32.of_Z n))
  <= value (F32.div (F32.of_Z j) (F32.of_Z n)).
Proof.
  intros Hn Hi Hj. pose proof (grid_pos 0 ltac:(lia)) as G0.
  pose proof (of_Z_mono i j Hi ltac:(lia)) as Le.
  destruct (of_Z_long n ltac:(lia)) as (_ & Cn & Ln & _).
  specialize (Ln ltac:(lia)).
  eapply rounds_to_mono.
  - apply progress_spec; [exact Hn|lia].
  - apply progress_spec; [exact Hn|lia].
  - apply Z.mul_le_mono_nonneg_r; [lia|].
    apply Z.mul_le_mono_nonneg_r; lia.
Qed.

(** The angle [progress * PI]. *)
Lemma angle_spec u :
  canon u -> value u <= grid 0 ->
  rounds_to (value u * value F32.PI) (grid 0) (F32.mul u F32.PI).
Proof.
  intros C U. pose proof value_PI_bounds as P.
  destruct grid_0_lt_127 as (G0 & G127).
  pose proof (canon_value_nonneg u C).
  apply mul_spec; [exact C|exact canon_PI|].
  assert (value u * value F32.PI <= grid 0 * value F32.PI)
    by (apply Z.mul_le_mono_nonneg_r; lia).
  assert (grid 0 * value F32.PI < grid 0 * grid 127)
    by (apply Z.mul_lt_mono_pos_l; lia).
  lia.
Qed.

Lemma angle_bounds u :
  canon u -> value u <= grid 0 ->
  canon (F32.mul u F32.PI) /\ value (F32.mul u F32.PI) <= value F32.PI.
Proof.
  intros C U. pose proof (angle_spec u C U) as R.
  split; [eapply rounds_to_canon; exact R|].
  pose proof value_PI_bounds as P. destruct grid_0_lt_127 as (G0 & G127).
  eapply rounds_to_mono; [exact R| |].
  - apply rounds_to_exact; [exact canon_PI|lia].
  - rewrite Z.mul_1_r, (Z.mul_comm (value F32.PI)).
    apply Z.mul_le_mono_nonneg_r; lia.
Qed.

Lemma angle_mono u v :
  canon u -> canon v -> value u <= value v -> value v <= grid 0 ->
  value (F32.mul u F32.PI) <= value (F32.mul v F32.PI).
Proof.
  intros Cu Cv UV V. pose proof value_PI_bounds as P.
  pose proof (grid_pos 0 ltac:(lia)) as G0.
  eapply rounds_to_mono.
  - apply angle_spec; [exact Cu|lia].
  - apply angle_spec; [exact Cv|lia].
  - apply Z.mul_le_mono_nonneg_r; [lia|].
    apply Z.mul_le_mono_nonneg_r; lia.
Qed.

(** One minus a cosine. *)
Lemma one_minus_bounds c :
  wellformed c = true -> - grid 0 <= value c <= grid 0 ->
  canon (F32.sub (F32.of_Z 1) c)
  /\ value (F32.sub (F32.of_Z 1) c) <= 2 * grid 0
  /\ (0 < value (F32.sub (F32.of_Z 1) c) ->
      grid (-24) <= value (F32.sub (F32.of_Z 1) c)).
Proof.
  intros W V. pose proof (sub_one_spec c W V) as R.
  destruct grid_0_lt_127 as (G0 & G127).
  split; [eapply rounds_to_canon; exact R|]. split.
  - rewrite <- value_two.
    eapply rounds_to_mono; [exact R| |].
    + apply rounds_to_exact; [exact canon_two|rewrite value_two; lia].
    + rewrite value_two. lia.
  - intros Pos.
    assert (NZ : grid 0 - value c <> 0).
    { intros Z0. rewrite Z0 in R. apply rounds_to_zero in R.
      rewrite R in Pos. cbn [value] in Pos. lia. }
    assert (L : grid (-24) <= grid 0 - value c).
    { assert (grid (-24) <= grid 0) by (apply grid_le; lia).
      destruct (Z_le_gt_dec (value c) 0); [lia|].
      destruct (wellformed_nonneg_canon c W ltac:(lia)) as [->|C].
      - cbn [value]. lia.
      - pose proof (canon_below_one c C ltac:(lia)). lia. }
    set (y := S754_finite false (2 ^ 23) (-47)).
    assert (Vy : value y = grid (-24)).
    { unfold y. cbn [value]. change (-24) with (-47 + 23).
      rewrite grid_add by lia. reflexivity. }
    rewrite <- Vy.
    eapply rounds_to_mono; [|exact R|].
    + apply rounds_to_exact; [unfold y; cbn; lia|].
      rewrite Vy. assert (grid (-24) <= grid 0) by (apply grid_le; lia). lia.
    + rewrite Vy. lia.
Qed.

Lemma one_minus_mono c c' :
  wellformed c = true -> - grid 0 <= value c <= grid 0 ->
  wellformed c' = true -> - grid 0 <= value c' <= grid 0 ->
  value c' <= value c ->
  value (F32.sub (F32.of_Z 1) c) <= value (F32.sub (F32.of_Z 1) c').
Proof.
  intros W V W' V' Le.
  eapply rounds_to_mono.
  - apply sub_one_spec; assumption.
  - apply sub_one_spec; assumption.
  - lia.
Qed.

(** Halving. *)
Lemma half_spec d :
  canon d -> value d <= 2 * grid 0 -> (0 < value d -> grid (-24) <= value d) ->
  rounds_to (value d * grid 0) (2 * grid 0) (F32.div d (F32.of_Z 2)).
Proof.
  intros C U L. rewrite <- value_two.
  pose proof (grid_pos 0 ltac:(lia)) as G0.
  pose proof (grid_pos (-100) ltac:(lia)) as Gm.
  destruct grid_0_split as (Q1 & Q2).
  assert (P : 32768 <= 2 ^ 100) by (apply Z.leb_le; reflexivity).
  apply div_spec; [exact C|exact canon_two|rewrite value_two; lia|].
  rewrite value_two. intros Pos. specialize (L Pos). split.
  - assert (G : grid (-99) <= grid (-24)) by (apply grid_le; lia).
    change (-99) with (-100 + 1) in G. rewrite grid_succ in G by lia.
    replace (2 * grid 0 * grid (-100)) with (grid (-100) * 2 * grid 0) by ring.
    apply Z.mul_le_mono_nonneg_r; lia.
  - rewrite Q2.
    replace (2 * grid 0 * (grid 0 * 2 ^ 100))
      with (2 * grid 0 * 2 ^ 100 * grid 0) by ring.
    apply Z.mul_lt_mono_pos_r; [lia|]. nia.
Qed.

Lemma half_bounds d :
  canon d -> value d <= 2 * grid 0 -> (0 < value d -> grid (-24) <= value d) ->
  canon (F32.div d (F32.of_Z 2)) /\ value (F32.div d (F32.of_Z 2)) <= grid 0.
Proof.
  intros C U L. pose proof (half_spec d C U L) as R.
  split; [eapply rounds_to_canon; exact R|].
  destruct grid_0_lt_127 as (G0 & G127).
  rewrite <- value_one.
  eapply rounds_to_mono; [exact R| |].
  - apply rounds_to_exact; [exact canon_one|rewrite value_one; lia].
  - rewrite value_one, Z.mul_1_r.
    replace (grid 0 * (2 * grid 0)) with (2 * grid 0 * grid 0) by ring.
    apply Z.mul_le_mono_nonneg_r; lia.
Qed.

Lemma half_mono d d' :
  canon d -> value d <= 2 * grid 0 -> (0 < value d -> grid (-24) <= value d) ->
  canon d' -> value d' <= 2 * grid 0 -> (0 < value d' -> grid (-24) <= value d') ->
  value d <= value d' ->
  value (F32.div d (F32.of_Z 2)) <= value (F32.div d' (F32.of_Z 2)).
Proof.
  intros C U L C' U' L' Le. pose proof (grid_pos 0 ltac:(lia)) as G0.
  eapply rounds_to_mono.
  - apply half_spec; assumption.
  - apply half_spec; assumption.
  - apply Z.mul_le_mono_nonneg_r; [lia|].
    apply Z.mul_le_mono_nonneg_r; lia.
Qed.

(** Scaling the delay range. *)
Lemma scale_spec r m :
  0 <= r <= 32767 -> canon m -> value m <= grid 0 ->
  rounds_to (r * grid 0 * value m) (grid 0) (F32.mul (F32.of_Z r) m).
Proof.
  intros Hr C U.
  assert (B24 : 32767 < 2 ^ 24) by reflexivity.
  destruct (of_Z_exact r ltac:(lia)) as (Vr & Cr). rewrite <- Vr.
  pose proof (grid_pos 0 ltac:(lia)) as G0.
  pose proof (canon_value_nonneg m C).
  apply mul_spec; [exact Cr|exact C|]. rewrite Vr.
  assert (r * grid 0 * value m <= 32767 * grid 0 * grid 0).
  { apply Z.mul_le_mono_nonneg; try lia.
    apply Z.mul_le_mono_nonneg_r; lia. }
  destruct grid_0_lt_127 as (_ & G127).
  assert (32767 * grid 0 * grid 0 < grid 127 * grid 0)
    by (apply Z.mul_lt_mono_pos_r; lia).
  lia.
Qed.

Lemma scale_trunc r m :
  0 <= r <= 32767 -> canon m -> value m <= grid 0 ->
  0 <= F32.trunc (F32.mul (F32.of_Z r) m) <= r.
Proof.
  intros Hr C U. pose proof (scale_spec r m Hr C U) as R.
  assert (B24 : 32767 < 2 ^ 24) by reflexivity.
  destruct (of_Z_exact r ltac:(lia)) as (Vr & Cr).
  pose proof (grid_pos 0 ltac:(lia)) as G0.
  pose proof (canon_value_nonneg m C).
  pose proof (rounds_to_canon _ _ _ R) as Cp.
  rewrite (trunc_spec _ Cp).
  pose proof (canon_value_nonneg _ Cp).
  assert (Le : value (F32.mul (F32.of_Z r) m) <= value (F32.of_Z r)).
  { eapply rounds_to_mono; [exact R| |].
    - apply rounds_to_exact; [exact Cr|]. rewrite Vr.
      destruct grid_0_lt_127 as (_ & G127). nia.
    - rewrite Vr, Z.mul_1_r.
      apply Z.mul_le_mono_nonneg_l; [nia|lia]. }
  rewrite Vr in Le. split.
  - apply Z.div_pos; lia.
  - apply Z.div_le_upper_bound; [lia|]. lia.
Qed.

Lemma scale_trunc_mono r m m' :
  0 <= r <= 32767 -> canon m -> canon m' -> value m <= value m' ->
  value m' <= grid 0 ->
  F32.trunc (F32.mul (F32.of_Z r) m) <= F32.trunc (F32.mul (F32.of_Z r) m').
Proof.
  intros Hr C C' Le U.
  pose proof (scale_spec r m Hr C ltac:(lia)) as R.
  pose proof (scale_spec r m' Hr C' U) as R'.
  pose proof (grid_pos 0 ltac:(lia)) as G0.
  rewrite (trunc_spec _ (rounds_to_canon _ _ _ R)).
  rewrite (trunc_spec _ (rounds_to_canon _ _ _ R')).
  apply Z.div_le_mono; [lia|].
  eapply rounds_to_mono; [exact R|exact R'|].
  apply Z.mul_le_mono_nonneg_r; [lia|].
  apply Z.mul_le_mono_nonneg_l; [nia|lia].
Qed.

(** ** The acceleration ramp

    The cosine is a parameter; what is asked of it is what the comment in
    [calculateSCurveDelay] says of [cos]: it goes from 1 to -1 as its input
    goes from 0 to [PI]. *)

Section Ramp.

Variable cosf : F32.t -> F32.t.

Hypothesis cos_zero : cosf F32.zero = F32.of_Z 1.
Hypothesis cos_pi : cosf F32.PI = F32.of_Z (-1).
Hypothesis cos_range : forall a,
  wellformed a = true -> F32.leb F32.zero a = true -> F32.leb a F32.PI = true ->
  wellformed (cosf a) = true
  /\ F32.leb (F32.of_Z (-1)) (cosf a) = true
  /\ F32.leb (cosf a) (F32.of_Z 1) = true.
Hypothesis cos_antitone : forall a b,
  wellformed a = true -> wellformed b = true ->
  F32.leb F32.zero a = true -> F32.leb a b = true -> F32.leb b F32.PI = true ->
  F32.leb (cosf b) (cosf a) = true.

Lemma cos_bounds a :
  canon a -> value a <= value F32.PI ->
  wellformed (cosf a) = true /\ - grid 0 <= value (cosf a) <= grid 0.
Proof.
  intros C U. pose proof (canon_wellformed a C) as W.
  pose proof (canon_wellformed _ canon_PI) as WP.
  pose proof (canon_value_nonneg a C) as N.
  destruct (cos_range a W) as (Wc & Lo & Hi).
  - apply leb_value; [reflexivity|exact W|exact N].
  - apply leb_value; assumption.
  - split; [exact Wc|].
    apply leb_value in Lo; [|reflexivity|exact Wc].
    apply leb_value in Hi; [|exact Wc|reflexivity].
    rewrite value_minus_one in Lo. rewrite value_one in Hi. lia.
Qed.

Lemma cos_mono a b :
  canon a -> canon b -> value a <= value b -> value b <= value F32.PI ->
  value (cosf b) <= value (cosf a).
Proof.
  intros Ca Cb Le U.
  pose proof (canon_wellformed a Ca) as Wa.
  pose proof (canon_wellformed b Cb) as Wb.
  pose proof (canon_wellformed _ canon_PI) as WP.
  destruct (cos_bounds a Ca ltac:(lia)) as (Wca & _).
  destruct (cos_bounds b Cb U) as (Wcb & _).
  apply leb_value; [exact Wcb|exact Wca|].
  apply cos_antitone; try assumption.
  - apply leb_value; [reflexivity|exact Wa|]. apply canon_value_nonneg, Ca.
  - apply leb_value; assumption.
  - apply leb_value; assumption.
Qed.

(** The multiplier [(1 - cos (pi * i / n)) / 2] lies between 0 and 1. *)
Lemma multiplier_facts i n :
  0 < n < 2 ^ 31 -> 0 <= i <= n ->
  let u := F32.div (F32.of_Z i) (F32.of_Z n) in
  let a := F32.mul u F32.PI in
  let d := F32.sub (F32.of_Z 1) (cosf a) in
  canon u /\ value u <= grid 0
  /\ canon a /\ value a <= value F32.PI
  /\ wellformed (cosf a) = true /\ - grid 0 <= value (cosf a) <= grid 0
  /\ canon d /\ value d <= 2 * grid 0 /\ (0 < value d -> grid (-24) <= value d)
  /\ canon (multiplier cosf i n) /\ value (multiplier cosf i n) <= grid 0.
Proof.
  intros Hn Hi u a d.
  destruct (progress_le_one i n Hn Hi) as (Cu & Uu). fold u in Cu, Uu.
  destruct (angle_bounds u Cu Uu) as (Ca & Ua). fold a in Ca, Ua.
  destruct (cos_bounds a Ca Ua) as (Wc & Vc).
  destruct (one_minus_bounds (cosf a) Wc Vc) as (Cd & Ud & Ld). fold d in Cd, Ud, Ld.
  destruct (half_bounds d Cd Ud Ld) as (Cm & Um).
  exact (conj Cu (conj Uu (conj Ca (conj Ua (conj Wc (conj Vc
           (conj Cd (conj Ud (conj Ld (conj Cm Um)))))))))).
Qed.

Lemma multiplier_mono i j n :
  0 < n < 2 ^ 31 -> 0 <= i <= j -> j <= n ->
  value (multiplier cosf i n) <= value (multiplier cosf j n).
Proof.
  intros Hn Hi Hj.
  destruct (multiplier_facts i n Hn ltac:(lia))
    as (Cu & Uu & Ca & Ua & Wc & Vc & Cd & Ud & Ld & _).
  destruct (multiplier_facts j n Hn ltac:(lia))
    as (Cu' & Uu' & Ca' & Ua' & Wc' & Vc' & Cd' & Ud' & Ld' & _).
  unfold multiplier.
  apply half_mono; try assumption.
  apply one_minus_mono; try assumption.
  apply cos_mono; try assumption.
  apply angle_mono; try assumption.
  apply progress_mono; assumption.
Qed.

Lemma multiplier_zero n :
  0 < n < 2 ^ 31 -> multiplier cosf 0 n = S754_zero false.
Proof.
  intros Hn. unfold multiplier.
  pose proof (progress_spec 0 n Hn ltac:(lia)) as R.
  change (value (F32.of_Z 0) * grid 0) with 0 in R.
  apply rounds_to_zero in R. rewrite R.
  change (F32.mul (S754_zero false) F32.PI) with F32.zero.
  rewrite cos_zero. reflexivity.
Qed.

Lemma multiplier_end n :
  0 < n < 2 ^ 31 -> multiplier cosf n n = F32.of_Z 1.
Proof.
  intros Hn. unfold multiplier.
  assert (U : F32.div (F32.of_Z n) (F32.of_Z n) = F32.of_Z 1).
  { destruct grid_0_lt_127 as (G0 & G127).
    eapply rounds_to_unique.
    - apply progress_spec; [exact Hn|lia].
    - apply rounds_to_exact; [exact canon_one|rewrite value_one; lia].
    - rewrite value_one. ring. }
  rewrite U.
  change (F32.mul (F32.of_Z 1) F32.PI) with F32.PI.
  rewrite cos_pi. reflexivity.
Qed.

Lemma calculateSCurveDelay_eq i n s :
  calculateSCurveDelay cosf i n s
  = Mach.int16
      (initialStepDelay s
       - Mach.int16
           (F32.trunc
              (F32.mul
                 (F32.of_Z (Mach.int16 (initialStepDelay s - minStepDelay s)))
                 (multiplier cosf i n)))).
Proof. reflexivity. Qed.

Lemma scale_by_one r :
  0 <= r <= 32767 -> F32.trunc (F32.mul (F32.of_Z r) (F32.of_Z 1)) = r.
Proof.
  intros Hr. assert (B24 : 32767 < 2 ^ 24) by reflexivity.
  destruct (of_Z_exact r ltac:(lia)) as (Vr & Cr).
  destruct grid_0_lt_127 as (G0 & G127).
  assert (E : F32.mul (F32.of_Z r) (F32.of_Z 1) = F32.of_Z r).
  { eapply rounds_to_unique.
    - apply scale_spec; [exact Hr|exact canon_one|rewrite value_one; lia].
    - apply rounds_to_exact; [exact Cr|rewrite Vr; nia].
    - rewrite value_one, Vr. ring. }
  rewrite E, (trunc_spec _ Cr), Vr. apply Z.div_mul. lia.
Qed.

Lemma scale_by_zero r :
  0 <= r <= 32767 -> F32.trunc (F32.mul (F32.of_Z r) (S754_zero false)) = 0.
Proof.
  intros Hr. destruct grid_0_lt_127 as (G0 & G127).
  pose proof (scale_spec r (S754_zero false) Hr I ltac:(cbn [value]; lia)) as R.
  cbn [value] in R. rewrite Z.mul_0_r in R. apply rounds_to_zero in R.
  rewrite R. reflexivity.
Qed.

(** The delay of ramp pulse [i] of [n], for delays whose difference fits
    an [int]. *)
Lemma calculateSCurveDelay_spec i n s :
  0 < n < 2 ^ 31 -> 0 <= i <= n ->
  -32768 <= minStepDelay s -> minStepDelay s < initialStepDelay s ->
  initialStepDelay s <= 32767 ->
  initialStepDelay s - minStepDelay s <= 32767 ->
  exists t,
    calculateSCurveDelay cosf i n s = initialStepDelay s - t
    /\ 0 <= t <= initialStepDelay s - minStepDelay s
    /\ t = F32.trunc
             (F32.mul (F32.of_Z (initialStepDelay s - minStepDelay s))
                (multiplier cosf i n)).
Proof.
  intros Hn Hi M0 M1 M2 M3.
  destruct (multiplier_facts i n Hn Hi) as (_ & _ & _ & _ & _ & _ & _ & _ & _ & Cm & Um).
  rewrite calculateSCurveDelay_eq.
  rewrite (int16_small (initialStepDelay s - minStepDelay s)) by lia.
  pose proof (scale_trunc (initialStepDelay s - minStepDelay s)
                (multiplier cosf i n) ltac:(lia) Cm Um) as T.
  eexists. split; [|split; [exact T|reflexivity]].
  rewrite (int16_small (F32.trunc _)) by lia.
  apply int16_small. lia.
Qed.

Lemma calculateSCurveDelay_profile (s : state) (n : Z) :
  0 < n < 2 ^ 31 ->
  -32768 <= minStepDelay s -> minStepDelay s < initialStepDelay s ->
  initialStepDelay s <= 32767 ->
  initialStepDelay s - minStepDelay s <= 32767 ->
  calculateSCurveDelay cosf 0 n s = initialStepDelay s
  /\ calculateSCurveDelay cosf n n s = minStepDelay s
  /\ (forall i j, 0 <= i <= j -> j <= n ->
      calculateSCurveDelay cosf j n s <= calculateSCurveDelay cosf i n s)
  /\ (forall k k', 0 <= k <= k' -> k' <= n ->
      calculateSCurveDelay cosf (n - k) n s
      <= calculateSCurveDelay cosf (n - k') n s).
Proof.
  intros Hn M0 M1 M2 M3.
  assert (Mono : forall i j, 0 <= i <= j -> j <= n ->
            calculateSCurveDelay cosf j n s <= calculateSCurveDelay cosf i n s).
  { intros i j Hi Hj.
    destruct (calculateSCurveDelay_spec i n s Hn ltac:(lia) M0 M1 M2 M3)
      as (t & -> & _ & ->).
    destruct (calculateSCurveDelay_spec j n s Hn ltac:(lia) M0 M1 M2 M3)
      as (t' & -> & _ & ->).
    destruct (multiplier_facts i n Hn ltac:(lia))
      as (_ & _ & _ & _ & _ & _ & _ & _ & _ & Cm & Um).
    destruct (multiplier_facts j n Hn ltac:(lia))
      as (_ & _ & _ & _ & _ & _ & _ & _ & _ & Cm' & Um').
    pose proof (scale_trunc_mono (initialStepDelay s - minStepDelay s) _ _
                  ltac:(lia) Cm Cm' (multiplier_mono i j n Hn Hi Hj) Um').
    lia. }
  split; [|split; [|split]].
  - destruct (calculateSCurveDelay_spec 0 n s Hn ltac:(lia) M0 M1 M2 M3)
      as (t & -> & _ & ->).
    rewrite (multiplier_zero n Hn), scale_by_zero by lia. lia.
  - destruct (calculateSCurveDelay_spec n n s Hn ltac:(lia) M0 M1 M2 M3)
      as (t & -> & _ & ->).
    rewrite (multiplier_end n Hn), scale_by_one by lia. lia.
  - exact Mono.
  - intros k k' Hk Hk'. apply Mono; lia.
Qed.


Lemma long32_small x : - 2 ^ 31 <= x < 2 ^ 31 -> Mach.long32 x = x.
Proof. intros H. apply wraps_small; [lia | exact H]. Qed.

(** On the first part of the first turn the pulse delay is the ramp delay at
    the number of steps made. *)
Lemma stepWithAcceleration_accelerating s c :
  0 < accelSteps s < 2 ^ 31 ->
  -32768 <= minStepDelay s -> minStepDelay s < initialStepDelay s ->
  initialStepDelay s <= 32767 ->
  initialStepDelay s - minStepDelay s <= 32767 ->
  0 <= c < accelSteps s -> c < stepsPerTurn ->
  fst (stepWithAcceleration cosf (set_stepCount c s))
  = calculateSCurveDelay cosf c (accelSteps s) s.
Proof.
  intros Hn M0 M1 M2 M3 Hc Hc'. unfold stepsPerTurn in *.
  destruct (calculateSCurveDelay_profile s (accelSteps s) Hn M0 M1 M2 M3)
    as (_ & End & Mono & _).
  pose proof (Mono c (accelSteps s) ltac:(lia) ltac:(lia)) as Fl.
  rewrite End in Fl.
  unfold stepWithAcceleration. cbv zeta. cbn [fst].
  change (stepCount (set_stepCount c s)) with c.
  change (accelSteps (set_stepCount c s)) with (accelSteps s).
  change (minStepDelay (set_stepCount c s)) with (minStepDelay s).
  unfold stepsPerTurn.
  rewrite Z.quot_small, Z.rem_small by lia.
  change (0 =? 0) with true. cbn [andb].
  destruct (Z.ltb_spec c (accelSteps s)); [|lia].
  change (calculateSCurveDelay cosf c (accelSteps s) (set_stepCount c s))
    with (calculateSCurveDelay cosf c (accelSteps s) s).
  destruct (Z.ltb_spec (calculateSCurveDelay cosf c (accelSteps s) s)
              (minStepDelay s)); [lia|reflexivity].
Qed.

(** On the last part of the last turn the pulse delay is the ramp delay at
    the number of steps left. *)
Lemma stepWithAcceleration_decelerating s k :
  0 < accelSteps s <= stepsPerTurn ->
  -32768 <= minStepDelay s -> minStepDelay s < initialStepDelay s ->
  initialStepDelay s <= 32767 ->
  initialStepDelay s - minStepDelay s <= 32767 ->
  2 <= targetTurns s <= 600000 ->
  0 <= k < accelSteps s ->
  fst (stepWithAcceleration cosf
         (set_stepCount
            ((targetTurns s - 1) * stepsPerTurn + (stepsPerTurn - accelSteps s) + k)
            s))
  = calculateSCurveDelay cosf (accelSteps s - k) (accelSteps s) s.
Proof.
  intros Hn M0 M1 M2 M3 HT Hk. unfold stepsPerTurn in *.
  assert (Hn' : 0 < accelSteps s < 2 ^ 31) by lia.
  destruct (calculateSCurveDelay_profile s (accelSteps s) Hn' M0 M1 M2 M3)
    as (_ & End & Mono & _).
  pose proof (Mono (accelSteps s - k) (accelSteps s) ltac:(lia) ltac:(lia)) as Fl.
  rewrite End in Fl.
  set (c := (targetTurns s - 1) * 3200 + (3200 - accelSteps s) + k).
  assert (Q : Z.quot c 3200 = targetTurns s - 1).
  { rewrite Z.quot_div_nonneg by lia. symmetry.
    apply Z.div_unique with (3200 - accelSteps s + k); lia. }
  assert (R : Z.rem c 3200 = 3200 - accelSteps s + k).
  { rewrite Z.rem_mod_nonneg by lia. symmetry.
    apply Z.mod_unique with (targetTurns s - 1); lia. }
  unfold stepWithAcceleration. cbv zeta. cbn [fst].
  change (stepCount (set_stepCount c s)) with c.
  change (accelSteps (set_stepCount c s)) with (accelSteps s).
  change (minStepDelay (set_stepCount c s)) with (minStepDelay s).
  change (targetTurns (set_stepCount c s)) with (targetTurns s).
  unfold stepsPerTurn. rewrite Q, R.
  rewrite (long32_small (targetTurns s - 1)) by lia.
  rewrite (long32_small (3200 - accelSteps s)) by lia.
  replace (3200 - accelSteps s + k - (3200 - accelSteps s)) with k by lia.
  rewrite (long32_small k) by lia.
  rewrite (long32_small (accelSteps s - k)) by lia.
  destruct (Z.eqb_spec (targetTurns s - 1) 0); [lia|]. cbn [andb].
  rewrite Z.eqb_refl. cbn [andb].
  destruct (Z.geb_spec (3200 - accelSteps s + k) (3200 - accelSteps s)); [|lia].
  match goal with
  | |- context [calculateSCurveDelay cosf ?i ?n (set_stepCount c s)] =>
      change (calculateSCurveDelay cosf i n (set_stepCount c s))
        with (calculateSCurveDelay cosf i n s)
  end.
  destruct (Z.ltb_spec (calculateSCurveDelay cosf (accelSteps s - k) (accelSteps s) s)
              (minStepDelay s)); [lia|reflexivity].
Qed.


End Ramp.

(** The three-step cosine meets what is asked of a cosine. *)
Lemma ltb_false_value x y :
  wellformed x = true -> wellformed y = true ->
  F32.ltb x y = false -> value y <= value x.
Proof.
  intros X Y F. destruct (Z_le_gt_dec (value y) (value x)); [assumption|].
  assert (T : F32.ltb x y = true) by (apply ltb_value; [assumption|assumption|lia]).
  congruence.
Qed.

Lemma stair_cosine_range a :
  wellformed (stair_cosine a) = true
  /\ F32.leb (F32.of_Z (-1)) (stair_cosine a) = true
  /\ F32.leb (stair_cosine a) (F32.of_Z 1) = true.
Proof.
  unfold stair_cosine.
  destruct (F32.ltb a (F32.of_Z 1)); [|destruct (F32.ltb a F32.PI)];
    split; try split; reflexivity.
Qed.

Lemma stair_cosine_antitone a b :
  wellformed a = true -> wellformed b = true ->
  F32.leb a b = true ->
  F32.leb (stair_cosine b) (stair_cosine a) = true.
Proof.
  intros Wa Wb Le. unfold stair_cosine.
  pose proof (canon_wellformed _ canon_PI) as WP.
  pose proof (canon_wellformed _ canon_one) as W1.
  apply leb_value in Le; [|assumption|assumption].
  destruct (F32.ltb b (F32.of_Z 1)) eqn:B1.
  - apply ltb_value in B1; [|assumption|assumption].
    assert (A1 : F32.ltb a (F32.of_Z 1) = true)
      by (apply ltb_value; [assumption|assumption|lia]).
    rewrite A1. reflexivity.
  - destruct (F32.ltb b F32.PI) eqn:BP.
    + apply ltb_value in BP; [|assumption|assumption].
      assert (AP : F32.ltb a F32.PI = true)
        by (apply ltb_value; [assumption|assumption|lia]).
      rewrite AP. destruct (F32.ltb a (F32.of_Z 1)); reflexivity.
    + destruct (F32.ltb a (F32.of_Z 1)); [reflexivity|].
      destruct (F32.ltb a F32.PI); reflexivity.
Qed.



(** * Further properties *)

(** ** Reading a command line *)

Lemma append_empty_r (s : string) : (s ++ "")%string = s.
Proof. induction s as [|c s IH]; cbn; [reflexivity|rewrite IH; reflexivity]. Qed.

Lemma append_assoc_one (b : string) c (t : string) :
  ((b ++ String c "") ++ t)%string = (b ++ String c t)%string.
Proof. induction b as [|x b IH]; cbn; [reflexivity|rewrite IH; reflexivity]. Qed.

Lemma length_append_one (b : string) c :
  String.length (b ++ String c "") = S (String.length b).
Proof. induction b as [|x b IH]; cbn; [reflexivity|rewrite IH; reflexivity]. Qed.

Lemma substring_0_0 (s : string) : String.substring 0 0 s = ""%string.
Proof. destruct s; reflexivity. Qed.

Lemma checkSerial_collects nl rest text : forall b,
  is_line_end nl = true ->
  string_forall (fun c => negb (is_line_end c)) text = true ->
  (0 < String.length b + String.length text)%nat ->
  (String.length b <= 63)%nat ->
  checkSerial (text ++ String nl rest) b
  = (true,
     c_str (b ++ uppercase (String.substring 0 (63 - String.length b) text)),
     rest).
Proof.
  intros b NL. revert b. induction text as [|c t IH]; intros b T P B.
  - cbn [append checkSerial]. unfold is_line_end in NL. rewrite NL.
    destruct (Z.ltb_spec 0 (Z.of_nat (String.length b))) as [_|H];
      [|cbn in P; lia].
    destruct (63 - String.length b)%nat; cbn; rewrite append_empty_r; reflexivity.
  - cbn [string_forall] in T. apply andb_true_iff in T. destruct T as [Tc Tt].
    cbn [append checkSerial]. unfold is_line_end in Tc.
    apply negb_true_iff in Tc. rewrite Tc. unfold MAX_CMD_LENGTH.
    destruct (Z.ltb_spec (Z.of_nat (String.length b)) (64 - 1)) as [Lt|Ge].
    + rewrite IH; [|exact Tt|rewrite length_append_one; lia
                   |rewrite length_append_one; lia].
      rewrite length_append_one.
      replace (63 - String.length b)%nat with (S (63 - S (String.length b)))
        by lia.
      cbn [String.substring uppercase]. rewrite append_assoc_one. reflexivity.
    + assert (E : String.length b = 63%nat) by lia.
      rewrite IH; [|exact Tt|lia|lia]. rewrite E. cbn [Nat.sub].
      rewrite !substring_0_0. reflexivity.
Qed.

Lemma c_str_not_nul (s : string) :
  string_forall not_nul s = true -> c_str s = s.
Proof.
  induction s as [|c s IH]; cbn [string_forall c_str]; [reflexivity|].
  intros H. apply andb_true_iff in H. destruct H as [C S].
  unfold not_nul in C. apply negb_true_iff in C. rewrite C, (IH S). reflexivity.
Qed.

Lemma c_str_holds_no_nul (s : string) : string_forall not_nul (c_str s) = true.
Proof.
  induction s as [|c s IH]; cbn [c_str]; [reflexivity|].
  destruct (Ascii.eqb c Ascii.zero) eqn:C; [reflexivity|].
  cbn [string_forall]. unfold not_nul at 1. rewrite C, IH. reflexivity.
Qed.

Lemma c_str_length (s : string) : (String.length (c_str s) <= String.length s)%nat.
Proof.
  induction s as [|c s IH]; cbn [c_str]; [lia|].
  destruct (Ascii.eqb c Ascii.zero); cbn [String.length]; lia.
Qed.

Lemma c_str_forall p (s : string) :
  string_forall p s = true -> string_forall p (c_str s) = true.
Proof.
  induction s as [|c s IH]; cbn [c_str string_forall]; [reflexivity|].
  intros H. apply andb_true_iff in H. destruct H as [C S].
  destruct (Ascii.eqb c Ascii.zero); [reflexivity|].
  cbn [string_forall]. rewrite C, (IH S). reflexivity.
Qed.

Lemma toupper_not_nul c : not_nul c = true -> not_nul (CStr.toupper c) = true.
Proof.
  destruct c as [[|] [|] [|] [|] [|] [|] [|] [|]]; vm_compute;
    first [reflexivity | discriminate].
Qed.

Lemma uppercase_not_nul (s : string) :
  string_forall not_nul s = true -> string_forall not_nul (uppercase s) = true.
Proof.
  induction s as [|c s IH]; cbn [uppercase string_forall]; [reflexivity|].
  intros H. apply andb_true_iff in H. destruct H as [C S].
  rewrite (toupper_not_nul _ C), (IH S). reflexivity.
Qed.

Lemma substring_forall p (s : string) : forall n,
  string_forall p s = true ->
  string_forall p (String.substring 0 n s) = true.
Proof.
  induction s as [|c s IH]; intros n H.
  - destruct n; reflexivity.
  - destruct n; [reflexivity|].
    cbn [string_forall] in H. apply andb_true_iff in H. destruct H as [C S].
    cbn [String.substring string_forall]. rewrite C, (IH n S). reflexivity.
Qed.

(** X1. A line of text that ends in [\n] or [\r] is handed over as one
    command: its first 63 characters, letters in upper case, cut at the
    first NUL character if there is one among them; for a line without NUL
    that is the first 63 characters in upper case.  Everything up to and
    including the line end is consumed, the rest is left waiting. *)
Theorem checkSerial_hands_over_line text nl rest :
  is_line_end nl = true ->
  string_forall (fun c => negb (is_line_end c)) text = true ->
  text <> ""%string ->
  checkSerial (text ++ String nl rest) ""
  = (true, c_str (uppercase (String.substring 0 63 text)), rest)
  /\ (string_forall not_nul text = true ->
      checkSerial (text ++ String nl rest) ""
      = (true, uppercase (String.substring 0 63 text), rest)).
Proof.
  intros NL T NE.
  assert (E : checkSerial (text ++ String nl rest) ""
              = (true, c_str (uppercase (String.substring 0 63 text)), rest)).
  { rewrite (checkSerial_collects nl rest text ""%string NL T).
    - reflexivity.
    - destruct text; [congruence|cbn; lia].
    - cbn; lia. }
  split; [exact E|].
  intros Z. rewrite E. rewrite c_str_not_nul; [reflexivity|].
  apply uppercase_not_nul, substring_forall. exact Z.
Qed.

Lemma checkSerial_hands_over_line_witness :
  checkSerial ("wind start" ++ String "000" "junk" ++ String "010" "sys status") ""
  = (true, "WIND START"%string, "sys status"%string)
  /\ checkSerial ("wind count 8000" ++ String "010" "sys status") ""
     = (true, "WIND COUNT 8000"%string, "sys status"%string).
Proof.
  split.
  - apply (checkSerial_hands_over_line
             ("wind start" ++ String "000" "junk") "010" "sys status");
      [reflexivity|reflexivity|discriminate].
  - apply (checkSerial_hands_over_line "wind count 8000" "010" "sys status");
      [reflexivity|reflexivity|discriminate|reflexivity].
Defined.

Lemma toupper_command_char c :
  is_line_end c = false -> command_char (CStr.toupper c) = true.
Proof.
  destruct c as [[|] [|] [|] [|] [|] [|] [|] [|]]; vm_compute;
    first [reflexivity | discriminate].
Qed.

Lemma string_forall_append_one p (b : string) c :
  string_forall p b = true -> p c = true ->
  string_forall p (b ++ String c "") = true.
Proof.
  intros B C. induction b as [|x b IH]; cbn in *.
  - rewrite C. reflexivity.
  - apply andb_true_iff in B. destruct B as [X B]. rewrite X, (IH B). reflexivity.
Qed.

(** X2. Whatever arrives on the serial port, starting from a buffer of at
    most 63 characters without line end or lower-case letter (the empty
    buffer, for one), a command that [checkSerial] hands over has at most 63
    characters, so that it fits the 64-byte copy [processCommand] makes of
    it, and holds no line end, no lower-case letter and no NUL.  It has at
    least one character when neither the buffer nor the input holds a NUL;
    a NUL at the start of a line gives the empty command. *)
Theorem checkSerial_command_wellformed rx : forall b line rest,
  (String.length b <= 63)%nat ->
  string_forall command_char b = true ->
  checkSerial rx b = (true, line, rest) ->
  (String.length line <= 63)%nat
  /\ string_forall command_char line = true
  /\ string_forall not_nul line = true
  /\ (string_forall not_nul b = true -> string_forall not_nul rx = true ->
      (1 <= String.length line)%nat).
Proof.
  induction rx as [|c rx IH]; intros b line rest B W E.
  - discriminate.
  - cbn [checkSerial] in E. fold (is_line_end c) in E.
    destruct (is_line_end c) eqn:LE.
    + destruct (Z.ltb_spec 0 (Z.of_nat (String.length b))).
      * injection E as <- <-.
        split; [pose proof (c_str_length b); lia|].
        split; [apply c_str_forall; exact W|].
        split; [apply c_str_holds_no_nul|].
        intros Nb _. rewrite (c_str_not_nul _ Nb). lia.
      * destruct (IH _ _ _ B W E) as (L1 & L2 & L3 & L4).
        split; [exact L1|]. split; [exact L2|]. split; [exact L3|].
        intros Nb Nrx. cbn [string_forall] in Nrx.
        apply andb_true_iff in Nrx. apply L4; [exact Nb|apply Nrx].
    + unfold MAX_CMD_LENGTH in E.
      destruct (Z.ltb_spec (Z.of_nat (String.length b)) (64 - 1)).
      * destruct (IH (b ++ String (CStr.toupper c) "")%string line rest)
          as (L1 & L2 & L3 & L4).
        -- rewrite length_append_one. lia.
        -- apply string_forall_append_one; [exact W|].
           apply toupper_command_char. exact LE.
        -- exact E.
        -- split; [exact L1|]. split; [exact L2|]. split; [exact L3|].
           intros Nb Nrx. cbn [string_forall] in Nrx.
           apply andb_true_iff in Nrx. destruct Nrx as [Nc Nrx].
           apply L4; [|exact Nrx].
           apply string_forall_append_one; [exact Nb|].
           apply toupper_not_nul. exact Nc.
      * destruct (IH _ _ _ B W E) as (L1 & L2 & L3 & L4).
        split; [exact L1|]. split; [exact L2|]. split; [exact L3|].
        intros Nb Nrx. cbn [string_forall] in Nrx.
        apply andb_true_iff in Nrx. apply L4; [exact Nb|apply Nrx].
Qed.

Lemma checkSerial_command_wellformed_witness :
  ((String.length "WIND STOP" <= 63)%nat
   /\ string_forall command_char "WIND STOP" = true
   /\ string_forall not_nul "WIND STOP" = true
   /\ (1 <= String.length "WIND STOP")%nat)
  /\ checkSerial (String "000" (String "010" "")) "" = (true, ""%string, ""%string).
Proof.
  split; [|reflexivity].
  destruct (checkSerial_command_wellformed
              (String "013" (String "010" ("wind stop" ++ String "013" "")))
              ""%string "WIND STOP"%string ""%string)
    as (L1 & L2 & L3 & L4).
  - cbn; lia.
  - reflexivity.
  - reflexivity.
  - split; [exact L1|]. split; [exact L2|]. split; [exact L3|].
    apply L4; reflexivity.
Defined.

(** ** The safety timeout *)

Lemma ulong32_elapsed last d :
  0 <= d < 2 ^ 32 ->
  Mach.ulong32 (Mach.ulong32 (last + d) - last) = d.
Proof.
  intros Hd. unfold Mach.ulong32, Mach.wrapu.
  rewrite Zminus_mod_idemp_l.
  replace (last + d - last) with d by lia.
  apply Z.mod_small. exact Hd.
Qed.

(** X3. The timeout measures elapsed time in unsigned 32-bit arithmetic, so
    it is not disturbed when [millis()] rolls over: [d] milliseconds after
    the last command, whether or not the counter has wrapped in between,
    the outputs are cut off if [d] exceeds the limit and nothing happens
    otherwise. *)
Theorem checkTimeout_across_rollover s d :
  0 <= d < 2 ^ 32 ->
  let now := Mach.ulong32 (lastCommandTime s + d) in
  (d <= timeoutLimit s -> checkTimeout now s = s)
  /\ (timeoutLimit s < d -> outputsEnabled s = true ->
      checkTimeout now s
      = say "STATUS: AUTO-TIMEOUT - Outputs disabled"
          (set_running false (disableOutputs s))).
Proof.
  intros Hd now. unfold checkTimeout, now. rewrite (ulong32_elapsed _ d Hd).
  split.
  - intros Le. destruct (Z.gtb_spec d (timeoutLimit s)); [lia|reflexivity].
  - intros Lt O. destruct (Z.gtb_spec d (timeoutLimit s)); [|lia].
    rewrite O. reflexivity.
Qed.

Lemma checkTimeout_across_rollover_witness :
  let s := set_outputsEnabled true (set_lastCommandTime 4294967000 (boot zeroed)) in
  let now := Mach.ulong32 (lastCommandTime s + 10001) in
  (10001 <= timeoutLimit s -> checkTimeout now s = s)
  /\ (timeoutLimit s < 10001 -> outputsEnabled s = true ->
      checkTimeout now s
      = say "STATUS: AUTO-TIMEOUT - Outputs disabled"
          (set_running false (disableOutputs s))).
Proof.
  intros s. apply (checkTimeout_across_rollover s 10001). lia.
Defined.

Lemma ulong32_range x : 0 <= Mach.ulong32 x <= 4294967295.
Proof.
  unfold Mach.ulong32, Mach.wrapu.
  pose proof (Z.mod_pos_bound x (2 ^ 32) ltac:(lia)). lia.
Qed.

Lemma timeoutLimit_erased s :
  (forall i, eeprom s i = 255) -> timeoutLimit (loadSettings s) = 4294967295.
Proof.
  intros H.
  cbv beta zeta delta [loadSettings]. do 8 peel.
  match goal with
  | |- timeoutLimit (check_timeout_limit ?x) = _ =>
      assert (E : timeoutLimit x = 4294967295);
      [ | revert E; generalize x; intros y E ]
  end.
  { do 9 peel. apply read_timeout_erased.
    intro i. rewrite <- (H i). apply (f_equal (fun m => m i)).
    do 4 peel. reflexivity. }
  unfold check_timeout_limit. rewrite E. exact E.
Qed.

(** X4. On a device whose EEPROM is erased the timeout limit that
    [loadSettings] leaves is the largest [unsigned long], which no elapsed
    time exceeds: in every later state that still has this limit
    [checkTimeout] does nothing, at any time. *)
Theorem erased_device_never_times_out s s' now :
  (forall i, eeprom s i = 255) ->
  timeoutLimit s' = timeoutLimit (loadSettings s) ->
  checkTimeout now s' = s'.
Proof.
  intros H L. rewrite (timeoutLimit_erased s H) in L.
  unfold checkTimeout. rewrite L.
  pose proof (ulong32_range (now - lastCommandTime s')) as R.
  destruct (Z.gtb_spec (Mach.ulong32 (now - lastCommandTime s')) 4294967295);
    [lia|reflexivity].
Qed.

Lemma erased_device_never_times_out_witness :
  checkTimeout 4000000000
    (set_outputsEnabled true (loadSettings (power_on EEPROM.erased)))
  = set_outputsEnabled true (loadSettings (power_on EEPROM.erased)).
Proof.
  apply (erased_device_never_times_out (power_on EEPROM.erased)).
  - intro i. reflexivity.
  - vm_compute. reflexivity.
Defined.

(** ** Loops without commands *)

Lemma timed_loops_idle cosf ts s :
  running s = false -> outputsEnabled s = false ->
  timed_loops cosf ts s = Ok s.
Proof.
  intros R O. induction ts as [|t ts IH]; [reflexivity|].
  cbn [timed_loops]. rewrite (loop_idle cosf t s R O). exact IH.
Qed.

(** X5. [STEPPER ENABLE] and [SERVO ENABLE] switch the driver and the servo
    on without marking the outputs as enabled.  On an idle machine the
    timeout therefore never switches them off again: however many loop
    iterations pass, at whatever times, the state stays as the command left
    it. *)
Theorem enable_commands_escape_the_timeout cosf now s ts :
  running s = false -> outputsEnabled s = false ->
  (exists s', processCommand now "STEPPER ENABLE" s = Ok s'
              /\ enPin s' = LOW /\ outputsEnabled s' = false
              /\ timed_loops cosf ts s' = Ok s')
  /\ (exists s', processCommand now "SERVO ENABLE" s = Ok s'
                 /\ servoAttached s' = true /\ outputsEnabled s' = false
                 /\ timed_loops cosf ts s' = Ok s').
Proof.
  intros R O. split.
  - eexists. split; [reflexivity|]. split; [reflexivity|]. split; [exact O|].
    apply timed_loops_idle; [exact R|exact O].
  - eexists. split; [reflexivity|]. split.
    + cbn. unfold enableServo. cbn. destruct (servoAttached s) eqn:A; cbn; [exact A|reflexivity].
    + split.
      * unfold enableServo. cbn. destruct (servoAttached s); exact O.
      * apply timed_loops_idle; unfold enableServo; cbn;
          destruct (servoAttached s); assumption.
Qed.

Lemma enable_commands_escape_the_timeout_witness :
  (exists s', processCommand 5 "STEPPER ENABLE" (boot zeroed) = Ok s'
              /\ enPin s' = LOW /\ outputsEnabled s' = false
              /\ timed_loops any_cos [20000; 40000; 4000000000] s' = Ok s')
  /\ (exists s', processCommand 5 "SERVO ENABLE" (boot zeroed) = Ok s'
                 /\ servoAttached s' = true /\ outputsEnabled s' = false
                 /\ timed_loops any_cos [20000; 40000; 4000000000] s' = Ok s').
Proof.
  apply (enable_commands_escape_the_timeout any_cos 5 (boot zeroed)
           [20000; 40000; 4000000000]); vm_compute; reflexivity.
Defined.

(** ** Stop, pause and resume *)

(** X6. [WIND STOP] clears [running] but not [paused].  A paused job that
    is stopped can therefore still be resumed: [WIND RESUME] enables the
    outputs and the job runs on from the step it was paused at. *)
Theorem stop_does_not_end_a_paused_job now1 now2 s :
  paused s = true ->
  exists s1 s2,
    processCommand now1 "WIND STOP" s = Ok s1
    /\ running s1 = false /\ paused s1 = true
    /\ processCommand now2 "WIND RESUME" s1 = Ok s2
    /\ running s2 = true /\ paused s2 = false /\ outputsEnabled s2 = true
    /\ stepCount s2 = stepCount s /\ totalSteps s2 = totalSteps s.
Proof.
  intros P. eexists. eexists.
  split; [reflexivity|]. split; [reflexivity|]. split; [exact P|].
  split.
  - rewrite processCommand_WIND_RESUME.
    change (paused (say _ (set_verboseMode _ (set_running _ (set_lastCommandTime _ s)))))
      with (paused s).
    rewrite P. reflexivity.
  - repeat split; unfold enableOutputs; cbn; destruct (servoAttached s); reflexivity.
Qed.

Lemma stop_does_not_end_a_paused_job_witness :
  exists s1 s2,
    processCommand 10 "WIND STOP" (set_stepCount 100 (set_paused true (boot zeroed)))
      = Ok s1
    /\ running s1 = false /\ paused s1 = true
    /\ processCommand 20 "WIND RESUME" s1 = Ok s2
    /\ running s2 = true /\ paused s2 = false /\ outputsEnabled s2 = true
    /\ stepCount s2 = stepCount (set_stepCount 100 (set_paused true (boot zeroed)))
    /\ totalSteps s2 = totalSteps (set_stepCount 100 (set_paused true (boot zeroed))).
Proof.
  apply (stop_does_not_end_a_paused_job 10 20
           (set_stepCount 100 (set_paused true (boot zeroed)))).
  vm_compute. reflexivity.
Defined.

(** ** A winding job *)

Lemma checkTimeout_in_time t s : in_time s t -> checkTimeout t s = s.
Proof.
  unfold in_time, checkTimeout. intros H.
  destruct (Z.gtb_spec (Mach.ulong32 (t - lastCommandTime s)) (timeoutLimit s));
    [lia|reflexivity].
Qed.

Lemma updateServoPosition_moves_servo_only c N mn mx sc s :
  N <> 0 ->
  exists p w,
    updateServoPosition c N mn mx sc s = Ok (set_servoWritten w (set_servoPos p s)).
Proof.
  intros HN. unfold updateServoPosition.
  destruct (Z.eqb_spec N 0) as [?|_]; [contradiction|].
  cbv zeta. destruct (N <=? 1).
  - eexists. eexists. reflexivity.
  - destruct (Z.rem (Z.quot (Z.quot c stepsPerTurn) N) 2 =? 0);
      eexists; eexists; reflexivity.
Qed.

Lemma sweepStep_moves_servo_only s :
  sweep_safe s ->
  exists p w, sweepStep s = Ok (set_servoWritten w (set_servoPos p s)).
Proof.
  intros [F P]. unfold sweepStep.
  assert (Same : exists p w, Ok s = Ok (set_servoWritten w (set_servoPos p s))).
  { exists (servoPos s), (servoWritten s). destruct s; reflexivity. }
  destruct ((stepCount s >? 0) && (Z.rem (stepCount s) stepsPerTurn =? 0));
    [|exact Same].
  destruct (SweepControlMode_eqb (sweepControlMode s) SWEEP_MODE_FIRMWARE).
  - apply updateServoPosition_moves_servo_only. apply F. reflexivity.
  - destruct (SweepControlMode_eqb (sweepControlMode s) SWEEP_MODE_PATTERN).
    + apply updateServoPosition_moves_servo_only. apply P. reflexivity.
    + exact Same.
Qed.

Lemma stepWithAcceleration_state cosf s :
  snd (stepWithAcceleration cosf s)
  = set_stepCount (Mach.long32 (stepCount s + 1))
      (set_stepPulses (stepPulses s + 1) s).
Proof. reflexivity. Qed.

Lemma long32_fits x : - 2 ^ 31 <= x < 2 ^ 31 -> Mach.long32 x = x.
Proof. intros H. apply wraps_small; [lia | exact H]. Qed.

(** One iteration of a running job: one pulse, one step counted. *)
Lemma loop_running_step cosf t s :
  running s = true -> outputsEnabled s = true ->
  0 <= stepCount s < totalSteps s -> totalSteps s < 2 ^ 31 ->
  in_time s t -> sweep_safe s ->
  exists s',
    loop cosf None t t s = Ok s'
    /\ stepCount s' = stepCount s + 1
    /\ stepPulses s' = stepPulses s + 1
    /\ totalSteps s' = totalSteps s
    /\ lastCommandTime s' = lastCommandTime s
    /\ timeoutLimit s' = timeoutLimit s
    /\ sweepControlMode s' = sweepControlMode s
    /\ turnsPerLayer s' = turnsPerLayer s
    /\ patternTurnsPerLayer s' = patternTurnsPerLayer s
    /\ paused s' = paused s
    /\ (stepCount s + 1 < totalSteps s ->
        running s' = true /\ outputsEnabled s' = true)
    /\ (stepCount s + 1 = totalSteps s ->
        running s' = false /\ outputsEnabled s' = false /\ enPin s' = HIGH
        /\ servoAttached s' = false /\ verboseMode s' = false).
Proof.
  intros R O C T IT SS. unfold loop. cbn [bind].
  rewrite (checkTimeout_in_time t s IT). rewrite R, O. cbn [andb].
  destruct (Z.ltb_spec (stepCount s) (totalSteps s)) as [_|?]; [|lia].
  rewrite (surjective_pairing (stepWithAcceleration cosf s)).
  rewrite stepWithAcceleration_state.
  rewrite (long32_fits (stepCount s + 1)) by lia.
  set (s1 := set_stepCount (stepCount s + 1) (set_stepPulses (stepPulses s + 1) s)).
  set (s2 := if verboseMode s1 && (stepCount s1 >? 0)
                && (Z.rem (stepCount s1) stepsPerTurn =? 0)
             then say "  -> Turn: " s1 else s1).
  assert (SS2 : sweep_safe s2).
  { unfold s2. destruct (verboseMode s1 && _ && _); exact SS. }
  destruct (sweepStep_moves_servo_only s2 SS2) as (p & w & E).
  rewrite E. cbn [bind].
  set (s3 := set_servoWritten w (set_servoPos p s2)).
  assert (F3 : stepCount s3 = stepCount s + 1 /\ totalSteps s3 = totalSteps s).
  { unfold s3, s2. destruct (verboseMode s1 && _ && _); split; reflexivity. }
  destruct F3 as (C3 & T3). rewrite C3, T3.
  destruct (Z.geb_spec (stepCount s + 1) (totalSteps s)) as [Ge|Lt].
  - eexists. split; [reflexivity|].
    unfold disableOutputs, s3, s2, s1.
    match goal with |- context [if ?c then say "  -> Turn: " _ else _] => destruct c end;
      cbn; destruct (servoAttached s) eqn:A; cbn; rewrite ?A;
      repeat (split; try reflexivity; try (intros; lia)).
  - eexists. split; [reflexivity|].
    unfold s3, s2, s1.
    match goal with |- context [if ?c then say "  -> Turn: " _ else _] => destruct c end;
      cbn; repeat (split; try assumption; try reflexivity; try (intros; lia)).
Qed.

Lemma job_runs cosf : forall ts s,
  running s = true -> outputsEnabled s = true ->
  0 <= stepCount s -> ts <> [] ->
  stepCount s + Z.of_nat (List.length ts) = totalSteps s ->
  totalSteps s < 2 ^ 31 ->
  Forall (in_time s) ts -> sweep_safe s ->
  exists s',
    timed_loops cosf ts s = Ok s'
    /\ running s' = false /\ outputsEnabled s' = false /\ enPin s' = HIGH
    /\ servoAttached s' = false /\ verboseMode s' = false
    /\ stepCount s' = totalSteps s
    /\ stepPulses s' = stepPulses s + Z.of_nat (List.length ts)
    /\ paused s' = paused s.
Proof.
  induction ts as [|t r IH]; intros s R O C NE L T IT SS; [congruence|].
  cbn [List.length] in L. rewrite Nat2Z.inj_succ in L.
  pose proof (Forall_inv IT) as IT0. pose proof (Forall_inv_tail IT) as ITr.
  destruct (loop_running_step cosf t s R O ltac:(lia) T IT0 SS)
    as (s1 & E & C1 & P1 & T1 & LC & TL & M & TP & PT & PA & Run & Fin).
  cbn [timed_loops]. rewrite E. cbn [bind].
  destruct r as [|t' r'].
  - cbn [List.length] in *. destruct (Fin ltac:(lia)) as (R1 & O1 & EN & SA & VM).
    exists s1. cbn [timed_loops].
    repeat (split; [first [assumption | reflexivity | lia]|]). exact PA.
  - destruct (Run ltac:(cbn [List.length] in L; lia)) as (R1 & O1).
    destruct (IH s1 R1 O1 ltac:(lia) ltac:(discriminate) ltac:(lia) ltac:(lia))
      as (s' & E' & R' & O' & EN & SA & VM & C' & P' & PA').
    + revert ITr. apply Forall_impl. intros a. unfold in_time.
      rewrite LC, TL. exact (fun H => H).
    + destruct SS as (F & P). unfold sweep_safe. rewrite M, TP, PT.
      split; assumption.
    + exists s'. rewrite E'.
      repeat (split; [first [assumption | reflexivity | lia]|]).
      split; [|rewrite PA'; exact PA].
      rewrite P', P1. cbn [List.length]. rewrite !Nat2Z.inj_succ. lia.
Qed.

(** Removes steps that leave the field alone, through conditionals. *)
Ltac frame_step :=
  lazymatch goal with
  | |- _ (if ?c then _ else _) = _ => destruct c
  | |- _ (match ?l with nil => _ | cons _ _ => _ end) = _ => destruct l
  | |- _ => peel
  end.

Ltac framed :=
  repeat frame_step;
  first [ reflexivity
        | unfold enableOutputs, disableOutputs; cbv zeta;
          repeat frame_step; reflexivity ].

Lemma windCommand_START s0 :
  exists x, windCommand "START" [] s0 = Ok x
    /\ running x = true /\ outputsEnabled x = true /\ enPin x = LOW
    /\ paused x = false
    /\ stepCount x = 0
    /\ totalSteps x = Mach.long32 (targetTurns s0 * stepsPerTurn)
    /\ lastCommandTime x = lastCommandTime s0 /\ timeoutLimit x = timeoutLimit s0
    /\ sweepControlMode x = sweepControlMode s0
    /\ turnsPerLayer x = turnsPerLayer s0
    /\ patternTurnsPerLayer x = patternTurnsPerLayer s0
    /\ stepPulses x = stepPulses s0.
Proof.
  cbv beta zeta delta [windCommand]. rewrite String.eqb_refl.
  eexists. split; [reflexivity|].
  do 5 (split; [framed|]).
  split.
  { do 4 peel.
    match goal with
    | |- totalSteps (set_totalSteps ?v _) = _ => change (totalSteps (set_totalSteps v _)) with v
    end.
    f_equal. f_equal. framed. }
  do 5 (split; [framed|]). framed.
Qed.

Lemma processCommand_WIND_START now s :
  processCommand now "WIND START" s
  = windCommand "START" [] (set_lastCommandTime now s).
Proof. reflexivity. Qed.

(** X7. A job started with [WIND START] runs to its end when nothing
    interferes: after [3200 * targetTurns] loop iterations, each within the
    timeout of the start command, exactly that many step pulses have been
    emitted, the step count equals the total, and the machine has stopped
    with the outputs disabled.  (The sweep must have a non-zero number of
    turns per layer to divide by.) *)
Theorem winding_job_completes cosf now s ts :
  0 < targetTurns s <= 671088 ->
  sweep_safe s ->
  List.length ts = Z.to_nat (targetTurns s * stepsPerTurn) ->
  Forall (fun t => Mach.ulong32 (t - now) <= timeoutLimit s) ts ->
  exists s1 s2,
    processCommand now "WIND START" s = Ok s1
    /\ timed_loops cosf ts s1 = Ok s2
    /\ running s2 = false /\ outputsEnabled s2 = false /\ enPin s2 = HIGH
    /\ servoAttached s2 = false
    /\ stepCount s2 = targetTurns s * stepsPerTurn
    /\ stepPulses s2 = stepPulses s + targetTurns s * stepsPerTurn.
Proof.
  intros HT SS L IT. unfold stepsPerTurn in *.
  rewrite processCommand_WIND_START.
  destruct (windCommand_START (set_lastCommandTime now s))
    as (x & E & R & O & _ & _ & C & T & LC & TL & M & TP & PT & SP).
  change (lastCommandTime (set_lastCommandTime now s)) with now in LC.
  change (targetTurns (set_lastCommandTime now s)) with (targetTurns s) in T.
  change (timeoutLimit (set_lastCommandTime now s)) with (timeoutLimit s) in TL.
  change (sweepControlMode (set_lastCommandTime now s)) with (sweepControlMode s) in M.
  change (turnsPerLayer (set_lastCommandTime now s)) with (turnsPerLayer s) in TP.
  change (patternTurnsPerLayer (set_lastCommandTime now s))
    with (patternTurnsPerLayer s) in PT.
  change (stepPulses (set_lastCommandTime now s)) with (stepPulses s) in SP.
  unfold stepsPerTurn in T.
  rewrite (long32_fits (targetTurns s * 3200)) in T by lia.
  destruct (job_runs cosf ts x R O ltac:(lia)) as (s2 & E2 & F).
  - intros ->. cbn in L. lia.
  - rewrite C, T, L, Z2Nat.id by lia. lia.
  - lia.
  - revert IT. apply Forall_impl. intros a. unfold in_time. rewrite LC, TL.
    exact (fun H => H).
  - destruct SS as (F & P). unfold sweep_safe. rewrite M, TP, PT. split; assumption.
  - exists x, s2. split; [exact E|]. split; [exact E2|].
    destruct F as (R' & O' & EN & SA & VM & C' & P' & PA').
    rewrite T in C'. rewrite L, Z2Nat.id, SP in P' by lia.
    repeat (split; [assumption|]). exact P'.
Qed.

Lemma winding_job_completes_witness :
  exists s1 s2,
    processCommand 5 "WIND START" (set_targetTurns 1 (boot zeroed)) = Ok s1
    /\ timed_loops any_cos (repeat 100 3200) s1 = Ok s2
    /\ running s2 = false /\ outputsEnabled s2 = false /\ enPin s2 = HIGH
    /\ servoAttached s2 = false
    /\ stepCount s2 = targetTurns (set_targetTurns 1 (boot zeroed)) * stepsPerTurn
    /\ stepPulses s2
       = stepPulses (set_targetTurns 1 (boot zeroed))
         + targetTurns (set_targetTurns 1 (boot zeroed)) * stepsPerTurn.
Proof.
  apply (winding_job_completes any_cos 5 (set_targetTurns 1 (boot zeroed))
           (repeat 100 3200)).
  - vm_compute. split; [reflexivity|discriminate].
  - split; vm_compute; [intros _ H; discriminate H|intros H; discriminate H].
  - vm_compute. reflexivity.
  - apply Forall_forall. intros t H. apply repeat_spec in H. subst t.
    vm_compute. discriminate.
Defined.

Lemma loop_nothing_left cosf t s :
  in_time s t -> totalSteps s <= stepCount s -> loop cosf None t t s = Ok s.
Proof.
  intros IT C. unfold loop. cbn [bind]. rewrite (checkTimeout_in_time t s IT).
  destruct (Z.ltb_spec (stepCount s) (totalSteps s)); [lia|].
  rewrite !andb_false_r. reflexivity.
Qed.

(** X8. [WIND START] with a target of zero turns (the value after power-on)
    or less reports "Winding STARTED" and enables the outputs, but the loop
    then has nothing to do and never reports completion: as long as the
    timeout has not expired the machine stays RUNNING with the outputs on
    and emits no pulse. *)
Theorem start_without_turns cosf now s ts :
  -671088 <= targetTurns s <= 0 ->
  Forall (fun t => Mach.ulong32 (t - now) <= timeoutLimit s) ts ->
  exists s1,
    processCommand now "WIND START" s = Ok s1
    /\ running s1 = true /\ outputsEnabled s1 = true /\ enPin s1 = LOW
    /\ timed_loops cosf ts s1 = Ok s1.
Proof.
  intros HT IT. rewrite processCommand_WIND_START.
  destruct (windCommand_START (set_lastCommandTime now s))
    as (x & E & R & O & EN & _ & C & T & LC & TL & _).
  change (lastCommandTime (set_lastCommandTime now s)) with now in LC.
  change (targetTurns (set_lastCommandTime now s)) with (targetTurns s) in T.
  change (timeoutLimit (set_lastCommandTime now s)) with (timeoutLimit s) in TL.
  unfold stepsPerTurn in T.
  rewrite (long32_fits (targetTurns s * 3200)) in T by lia.
  exists x. split; [exact E|]. split; [exact R|]. split; [exact O|].
  split; [exact EN|].
  induction ts as [|t r IH]; [reflexivity|].
  cbn [timed_loops]. rewrite loop_nothing_left.
  - cbn [bind]. apply IH. exact (Forall_inv_tail IT).
  - unfold in_time. rewrite LC, TL. exact (Forall_inv IT).
  - lia.
Qed.

Lemma start_without_turns_witness :
  exists s1,
    processCommand 5 "WIND START" (boot zeroed) = Ok s1
    /\ running s1 = true /\ outputsEnabled s1 = true /\ enPin s1 = LOW
    /\ timed_loops any_cos [6; 100; 10005] s1 = Ok s1.
Proof.
  apply (start_without_turns any_cos 5 (boot zeroed) [6; 100; 10005]).
  - vm_compute. split; discriminate.
  - repeat constructor; vm_compute; discriminate.
Defined.

(** ** The sanity checks *)

Lemma SFcompare_antisym x y :
  SFcompare y x
  = match SFcompare x y with Some c => Some (CompOpp c) | None => None end.
Proof.
  destruct x as [sx|sx| |sx mx ex], y as [sy|sy| |sy my ey]; cbn;
    try reflexivity;
    try (destruct sx; reflexivity); try (destruct sy; reflexivity);
    try (destruct sx, sy; reflexivity).
  assert (P : Pos.compare_cont Eq my mx = CompOpp (Pos.compare_cont Eq mx my))
    by exact (Pos.compare_antisym mx my).
  destruct sx, sy; try reflexivity.
  - rewrite (Z.compare_antisym ex ey).
    destruct (ex ?= ey); cbn; try reflexivity.
    change (PosDef.Pos.compare_cont Eq my mx) with (Pos.compare_cont Eq my mx).
    rewrite P. reflexivity.
  - rewrite (Z.compare_antisym ex ey).
    destruct (ex ?= ey); cbn; try reflexivity.
    change (PosDef.Pos.compare_cont Eq my mx) with (Pos.compare_cont Eq my mx).
    rewrite P. reflexivity.
Qed.

Lemma SFcompare_nan x y :
  F32.isnan x = false -> F32.isnan y = false -> exists c, SFcompare x y = Some c.
Proof.
  destruct x as [sx|sx| |sx mx ex], y as [sy|sy| |sy my ey]; cbn;
    intros; try discriminate; eexists; reflexivity.
Qed.

(** For numbers, "not [x >= y]" is [x < y]. *)
Lemma not_geb_ltb x y :
  F32.isnan x = false -> F32.isnan y = false ->
  F32.geb x y = false -> F32.ltb x y = true.
Proof.
  intros X Y. unfold F32.geb, F32.ltb, SFleb, SFltb.
  rewrite (SFcompare_antisym x y).
  destruct (SFcompare_nan x y X Y) as [c ->]. destruct c; cbn; congruence.
Qed.

(** For numbers, "not [x <= y]" is [y < x]. *)
Lemma not_leb_ltb x y :
  F32.isnan x = false -> F32.isnan y = false ->
  F32.leb x y = false -> F32.ltb y x = true.
Proof.
  intros X Y. unfold F32.leb, F32.ltb, SFleb, SFltb.
  rewrite (SFcompare_antisym x y).
  destruct (SFcompare_nan x y X Y) as [c ->]. destruct c; cbn; congruence.
Qed.

Lemma valid_angle_number x : valid_angle x = true -> F32.isnan x = false.
Proof.
  unfold valid_angle. intros H. apply negb_true_iff in H.
  apply orb_false_elim in H. destruct H as [H _].
  apply orb_false_elim in H. destruct H as [H _]. exact H.
Qed.

Lemma check_servo_angles_valid s :
  valid_angle (servoMinAngle (check_servo_angles s)) = true
  /\ valid_angle (servoMaxAngle (check_servo_angles s)) = true
  /\ F32.ltb (servoMinAngle (check_servo_angles s))
       (servoMaxAngle (check_servo_angles s)) = true.
Proof.
  unfold check_servo_angles. cbv zeta.
  destruct (F32.isnan (servoMinAngle s) || F32.ltb (servoMinAngle s) (F32.of_Z 0)
            || F32.gtb (servoMinAngle s) (F32.of_Z 180)) eqn:A.
  - (* minimum replaced *)
    cbn [servoMaxAngle servoMinAngle set_servoMinAngle].
    change (servoMaxAngle (set_servoMinAngle (F32.of_Z 77) s)) with (servoMaxAngle s).
    destruct (F32.isnan (servoMaxAngle s) || F32.ltb (servoMaxAngle s) (F32.of_Z 0)
              || F32.gtb (servoMaxAngle s) (F32.of_Z 180)) eqn:B.
    + cbn. repeat split; reflexivity.
    + change (servoMinAngle (set_servoMinAngle (F32.of_Z 77) s)) with (F32.of_Z 77).
      change (servoMaxAngle (set_servoMinAngle (F32.of_Z 77) s)) with (servoMaxAngle s).
      destruct (F32.geb (F32.of_Z 77) (servoMaxAngle s)) eqn:G.
      * cbn. repeat split; reflexivity.
      * cbn [servoMinAngle servoMaxAngle set_servoMinAngle].
        assert (V : valid_angle (servoMaxAngle s) = true)
          by (unfold valid_angle; rewrite B; reflexivity).
        split; [reflexivity|]. split; [exact V|].
        apply not_geb_ltb; [reflexivity|apply valid_angle_number, V|exact G].
  - destruct (F32.isnan (servoMaxAngle s) || F32.ltb (servoMaxAngle s) (F32.of_Z 0)
              || F32.gtb (servoMaxAngle s) (F32.of_Z 180)) eqn:B.
    + change (servoMinAngle (set_servoMaxAngle (F32.of_Z 103) s)) with (servoMinAngle s).
      change (servoMaxAngle (set_servoMaxAngle (F32.of_Z 103) s)) with (F32.of_Z 103).
      assert (V : valid_angle (servoMinAngle s) = true)
        by (unfold valid_angle; rewrite A; reflexivity).
      destruct (F32.geb (servoMinAngle s) (F32.of_Z 103)) eqn:G.
      * cbn. repeat split; reflexivity.
      * cbn [servoMinAngle servoMaxAngle set_servoMaxAngle].
        split; [exact V|]. split; [reflexivity|].
        apply not_geb_ltb; [apply valid_angle_number, V|reflexivity|exact G].
    + assert (V : valid_angle (servoMinAngle s) = true)
        by (unfold valid_angle; rewrite A; reflexivity).
      assert (W : valid_angle (servoMaxAngle s) = true)
        by (unfold valid_angle; rewrite B; reflexivity).
      destruct (F32.geb (servoMinAngle s) (servoMaxAngle s)) eqn:G.
      * cbn. repeat split; reflexivity.
      * split; [exact V|]. split; [exact W|].
        apply not_geb_ltb;
          [apply valid_angle_number, V|apply valid_angle_number, W|exact G].
Qed.

Lemma valid_dimension_intro hi x :
  (F32.isnan x || F32.leb x F32.zero || F32.gtb x (F32.of_Z hi)) = false ->
  valid_dimension hi x = true.
Proof. unfold valid_dimension. intros ->. reflexivity. Qed.

Lemma check_bobbin_length_valid s :
  valid_dimension 1000 (bobbinLength (check_bobbin_length s)) = true.
Proof.
  unfold check_bobbin_length.
  destruct (F32.isnan (bobbinLength s) || F32.leb (bobbinLength s) F32.zero
            || F32.gtb (bobbinLength s) (F32.of_Z 1000)) eqn:A.
  - reflexivity.
  - apply valid_dimension_intro, A.
Qed.

Lemma check_bobbin_width_valid s :
  valid_dimension 1000 (bobbinWidth (check_bobbin_width s)) = true.
Proof.
  unfold check_bobbin_width.
  destruct (F32.isnan (bobbinWidth s) || F32.leb (bobbinWidth s) F32.zero
            || F32.gtb (bobbinWidth s) (F32.of_Z 1000)) eqn:A.
  - reflexivity.
  - apply valid_dimension_intro, A.
Qed.

Lemma check_bobbin_height_valid s :
  valid_dimension 100 (bobbinHeight (check_bobbin_height s)) = true.
Proof.
  unfold check_bobbin_height.
  destruct (F32.isnan (bobbinHeight s) || F32.leb (bobbinHeight s) F32.zero
            || F32.gtb (bobbinHeight s) (F32.of_Z 100)) eqn:A.
  - reflexivity.
  - apply valid_dimension_intro, A.
Qed.

Lemma check_wire_diameter_valid s :
  F32.isnan (wireDiameter (check_wire_diameter s)) = false
  /\ F32.ltb F32.zero (wireDiameter (check_wire_diameter s)) = true.
Proof.
  unfold check_wire_diameter.
  destruct (F32.isnan (wireDiameter s) || F32.leb (wireDiameter s) F32.zero) eqn:A.
  - split; reflexivity.
  - apply orb_false_elim in A. destruct A as [N L].
    split; [exact N|]. apply not_leb_ltb; [exact N|reflexivity|exact L].
Qed.

Lemma check_last_resistance_valid s :
  F32.isnan (lastCalcRequestedResistance (check_last_resistance s)) = false
  /\ F32.ltb (lastCalcRequestedResistance (check_last_resistance s)) F32.zero = false.
Proof.
  unfold check_last_resistance.
  destruct (F32.isnan (lastCalcRequestedResistance s)
            || F32.ltb (lastCalcRequestedResistance s) F32.zero) eqn:A.
  - split; reflexivity.
  - apply orb_false_elim in A. exact A.
Qed.

Lemma check_step_delay_valid s :
  initialStepDelay (check_step_delay s) <= 20000
  /\ (initialStepDelay (check_step_delay s) = 1000
      \/ minStepDelay (check_step_delay s) < initialStepDelay (check_step_delay s)).
Proof.
  unfold check_step_delay.
  destruct ((initialStepDelay s <=? minStepDelay s) || (initialStepDelay s >? 20000)) eqn:A.
  - cbn. split; [lia|left; reflexivity].
  - apply orb_false_elim in A. destruct A as [A B]. split; [lia|right; lia].
Qed.

Lemma check_timeout_limit_valid s : 1000 <= timeoutLimit (check_timeout_limit s).
Proof.
  unfold check_timeout_limit. destruct (timeoutLimit s <? 1000) eqn:A.
  - cbn. lia.
  - lia.
Qed.

Lemma check_accel_steps_valid s : 0 < accelSteps (check_accel_steps s) <= 10000.
Proof.
  unfold check_accel_steps.
  destruct ((accelSteps s <=? 0) || (accelSteps s >? 10000)) eqn:A.
  - cbn. lia.
  - apply orb_false_elim in A. lia.
Qed.

Lemma check_sweep_mode_valid s raw :
  sweepControlMode s = SweepControlMode_of_int raw ->
  sweepControlMode (check_sweep_mode s) = SWEEP_MODE_FIRMWARE
  \/ sweepControlMode (check_sweep_mode s) = SWEEP_MODE_GUI.
Proof.
  intros E. unfold check_sweep_mode, SweepControlMode_eqb. rewrite E.
  unfold SweepControlMode_of_int.
  destruct (raw =? 0) eqn:R0.
  - cbn. left. rewrite E. unfold SweepControlMode_of_int. rewrite R0. reflexivity.
  - destruct (raw =? 1) eqn:R1.
    + cbn. right. rewrite E. unfold SweepControlMode_of_int. rewrite R0, R1.
      reflexivity.
    + destruct (raw =? 2) eqn:R2.
      * cbn. left. reflexivity.
      * cbn [SweepControlMode_to_int]. rewrite R0, R1. cbn. left. reflexivity.
Qed.

(** X9. Whatever the EEPROM holds, the servo angles that [loadSettings]
    leaves are numbers from 0 to 180 with the minimum below the maximum. *)
Theorem loadSettings_servo_angles s :
  valid_angle (servoMinAngle (loadSettings s)) = true
  /\ valid_angle (servoMaxAngle (loadSettings s)) = true
  /\ F32.ltb (servoMinAngle (loadSettings s)) (servoMaxAngle (loadSettings s)) = true.
Proof.
  assert (X : exists x,
             servoMinAngle (loadSettings s) = servoMinAngle (check_servo_angles x)
             /\ servoMaxAngle (loadSettings s) = servoMaxAngle (check_servo_angles x)).
  { cbv beta zeta delta [loadSettings]. eexists.
    split; repeat peel; reflexivity. }
  destruct X as [x [-> ->]]. apply check_servo_angles_valid.
Qed.

(** X10. Whatever the EEPROM holds, [loadSettings] leaves a wire diameter
    that is a number above zero, bobbin dimensions that are numbers above
    zero and not above 1000, 1000 and 100, and a last requested resistance
    that is a number not below zero. *)
Theorem loadSettings_geometry s :
  F32.isnan (wireDiameter (loadSettings s)) = false
  /\ F32.ltb F32.zero (wireDiameter (loadSettings s)) = true
  /\ valid_dimension 1000 (bobbinLength (loadSettings s)) = true
  /\ valid_dimension 1000 (bobbinWidth (loadSettings s)) = true
  /\ valid_dimension 100 (bobbinHeight (loadSettings s)) = true
  /\ F32.isnan (lastCalcRequestedResistance (loadSettings s)) = false
  /\ F32.ltb (lastCalcRequestedResistance (loadSettings s)) F32.zero = false.
Proof.
  assert (W : exists x,
             wireDiameter (loadSettings s) = wireDiameter (check_wire_diameter x)).
  { cbv beta zeta delta [loadSettings]. eexists. repeat peel. reflexivity. }
  assert (L : exists x,
             bobbinLength (loadSettings s) = bobbinLength (check_bobbin_length x)).
  { cbv beta zeta delta [loadSettings]. eexists. repeat peel. reflexivity. }
  assert (B : exists x,
             bobbinWidth (loadSettings s) = bobbinWidth (check_bobbin_width x)).
  { cbv beta zeta delta [loadSettings]. eexists. repeat peel. reflexivity. }
  assert (H : exists x,
             bobbinHeight (loadSettings s) = bobbinHeight (check_bobbin_height x)).
  { cbv beta zeta delta [loadSettings]. eexists. repeat peel. reflexivity. }
  assert (R : exists x,
             lastCalcRequestedResistance (loadSettings s)
             = lastCalcRequestedResistance (check_last_resistance x)).
  { cbv beta zeta delta [loadSettings]. eexists. repeat peel. reflexivity. }
  destruct W as [w ->], L as [l ->], B as [b ->], H as [h ->], R as [r ->].
  split; [apply check_wire_diameter_valid|].
  split; [apply check_wire_diameter_valid|].
  split; [apply check_bobbin_length_valid|].
  split; [apply check_bobbin_width_valid|].
  split; [apply check_bobbin_height_valid|].
  apply check_last_resistance_valid.
Qed.

(** X11. Whatever the EEPROM holds, [loadSettings] leaves a timeout of at
    least 1000 ms, a ramp length from 1 to 10000 steps, an initial step
    delay of at most 20000 that is either the default 1000 or above the
    minimum step delay, and the sweep mode FIRMWARE or GUI, never PATTERN. *)
Theorem loadSettings_motion_settings s :
  1000 <= timeoutLimit (loadSettings s)
  /\ 0 < accelSteps (loadSettings s) <= 10000
  /\ initialStepDelay (loadSettings s) <= 20000
  /\ (initialStepDelay (loadSettings s) = 1000
      \/ minStepDelay (loadSettings s) < initialStepDelay (loadSettings s))
  /\ (sweepControlMode (loadSettings s) = SWEEP_MODE_FIRMWARE
      \/ sweepControlMode (loadSettings s) = SWEEP_MODE_GUI).
Proof.
  assert (T : exists x,
             timeoutLimit (loadSettings s) = timeoutLimit (check_timeout_limit x)).
  { cbv beta zeta delta [loadSettings]. eexists. repeat peel. reflexivity. }
  assert (A : exists x,
             accelSteps (loadSettings s) = accelSteps (check_accel_steps x)).
  { cbv beta zeta delta [loadSettings]. eexists. repeat peel. reflexivity. }
  assert (D : exists x,
             initialStepDelay (loadSettings s) = initialStepDelay (check_step_delay x)
             /\ minStepDelay (loadSettings s) = minStepDelay (check_step_delay x)).
  { cbv beta zeta delta [loadSettings]. eexists. split.
    - repeat peel. reflexivity.
    - do 9 peel. reflexivity. }
  assert (M : exists x raw,
             sweepControlMode (loadSettings s) = sweepControlMode (check_sweep_mode x)
             /\ sweepControlMode x = SweepControlMode_of_int raw).
  { cbv beta zeta delta [loadSettings]. eexists. eexists. split.
    - repeat peel. reflexivity.
    - repeat peel.
      cbv beta iota delta [EEPROM_get ADDR_SWEEP_MODE addr_advance].
      reflexivity. }
  destruct T as [t ->], A as [a ->], D as [d [-> ->]], M as [m [raw [-> M]]].
  split; [apply check_timeout_limit_valid|].
  split; [apply check_accel_steps_valid|].
  split; [apply check_step_delay_valid|].
  split; [apply check_step_delay_valid|].
  apply (check_sweep_mode_valid m raw M).
Qed.

(** ** Validation after a change *)

Lemma updateAndValidate_angles s :
  let min' :=
    if F32.isnan (servoMinAngle s) || F32.ltb (servoMinAngle s) (F32.of_Z 0)
       || F32.gtb (servoMinAngle s) (F32.of_Z 180)
       || F32.geb (servoMinAngle s) (servoMaxAngle s)
    then F32.of_Z 77 else servoMinAngle s in
  servoMinAngle (updateAndValidate s) = min'
  /\ servoMaxAngle (updateAndValidate s)
     = if F32.isnan (servoMaxAngle s) || F32.ltb (servoMaxAngle s) (F32.of_Z 0)
          || F32.gtb (servoMaxAngle s) (F32.of_Z 180)
          || F32.geb min' (servoMaxAngle s)
       then F32.of_Z 103 else servoMaxAngle s.
Proof.
  cbv zeta. cbv beta zeta delta [updateAndValidate].
  destruct (F32.isnan (servoMinAngle s) || F32.ltb (servoMinAngle s) (F32.of_Z 0)
       || F32.gtb (servoMinAngle s) (F32.of_Z 180)
       || F32.geb (servoMinAngle s) (servoMaxAngle s)) eqn:A.
  - change (servoMinAngle (set_servoMinAngle (F32.of_Z 77) s)) with (F32.of_Z 77).
    change (servoMaxAngle (set_servoMinAngle (F32.of_Z 77) s)) with (servoMaxAngle s).
    destruct (F32.isnan (servoMaxAngle s) || F32.ltb (servoMaxAngle s) (F32.of_Z 0)
          || F32.gtb (servoMaxAngle s) (F32.of_Z 180)
          || F32.geb (F32.of_Z 77) (servoMaxAngle s)) eqn:B.
    + split; repeat frame_step; reflexivity.
    + split; repeat frame_step; reflexivity.
  - destruct (F32.isnan (servoMaxAngle s) || F32.ltb (servoMaxAngle s) (F32.of_Z 0)
          || F32.gtb (servoMaxAngle s) (F32.of_Z 180)
          || F32.geb (servoMinAngle s) (servoMaxAngle s)) eqn:B.
    + split; repeat frame_step; reflexivity.
    + split; repeat frame_step; reflexivity.
Qed.

Lemma computeWindingParameters_wire s :
  wireDiameter (computeWindingParameters s) = wireDiameter s.
Proof.
  unfold computeWindingParameters. cbv zeta.
  destruct (F32.gtb (wireDiameter s) (F32.of_Z 0)); reflexivity.
Qed.

Lemma updateAndValidate_wire s :
  F32.isnan (wireDiameter (updateAndValidate s)) = false
  /\ F32.ltb F32.zero (wireDiameter (updateAndValidate s)) = true.
Proof.
  cbv beta zeta delta [updateAndValidate].
  repeat match goal with
         | |- context [match (if ?c then _ else _) with pair _ _ => _ end] =>
             destruct c; cbv beta iota
         end;
    rewrite computeWindingParameters_wire;
    match goal with
    | |- context [if ?c then say _ (set_wireDiameter _ _) else _] =>
        destruct c eqn:A
    end;
    try (split; reflexivity);
    apply orb_false_elim in A; destruct A as [N L];
    (split; [exact N|]); (apply not_leb_ltb; [exact N|reflexivity|exact L]).
Qed.

Lemma computeWindingParameters_servoPos s :
  servoPos (computeWindingParameters s) = servoMinAngle (computeWindingParameters s).
Proof.
  unfold computeWindingParameters. cbv zeta.
  destruct (F32.gtb (wireDiameter s) (F32.of_Z 0)); reflexivity.
Qed.

Lemma updateAndValidate_angles_in_range s :
  valid_angle (servoMinAngle (updateAndValidate s)) = true
  /\ valid_angle (servoMaxAngle (updateAndValidate s)) = true.
Proof.
  destruct (updateAndValidate_angles s) as [M X]. cbv zeta in M, X.
  split.
  - rewrite M.
    destruct (F32.isnan (servoMinAngle s) || F32.ltb (servoMinAngle s) (F32.of_Z 0)
              || F32.gtb (servoMinAngle s) (F32.of_Z 180)
              || F32.geb (servoMinAngle s) (servoMaxAngle s)) eqn:A.
    + reflexivity.
    + apply orb_false_elim in A. destruct A as [A _].
      unfold valid_angle. rewrite A. reflexivity.
  - rewrite X.
    match goal with
    | |- valid_angle (if ?c then _ else _) = true => destruct c eqn:B
    end.
    + reflexivity.
    + apply orb_false_elim in B. destruct B as [B _].
      unfold valid_angle. rewrite B. reflexivity.
Qed.

(** X12. After [updateAndValidate] both servo angles are numbers from 0 to
    180, the wire diameter is a number above zero, and the guide position is
    the minimum angle, whatever the state was before. *)
Theorem updateAndValidate_keeps_settings_in_range s :
  valid_angle (servoMinAngle (updateAndValidate s)) = true
  /\ valid_angle (servoMaxAngle (updateAndValidate s)) = true
  /\ F32.isnan (wireDiameter (updateAndValidate s)) = false
  /\ F32.ltb F32.zero (wireDiameter (updateAndValidate s)) = true
  /\ servoPos (updateAndValidate s) = servoMinAngle (updateAndValidate s).
Proof.
  split; [apply updateAndValidate_angles_in_range|].
  split; [apply updateAndValidate_angles_in_range|].
  split; [apply updateAndValidate_wire|].
  split; [apply updateAndValidate_wire|].
  cbv beta zeta delta [updateAndValidate].
  repeat match goal with
         | |- context [match (if ?c then _ else _) with pair _ _ => _ end] =>
             destruct c; cbv beta iota
         end;
    apply computeWindingParameters_servoPos.
Qed.

(** When the maximum that comes in is a number from 0 to 180, the angles
    that come out are ordered. *)
Lemma updateAndValidate_orders_angles s :
  valid_angle (servoMaxAngle s) = true ->
  F32.ltb (servoMinAngle (updateAndValidate s))
          (servoMaxAngle (updateAndValidate s)) = true.
Proof.
  intros V. destruct (updateAndValidate_angles s) as [M X]. cbv zeta in M, X.
  rewrite M, X. clear M X.
  assert (V' := V). unfold valid_angle in V'. apply negb_true_iff in V'.
  rewrite V'. cbn [orb].
  destruct (F32.isnan (servoMinAngle s) || F32.ltb (servoMinAngle s) (F32.of_Z 0)
            || F32.gtb (servoMinAngle s) (F32.of_Z 180)
            || F32.geb (servoMinAngle s) (servoMaxAngle s)) eqn:A.
  - destruct (F32.geb (F32.of_Z 77) (servoMaxAngle s)) eqn:G.
    + reflexivity.
    + apply not_geb_ltb; [reflexivity|apply valid_angle_number, V|exact G].
  - apply orb_false_elim in A. destruct A as [A G]. rewrite G.
    apply not_geb_ltb; [|apply valid_angle_number, V|exact G].
    apply orb_false_elim in A. destruct A as [A _].
    apply orb_false_elim in A. destruct A as [A _]. exact A.
Qed.

(** When the minimum that comes in is a number from 103 to 180 and the
    maximum is out of range without being at or below the minimum, the
    minimum is kept and the maximum becomes 103. *)
Lemma updateAndValidate_inverts_angles s :
  valid_angle (servoMinAngle s) = true ->
  valid_angle (servoMaxAngle s) = false ->
  F32.geb (servoMinAngle s) (servoMaxAngle s) = false ->
  servoMinAngle (updateAndValidate s) = servoMinAngle s
  /\ servoMaxAngle (updateAndValidate s) = F32.of_Z 103.
Proof.
  intros V W G. destruct (updateAndValidate_angles s) as [M X]. cbv zeta in M, X.
  rewrite M, X. clear M X.
  unfold valid_angle in V, W. apply negb_true_iff in V. apply negb_false_iff in W.
  rewrite V, W, G. cbn [orb]. split; reflexivity.
Qed.

Lemma disableOutputs_off s :
  outputsEnabled (disableOutputs s) = false
  /\ servoAttached (disableOutputs s) = false
  /\ enPin (disableOutputs s) = HIGH.
Proof.
  unfold disableOutputs. cbv zeta.
  change (servoAttached (set_enPin HIGH s)) with (servoAttached s).
  destruct (servoAttached s) eqn:A.
  - repeat split; reflexivity.
  - repeat split; try reflexivity. exact A.
Qed.

Lemma servoCommand_CALIBRATE minStr maxStr rest s :
  exists x s',
    servoCommand "CALIBRATE" (minStr :: maxStr :: rest) s = Ok s'
    /\ servoMinAngle x = CStr.atof minStr
    /\ servoMaxAngle x = CStr.atof maxStr
    /\ servoMinAngle s' = servoMinAngle (updateAndValidate x)
    /\ servoMaxAngle s' = servoMaxAngle (updateAndValidate x)
    /\ servoWritten s' = Mach.int16 (F32.trunc (servoMinAngle (updateAndValidate x)))
    /\ outputsEnabled s' = false
    /\ servoAttached s' = false.
Proof.
  exists (set_servoMaxAngle (CStr.atof maxStr)
            (set_servoMinAngle (CStr.atof minStr) (enableOutputs s))).
  eexists. split; [reflexivity|].
  split; [reflexivity|]. split; [reflexivity|].
  split; [framed|]. split; [framed|].
  split.
  - unfold disableOutputs, disableServo. cbv zeta. repeat frame_step; reflexivity.
  - split; apply disableOutputs_off.
Qed.

(** X13. [SERVO CALIBRATE <min> <max>] with a maximum that reads as a number
    from 0 to 180 always ends with both angles in range and the minimum
    below the maximum, the servo last driven to the minimum, and the outputs
    disabled; a bad minimum is replaced by 77, and the maximum by 103 when
    the minimum that results is not below it. *)
Theorem servo_calibrate_orders_angles minStr maxStr rest s :
  valid_angle (CStr.atof maxStr) = true ->
  exists s',
    servoCommand "CALIBRATE" (minStr :: maxStr :: rest) s = Ok s'
    /\ valid_angle (servoMinAngle s') = true
    /\ valid_angle (servoMaxAngle s') = true
    /\ F32.ltb (servoMinAngle s') (servoMaxAngle s') = true
    /\ servoWritten s' = Mach.int16 (F32.trunc (servoMinAngle s'))
    /\ outputsEnabled s' = false
    /\ servoAttached s' = false.
Proof.
  intros V.
  destruct (servoCommand_CALIBRATE minStr maxStr rest s)
    as [x [s' [E [Xm [XM [Hm [HM [Hw [Ho Ha]]]]]]]]].
  exists s'. split; [exact E|].
  rewrite Hw, Hm, HM.
  split; [apply updateAndValidate_angles_in_range|].
  split; [apply updateAndValidate_angles_in_range|].
  split; [apply updateAndValidate_orders_angles; rewrite XM; exact V|].
  split; [reflexivity|]. split; assumption.
Qed.

Lemma servo_calibrate_orders_angles_witness :
  exists s',
    servoCommand "CALIBRATE" ["200"; "90"]%string (boot EEPROM.erased) = Ok s'
    /\ valid_angle (servoMinAngle s') = true
    /\ valid_angle (servoMaxAngle s') = true
    /\ F32.ltb (servoMinAngle s') (servoMaxAngle s') = true
    /\ servoWritten s' = Mach.int16 (F32.trunc (servoMinAngle s'))
    /\ outputsEnabled s' = false
    /\ servoAttached s' = false.
Proof.
  apply (servo_calibrate_orders_angles "200" "90" [] (boot EEPROM.erased)).
  vm_compute. reflexivity.
Defined.

(** Of two floats on either side of a positive number, the one at or below
    it is below the one above it.  [SFcompare] orders positive floats by
    exponent and then by mantissa, so this needs no normal form. *)
Lemma above_and_not_above mc ec x y :
  F32.isnan x = false ->
  F32.gtb x (S754_finite false mc ec) = false ->
  F32.gtb y (S754_finite false mc ec) = true ->
  F32.geb x y = false.
Proof.
  unfold F32.gtb, F32.geb, F32.isnan, SFltb, SFleb.
  destruct y as [sy|sy| |sy my ey]; try discriminate;
    try (destruct sy; discriminate);
    destruct x as [sx|sx| |sx mx ex]; try discriminate;
    try (destruct sx; try discriminate; intros; reflexivity);
    try (destruct sy; try discriminate; destruct sx; try discriminate;
         intros; reflexivity).
  destruct sy; [discriminate|]. destruct sx; [intros; reflexivity|].
  cbn [SFcompare].
  change (PosDef.Pos.compare_cont Eq) with Pos.compare.
  intros _.
  destruct (Z.compare_spec ec ex) as [E1|L1|G1];
    destruct (Z.compare_spec ec ey) as [E2|L2|G2];
    destruct (Z.compare_spec ey ex) as [E3|L3|G3];
    try discriminate; try lia; try (intros; reflexivity).
  destruct (Pos.compare_spec mc mx) as [P1|P1|P1];
    destruct (Pos.compare_spec mc my) as [P2|P2|P2];
    destruct (Pos.compare_spec my mx) as [P3|P3|P3];
    try discriminate; try lia; intros; reflexivity.
Qed.

(** X14. [SERVO CALIBRATE <min> <max>] with a minimum that reads as a number
    from 103 to 180 and a maximum that reads as not a number, or as a number
    above 180, keeps the minimum and sets the maximum to 103: the command
    ends with the minimum angle at or above the maximum angle. *)
Theorem servo_calibrate_can_invert_angles minStr maxStr rest s :
  valid_angle (CStr.atof minStr) = true ->
  F32.geb (CStr.atof minStr) (F32.of_Z 103) = true ->
  F32.isnan (CStr.atof maxStr) = true
  \/ F32.gtb (CStr.atof maxStr) (F32.of_Z 180) = true ->
  exists s',
    servoCommand "CALIBRATE" (minStr :: maxStr :: rest) s = Ok s'
    /\ servoMinAngle s' = CStr.atof minStr
    /\ servoMaxAngle s' = F32.of_Z 103
    /\ F32.geb (servoMinAngle s') (servoMaxAngle s') = true.
Proof.
  intros V H M.
  destruct (servoCommand_CALIBRATE minStr maxStr rest s)
    as [x [s' [E [Xm [XM [Hm [HM _]]]]]]].
  exists s'. split; [exact E|].
  assert (W : valid_angle (CStr.atof maxStr) = false).
  { unfold valid_angle. apply negb_false_iff.
    destruct M as [M|M]; rewrite M; [reflexivity|apply orb_true_r]. }
  assert (G : F32.geb (CStr.atof minStr) (CStr.atof maxStr) = false).
  { destruct M as [M|M].
    - unfold F32.geb, SFleb. destruct (CStr.atof maxStr); try discriminate.
      reflexivity.
    - assert (V' := V). unfold valid_angle in V'. apply negb_true_iff in V'.
      apply orb_false_elim in V'. destruct V' as [V' G180].
      apply orb_false_elim in V'. destruct V' as [N _].
      exact (above_and_not_above _ _ _ _ N G180 M). }
  destruct (updateAndValidate_inverts_angles x) as [A B];
    [rewrite Xm; exact V|rewrite XM; exact W|rewrite Xm, XM; exact G|].
  rewrite Hm, HM, A, B, Xm. repeat split. exact H.
Qed.

Lemma servo_calibrate_can_invert_angles_witness :
  (exists s',
     servoCommand "CALIBRATE" ["110"; "200"]%string (boot EEPROM.erased) = Ok s'
     /\ servoMinAngle s' = CStr.atof "110"
     /\ servoMaxAngle s' = F32.of_Z 103
     /\ F32.geb (servoMinAngle s') (servoMaxAngle s') = true)
  /\ (exists s',
        servoCommand "CALIBRATE" ["110"; "NAN"]%string (boot EEPROM.erased) = Ok s'
        /\ servoMinAngle s' = CStr.atof "110"
        /\ servoMaxAngle s' = F32.of_Z 103
        /\ F32.geb (servoMinAngle s') (servoMaxAngle s') = true).
Proof.
  split.
  - apply (servo_calibrate_can_invert_angles "110" "200" [] (boot EEPROM.erased));
      [vm_compute; reflexivity|vm_compute; reflexivity|].
    right. vm_compute. reflexivity.
  - apply (servo_calibrate_can_invert_angles "110" "NAN" [] (boot EEPROM.erased));
      [vm_compute; reflexivity|vm_compute; reflexivity|].
    left. vm_compute. reflexivity.
Defined.

(** ** The cells that saving, clearing and loading touch *)

Lemma put_bytes_outside n i v m x :
  x < i \/ i + Z.of_nat n <= x -> EEPROM.put_bytes n i v m x = m x.
Proof.
  revert i v m. induction n as [|n IH]; intros i v m H.
  - reflexivity.
  - cbn [EEPROM.put_bytes]. rewrite IH by lia.
    unfold EEPROM.write. destruct (Z.eqb_spec x i); [lia|reflexivity].
Qed.

Lemma get_bytes_inside n i m m' :
  same_inside i (i + Z.of_nat n) m m' ->
  EEPROM.get_bytes n i m' = EEPROM.get_bytes n i m.
Proof.
  revert i. induction n as [|n IH]; intros i H.
  - reflexivity.
  - cbn [EEPROM.get_bytes]. rewrite (H i) by lia. rewrite IH; [reflexivity|].
    intros x Hx. apply H. lia.
Qed.

Lemma clear_cells_spec n i m x :
  clear_cells n i m x
  = if (i <=? x) && (x <? i + Z.of_nat n) then 255 else m x.
Proof.
  revert i m. induction n as [|n IH]; intros i m.
  - cbn [clear_cells]. destruct (Z.leb_spec i x), (Z.ltb_spec x (i + Z.of_nat 0));
      cbn; try reflexivity; lia.
  - cbn [clear_cells]. rewrite IH. unfold EEPROM.write.
    destruct (Z.leb_spec (i + 1) x), (Z.ltb_spec x (i + 1 + Z.of_nat n)),
      (Z.leb_spec i x), (Z.ltb_spec x (i + Z.of_nat (S n))),
      (Z.eqb_spec x i); cbn; try reflexivity; lia.
Qed.

Lemma same_outside_refl lo hi m : same_outside lo hi m m.
Proof. intros x _. reflexivity. Qed.

Lemma same_outside_put {A} (put : Z -> A -> EEPROM.cells -> EEPROM.cells) n :
  (forall a v m, same_outside a (a + n) m (put a v m)) ->
  forall lo hi hi' a v m0 m,
    same_outside lo hi m0 m -> lo <= a -> hi <= hi' -> a + n <= hi' ->
    same_outside lo hi' m0 (put a v m).
Proof.
  intros P lo hi hi' a v m0 m H La Hh Ha x Hx.
  rewrite (P a v m x) by lia. apply H. lia.
Qed.

Lemma put_float_outside a v m : same_outside a (a + 4) m (EEPROM.put_float a v m).
Proof. intros x Hx. apply (put_bytes_outside 4). cbn. lia. Qed.

Lemma put_int_outside a v m : same_outside a (a + 2) m (EEPROM.put_int a v m).
Proof. intros x Hx. apply (put_bytes_outside 2). cbn. lia. Qed.

Lemma put_long_outside a v m : same_outside a (a + 4) m (EEPROM.put_long a v m).
Proof. intros x Hx. apply (put_bytes_outside 4). cbn. lia. Qed.

Lemma put_ulong_outside a v m : same_outside a (a + 4) m (EEPROM.put_ulong a v m).
Proof. intros x Hx. apply (put_bytes_outside 4). cbn. lia. Qed.

(** One [EEPROM.put] through an advancing address macro. *)
Lemma EEPROM_put_advance {A} (put : Z -> A -> EEPROM.cells -> EEPROM.cells)
    n k var s m0 lo hi off :
  (forall a v m, same_outside a (a + n) m (put a v m)) ->
  addr s = lo + off -> same_outside lo hi m0 (eeprom s) ->
  0 <= off -> 0 <= k -> hi <= lo + off + k + n -> lo + off + k <= 32767 ->
  -32768 <= lo ->
  addr (EEPROM_put put (addr_advance k) var s) = lo + (off + k)
  /\ same_outside lo (lo + off + k + n) m0
       (eeprom (EEPROM_put put (addr_advance k) var s)).
Proof.
  intros P Ha H Hoff Hk Hhi Hmax Hlo.
  cbv beta iota delta [EEPROM_put addr_advance].
  change (addr (set_eeprom ?m (set_addr ?a _))) with a.
  change (eeprom (set_eeprom ?m _)) with m.
  change (eeprom (set_addr ?a ?x)) with (eeprom x).
  rewrite Ha. rewrite (int16_small (lo + off + k)) by lia.
  split; [lia|].
  apply (same_outside_put put n P lo hi); try assumption; lia.
Qed.

Lemma saveSettings_cells s :
  0 <= addr s -> addr s + 38 <= 32767 ->
  addr (saveSettings s) = addr s + 38
  /\ same_outside (addr s) (addr s + 40) (eeprom s) (eeprom (saveSettings s)).
Proof.
  intros Hlo Hhi.
  cbv beta zeta delta
    [saveSettings ADDR_SERVO_MAX ADDR_WIRE_DIAM ADDR_STEP_DELAY ADDR_TIMEOUT
     ADDR_ACCEL_STEPS ADDR_BOBBIN_LEN ADDR_BOBBIN_WID ADDR_BOBBIN_H
     ADDR_LAST_CALC_R ADDR_SWEEP_MODE
     Mach.sizeof_float Mach.sizeof_int Mach.sizeof_long Mach.sizeof_ulong].
  match goal with
  | |- context [EEPROM_put ?p ADDR_SERVO_MIN ?v s] =>
      set (s0 := EEPROM_put p ADDR_SERVO_MIN v s)
  end.
  assert (I0 : addr s0 = addr s + 0
               /\ same_outside (addr s) (addr s + 0 + 0 + 4) (eeprom s) (eeprom s0)).
  { split; [cbn; lia|]. subst s0.
    cbv beta iota delta [EEPROM_put ADDR_SERVO_MIN].
    change (eeprom (set_eeprom ?m _)) with m.
    apply (same_outside_put EEPROM.put_float 4 put_float_outside
             (addr s) (addr s) _ _ _ _ _ (same_outside_refl _ _ _)); lia. }
  clearbody s0.
  repeat
    match goal with
    | I : addr ?x = _ /\ same_outside _ _ _ (eeprom ?x)
      |- context [EEPROM_put ?p (addr_advance ?k) ?v ?x] =>
        let y := fresh "s" in
        set (y := EEPROM_put p (addr_advance k) v x);
        let J := fresh "I" in
        destruct I as [Ia Ie];
        lazymatch p with
        | EEPROM.put_float =>
            assert (J := EEPROM_put_advance p 4 k v x _ _ _ _
                           put_float_outside Ia Ie)
        | EEPROM.put_int =>
            assert (J := EEPROM_put_advance p 2 k v x _ _ _ _
                           put_int_outside Ia Ie)
        | EEPROM.put_ulong =>
            assert (J := EEPROM_put_advance p 4 k v x _ _ _ _
                           put_ulong_outside Ia Ie)
        | EEPROM.put_long =>
            assert (J := EEPROM_put_advance p 4 k v x _ _ _ _
                           put_long_outside Ia Ie)
        end;
        fold y in J;
        specialize (J ltac:(lia) ltac:(lia) ltac:(lia) ltac:(lia) ltac:(lia));
        clear Ia Ie; clearbody y
    end.
  match goal with
  | I : addr ?x = _ /\ same_outside _ _ _ (eeprom ?x) |- _ =>
      destruct I as [Ia Ie]
  end.
  split.
  - peel. rewrite Ia. lia.
  - intros x Hx.
    match goal with
    | |- eeprom (say ?l ?y) x = _ => change (eeprom (say l y)) with (eeprom y)
    end.
    apply Ie. lia.
Qed.

Lemma get_float_inside a m m' :
  same_inside a (a + 4) m m' -> EEPROM.get_float a m' = EEPROM.get_float a m.
Proof.
  intros H. unfold EEPROM.get_float. rewrite (get_bytes_inside 4 a m m' H).
  reflexivity.
Qed.

Lemma get_int_inside a m m' :
  same_inside a (a + 2) m m' -> EEPROM.get_int a m' = EEPROM.get_int a m.
Proof.
  intros H. unfold EEPROM.get_int. rewrite (get_bytes_inside 2 a m m' H).
  reflexivity.
Qed.

Lemma get_long_inside a m m' :
  same_inside a (a + 4) m m' -> EEPROM.get_long a m' = EEPROM.get_long a m.
Proof.
  intros H. unfold EEPROM.get_long. rewrite (get_bytes_inside 4 a m m' H).
  reflexivity.
Qed.

Lemma get_ulong_inside a m m' :
  same_inside a (a + 4) m m' -> EEPROM.get_ulong a m' = EEPROM.get_ulong a m.
Proof.
  intros H. unfold EEPROM.get_ulong. rewrite (get_bytes_inside 4 a m m' H).
  reflexivity.
Qed.

(** One [EEPROM.get] through an advancing address macro reads the same from
    cells that agree on the [w] cells above [lo]. *)
Lemma EEPROM_get_advance {A} (get : Z -> EEPROM.cells -> A) n k
    (setf : A -> state -> state) s m lo off w :
  (forall a m m', same_inside a (a + n) m m' -> get a m' = get a m) ->
  (forall v x, setf v (set_eeprom m x) = set_eeprom m (setf v x)) ->
  (forall v x, addr (setf v x) = addr x) ->
  (forall v x, eeprom (setf v x) = eeprom x) ->
  addr s = lo + off -> same_inside lo (lo + w) (eeprom s) m ->
  0 <= off -> 0 <= k -> off + k + n <= w -> lo + off + k <= 32767 ->
  -32768 <= lo ->
  EEPROM_get get (addr_advance k) setf (set_eeprom m s)
  = set_eeprom m (EEPROM_get get (addr_advance k) setf s)
  /\ addr (EEPROM_get get (addr_advance k) setf s) = lo + (off + k)
  /\ same_inside lo (lo + w) (eeprom (EEPROM_get get (addr_advance k) setf s)) m.
Proof.
  intros G C Sa Se Ha H Hoff Hk Hn Hmax Hlo.
  cbv beta iota delta [EEPROM_get addr_advance].
  rewrite Sa, Se.
  change (addr (set_addr ?a _)) with a.
  change (eeprom (set_addr ?a ?x)) with (eeprom x).
  change (addr (set_eeprom m s)) with (addr s).
  change (eeprom (set_addr ?a (set_eeprom m ?x))) with m.
  rewrite Ha. rewrite (int16_small (lo + off + k)) by lia.
  split; [|split; [lia|exact H]].
  change (eeprom (set_eeprom m s)) with m.
  rewrite (G (lo + off + k) (eeprom s) m).
  - change (set_addr ?a (set_eeprom m s)) with (set_eeprom m (set_addr a s)).
    apply C.
  - intros x Hx. apply H. lia.
Qed.

Ltac commutes_with_eeprom f :=
  intros m s; destruct s;
  cbv beta iota zeta delta
      [f targetTurns running paused verboseMode stepperForward servoMinAngle
       servoMaxAngle servoPos bobbinHeight wireDiameter turnsPerLayer
       bobbinLength bobbinWidth avgTurnLength lastCalcRequestedResistance
       lastCommandTime timeoutLimit outputsEnabled stepCount totalSteps
       initialStepDelay minStepDelay accelSteps sweepControlMode
       patternMinAngle patternMaxAngle patternScatter patternTurnsPerLayer
       addr eeprom enPin dirPin servoAttached servoWritten stepPulses
       serialOut set_targetTurns set_running set_paused set_verboseMode
       set_stepperForward set_servoMinAngle set_servoMaxAngle set_servoPos
       set_bobbinHeight set_wireDiameter set_turnsPerLayer set_bobbinLength
       set_bobbinWidth set_avgTurnLength set_lastCalcRequestedResistance
       set_lastCommandTime set_timeoutLimit set_outputsEnabled set_stepCount
       set_totalSteps set_initialStepDelay set_minStepDelay set_accelSteps
       set_sweepControlMode set_patternMinAngle set_patternMaxAngle
       set_patternScatter set_patternTurnsPerLayer set_addr set_eeprom
       set_enPin set_dirPin set_servoAttached set_servoWritten set_stepPulses
       set_serialOut say];
  split_ifs; reflexivity.

Lemma check_servo_angles_eeprom m s :
  check_servo_angles (set_eeprom m s) = set_eeprom m (check_servo_angles s).
Proof. revert m s. commutes_with_eeprom check_servo_angles. Qed.

Lemma check_wire_diameter_eeprom m s :
  check_wire_diameter (set_eeprom m s) = set_eeprom m (check_wire_diameter s).
Proof. revert m s. commutes_with_eeprom check_wire_diameter. Qed.

Lemma check_step_delay_eeprom m s :
  check_step_delay (set_eeprom m s) = set_eeprom m (check_step_delay s).
Proof. revert m s. commutes_with_eeprom check_step_delay. Qed.

Lemma check_timeout_limit_eeprom m s :
  check_timeout_limit (set_eeprom m s) = set_eeprom m (check_timeout_limit s).
Proof. revert m s. commutes_with_eeprom check_timeout_limit. Qed.

Lemma check_accel_steps_eeprom m s :
  check_accel_steps (set_eeprom m s) = set_eeprom m (check_accel_steps s).
Proof. revert m s. commutes_with_eeprom check_accel_steps. Qed.

Lemma check_bobbin_length_eeprom m s :
  check_bobbin_length (set_eeprom m s) = set_eeprom m (check_bobbin_length s).
Proof. revert m s. commutes_with_eeprom check_bobbin_length. Qed.

Lemma check_bobbin_width_eeprom m s :
  check_bobbin_width (set_eeprom m s) = set_eeprom m (check_bobbin_width s).
Proof. revert m s. commutes_with_eeprom check_bobbin_width. Qed.

Lemma check_bobbin_height_eeprom m s :
  check_bobbin_height (set_eeprom m s) = set_eeprom m (check_bobbin_height s).
Proof. revert m s. commutes_with_eeprom check_bobbin_height. Qed.

Lemma check_last_resistance_eeprom m s :
  check_last_resistance (set_eeprom m s) = set_eeprom m (check_last_resistance s).
Proof. revert m s. commutes_with_eeprom check_last_resistance. Qed.

Lemma check_sweep_mode_eeprom m s :
  check_sweep_mode (set_eeprom m s) = set_eeprom m (check_sweep_mode s).
Proof. revert m s. commutes_with_eeprom check_sweep_mode. Qed.

Lemma calculateAvgTurnLength_eeprom m s :
  calculateAvgTurnLength (set_eeprom m s) = set_eeprom m (calculateAvgTurnLength s).
Proof. revert m s. commutes_with_eeprom calculateAvgTurnLength. Qed.

Lemma computeWindingParameters_eeprom m s :
  computeWindingParameters (set_eeprom m s)
  = set_eeprom m (computeWindingParameters s).
Proof. revert m s. commutes_with_eeprom computeWindingParameters. Qed.

Lemma printStatus_eeprom m s :
  printStatus (set_eeprom m s) = set_eeprom m (printStatus s).
Proof. revert m s. commutes_with_eeprom printStatus. Qed.

(** Moves [set_eeprom m] out of the reads, one [EEPROM.get] at a time, as
    long as the cells read lie in the window of [w] cells. *)
Ltac read_chain m w :=
  repeat
    match goal with
    | I : addr ?x = ?lo + ?off /\ same_inside _ _ (eeprom ?x) m
      |- context [EEPROM_get ?g (addr_advance ?k) ?f (set_eeprom m ?x)] =>
        let J := fresh "J" in
        let Ia := fresh "Ia" in
        let Ie := fresh "Ie" in
        let E := fresh "E" in
        destruct I as [Ia Ie];
        lazymatch g with
        | EEPROM.get_float =>
            assert (J := EEPROM_get_advance g 4 k f x m lo off w get_float_inside)
        | EEPROM.get_int =>
            assert (J := EEPROM_get_advance g 2 k f x m lo off w get_int_inside)
        | EEPROM.get_ulong =>
            assert (J := EEPROM_get_advance g 4 k f x m lo off w get_ulong_inside)
        | EEPROM.get_long =>
            assert (J := EEPROM_get_advance g 4 k f x m lo off w get_long_inside)
        end;
        specialize (J ltac:(intros; reflexivity) ltac:(intros; reflexivity)
                      ltac:(intros; reflexivity) Ia Ie
                      ltac:(lia) ltac:(lia) ltac:(lia) ltac:(lia) ltac:(lia));
        destruct J as [E J]; rewrite E; clear E Ia Ie;
        let y := fresh "s" in
        set (y := EEPROM_get g (addr_advance k) f x) in *;
        clearbody y
    end.

Lemma say_eeprom l m s : say l (set_eeprom m s) = set_eeprom m (say l s).
Proof. reflexivity. Qed.

Lemma loadSettings_cells s m :
  0 <= addr s -> addr s + 38 <= 32767 ->
  same_inside (addr s) (addr s + 40) (eeprom s) m ->
  loadSettings (set_eeprom m s) = set_eeprom m (loadSettings s)
  /\ addr (loadSettings s) = addr s + 38.
Proof.
  intros Hlo Hhi H.
  cbv beta zeta delta
    [loadSettings ADDR_SERVO_MAX ADDR_WIRE_DIAM ADDR_STEP_DELAY ADDR_TIMEOUT
     ADDR_ACCEL_STEPS ADDR_BOBBIN_LEN ADDR_BOBBIN_WID ADDR_BOBBIN_H
     ADDR_LAST_CALC_R ADDR_SWEEP_MODE
     Mach.sizeof_float Mach.sizeof_int Mach.sizeof_long Mach.sizeof_ulong].
  assert (E0 : EEPROM_get EEPROM.get_float ADDR_SERVO_MIN set_servoMinAngle
                 (set_eeprom m s)
               = set_eeprom m
                   (EEPROM_get EEPROM.get_float ADDR_SERVO_MIN set_servoMinAngle s)).
  { cbv beta iota delta [EEPROM_get ADDR_SERVO_MIN].
    change (eeprom (set_eeprom m s)) with m.
    change (addr (set_eeprom m s)) with (addr s).
    rewrite (get_float_inside (addr s) (eeprom s) m); [reflexivity|].
    intros x Hx. apply H. lia. }
  rewrite E0. clear E0.
  set (s0 := EEPROM_get EEPROM.get_float ADDR_SERVO_MIN set_servoMinAngle s).
  assert (I0 : addr s0 = addr s + 0
               /\ same_inside (addr s) (addr s + 40) (eeprom s0) m)
    by (split; [cbn; lia|exact H]).
  clearbody s0.
  read_chain m 40.
  rewrite check_servo_angles_eeprom, check_wire_diameter_eeprom,
    check_step_delay_eeprom, check_timeout_limit_eeprom, check_accel_steps_eeprom,
    check_bobbin_length_eeprom, check_bobbin_width_eeprom,
    check_bobbin_height_eeprom, check_last_resistance_eeprom,
    check_sweep_mode_eeprom, say_eeprom, calculateAvgTurnLength_eeprom.
  split; [reflexivity|].
  do 12 peel.
  match goal with
  | I : addr ?x = _ /\ _ |- addr ?x = _ => destruct I as [Ia _]; rewrite Ia; lia
  end.
Qed.

(** ** What a state is apart from the sweep mode *)

Ltac blanked f :=
  intros s; destruct s;
  cbv beta iota zeta delta
      [apart_from_mode f EEPROM_get addr_advance targetTurns running paused verboseMode stepperForward servoMinAngle
       servoMaxAngle servoPos bobbinHeight wireDiameter turnsPerLayer
       bobbinLength bobbinWidth avgTurnLength lastCalcRequestedResistance
       lastCommandTime timeoutLimit outputsEnabled stepCount totalSteps
       initialStepDelay minStepDelay accelSteps sweepControlMode
       patternMinAngle patternMaxAngle patternScatter patternTurnsPerLayer
       addr eeprom enPin dirPin servoAttached servoWritten stepPulses
       serialOut set_targetTurns set_running set_paused set_verboseMode
       set_stepperForward set_servoMinAngle set_servoMaxAngle set_servoPos
       set_bobbinHeight set_wireDiameter set_turnsPerLayer set_bobbinLength
       set_bobbinWidth set_avgTurnLength set_lastCalcRequestedResistance
       set_lastCommandTime set_timeoutLimit set_outputsEnabled set_stepCount
       set_totalSteps set_initialStepDelay set_minStepDelay set_accelSteps
       set_sweepControlMode set_patternMinAngle set_patternMaxAngle
       set_patternScatter set_patternTurnsPerLayer set_addr set_eeprom
       set_enPin set_dirPin set_servoAttached set_servoWritten set_stepPulses
       set_serialOut say];
  split_ifs; reflexivity.

Lemma check_servo_angles_blanked s :
  apart_from_mode (check_servo_angles s) = apart_from_mode (check_servo_angles (apart_from_mode s)).
Proof. revert s. blanked check_servo_angles. Qed.

Lemma check_servo_angles_apart s1 s2 :
  apart_from_mode s1 = apart_from_mode s2 ->
  apart_from_mode (check_servo_angles s1) = apart_from_mode (check_servo_angles s2).
Proof.
  intros E. rewrite (check_servo_angles_blanked s1), (check_servo_angles_blanked s2), E. reflexivity.
Qed.

Lemma check_wire_diameter_blanked s :
  apart_from_mode (check_wire_diameter s) = apart_from_mode (check_wire_diameter (apart_from_mode s)).
Proof. revert s. blanked check_wire_diameter. Qed.

Lemma check_wire_diameter_apart s1 s2 :
  apart_from_mode s1 = apart_from_mode s2 ->
  apart_from_mode (check_wire_diameter s1) = apart_from_mode (check_wire_diameter s2).
Proof.
  intros E. rewrite (check_wire_diameter_blanked s1), (check_wire_diameter_blanked s2), E. reflexivity.
Qed.

Lemma check_step_delay_blanked s :
  apart_from_mode (check_step_delay s) = apart_from_mode (check_step_delay (apart_from_mode s)).
Proof. revert s. blanked check_step_delay. Qed.

Lemma check_step_delay_apart s1 s2 :
  apart_from_mode s1 = apart_from_mode s2 ->
  apart_from_mode (check_step_delay s1) = apart_from_mode (check_step_delay s2).
Proof.
  intros E. rewrite (check_step_delay_blanked s1), (check_step_delay_blanked s2), E. reflexivity.
Qed.

Lemma check_timeout_limit_blanked s :
  apart_from_mode (check_timeout_limit s) = apart_from_mode (check_timeout_limit (apart_from_mode s)).
Proof. revert s. blanked check_timeout_limit. Qed.

Lemma check_timeout_limit_apart s1 s2 :
  apart_from_mode s1 = apart_from_mode s2 ->
  apart_from_mode (check_timeout_limit s1) = apart_from_mode (check_timeout_limit s2).
Proof.
  intros E. rewrite (check_timeout_limit_blanked s1), (check_timeout_limit_blanked s2), E. reflexivity.
Qed.

Lemma check_accel_steps_blanked s :
  apart_from_mode (check_accel_steps s) = apart_from_mode (check_accel_steps (apart_from_mode s)).
Proof. revert s. blanked check_accel_steps. Qed.

Lemma check_accel_steps_apart s1 s2 :
  apart_from_mode s1 = apart_from_mode s2 ->
  apart_from_mode (check_accel_steps s1) = apart_from_mode (check_accel_steps s2).
Proof.
  intros E. rewrite (check_accel_steps_blanked s1), (check_accel_steps_blanked s2), E. reflexivity.
Qed.

Lemma check_bobbin_length_blanked s :
  apart_from_mode (check_bobbin_length s) = apart_from_mode (check_bobbin_length (apart_from_mode s)).
Proof. revert s. blanked check_bobbin_length. Qed.

Lemma check_bobbin_length_apart s1 s2 :
  apart_from_mode s1 = apart_from_mode s2 ->
  apart_from_mode (check_bobbin_length s1) = apart_from_mode (check_bobbin_length s2).
Proof.
  intros E. rewrite (check_bobbin_length_blanked s1), (check_bobbin_length_blanked s2), E. reflexivity.
Qed.

Lemma check_bobbin_width_blanked s :
  apart_from_mode (check_bobbin_width s) = apart_from_mode (check_bobbin_width (apart_from_mode s)).
Proof. revert s. blanked check_bobbin_width. Qed.

Lemma check_bobbin_width_apart s1 s2 :
  apart_from_mode s1 = apart_from_mode s2 ->
  apart_from_mode (check_bobbin_width s1) = apart_from_mode (check_bobbin_width s2).
Proof.
  intros E. rewrite (check_bobbin_width_blanked s1), (check_bobbin_width_blanked s2), E. reflexivity.
Qed.

Lemma check_bobbin_height_blanked s :
  apart_from_mode (check_bobbin_height s) = apart_from_mode (check_bobbin_height (apart_from_mode s)).
Proof. revert s. blanked check_bobbin_height. Qed.

Lemma check_bobbin_height_apart s1 s2 :
  apart_from_mode s1 = apart_from_mode s2 ->
  apart_from_mode (check_bobbin_height s1) = apart_from_mode (check_bobbin_height s2).
Proof.
  intros E. rewrite (check_bobbin_height_blanked s1), (check_bobbin_height_blanked s2), E. reflexivity.
Qed.

Lemma check_last_resistance_blanked s :
  apart_from_mode (check_last_resistance s) = apart_from_mode (check_last_resistance (apart_from_mode s)).
Proof. revert s. blanked check_last_resistance. Qed.

Lemma check_last_resistance_apart s1 s2 :
  apart_from_mode s1 = apart_from_mode s2 ->
  apart_from_mode (check_last_resistance s1) = apart_from_mode (check_last_resistance s2).
Proof.
  intros E. rewrite (check_last_resistance_blanked s1), (check_last_resistance_blanked s2), E. reflexivity.
Qed.

Lemma calculateAvgTurnLength_blanked s :
  apart_from_mode (calculateAvgTurnLength s) = apart_from_mode (calculateAvgTurnLength (apart_from_mode s)).
Proof. revert s. blanked calculateAvgTurnLength. Qed.

Lemma calculateAvgTurnLength_apart s1 s2 :
  apart_from_mode s1 = apart_from_mode s2 ->
  apart_from_mode (calculateAvgTurnLength s1) = apart_from_mode (calculateAvgTurnLength s2).
Proof.
  intros E. rewrite (calculateAvgTurnLength_blanked s1), (calculateAvgTurnLength_blanked s2), E. reflexivity.
Qed.

Lemma computeWindingParameters_blanked s :
  apart_from_mode (computeWindingParameters s) = apart_from_mode (computeWindingParameters (apart_from_mode s)).
Proof. revert s. blanked computeWindingParameters. Qed.

Lemma computeWindingParameters_apart s1 s2 :
  apart_from_mode s1 = apart_from_mode s2 ->
  apart_from_mode (computeWindingParameters s1) = apart_from_mode (computeWindingParameters s2).
Proof.
  intros E. rewrite (computeWindingParameters_blanked s1), (computeWindingParameters_blanked s2), E. reflexivity.
Qed.

Lemma printStatus_blanked s :
  apart_from_mode (printStatus s) = apart_from_mode (printStatus (apart_from_mode s)).
Proof. revert s. blanked printStatus. Qed.

Lemma printStatus_apart s1 s2 :
  apart_from_mode s1 = apart_from_mode s2 ->
  apart_from_mode (printStatus s1) = apart_from_mode (printStatus s2).
Proof.
  intros E. rewrite (printStatus_blanked s1), (printStatus_blanked s2), E. reflexivity.
Qed.

Lemma check_sweep_mode_blanked s :
  apart_from_mode (check_sweep_mode s) = apart_from_mode s.
Proof. revert s. blanked check_sweep_mode. Qed.

Lemma check_sweep_mode_apart s1 s2 :
  apart_from_mode s1 = apart_from_mode s2 ->
  apart_from_mode (check_sweep_mode s1) = apart_from_mode (check_sweep_mode s2).
Proof. intros E. rewrite !check_sweep_mode_blanked. exact E. Qed.

Lemma say_blanked l s : apart_from_mode (say l s) = apart_from_mode s.
Proof. reflexivity. Qed.

Lemma say_apart l s1 s2 :
  apart_from_mode s1 = apart_from_mode s2 ->
  apart_from_mode (say l s1) = apart_from_mode (say l s2).
Proof. intros E. rewrite !say_blanked. exact E. Qed.

(** Reading the sweep mode changes the mode and the address only. *)
Lemma read_sweep_mode_blanked k s :
  apart_from_mode
    (EEPROM_get EEPROM.get_int (addr_advance k)
       (fun raw => set_sweepControlMode (SweepControlMode_of_int raw)) s)
  = apart_from_mode (set_addr (Mach.int16 (addr s + k)) (apart_from_mode s)).
Proof. reflexivity. Qed.

Lemma read_sweep_mode_apart k s1 s2 :
  apart_from_mode s1 = apart_from_mode s2 ->
  apart_from_mode
    (EEPROM_get EEPROM.get_int (addr_advance k)
       (fun raw => set_sweepControlMode (SweepControlMode_of_int raw)) s1)
  = apart_from_mode
      (EEPROM_get EEPROM.get_int (addr_advance k)
         (fun raw => set_sweepControlMode (SweepControlMode_of_int raw)) s2).
Proof.
  intros E. rewrite !read_sweep_mode_blanked.
  assert (A : addr s1 = addr s2) by exact (f_equal addr E).
  rewrite E, A. reflexivity.
Qed.

(** The sanity checks of [loadSettings], after the sweep mode is read. *)
Lemma loadSettings_checks_apart m s9 :
  apart_from_mode
    (calculateAvgTurnLength
       (say "STATUS: Settings loaded from EEPROM"
          (check_sweep_mode
             (check_last_resistance
                (check_bobbin_height
                   (check_bobbin_width
                      (check_bobbin_length
                         (check_accel_steps
                            (check_timeout_limit
                               (check_step_delay
                                  (check_wire_diameter
    (check_servo_angles (EEPROM_get EEPROM.get_int (addr_advance 4)
       (fun raw => set_sweepControlMode (SweepControlMode_of_int raw)) (set_eeprom m s9))))))))))))))
  = apart_from_mode
    (calculateAvgTurnLength
       (say "STATUS: Settings loaded from EEPROM"
          (check_sweep_mode
             (check_last_resistance
                (check_bobbin_height
                   (check_bobbin_width
                      (check_bobbin_length
                         (check_accel_steps
                            (check_timeout_limit
                               (check_step_delay
                                  (check_wire_diameter
      (check_servo_angles (EEPROM_get EEPROM.get_int (addr_advance 4)
         (fun raw => set_sweepControlMode (SweepControlMode_of_int raw)) s9))))))))))))).
Proof.
  apply calculateAvgTurnLength_apart, say_apart, check_sweep_mode_apart,
    check_last_resistance_apart, check_bobbin_height_apart,
    check_bobbin_width_apart, check_bobbin_length_apart, check_accel_steps_apart,
    check_timeout_limit_apart, check_step_delay_apart, check_wire_diameter_apart,
    check_servo_angles_apart, read_sweep_mode_apart.
  reflexivity.
Qed.

Lemma loadSettings_apart s m :
  0 <= addr s -> addr s + 38 <= 32767 ->
  same_inside (addr s) (addr s + 38) (eeprom s) m ->
  apart_from_mode (loadSettings (set_eeprom m s))
  = apart_from_mode (loadSettings s).
Proof.
  intros Hlo Hhi H.
  cbv beta zeta delta
    [loadSettings ADDR_SERVO_MAX ADDR_WIRE_DIAM ADDR_STEP_DELAY ADDR_TIMEOUT
     ADDR_ACCEL_STEPS ADDR_BOBBIN_LEN ADDR_BOBBIN_WID ADDR_BOBBIN_H
     ADDR_LAST_CALC_R ADDR_SWEEP_MODE
     Mach.sizeof_float Mach.sizeof_int Mach.sizeof_long Mach.sizeof_ulong].
  assert (E0 : EEPROM_get EEPROM.get_float ADDR_SERVO_MIN set_servoMinAngle
                 (set_eeprom m s)
               = set_eeprom m
                   (EEPROM_get EEPROM.get_float ADDR_SERVO_MIN set_servoMinAngle s)).
  { cbv beta iota delta [EEPROM_get ADDR_SERVO_MIN].
    change (eeprom (set_eeprom m s)) with m.
    change (addr (set_eeprom m s)) with (addr s).
    rewrite (get_float_inside (addr s) (eeprom s) m); [reflexivity|].
    intros x Hx. apply H. lia. }
  rewrite E0. clear E0.
  set (s0 := EEPROM_get EEPROM.get_float ADDR_SERVO_MIN set_servoMinAngle s).
  assert (I0 : addr s0 = addr s + 0
               /\ same_inside (addr s) (addr s + 38) (eeprom s0) m)
    by (split; [cbn; lia|exact H]).
  clearbody s0.
  read_chain m 38.
  apply loadSettings_checks_apart.
Qed.

(** ** Power-on *)

Lemma power_on_addr rom :
  addr (set_outputsEnabled false (set_enPin HIGH (power_on rom))) = 0.
Proof. reflexivity. Qed.

Lemma power_on_cells rom rom' :
  set_outputsEnabled false (set_enPin HIGH (power_on rom'))
  = set_eeprom rom' (set_outputsEnabled false (set_enPin HIGH (power_on rom))).
Proof. reflexivity. Qed.

Lemma boot_cells rom rom' :
  same_inside 0 40 rom rom' -> boot rom' = set_eeprom rom' (boot rom).
Proof.
  intros H. unfold boot, setup. cbv zeta.
  rewrite (power_on_cells rom rom').
  destruct (loadSettings_cells
              (set_outputsEnabled false (set_enPin HIGH (power_on rom))) rom')
    as [E _].
  - rewrite power_on_addr. lia.
  - rewrite power_on_addr. lia.
  - rewrite power_on_addr. exact H.
  - rewrite E, computeWindingParameters_eeprom, say_eeprom, printStatus_eeprom,
      say_eeprom.
    reflexivity.
Qed.

Lemma boot_apart rom rom' :
  same_inside 0 38 rom rom' ->
  apart_from_mode (boot rom') = apart_from_mode (boot rom).
Proof.
  intros H. unfold boot, setup. cbv zeta.
  rewrite (power_on_cells rom rom').
  apply say_apart, printStatus_apart, say_apart, computeWindingParameters_apart.
  apply loadSettings_apart.
  - rewrite power_on_addr. lia.
  - rewrite power_on_addr. lia.
  - rewrite power_on_addr. exact H.
Qed.

(** ** Persistence across a restart *)

(** X15. [saveSettings] writes into the forty cells that start at the
    current value of [addr] and into no other cell, and leaves [addr] 38
    higher than it found it. *)
Theorem saveSettings_writes_forty_cells s x :
  0 <= addr s -> addr s + 38 <= 32767 ->
  x < addr s \/ addr s + 40 <= x ->
  eeprom (saveSettings s) x = eeprom s x
  /\ addr (saveSettings s) = addr s + 38.
Proof.
  intros Hlo Hhi Hx. destruct (saveSettings_cells s Hlo Hhi) as [A E].
  split; [apply E; exact Hx|exact A].
Qed.

Lemma saveSettings_writes_forty_cells_witness :
  eeprom (saveSettings (boot zeroed)) 37 = eeprom (boot zeroed) 37
  /\ addr (saveSettings (boot zeroed)) = addr (boot zeroed) + 38.
Proof.
  apply (saveSettings_writes_forty_cells (boot zeroed) 37).
  - vm_compute. discriminate.
  - vm_compute. discriminate.
  - left. vm_compute. reflexivity.
Defined.

(** X16. [loadSettings] reads the forty cells that start at the current
    value of [addr] and no other: on cells that agree there it produces the
    same state.  It leaves [addr] 38 higher and writes no cell. *)
Theorem loadSettings_reads_forty_cells s m :
  0 <= addr s -> addr s + 38 <= 32767 ->
  (forall x, addr s <= x < addr s + 40 -> m x = eeprom s x) ->
  loadSettings (set_eeprom m s) = set_eeprom m (loadSettings s)
  /\ addr (loadSettings s) = addr s + 38
  /\ eeprom (loadSettings s) = eeprom s.
Proof.
  intros Hlo Hhi H. destruct (loadSettings_cells s m Hlo Hhi H) as [E A].
  split; [exact E|]. split; [exact A|].
  cbv beta zeta delta [loadSettings]. repeat peel. reflexivity.
Qed.

Lemma loadSettings_reads_forty_cells_witness :
  loadSettings (set_eeprom (fun x => if x <? 40 then 0 else 255) (power_on zeroed))
  = set_eeprom (fun x => if x <? 40 then 0 else 255) (loadSettings (power_on zeroed))
  /\ addr (loadSettings (power_on zeroed)) = addr (power_on zeroed) + 38
  /\ eeprom (loadSettings (power_on zeroed)) = eeprom (power_on zeroed).
Proof.
  apply (loadSettings_reads_forty_cells (power_on zeroed)
           (fun x => if x <? 40 then 0 else 255)).
  - vm_compute. discriminate.
  - vm_compute. discriminate.
  - intros x [_ Hx]. change (addr (power_on zeroed) + 40) with 40 in Hx.
    apply Z.ltb_lt in Hx. rewrite Hx. reflexivity.
Defined.

Lemma clearEEPROM_cells s x :
  eeprom (clearEEPROM s) x
  = (if (0 <=? x) && (x <? Mach.wrapu 16 (addr s + 2)) then 255 else eeprom s x)
  /\ addr (clearEEPROM s) = addr s.
Proof.
  split; [|reflexivity].
  unfold clearEEPROM. cbv zeta.
  change (eeprom (say ?l (set_eeprom ?m ?y))) with m.
  rewrite clear_cells_spec.
  change (eeprom (say ?l s)) with (eeprom s).
  change (EEPROM_SIZE (say ?l s)) with (Mach.wrapu 16 (addr s + 2)).
  rewrite Z2Nat.id; [reflexivity|].
  unfold Mach.wrapu. apply Z.mod_pos_bound. reflexivity.
Qed.

(** X17. [clearEEPROM] sets the cells from 0 up to, not including,
    [addr + sizeof(int)] to 0xFF, leaves every other cell as it was, and does
    not move [addr]. *)
Theorem clearEEPROM_fills_from_zero s x :
  eeprom (clearEEPROM s) x
  = (if (0 <=? x) && (x <? Mach.wrapu 16 (addr s + 2)) then 255 else eeprom s x)
  /\ addr (clearEEPROM s) = addr s.
Proof.
  split; [|reflexivity].
  unfold clearEEPROM. cbv zeta.
  change (eeprom (say ?l (set_eeprom ?m ?y))) with m.
  rewrite clear_cells_spec.
  change (eeprom (say ?l s)) with (eeprom s).
  change (EEPROM_SIZE (say ?l s)) with (Mach.wrapu 16 (addr s + 2)).
  rewrite Z2Nat.id; [reflexivity|].
  unfold Mach.wrapu. apply Z.mod_pos_bound. reflexivity.
Qed.

Lemma updateAndValidate_cells s :
  addr (updateAndValidate s) = addr s /\ eeprom (updateAndValidate s) = eeprom s.
Proof.
  cbv beta zeta delta [updateAndValidate].
  repeat match goal with
         | |- context [match (if ?c then _ else _) with pair _ _ => _ end] =>
             destruct c; cbv beta iota
         end;
    (split; repeat frame_step; reflexivity).
Qed.

Lemma loadSettings_eeprom s : eeprom (loadSettings s) = eeprom s.
Proof. cbv beta zeta delta [loadSettings]. repeat peel. reflexivity. Qed.

Lemma loadSettings_addr_advances s :
  0 <= addr s -> addr s + 38 <= 32767 -> addr (loadSettings s) = addr s + 38.
Proof.
  intros Hlo Hhi.
  destruct (loadSettings_cells s (eeprom s) Hlo Hhi) as [_ A];
    [intros y _; reflexivity|exact A].
Qed.

Lemma clearEEPROM_first_cells s x :
  38 <= addr s -> addr s + 2 < 65536 -> 0 <= x < 40 ->
  eeprom (clearEEPROM s) x = 255.
Proof.
  intros Hlo Hhi Hx.
  destruct (clearEEPROM_cells s x) as [E _]. rewrite E.
  unfold Mach.wrapu. rewrite Z.mod_small by lia.
  destruct (Z.leb_spec 0 x), (Z.ltb_spec x (addr s + 2)); cbn; try reflexivity; lia.
Qed.

Lemma set_lastCalcRequestedResistance_cells v s :
  addr (set_lastCalcRequestedResistance v s) = addr s
  /\ eeprom (set_lastCalcRequestedResistance v s) = eeprom s.
Proof. split; reflexivity. Qed.

Lemma say_cells l s : addr (say l s) = addr s /\ eeprom (say l s) = eeprom s.
Proof. split; reflexivity. Qed.

Lemma clearEEPROM_addr s : addr (clearEEPROM s) = addr s.
Proof. reflexivity. Qed.

(** The cells after [RESTORE_DEFAULTS]: the first forty hold 0xFF. *)
Lemma restoreDefaults_cells s x :
  38 <= addr s -> addr s + 76 <= 32767 -> 0 <= x < 40 ->
  eeprom (restoreDefaults s) x = 255.
Proof.
  intros Hlo Hhi Hx. unfold restoreDefaults. cbv zeta.
  assert (A2 : addr (loadSettings
                       (clearEEPROM
                          (say "INFO: Restoring all settings to factory defaults." s)))
               = addr s + 38).
  { rewrite loadSettings_addr_advances; rewrite clearEEPROM_addr, (proj1 (say_cells _ _)); lia. }
  match goal with
  | |- eeprom (saveSettings ?y) x = _ =>
      assert (A3 : addr y = addr s + 38)
  end.
  { rewrite (proj1 (updateAndValidate_cells _)).
    rewrite (proj1 (set_lastCalcRequestedResistance_cells _ _)). exact A2. }
  match goal with
  | |- eeprom (saveSettings ?y) x = _ =>
      destruct (saveSettings_cells y) as [_ E4]; [lia|lia|]
  end.
  rewrite (E4 x) by lia.
  rewrite (proj2 (updateAndValidate_cells _)).
  rewrite (proj2 (set_lastCalcRequestedResistance_cells _ _)).
  rewrite loadSettings_eeprom.
  apply clearEEPROM_first_cells; rewrite ?(proj1 (say_cells _ _)); lia.
Qed.

(** X18. Whatever the EEPROM holds, the machine comes out of [setup] idle:
    no job running, the driver disabled, the servo detached, no pulse sent,
    the cells untouched and [addr] at 38; and as long as no command arrives,
    [loop] changes nothing. *)
Theorem boot_is_idle cosf rom ts :
  running (boot rom) = false
  /\ outputsEnabled (boot rom) = false
  /\ enPin (boot rom) = HIGH
  /\ servoAttached (boot rom) = false
  /\ stepPulses (boot rom) = 0
  /\ eeprom (boot rom) = rom
  /\ addr (boot rom) = 38
  /\ timed_loops cosf ts (boot rom) = Ok (boot rom).
Proof.
  assert (R : running (boot rom) = false).
  { cbv beta zeta delta [boot setup loadSettings]. repeat peel. reflexivity. }
  assert (O : outputsEnabled (boot rom) = false).
  { cbv beta zeta delta [boot setup loadSettings]. repeat peel. reflexivity. }
  split; [exact R|]. split; [exact O|].
  split; [cbv beta zeta delta [boot setup loadSettings]; repeat peel; reflexivity|].
  split; [cbv beta zeta delta [boot setup loadSettings]; repeat peel; reflexivity|].
  split; [cbv beta zeta delta [boot setup loadSettings]; repeat peel; reflexivity|].
  split; [cbv beta zeta delta [boot setup loadSettings]; repeat peel; reflexivity|].
  split.
  - cbv beta zeta delta [boot setup]. do 4 peel.
    rewrite loadSettings_addr_advances; rewrite power_on_addr; lia.
  - apply timed_loops_idle; assumption.
Qed.

(** X19. What [setup] makes of the EEPROM depends on cells 0 to 39 only: two
    devices that agree there come up in the same state. *)
Theorem boot_reads_first_forty_cells rom rom' :
  (forall x, 0 <= x < 40 -> rom' x = rom x) ->
  boot rom' = set_eeprom rom' (boot rom).
Proof.
  intros H. unfold boot, setup. cbv zeta.
  rewrite (power_on_cells rom rom').
  destruct (loadSettings_cells
              (set_outputsEnabled false (set_enPin HIGH (power_on rom))) rom')
    as [E _].
  - rewrite power_on_addr. lia.
  - rewrite power_on_addr. lia.
  - rewrite power_on_addr. exact H.
  - rewrite E, computeWindingParameters_eeprom, say_eeprom, printStatus_eeprom,
      say_eeprom.
    reflexivity.
Qed.

Lemma boot_reads_first_forty_cells_witness :
  boot (fun x => if x <? 40 then 0 else 255) = 
  set_eeprom (fun x => if x <? 40 then 0 else 255) (boot zeroed).
Proof.
  apply (boot_reads_first_forty_cells zeroed (fun x => if x <? 40 then 0 else 255)).
  intros x [_ Hx]. apply Z.ltb_lt in Hx. rewrite Hx. reflexivity.
Defined.

Lemma timeoutLimit_set_eeprom m s : timeoutLimit (set_eeprom m s) = timeoutLimit s.
Proof. reflexivity. Qed.

(** X20. [RESTORE_DEFAULTS] and [SYS RESET] on a machine that has been
    through [setup] (so that [addr] is at least 38) leave 0xFF in cells 0 to
    39: the next [setup] comes up exactly as on an erased device, with a
    timeout limit of 4294967295 ms instead of the default 10000. *)
Theorem restore_defaults_then_reboot now s :
  38 <= addr s -> addr s + 76 <= 32767 ->
  exists s',
    processCommand now "RESTORE_DEFAULTS" s = Ok s'
    /\ processCommand now "SYS RESET" s = Ok s'
    /\ boot (eeprom s') = set_eeprom (eeprom s') (boot EEPROM.erased)
    /\ timeoutLimit (boot (eeprom s')) = 4294967295.
Proof.
  intros Hlo Hhi. exists (restoreDefaults (set_lastCommandTime now s)).
  split; [reflexivity|]. split; [reflexivity|].
  assert (B : boot (eeprom (restoreDefaults (set_lastCommandTime now s)))
              = set_eeprom (eeprom (restoreDefaults (set_lastCommandTime now s)))
                  (boot EEPROM.erased)).
  { apply boot_cells. intros x Hx.
    apply (restoreDefaults_cells (set_lastCommandTime now s) x); assumption. }
  split; [exact B|]. rewrite B.
  rewrite timeoutLimit_set_eeprom. vm_compute. reflexivity.
Qed.

Lemma restore_defaults_then_reboot_witness :
  exists s',
    processCommand 5000 "RESTORE_DEFAULTS" (boot zeroed) = Ok s'
    /\ processCommand 5000 "SYS RESET" (boot zeroed) = Ok s'
    /\ boot (eeprom s') = set_eeprom (eeprom s') (boot EEPROM.erased)
    /\ timeoutLimit (boot (eeprom s')) = 4294967295.
Proof.
  apply (restore_defaults_then_reboot 5000 (boot zeroed));
    vm_compute; discriminate.
Defined.

Lemma apart_settings s1 s2 :
  apart_from_mode s1 = apart_from_mode s2 ->
  servoMinAngle s1 = servoMinAngle s2
  /\ servoMaxAngle s1 = servoMaxAngle s2
  /\ wireDiameter s1 = wireDiameter s2
  /\ initialStepDelay s1 = initialStepDelay s2
  /\ timeoutLimit s1 = timeoutLimit s2
  /\ accelSteps s1 = accelSteps s2
  /\ bobbinLength s1 = bobbinLength s2
  /\ bobbinWidth s1 = bobbinWidth s2
  /\ bobbinHeight s1 = bobbinHeight s2
  /\ lastCalcRequestedResistance s1 = lastCalcRequestedResistance s2
  /\ turnsPerLayer s1 = turnsPerLayer s2.
Proof.
  intros E.
  split; [exact (f_equal servoMinAngle E)|].
  split; [exact (f_equal servoMaxAngle E)|].
  split; [exact (f_equal wireDiameter E)|].
  split; [exact (f_equal initialStepDelay E)|].
  split; [exact (f_equal timeoutLimit E)|].
  split; [exact (f_equal accelSteps E)|].
  split; [exact (f_equal bobbinLength E)|].
  split; [exact (f_equal bobbinWidth E)|].
  split; [exact (f_equal bobbinHeight E)|].
  split; [exact (f_equal lastCalcRequestedResistance E)|].
  exact (f_equal turnsPerLayer E).
Qed.

(** X21. Once [setup] has run, [addr] is at least 38 and [SYS SAVE] writes
    above the cells that hold the first ten settings: with or without the
    save, the next [setup] comes up with the same servo angles, wire
    diameter, step delay, timeout, ramp length, bobbin dimensions and last
    requested resistance. *)
Theorem saved_settings_do_not_reach_next_boot s :
  38 <= addr s -> addr s + 38 <= 32767 ->
  servoMinAngle (boot (eeprom (saveSettings s))) = servoMinAngle (boot (eeprom s))
  /\ servoMaxAngle (boot (eeprom (saveSettings s))) = servoMaxAngle (boot (eeprom s))
  /\ wireDiameter (boot (eeprom (saveSettings s))) = wireDiameter (boot (eeprom s))
  /\ initialStepDelay (boot (eeprom (saveSettings s)))
     = initialStepDelay (boot (eeprom s))
  /\ timeoutLimit (boot (eeprom (saveSettings s))) = timeoutLimit (boot (eeprom s))
  /\ accelSteps (boot (eeprom (saveSettings s))) = accelSteps (boot (eeprom s))
  /\ bobbinLength (boot (eeprom (saveSettings s))) = bobbinLength (boot (eeprom s))
  /\ bobbinWidth (boot (eeprom (saveSettings s))) = bobbinWidth (boot (eeprom s))
  /\ bobbinHeight (boot (eeprom (saveSettings s))) = bobbinHeight (boot (eeprom s))
  /\ lastCalcRequestedResistance (boot (eeprom (saveSettings s)))
     = lastCalcRequestedResistance (boot (eeprom s))
  /\ turnsPerLayer (boot (eeprom (saveSettings s))) = turnsPerLayer (boot (eeprom s)).
Proof.
  intros Hlo Hhi. apply apart_settings. apply boot_apart.
  destruct (saveSettings_cells s) as [_ E]; [lia|lia|].
  intros x Hx. apply E. lia.
Qed.

Lemma saved_settings_do_not_reach_next_boot_witness :
  servoMinAngle (boot (eeprom (saveSettings (boot zeroed)))) = servoMinAngle (boot (eeprom (boot zeroed)))
  /\ servoMaxAngle (boot (eeprom (saveSettings (boot zeroed)))) = servoMaxAngle (boot (eeprom (boot zeroed)))
  /\ wireDiameter (boot (eeprom (saveSettings (boot zeroed)))) = wireDiameter (boot (eeprom (boot zeroed)))
  /\ initialStepDelay (boot (eeprom (saveSettings (boot zeroed))))
     = initialStepDelay (boot (eeprom (boot zeroed)))
  /\ timeoutLimit (boot (eeprom (saveSettings (boot zeroed)))) = timeoutLimit (boot (eeprom (boot zeroed)))
  /\ accelSteps (boot (eeprom (saveSettings (boot zeroed)))) = accelSteps (boot (eeprom (boot zeroed)))
  /\ bobbinLength (boot (eeprom (saveSettings (boot zeroed)))) = bobbinLength (boot (eeprom (boot zeroed)))
  /\ bobbinWidth (boot (eeprom (saveSettings (boot zeroed)))) = bobbinWidth (boot (eeprom (boot zeroed)))
  /\ bobbinHeight (boot (eeprom (saveSettings (boot zeroed)))) = bobbinHeight (boot (eeprom (boot zeroed)))
  /\ lastCalcRequestedResistance (boot (eeprom (saveSettings (boot zeroed))))
     = lastCalcRequestedResistance (boot (eeprom (boot zeroed)))
  /\ turnsPerLayer (boot (eeprom (saveSettings (boot zeroed)))) = turnsPerLayer (boot (eeprom (boot zeroed))).
Proof.
  apply (saved_settings_do_not_reach_next_boot (boot zeroed));
    vm_compute; discriminate.
Defined.

(** ** Moving the stepper by hand *)

(** With the outputs disabled an iteration without a command changes
    nothing, whether or not a job is flagged as running. *)
Lemma loop_outputs_off cosf t s :
  outputsEnabled s = false -> loop cosf None t t s = Ok s.
Proof.
  intros O. unfold loop, bind, checkTimeout. rewrite O.
  destruct (_ >? _); rewrite O, andb_false_r; reflexivity.
Qed.

Lemma timed_loops_outputs_off cosf ts s :
  outputsEnabled s = false -> timed_loops cosf ts s = Ok s.
Proof.
  intros O. induction ts as [|t ts IH]; [reflexivity|].
  cbn [timed_loops]. rewrite (loop_outputs_off cosf t s O). exact IH.
Qed.

(** A train of pulses between [enableOutputs] and [disableOutputs]. *)
Lemma pulses_then_off l1 l2 d n s :
  let s' := disableOutputs (say l2 (pulse_train n (set_dirPin d (enableOutputs (say l1 s))))) in
  stepPulses s' = stepPulses s + Z.max 0 n
  /\ dirPin s' = d
  /\ outputsEnabled s' = false /\ enPin s' = HIGH /\ servoAttached s' = false
  /\ running s' = running s /\ paused s' = paused s
  /\ stepCount s' = stepCount s /\ totalSteps s' = totalSteps s.
Proof.
  cbv zeta.
  split.
  { unfold disableOutputs. cbv zeta. repeat frame_step;
      unfold pulse_train;
      match goal with
      | |- stepPulses (set_stepPulses ?v _) = _ =>
          change (stepPulses (set_stepPulses v _)) with v
      end; f_equal; framed. }
  split; [framed|].
  split; [apply disableOutputs_off|]. split; [apply disableOutputs_off|].
  split; [apply disableOutputs_off|].
  split; [framed|]. split; [framed|]. split; [framed|]. framed.
Qed.

(** X22. [STEPPER MOVE <n>] sends [n] step pulses (none when [n] is zero or
    negative) in the current direction and ends with the outputs disabled.
    It does not touch the job: the step count, the total and the [running]
    and [paused] flags stay as they were, so a job that was running is left
    flagged as running with its outputs off, and later loop iterations do
    nothing. *)
Theorem stepper_move_pulses cosf val rest s ts :
  exists s',
    stepperCommand "MOVE" (val :: rest) s = Ok s'
    /\ stepPulses s' = stepPulses s + Z.max 0 (CStr.atol val)
    /\ dirPin s' = (if stepperForward s then HIGH else LOW)
    /\ outputsEnabled s' = false /\ enPin s' = HIGH /\ servoAttached s' = false
    /\ running s' = running s /\ paused s' = paused s
    /\ stepCount s' = stepCount s /\ totalSteps s' = totalSteps s
    /\ timed_loops cosf ts s' = Ok s'.
Proof.
  eexists. split; [reflexivity|].
  assert (D : stepperForward (enableOutputs (say "INFO: Stepper moving " s))
              = stepperForward s) by framed.
  rewrite D.
  destruct (pulses_then_off "INFO: Stepper moving " "STATUS: Stepper move completed."
              (if stepperForward s then HIGH else LOW) (CStr.atol val) s)
    as (P & Dp & O & E & A & R & Pa & C & T).
  repeat (split; [assumption|]).
  apply timed_loops_outputs_off. exact O.
Qed.

Lemma substring_all s : String.substring 0 (String.length s) s = s.
Proof. induction s as [|c s IH]; [reflexivity|]. cbn. rewrite IH. reflexivity. Qed.

Lemma drop_TEST_STEPPER_MOVE args :
  CStr.drop 18 ("TEST_STEPPER_MOVE " ++ args) = args.
Proof.
  unfold CStr.drop. cbn. rewrite Nat.sub_0_r. apply substring_all.
Qed.

(** X23. [TEST_STEPPER] sends 50 step pulses with the direction pin high;
    [TEST_STEPPER_MOVE <options>] sends as many pulses as its options give
    (1600 when they give none), in the direction they give (forward when
    they give none).  Both end with the outputs disabled and, like
    [STEPPER MOVE], leave the step count and the [running] flag of a job
    untouched, so that later loop iterations do nothing. *)
Theorem stepper_tests_pulses cosf now args s ts :
  (exists s',
     processCommand now "TEST_STEPPER" s = Ok s'
     /\ stepPulses s' = stepPulses s + 50 /\ dirPin s' = HIGH
     /\ outputsEnabled s' = false /\ enPin s' = HIGH /\ servoAttached s' = false
     /\ running s' = running s /\ stepCount s' = stepCount s
     /\ timed_loops cosf ts s' = Ok s')
  /\ (exists s',
        processCommand now ("TEST_STEPPER_MOVE " ++ args) s = Ok s'
        /\ stepPulses s'
           = stepPulses s
             + Z.max 0 (fst (fst (test_move_options (CStr.tokens args) 1600 1000 true)))
        /\ dirPin s'
           = (if snd (test_move_options (CStr.tokens args) 1600 1000 true)
              then HIGH else LOW)
        /\ outputsEnabled s' = false /\ enPin s' = HIGH /\ servoAttached s' = false
        /\ running s' = running s /\ stepCount s' = stepCount s
        /\ timed_loops cosf ts s' = Ok s').
Proof.
  split.
  - eexists. split; [reflexivity|].
    assert (O : outputsEnabled
                  (disableOutputs
                     (say "STATUS: Stepper buzz test done."
                        (pulse_train 50
                           (set_dirPin HIGH
                              (say "INFO: Stepper buzz test (50 steps)..."
                                 (enableOutputs (set_lastCommandTime now s)))))))
                = false) by apply disableOutputs_off.
    split.
    { unfold disableOutputs. cbv zeta. repeat frame_step;
        unfold pulse_train;
        match goal with
        | |- stepPulses (set_stepPulses ?v _) = _ =>
            change (stepPulses (set_stepPulses v _)) with v
        end; f_equal; framed. }
    split; [framed|].
    split; [exact O|]. split; [apply disableOutputs_off|].
    split; [apply disableOutputs_off|].
    split; [framed|]. split; [framed|].
    apply timed_loops_outputs_off. exact O.
  - cbv beta zeta delta [processCommand].
    change (String.prefix "TEST_LAYER" ("TEST_STEPPER_MOVE " ++ args)) with false.
    change (String.eqb ("TEST_STEPPER_MOVE " ++ args) "TEST_STEPPER") with false.
    change (String.prefix "TEST_STEPPER_MOVE " ("TEST_STEPPER_MOVE " ++ args))
      with (String.prefix "" args).
    replace (String.prefix "" args) with true by (destruct args; reflexivity).
    cbv beta iota.
    rewrite drop_TEST_STEPPER_MOVE.
    destruct (test_move_options (CStr.tokens args) 1600 1000 true)
      as [[stepsToMove speed] dirFwd].
    cbn [fst snd].
    eexists. split; [reflexivity|].
    destruct (pulses_then_off "INFO: Stepper moving "
                "STATUS: Stepper test move completed."
                (if dirFwd then HIGH else LOW) stepsToMove (set_lastCommandTime now s))
      as (P & Dp & O & E & A & R & Pa & C & T).
    split; [exact P|]. split; [exact Dp|]. split; [exact O|]. split; [exact E|].
    split; [exact A|]. split; [exact R|]. split; [exact C|].
    apply timed_loops_outputs_off. exact O.
Qed.

Lemma find_snoc {A} (p : A -> bool) l x :
  find p (l ++ [x])
  = match find p l with
    | Some y => Some y
    | None => if p x then Some x else None
    end.
Proof.
  induction l as [|a l IH]; cbn.
  - reflexivity.
  - destruct (p a); [reflexivity|exact IH].
Qed.

Lemma test_move_options_steps toks : forall st sp d,
  fst (fst (test_move_options toks st sp d))
  = match find starts_with_digit (rev toks) with
    | Some t => CStr.atol t
    | None => st
    end.
Proof.
  induction toks as [|token rest IH]; intros st sp d; [reflexivity|].
  cbn [test_move_options rev]. rewrite find_snoc.
  destruct (String.eqb token "FWD") eqn:F.
  { apply String.eqb_eq in F. subst token. rewrite IH.
    destruct (find starts_with_digit (rev rest)); reflexivity. }
  destruct (String.eqb token "REV") eqn:R.
  { apply String.eqb_eq in R. subst token. rewrite IH.
    destruct (find starts_with_digit (rev rest)); reflexivity. }
  destruct token as [|c0 r0].
  { rewrite IH. destruct (find starts_with_digit (rev rest)); reflexivity. }
  cbn [starts_with_digit].
  destruct (Ascii.eqb c0 "S") eqn:S.
  - apply Ascii.eqb_eq in S. subst c0.
    change (CStr.is_digit "S") with false. cbn [andb].
    destruct (match r0 with String c1 _ => CStr.is_digit c1 | EmptyString => false end);
      rewrite IH; destruct (find starts_with_digit (rev rest)); reflexivity.
  - cbn [andb]. destruct (CStr.is_digit c0); rewrite IH;
      destruct (find starts_with_digit (rev rest)); reflexivity.
Qed.

Lemma test_move_options_direction toks : forall st sp d,
  snd (test_move_options toks st sp d)
  = match find is_direction (rev toks) with
    | Some t => String.eqb t "FWD"
    | None => d
    end.
Proof.
  induction toks as [|token rest IH]; intros st sp d; [reflexivity|].
  cbn [test_move_options rev]. rewrite find_snoc. unfold is_direction at 2.
  destruct (String.eqb token "FWD") eqn:F.
  { cbn [orb]. rewrite IH.
    destruct (find is_direction (rev rest)); [reflexivity|].
    cbv beta iota. rewrite F. reflexivity. }
  destruct (String.eqb token "REV") eqn:R.
  { cbn [orb]. rewrite IH.
    destruct (find is_direction (rev rest)); [reflexivity|].
    cbv beta iota. rewrite F. reflexivity. }
  cbn [orb].
  assert (K : match find is_direction (rev rest) with
              | Some t => String.eqb t "FWD"
              | None => d
              end
              = match
                  match find is_direction (rev rest) with
                  | Some y => Some y
                  | None => None
                  end
                with
                | Some t => String.eqb t "FWD"
                | None => d
                end)
    by (destruct (find is_direction (rev rest)); reflexivity).
  rewrite <- K.
  destruct token as [|c0 r0]; [apply IH|].
  destruct (Ascii.eqb c0 "S" && _); [apply IH|].
  destruct (CStr.is_digit c0); apply IH.
Qed.

(** X24. The options of [TEST_STEPPER_MOVE] are applied from left to right,
    so the last one of a kind wins: the number of steps is that of the last
    token that starts with a digit (1600 when there is none), the direction
    that of the last [FWD] or [REV] (forward when there is none); other
    tokens do not affect either. *)
Theorem test_move_options_last_wins toks :
  fst (fst (test_move_options toks 1600 1000 true))
  = match find starts_with_digit (rev toks) with
    | Some t => CStr.atol t
    | None => 1600
    end
  /\ snd (test_move_options toks 1600 1000 true)
     = match find is_direction (rev toks) with
       | Some t => String.eqb t "FWD"
       | None => true
       end.
Proof.
  split.
  - apply test_move_options_steps.
  - apply test_move_options_direction.
Qed.

(** ** Speed and count *)

Lemma int16_range x : -32768 <= Mach.int16 x <= 32767.
Proof.
  unfold Mach.int16, Mach.wraps. cbv zeta.
  pose proof (Z.mod_pos_bound x (2 ^ 16) ltac:(lia)) as B.
  change (2 ^ (16 - 1)) with 32768. change (2 ^ 16) with 65536 in *.
  destruct (Z.ltb_spec (x mod 65536) 32768); lia.
Qed.

(** X25. [WIND SPEED <v>] with [v] from 16 to 32767 steps per second sets
    the minimum step delay to [1000000 / v / 2], a value from 15 to 31250,
    and leaves the initial step delay as it is.  With [v] from 1 to 15 the
    quotient does not fit [int] and the delay stored is not the one
    computed; with [v] zero or negative nothing changes. *)
Theorem wind_speed_delay val rest s :
  (16 <= CStr.atoi val ->
   exists s',
     windCommand "SPEED" (val :: rest) s = Ok s'
     /\ minStepDelay s' = 1000000 / CStr.atoi val / 2
     /\ 15 <= minStepDelay s' <= 31250
     /\ initialStepDelay s' = initialStepDelay s)
  /\ (1 <= CStr.atoi val <= 15 ->
      exists s',
        windCommand "SPEED" (val :: rest) s = Ok s'
        /\ minStepDelay s' = Mach.int16 (1000000 / CStr.atoi val / 2)
        /\ minStepDelay s' < 1000000 / CStr.atoi val / 2)
  /\ (CStr.atoi val <= 0 -> windCommand "SPEED" (val :: rest) s = Ok s).
Proof.
  assert (R : -32768 <= CStr.atoi val <= 32767) by apply int16_range.
  cbv beta zeta delta [windCommand].
  change (String.eqb "SPEED" "START") with false.
  change (String.eqb "SPEED" "STOP") with false.
  change (String.eqb "SPEED" "PAUSE") with false.
  change (String.eqb "SPEED" "RESUME") with false.
  change (String.eqb "SPEED" "COUNT") with false.
  change (String.eqb "SPEED" "SPEED") with true.
  cbv beta iota.
  split; [|split].
  - intros H. destruct (Z.gtb_spec (CStr.atoi val) 0); [|lia].
    eexists. split; [reflexivity|].
    assert (Q : 15 <= 1000000 / CStr.atoi val / 2 <= 31250).
    { assert (A : 30 <= 1000000 / CStr.atoi val).
      { apply Z.div_le_lower_bound; lia. }
      assert (B : 1000000 / CStr.atoi val <= 62500).
      { apply Z.div_le_upper_bound; lia. }
      split.
      - apply Z.div_le_lower_bound; lia.
      - apply Z.div_le_upper_bound; lia. }
    change (minStepDelay (say ?l (set_minStepDelay ?v ?x))) with v.
    rewrite int16_small by lia.
    split; [reflexivity|]. split; [exact Q|reflexivity].
  - intros H. destruct (Z.gtb_spec (CStr.atoi val) 0); [|lia].
    eexists. split; [reflexivity|].
    change (minStepDelay (say ?l (set_minStepDelay ?v ?x))) with v.
    split; [reflexivity|].
    pose proof (int16_range (1000000 / CStr.atoi val / 2)) as I.
    assert (A : 66666 <= 1000000 / CStr.atoi val).
    { apply Z.div_le_lower_bound; lia. }
    assert (B : 33333 <= 1000000 / CStr.atoi val / 2).
    { apply Z.div_le_lower_bound; lia. }
    lia.
  - intros H. destruct (Z.gtb_spec (CStr.atoi val) 0); [lia|reflexivity].
Qed.

Lemma wind_speed_delay_witness :
  (exists s',
     windCommand "SPEED" ["1000"]%string (boot zeroed) = Ok s'
     /\ minStepDelay s' = 1000000 / CStr.atoi "1000" / 2
     /\ 15 <= minStepDelay s' <= 31250
     /\ initialStepDelay s' = initialStepDelay (boot zeroed)).
Proof.
  apply (proj1 (wind_speed_delay "1000" [] (boot zeroed))).
  vm_compute. discriminate.
Defined.

Lemma windCommand_COUNT val rest s :
  exists x, windCommand "COUNT" (val :: rest) s = Ok x
    /\ targetTurns x = CStr.atol val
    /\ stepCount x = 0
    /\ totalSteps x = totalSteps s
    /\ running x = running s /\ outputsEnabled x = outputsEnabled s
    /\ paused x = paused s
    /\ lastCommandTime x = lastCommandTime s /\ timeoutLimit x = timeoutLimit s
    /\ sweepControlMode x = sweepControlMode s
    /\ turnsPerLayer x = turnsPerLayer s
    /\ patternTurnsPerLayer x = patternTurnsPerLayer s
    /\ stepPulses x = stepPulses s.
Proof.
  cbv beta zeta delta [windCommand].
  change (String.eqb "COUNT" "START") with false.
  change (String.eqb "COUNT" "STOP") with false.
  change (String.eqb "COUNT" "PAUSE") with false.
  change (String.eqb "COUNT" "RESUME") with false.
  change (String.eqb "COUNT" "COUNT") with true.
  cbv beta iota.
  eexists. split; [reflexivity|].
  split.
  { do 2 peel. unfold calculateAvgTurnLength.
    match goal with |- context [if ?c then _ else _] => destruct c end; reflexivity. }
  split.
  { do 2 peel. unfold calculateAvgTurnLength.
    match goal with |- context [if ?c then _ else _] => destruct c end; reflexivity. }
  do 9 (split; [framed|]). framed.
Qed.

(** X26. [WIND COUNT <n>] resets the step count but neither the total nor
    the [running] flag.  Sent while a job is running, it makes the job start
    over against the old total: whatever [n] is and however far the job had
    come, the machine then sends as many further pulses as the old total
    says before it stops. *)
Theorem wind_count_restarts_running_job cosf val rest s ts :
  running s = true -> outputsEnabled s = true ->
  0 < totalSteps s < 2 ^ 31 -> sweep_safe s ->
  List.length ts = Z.to_nat (totalSteps s) ->
  Forall (in_time s) ts ->
  exists s1 s2,
    windCommand "COUNT" (val :: rest) s = Ok s1
    /\ targetTurns s1 = CStr.atol val
    /\ stepCount s1 = 0 /\ totalSteps s1 = totalSteps s /\ running s1 = true
    /\ timed_loops cosf ts s1 = Ok s2
    /\ stepPulses s2 = stepPulses s + totalSteps s
    /\ running s2 = false /\ outputsEnabled s2 = false.
Proof.
  intros R O T SS L IT.
  destruct (windCommand_COUNT val rest s)
    as (s1 & E & TT & C & TS & R1 & O1 & P1 & LC & TL & M & TP & PT & SP).
  destruct (job_runs cosf ts s1) as (s2 & E2 & R2 & O2 & _ & _ & _ & _ & P2 & _).
  - rewrite R1. exact R.
  - rewrite O1. exact O.
  - rewrite C. lia.
  - intros ->. cbn in L. lia.
  - rewrite C, TS, L. rewrite Z2Nat.id by lia. lia.
  - rewrite TS. lia.
  - revert IT. apply Forall_impl. intros a. unfold in_time. rewrite LC, TL.
    exact (fun H => H).
  - destruct SS as (F & P). unfold sweep_safe. rewrite M, TP, PT. split; assumption.
  - exists s1, s2.
    split; [exact E|]. split; [exact TT|]. split; [exact C|]. split; [exact TS|].
    split; [rewrite R1; exact R|]. split; [exact E2|].
    split; [rewrite P2, SP, L, Z2Nat.id by lia; reflexivity|].
    split; assumption.
Qed.

Lemma wind_count_restarts_running_job_witness :
  exists s1 s2,
    windCommand "COUNT" ["7"]%string
      (set_totalSteps 3 (set_stepCount 2
         (set_outputsEnabled true (set_running true (boot zeroed))))) = Ok s1
    /\ targetTurns s1 = CStr.atol "7"
    /\ stepCount s1 = 0
    /\ totalSteps s1
       = totalSteps (set_totalSteps 3 (set_stepCount 2
           (set_outputsEnabled true (set_running true (boot zeroed)))))
    /\ running s1 = true
    /\ timed_loops any_cos (repeat 100 3) s1 = Ok s2
    /\ stepPulses s2
       = stepPulses (set_totalSteps 3 (set_stepCount 2
           (set_outputsEnabled true (set_running true (boot zeroed)))))
         + totalSteps (set_totalSteps 3 (set_stepCount 2
             (set_outputsEnabled true (set_running true (boot zeroed)))))
    /\ running s2 = false /\ outputsEnabled s2 = false.
Proof.
  apply (wind_count_restarts_running_job any_cos "7" []
           (set_totalSteps 3 (set_stepCount 2
              (set_outputsEnabled true (set_running true (boot zeroed)))))
           (repeat 100 3)).
  - vm_compute. reflexivity.
  - vm_compute. reflexivity.
  - vm_compute. split; reflexivity.
  - split; vm_compute; [intros _ H; discriminate H|intros H; discriminate H].
  - vm_compute. reflexivity.
  - apply Forall_forall. intros t H. apply repeat_spec in H. subst t.
    vm_compute. discriminate.
Defined.

(** ** Turns per layer *)

Lemma value_two_pow_30 :
  value (S754_finite false (2 ^ 23) 7) = 2 ^ 30 * grid 0
  /\ canon (S754_finite false (2 ^ 23) 7).
Proof.
  split.
  - cbn [value]. change 7 with (0 + 7) at 1. rewrite grid_add by lia.
    change (Zpos (2 ^ 23)) with (2 ^ 23). change (2 ^ 30) with (2 ^ 23 * 2 ^ 7). ring.
  - cbn. lia.
Qed.

Lemma quotient_bounds h w :
  canon h -> canon w -> 0 < value w -> value w <= value h ->
  value h <= 2 ^ 30 * value w ->
  canon (F32.div h w)
  /\ grid 0 <= value (F32.div h w) <= 2 ^ 30 * grid 0.
Proof.
  intros Ch Cw Pw Le Up.
  pose proof (grid_pos 0 ltac:(lia)) as G0.
  destruct grid_0_lt_127 as (_ & G127).
  assert (Gm : grid (-100) <= grid 0) by (apply grid_le; lia).
  assert (Gp : 2 ^ 30 * grid 0 < grid 100).
  { change 100 with (0 + 100). rewrite grid_add by lia.
    assert (2 ^ 30 < 2 ^ 100) by (apply Z.pow_lt_mono_r; lia). nia. }
  assert (R : rounds_to (value h * grid 0) (value w) (F32.div h w)).
  { apply div_spec; try assumption. intros _. split; nia. }
  assert (R1 : rounds_to (value (F32.of_Z 1)) 1 (F32.of_Z 1)).
  { apply rounds_to_exact; [exact canon_one|]. rewrite value_one. lia. }
  destruct value_two_pow_30 as (VB & CB).
  assert (RB : rounds_to (value (S754_finite false (2 ^ 23) 7)) 1
                 (S754_finite false (2 ^ 23) 7)).
  { apply rounds_to_exact; [exact CB|]. rewrite VB.
    assert (grid 100 <= grid 127) by (apply grid_le; lia). lia. }
  split; [eapply rounds_to_canon; exact R|]. split.
  - rewrite <- value_one. apply (rounds_to_mono _ _ _ _ _ _ R1 R).
    rewrite value_one. nia.
  - rewrite <- VB. apply (rounds_to_mono _ _ _ _ _ _ R RB).
    rewrite VB. nia.
Qed.

(** X27. When the wire diameter is a positive number not above the bobbin
    height, and the height is at most [2 ^ 30] diameters,
    [computeWindingParameters] leaves at least one turn per layer (and at
    most [2 ^ 30]): the sweep then has a non-zero number to divide by. *)
Theorem turnsPerLayer_at_least_one s :
  canon (bobbinHeight s) -> canon (wireDiameter s) ->
  0 < value (wireDiameter s) ->
  value (wireDiameter s) <= value (bobbinHeight s) ->
  value (bobbinHeight s) <= 2 ^ 30 * value (wireDiameter s) ->
  1 <= turnsPerLayer (computeWindingParameters s) <= 2 ^ 30.
Proof.
  intros Ch Cw Pw Le Up.
  destruct (quotient_bounds _ _ Ch Cw Pw Le Up) as (Cq & Lo & Hi).
  pose proof (grid_pos 0 ltac:(lia)) as G0.
  rewrite computeWindingParameters_turnsPerLayer.
  - rewrite (trunc_spec _ Cq).
    assert (A : 1 <= value (F32.div (bobbinHeight s) (wireDiameter s)) / grid 0).
    { apply Z.div_le_lower_bound; lia. }
    assert (B : value (F32.div (bobbinHeight s) (wireDiameter s)) / grid 0 <= 2 ^ 30).
    { apply Z.div_le_upper_bound; lia. }
    rewrite long32_fits; lia.
  - change (F32.gtb (wireDiameter s) (F32.of_Z 0))
      with (F32.ltb (S754_zero false) (wireDiameter s)).
    apply ltb_value; [reflexivity|apply canon_wellformed; exact Cw|exact Pw].
Qed.

Lemma turnsPerLayer_at_least_one_witness :
  1 <= turnsPerLayer (computeWindingParameters (boot zeroed)) <= 2 ^ 30.
Proof.
  apply (turnsPerLayer_at_least_one (boot zeroed)).
  - vm_compute. repeat split; discriminate.
  - vm_compute. repeat split; discriminate.
  - vm_compute. reflexivity.
  - vm_compute. discriminate.
  - vm_compute. discriminate.
Defined.

Lemma updateAndValidate_bobbin s :
  bobbinLength (updateAndValidate s) = bobbinLength s
  /\ bobbinWidth (updateAndValidate s) = bobbinWidth s
  /\ bobbinHeight (updateAndValidate s) = bobbinHeight s.
Proof.
  cbv beta zeta delta [updateAndValidate].
  repeat match goal with
         | |- context [match (if ?c then _ else _) with pair _ _ => _ end] =>
             destruct c; cbv beta iota
         end;
    (split; [|split]; unfold computeWindingParameters; cbv zeta;
     repeat frame_step; reflexivity).
Qed.

Lemma updateAndValidate_turnsPerLayer s :
  turnsPerLayer (updateAndValidate s)
  = Mach.long32
      (F32.trunc (F32.div (bobbinHeight s) (wireDiameter (updateAndValidate s)))).
Proof.
  cbv beta zeta delta [updateAndValidate].
  repeat match goal with
         | |- context [match (if ?c then _ else _) with pair _ _ => _ end] =>
             destruct c; cbv beta iota
         end;
    rewrite computeWindingParameters_wire;
    match goal with
    | |- context [if ?c then say _ (set_wireDiameter _ _) else _] =>
        destruct c eqn:A
    end;
    (rewrite computeWindingParameters_turnsPerLayer;
     [ f_equal; f_equal; f_equal; repeat frame_step; reflexivity
     | try reflexivity ]);
    apply orb_false_elim in A; destruct A as [N L];
    match goal with
    | |- F32.gtb ?w _ = true =>
        change (F32.gtb w (F32.of_Z 0)) with (F32.ltb F32.zero w)
    end;
    (apply not_leb_ltb; [exact N|reflexivity|exact L]).
Qed.

Lemma updateAndValidate_wire_value s :
  wireDiameter (updateAndValidate s)
  = (if F32.isnan (wireDiameter s) || F32.leb (wireDiameter s) F32.zero
     then F32.of_ratio false 2 10 else wireDiameter s).
Proof.
  cbv beta zeta delta [updateAndValidate].
  repeat match goal with
         | |- context [match (if ?c then _ else _) with pair _ _ => _ end] =>
             destruct c; cbv beta iota
         end;
    rewrite computeWindingParameters_wire;
    match goal with
    | |- context [if _ then say _ (set_wireDiameter _ ?x) else _] =>
        assert (W : wireDiameter x = wireDiameter s)
          by (repeat frame_step; reflexivity);
        try rewrite W
    end;
    match goal with
    | |- wireDiameter (if ?c then _ else _) = _ => destruct c
    end;
    first [reflexivity | exact W].
Qed.

(** X28. [BOBBIN <l> <w> <h>] rejects a dimension only when it compares as
    at most zero.  Everything else is stored exactly as read, including
    values that are not numbers and values above the limits that
    [loadSettings] enforces.  The wire diameter is kept, or replaced by 0.2
    when it is not a number or at most zero, and the turns per layer are
    recomputed as the truncated quotient of the new height by that
    diameter whenever the quotient is finite and fits a 32-bit [long]
    (outside that range the conversion has no defined result, and nothing
    is said about it). *)
Theorem bobbin_stores_what_it_does_not_reject l_str w_str h_str rest s :
  F32.leb (CStr.atof l_str) (F32.of_Z 0) = false ->
  F32.leb (CStr.atof w_str) (F32.of_Z 0) = false ->
  F32.leb (CStr.atof h_str) (F32.of_Z 0) = false ->
  exists s',
    bobbinCommand l_str (w_str :: h_str :: rest) s = Ok s'
    /\ bobbinLength s' = CStr.atof l_str
    /\ bobbinWidth s' = CStr.atof w_str
    /\ bobbinHeight s' = CStr.atof h_str
    /\ wireDiameter s'
       = (if F32.isnan (wireDiameter s) || F32.leb (wireDiameter s) F32.zero
          then F32.of_ratio false 2 10 else wireDiameter s)
    /\ (F32.is_finite (F32.div (CStr.atof h_str) (wireDiameter s')) = true ->
        - 2 ^ 31 <= F32.trunc (F32.div (CStr.atof h_str) (wireDiameter s'))
          < 2 ^ 31 ->
        turnsPerLayer s'
        = F32.trunc (F32.div (CStr.atof h_str) (wireDiameter s')))
    /\ running s' = running s /\ stepCount s' = stepCount s.
Proof.
  intros L W H. unfold bobbinCommand. rewrite L, W, H. cbn [orb]. cbv beta iota zeta.
  eexists. split; [reflexivity|].
  destruct (updateAndValidate_bobbin
              (set_bobbinHeight (CStr.atof h_str)
                 (set_bobbinWidth (CStr.atof w_str)
                    (set_bobbinLength (CStr.atof l_str) s))))
    as (BL & BW & BH).
  split; [do 2 peel; exact BL|]. split; [do 2 peel; exact BW|].
  split; [do 2 peel; exact BH|].
  split; [do 2 peel; rewrite updateAndValidate_wire_value; reflexivity|].
  split.
  - match goal with
    | |- _ -> _ -> turnsPerLayer ?y = _ =>
        match y with
        | context [updateAndValidate ?x] =>
            assert (Ew : wireDiameter y = wireDiameter (updateAndValidate x))
              by (do 2 peel; reflexivity);
            assert (Et : turnsPerLayer y = turnsPerLayer (updateAndValidate x))
              by (do 2 peel; reflexivity)
        end
    end.
    rewrite Ew, Et. intros _ R.
    rewrite updateAndValidate_turnsPerLayer.
    apply long32_small. exact R.
  - split.
    + do 2 peel. cbv beta zeta delta [updateAndValidate].
      repeat match goal with
             | |- context [match (if ?c then _ else _) with pair _ _ => _ end] =>
                 destruct c; cbv beta iota
             end;
        unfold computeWindingParameters; cbv zeta; repeat frame_step; reflexivity.
    + do 2 peel. cbv beta zeta delta [updateAndValidate].
      repeat match goal with
             | |- context [match (if ?c then _ else _) with pair _ _ => _ end] =>
                 destruct c; cbv beta iota
             end;
        unfold computeWindingParameters; cbv zeta; repeat frame_step; reflexivity.
Qed.

Lemma bobbin_stores_what_it_does_not_reject_witness :
  exists s',
    bobbinCommand "NAN" ["4"; "2000"]%string (boot zeroed) = Ok s'
    /\ bobbinLength s' = CStr.atof "NAN"
    /\ bobbinWidth s' = CStr.atof "4"
    /\ bobbinHeight s' = CStr.atof "2000"
    /\ wireDiameter s' = F32.of_ratio false 2 10
    /\ turnsPerLayer s' = 10000.
Proof.
  destruct (bobbin_stores_what_it_does_not_reject "NAN" "4" "2000" []
              (boot zeroed) eq_refl eq_refl eq_refl)
    as (s' & E & BL & BW & BH & WD & T & _).
  exists s'. split; [exact E|]. split; [exact BL|]. split; [exact BW|].
  split; [exact BH|].
  assert (D : wireDiameter s' = F32.of_ratio false 2 10).
  { rewrite WD. vm_compute. reflexivity. }
  split; [exact D|].
  rewrite T; rewrite D.
  - vm_compute. reflexivity.
  - vm_compute. reflexivity.
  - split; [apply Z.leb_le|apply Z.ltb_lt]; vm_compute; reflexivity.
Defined.

(** ** The single-layer diagnostic *)

(** The two kinds of line that the diagnostic passes on to [processCommand]
    are commands it does not know. *)
Lemma passed_on_is_unknown l now s :
  String.eqb l "STOP" || String.prefix "S " l = true ->
  processCommand now l s
  = Ok (say "ERROR: Unknown command." (set_lastCommandTime now s)).
Proof.
  intros H. apply orb_true_iff in H. destruct H as [H|H].
  - apply String.eqb_eq in H. subst l. reflexivity.
  - apply String.prefix_correct in H.
    destruct l as [|c1 [|c2 r]]; try discriminate H.
    cbn in H. injection H as -> ->.
    unfold processCommand. cbv zeta.
      change (String.prefix "TEST_LAYER" (String "S" (String " " r))) with false.
      change (String.eqb (String "S" (String " " r)) "TEST_STEPPER") with false.
      change (String.prefix "TEST_STEPPER_MOVE " (String "S" (String " " r)))
        with false.
      change (String.eqb (String "S" (String " " r)) "RESTORE_DEFAULTS") with false.
      change (String.eqb (String "S" (String " " r)) "STATUS") with false.
      cbv beta iota.
      change (CStr.tokens (String "S" (String " " r)))
        with ("S"%string :: CStr.tokens_from EmptyString r).
      cbv beta iota. apply componentCommand_unknown. reflexivity.
Qed.

(** One iteration of the test loop: one pulse, whatever line arrives. *)
Lemma test_layer_loop_step line now rest o delay s :
  running s = true -> 0 <= stepCount s < totalSteps s -> totalSteps s < 2 ^ 31 ->
  testTurns o <> 0 ->
  exists delay' s2,
    test_layer_loop ((line, now) :: rest) o delay s
    = test_layer_loop rest o delay' s2
    /\ running s2 = true
    /\ stepCount s2 = stepCount s + 1
    /\ stepPulses s2 = stepPulses s + 1
    /\ totalSteps s2 = totalSteps s.
Proof.
  intros R C T N.
  cbn [test_layer_loop].
  destruct (Z.ltb_spec (stepCount s) (totalSteps s)) as [_|?]; [|lia].
  rewrite R. cbn [andb].
  set (passed_on := match line with
                    | Some l => String.eqb l "STOP" || String.prefix "S " l
                    | None => false
                    end).
  assert (E : exists s1,
             (if passed_on
              then processCommand now
                     (match line with Some l => l | None => EmptyString end) s
              else Ok s) = Ok s1
             /\ running s1 = true /\ stepCount s1 = stepCount s
             /\ stepPulses s1 = stepPulses s /\ totalSteps s1 = totalSteps s).
  { destruct passed_on eqn:P.
    - destruct line as [l|]; [|discriminate P]. unfold passed_on in P.
      rewrite (passed_on_is_unknown l now s P).
      eexists. split; [reflexivity|]. repeat split; assumption || reflexivity.
    - exists s. repeat split; assumption || reflexivity. }
  destruct E as (s1 & -> & R1 & C1 & P1 & T1). cbn [bind].
  rewrite R1. cbn [negb].
  change (stepCount (set_stepPulses ?v s1)) with (stepCount s1).
  rewrite C1, (long32_fits (stepCount s + 1)) by lia.
  match goal with
  | |- context [set_stepCount ?v ?x] => set (s2 := set_stepCount v x)
  end.
  assert (F2 : running s2 = true /\ stepCount s2 = stepCount s + 1
               /\ stepPulses s2 = stepPulses s + 1 /\ totalSteps s2 = totalSteps s).
  { unfold s2. repeat split; try reflexivity.
    - exact R1.
    - change (stepPulses (set_stepCount ?v (set_stepPulses ?p ?x))) with p.
      rewrite P1. reflexivity.
    - exact T1. }
  clearbody s2. destruct F2 as (R2 & C2 & P2 & T2).
  destruct ((stepCount s2 >? 0) && (Z.rem (stepCount s2) stepsPerTurn =? 0)).
  - destruct (updateServoPosition_moves_servo_only (stepCount s2) (testTurns o)
                (testMinAngle o) (testMaxAngle o) (F32.of_Z 0)
                (say "  -> Turn: " s2) N) as (p & w & ->).
    cbn [bind]. eexists. eexists. split; [reflexivity|].
    repeat split; assumption.
  - cbn [bind]. eexists. eexists. split; [reflexivity|].
    repeat split; assumption.
Qed.

Lemma test_layer_loop_runs o : forall inputs delay s,
  running s = true -> 0 <= stepCount s <= totalSteps s -> totalSteps s < 2 ^ 31 ->
  (stepCount s < totalSteps s -> testTurns o <> 0) ->
  (Z.to_nat (totalSteps s - stepCount s) <= List.length inputs)%nat ->
  exists s',
    test_layer_loop inputs o delay s = Ok s'
    /\ running s' = true
    /\ stepCount s' = totalSteps s
    /\ stepPulses s' = stepPulses s + (totalSteps s - stepCount s).
Proof.
  induction inputs as [|[line now] rest IH]; intros delay s R C T N L.
  - cbn [List.length] in L. assert (stepCount s = totalSteps s) by lia.
    exists s. cbn [test_layer_loop].
    destruct (Z.ltb_spec (stepCount s) (totalSteps s)); [lia|].
    cbn [andb]. repeat split; try assumption; lia.
  - destruct (Z_lt_ge_dec (stepCount s) (totalSteps s)) as [Lt|Ge].
    + destruct (test_layer_loop_step line now rest o delay s R ltac:(lia) T (N Lt))
        as (d' & s2 & E & R2 & C2 & P2 & T2).
      rewrite E.
      destruct (IH d' s2 R2) as (s' & E' & R' & C' & P').
      * lia.
      * lia.
      * intros _. exact (N Lt).
      * cbn [List.length] in L. rewrite T2, C2. lia.
      * exists s'. split; [exact E'|]. split; [exact R'|].
        split; [rewrite C', T2; reflexivity|]. rewrite P', P2, T2, C2. lia.
    + exists s. cbn [test_layer_loop].
      destruct (Z.ltb_spec (stepCount s) (totalSteps s)); [lia|].
      cbn [andb]. repeat split; try assumption; lia.
Qed.

Lemma test_layer_options_clock now toks s : forall o,
  test_layer_options toks (set_lastCommandTime now s) o
  = test_layer_options toks s o.
Proof.
  induction toks as [|token rest IH]; intros o; [reflexivity|].
  cbn [test_layer_options]. rewrite IH. reflexivity.
Qed.

Lemma test_layer_setup_clock now cmd_str s :
  test_layer_setup cmd_str (set_lastCommandTime now s) = test_layer_setup cmd_str s.
Proof. unfold test_layer_setup. apply test_layer_options_clock. Qed.

Lemma long32_range x : - 2 ^ 31 <= Mach.long32 x < 2 ^ 31.
Proof.
  unfold Mach.long32, Mach.wraps. cbv zeta.
  pose proof (Z.mod_pos_bound x (2 ^ 32) ltac:(lia)) as B.
  change (2 ^ (32 - 1)) with (2 ^ 31).
  destruct (Z.ltb_spec (x mod 2 ^ 32) (2 ^ 31)); lia.
Qed.

(** X29. [TEST_LAYER] runs its layer to the end whatever arrives on the
    serial port while it runs.  It passes on only the lines [STOP] and
    [S ...], which [processCommand] does not know and answers with an error,
    so [running] is never cleared: given a line (or none) for each of its
    steps, the test sends every one of its [testTurns * 3200] pulses,
    reports "Layer test done." and leaves the outputs disabled. *)
Theorem test_layer_cannot_be_stopped now cmd_str inputs s :
  (Z.to_nat (Mach.long32 (testTurns (test_layer_setup cmd_str s) * stepsPerTurn))
   <= List.length inputs)%nat ->
  exists s',
    testLayer now cmd_str inputs s = Ok s'
    /\ stepPulses s'
       = stepPulses s
         + Z.max 0 (Mach.long32 (testTurns (test_layer_setup cmd_str s) * stepsPerTurn))
    /\ stepCount s'
       = Z.max 0 (Mach.long32 (testTurns (test_layer_setup cmd_str s) * stepsPerTurn))
    /\ running s' = false /\ outputsEnabled s' = false /\ enPin s' = HIGH
    /\ servoAttached s' = false
    /\ In "STATUS: Layer test done."%string (serialOut s').
Proof.
  intros L. unfold testLayer. cbv zeta.
  rewrite (test_layer_setup_clock now cmd_str s).
  set (o := test_layer_setup cmd_str s) in *.
  set (total := Mach.long32 (testTurns o * stepsPerTurn)) in *.
  pose proof (long32_range (testTurns o * stepsPerTurn)) as TR. fold total in TR.
  match goal with
  | |- context [test_layer_loop inputs o ?d ?x] => set (s0 := x); set (d0 := d)
  end.
  assert (F0 : running s0 = true /\ stepCount s0 = 0 /\ totalSteps s0 = total
               /\ stepPulses s0 = stepPulses s).
  { unfold s0. split; [reflexivity|]. split; [reflexivity|]. split; [reflexivity|].
    do 8 peel. unfold enableOutputs. cbv zeta. repeat frame_step; reflexivity. }
  clearbody s0. destruct F0 as (R0 & C0 & T0 & P0).
  assert (E : exists s1,
             test_layer_loop inputs o d0 s0 = Ok s1
             /\ running s1 = true
             /\ stepCount s1 = Z.max 0 total
             /\ stepPulses s1 = stepPulses s + Z.max 0 total).
  { destruct (Z_le_gt_dec total 0) as [Le|Gt].
    - exists s0. split.
      + destruct inputs as [|[line t] rest]; cbn [test_layer_loop];
          destruct (Z.ltb_spec (stepCount s0) (totalSteps s0)); try lia; reflexivity.
      + split; [exact R0|]. split; lia.
    - destruct (test_layer_loop_runs o inputs d0 s0 R0) as (s1 & E1 & R1 & C1 & P1).
      + lia.
      + lia.
      + intros _ Z0. unfold total in Gt. rewrite Z0 in Gt.
        change (Mach.long32 (0 * stepsPerTurn)) with 0 in Gt. lia.
      + rewrite T0, C0, Z.sub_0_r. exact L.
      + exists s1. split; [exact E1|]. split; [exact R1|]. split; lia. }
  destruct E as (s1 & -> & R1 & C1 & P1). cbn [bind]. rewrite R1.
  eexists. split; [reflexivity|].
  split.
  { unfold disableOutputs. cbv zeta. repeat frame_step; exact P1. }
  split.
  { unfold disableOutputs. cbv zeta. repeat frame_step; exact C1. }
  split.
  { unfold disableOutputs. cbv zeta. repeat frame_step; reflexivity. }
  split; [apply disableOutputs_off|]. split; [apply disableOutputs_off|].
  split; [apply disableOutputs_off|].
  unfold disableOutputs. cbv zeta.
  match goal with
  | |- In _ (serialOut (say ?l ?x)) =>
      change (serialOut (say l x)) with (serialOut x ++ [l])
  end.
  apply in_or_app. left.
  match goal with
  | |- In _ (serialOut (set_outputsEnabled false ?x)) =>
      change (serialOut (set_outputsEnabled false x)) with (serialOut x)
  end.
  match goal with
  | |- In _ (serialOut (if ?c then set_servoAttached false ?x else ?y)) =>
      assert (Q : serialOut (if c then set_servoAttached false x else y)
                  = serialOut y) by (destruct c; reflexivity);
      rewrite Q; clear Q
  end.
  change (serialOut (set_enPin HIGH (set_running false (say ?l ?x))))
    with (serialOut x ++ [l]).
  apply in_or_app. right. left. reflexivity.
Qed.

Lemma test_layer_cannot_be_stopped_witness :
  exists s',
    testLayer 5 "TEST_LAYER C1" (repeat (Some "STOP"%string, 7) 3200) (boot zeroed) = Ok s'
    /\ stepPulses s'
       = stepPulses (boot zeroed)
         + Z.max 0 (Mach.long32 (testTurns (test_layer_setup "TEST_LAYER C1" (boot zeroed)) * stepsPerTurn))
    /\ stepCount s'
       = Z.max 0 (Mach.long32 (testTurns (test_layer_setup "TEST_LAYER C1" (boot zeroed)) * stepsPerTurn))
    /\ running s' = false /\ outputsEnabled s' = false /\ enPin s' = HIGH
    /\ servoAttached s' = false
    /\ In "STATUS: Layer test done."%string (serialOut s').
Proof.
  apply (test_layer_cannot_be_stopped 5 "TEST_LAYER C1"
           (repeat (Some "STOP"%string, 7) 3200) (boot zeroed)).
  apply Nat.leb_le. vm_compute. reflexivity.
Defined.

(** ** The resistance calculator *)

Lemma calculateAvgTurnLength_calc s :
  apart_from_calc (calculateAvgTurnLength s) = apart_from_calc s.
Proof.
  unfold calculateAvgTurnLength.
  match goal with |- context [if ?c then _ else _] => destruct c end; reflexivity.
Qed.

Lemma set_targetTurns_calc v s :
  apart_from_calc (set_targetTurns v s) = apart_from_calc s.
Proof. reflexivity. Qed.

Lemma say_calc l s : apart_from_calc (say l s) = apart_from_calc s.
Proof. reflexivity. Qed.

Lemma set_lastCalcRequestedResistance_calc v s :
  apart_from_calc (set_lastCalcRequestedResistance v s) = apart_from_calc s.
Proof. reflexivity. Qed.

Lemma calc_rounds_calc tr a : forall n c s,
  match calc_rounds n c tr a s with
  | inl s' => apart_from_calc s' = apart_from_calc s /\ targetTurns s' = 0
  | inr (_, s') => apart_from_calc s' = apart_from_calc s
  end.
Proof.
  induction n as [|n IH]; intros c s; [reflexivity|].
  cbn [calc_rounds]. cbv zeta.
  destruct (F32.leb (avgTurnLength (calculateAvgTurnLength (set_targetTurns c s)))
              (F32.of_Z 0)).
  - split; [|reflexivity].
    rewrite set_targetTurns_calc, say_calc, calculateAvgTurnLength_calc.
    apply set_targetTurns_calc.
  - match goal with
    | |- match calc_rounds n ?c' tr a ?x with _ => _ end =>
        specialize (IH c' x); destruct (calc_rounds n c' tr a x) as [s'|[c'' s']]
    end.
    + destruct IH as [E Z]. split; [|exact Z].
      rewrite E, calculateAvgTurnLength_calc. apply set_targetTurns_calc.
    + rewrite IH, calculateAvgTurnLength_calc. apply set_targetTurns_calc.
Qed.

Lemma calcCommand_calc action s :
  exists s', calcCommand action s = Ok s' /\ apart_from_calc s' = apart_from_calc s.
Proof.
  unfold calcCommand. cbv zeta.
  destruct (F32.leb (bobbinLength s) (F32.of_Z 0) || F32.leb (bobbinWidth s) (F32.of_Z 0)
            || F32.leb (bobbinHeight s) (F32.of_Z 0)); cbv beta iota.
  - match goal with
    | |- context [match (if ?c then _ else _) with pair _ _ => _ end] =>
        destruct c; cbv beta iota
    end; cbn [negb]; eexists; (split; [reflexivity|reflexivity]).
  - destruct (F32.leb (wireDiameter s) (F32.of_Z 0)); cbv beta iota; cbn [negb].
    + eexists. split; reflexivity.
    + destruct (calc_target action) as [tr|].
      * destruct (F32.leb tr (F32.of_Z 0)).
        { eexists. split; reflexivity. }
        match goal with
        | |- context [calc_rounds 10 1000 tr ?a ?x] =>
            pose proof (calc_rounds_calc tr a 10%nat 1000 x) as R;
            destruct (calc_rounds 10 1000 tr a x) as [s'|[c s']]
        end.
        { destruct R as [E _]. eexists. split; [reflexivity|]. rewrite E. reflexivity. }
        eexists. split; [reflexivity|].
        rewrite !say_calc, calculateAvgTurnLength_calc, set_targetTurns_calc, R.
        reflexivity.
      * eexists. split; reflexivity.
Qed.

(** X30. [CALC] only computes: whatever its argument, it returns, and it
    changes nothing but the target turns, the average turn length, the last
    requested resistance and the serial output.  In particular, unlike
    [WIND COUNT], it leaves the step count of a job alone, and it does not
    touch the outputs, the geometry or the turns per layer. *)
Theorem calc_only_computes action s :
  exists s',
    calcCommand action s = Ok s'
    /\ running s' = running s /\ paused s' = paused s
    /\ stepCount s' = stepCount s /\ totalSteps s' = totalSteps s
    /\ stepPulses s' = stepPulses s
    /\ outputsEnabled s' = outputsEnabled s /\ enPin s' = enPin s
    /\ servoAttached s' = servoAttached s /\ servoWritten s' = servoWritten s
    /\ wireDiameter s' = wireDiameter s
    /\ bobbinLength s' = bobbinLength s /\ bobbinWidth s' = bobbinWidth s
    /\ bobbinHeight s' = bobbinHeight s
    /\ turnsPerLayer s' = turnsPerLayer s
    /\ eeprom s' = eeprom s.
Proof.
  destruct (calcCommand_calc action s) as (s' & E & A).
  exists s'. split; [exact E|].
  split; [exact (f_equal running A)|]. split; [exact (f_equal paused A)|].
  split; [exact (f_equal stepCount A)|]. split; [exact (f_equal totalSteps A)|].
  split; [exact (f_equal stepPulses A)|].
  split; [exact (f_equal outputsEnabled A)|]. split; [exact (f_equal enPin A)|].
  split; [exact (f_equal servoAttached A)|]. split; [exact (f_equal servoWritten A)|].
  split; [exact (f_equal wireDiameter A)|].
  split; [exact (f_equal bobbinLength A)|]. split; [exact (f_equal bobbinWidth A)|].
  split; [exact (f_equal bobbinHeight A)|].
  split; [exact (f_equal turnsPerLayer A)|].
  exact (f_equal eeprom A).
Qed.

(** ** Unknown commands and the command clock, the layer test included *)

(** Outside the layer test [processCommand] returns, or runs into undefined
    behaviour; it does not wait for input. *)

Ltac returns :=
  repeat match goal with
         | |- (if ?c then _ else _) <> Blocking => destruct c
         | |- match ?l with nil => _ | cons _ _ => _ end <> Blocking => destruct l
         end;
  discriminate.

Lemma windCommand_returns action args s : windCommand action args s <> Blocking.
Proof. cbv beta zeta delta [windCommand]. returns. Qed.

Lemma servoCommand_returns action args s : servoCommand action args s <> Blocking.
Proof. cbv beta zeta delta [servoCommand]. returns. Qed.

Lemma stepperCommand_returns action args s :
  stepperCommand action args s <> Blocking.
Proof. cbv beta zeta delta [stepperCommand]. returns. Qed.

Lemma sysCommand_returns action s : sysCommand action s <> Blocking.
Proof. cbv beta zeta delta [sysCommand]. returns. Qed.

Lemma bobbinCommand_returns l_str args s : bobbinCommand l_str args s <> Blocking.
Proof. cbv beta zeta delta [bobbinCommand]. returns. Qed.

Lemma calcCommand_returns action s : calcCommand action s <> Blocking.
Proof.
  cbv beta zeta delta [calcCommand].
  repeat match goal with
         | |- context [match (if ?c then _ else _) with pair _ _ => _ end] =>
             destruct c; cbv beta iota
         end;
    cbn [negb]; cbv iota; try discriminate;
    (destruct (calc_target action) as [targetResistance|]; [|discriminate]);
    (destruct (F32.leb targetResistance (F32.of_Z 0)); [discriminate|]);
    match goal with
    | |- match ?r with inl _ => _ | inr _ => _ end <> Blocking =>
        destruct r as [x|[n x]]; discriminate
    end.
Qed.

Lemma componentCommand_returns component action args s :
  componentCommand component action args s <> Blocking.
Proof.
  unfold componentCommand.
  destruct (String.eqb component "WIND"); [apply windCommand_returns|].
  destruct (String.eqb component "SERVO"); [apply servoCommand_returns|].
  destruct (String.eqb component "STEPPER"); [apply stepperCommand_returns|].
  destruct (String.eqb component "SYS"); [apply sysCommand_returns|].
  destruct (String.eqb component "BOBBIN"); [apply bobbinCommand_returns|].
  destruct (String.eqb component "WIRE_DIA"); [discriminate|].
  destruct (String.eqb component "CALC"); [apply calcCommand_returns|].
  discriminate.
Qed.

Lemma processCommand_returns now cmd_str s :
  String.prefix "TEST_LAYER" cmd_str = false ->
  processCommand now cmd_str s <> Blocking.
Proof.
  intros P. cbv beta zeta delta [processCommand]. rewrite P.
  destruct (String.eqb cmd_str "TEST_STEPPER"); [discriminate|].
  destruct (String.prefix "TEST_STEPPER_MOVE " cmd_str).
  { destruct (test_move_options _ _ _ _) as [[stepsToMove speed] dirFwd].
    discriminate. }
  destruct (String.eqb cmd_str "RESTORE_DEFAULTS"); [discriminate|].
  destruct (String.eqb cmd_str "STATUS"); [discriminate|].
  destruct (CStr.tokens cmd_str) as [|component rest]; [discriminate|].
  apply componentCommand_returns.
Qed.

(** One iteration of the test loop, with the command clock: a line that is
    passed on sets the clock to its time of arrival. *)
Lemma test_layer_loop_step_clock line now rest o delay s :
  running s = true -> 0 <= stepCount s < totalSteps s -> totalSteps s < 2 ^ 31 ->
  testTurns o <> 0 ->
  exists delay' s2,
    test_layer_loop ((line, now) :: rest) o delay s
    = test_layer_loop rest o delay' s2
    /\ running s2 = true
    /\ stepCount s2 = stepCount s + 1
    /\ totalSteps s2 = totalSteps s
    /\ lastCommandTime s2 = last_passed_on [(line, now)] (lastCommandTime s).
Proof.
  intros R C T N.
  cbn [test_layer_loop].
  destruct (Z.ltb_spec (stepCount s) (totalSteps s)) as [_|?]; [|lia].
  rewrite R. cbn [andb].
  set (passed_on := match line with
                    | Some l => String.eqb l "STOP" || String.prefix "S " l
                    | None => false
                    end).
  assert (E : exists s1,
             (if passed_on
              then processCommand now
                     (match line with Some l => l | None => EmptyString end) s
              else Ok s) = Ok s1
             /\ running s1 = true /\ stepCount s1 = stepCount s
             /\ totalSteps s1 = totalSteps s
             /\ lastCommandTime s1
                = last_passed_on [(line, now)] (lastCommandTime s)).
  { destruct passed_on eqn:P.
    - destruct line as [l|]; [|discriminate P]. unfold passed_on in P.
      rewrite (passed_on_is_unknown l now s P).
      eexists. split; [reflexivity|].
      split; [exact R|]. split; [reflexivity|]. split; [reflexivity|].
      cbn [last_passed_on]. rewrite P. reflexivity.
    - exists s. split; [reflexivity|].
      split; [exact R|]. split; [reflexivity|]. split; [reflexivity|].
      destruct line as [l|]; cbn [last_passed_on]; [|reflexivity].
      unfold passed_on in P. rewrite P. reflexivity. }
  destruct E as (s1 & -> & R1 & C1 & T1 & K1). cbn [bind].
  rewrite R1. cbn [negb].
  change (stepCount (set_stepPulses ?v s1)) with (stepCount s1).
  rewrite C1, (long32_fits (stepCount s + 1)) by lia.
  match goal with
  | |- context [set_stepCount ?v ?x] => set (s2 := set_stepCount v x)
  end.
  assert (F2 : running s2 = true /\ stepCount s2 = stepCount s + 1
               /\ totalSteps s2 = totalSteps s
               /\ lastCommandTime s2
                  = last_passed_on [(line, now)] (lastCommandTime s)).
  { unfold s2. split; [exact R1|]. split; [reflexivity|].
    split; [exact T1|exact K1]. }
  clearbody s2. destruct F2 as (R2 & C2 & T2 & K2).
  destruct ((stepCount s2 >? 0) && (Z.rem (stepCount s2) stepsPerTurn =? 0)).
  - destruct (updateServoPosition_moves_servo_only (stepCount s2) (testTurns o)
                (testMinAngle o) (testMaxAngle o) (F32.of_Z 0)
                (say "  -> Turn: " s2) N) as (p & w & ->).
    cbn [bind]. eexists. eexists. split; [reflexivity|].
    repeat split; assumption.
  - cbn [bind]. eexists. eexists. split; [reflexivity|].
    repeat split; assumption.
Qed.

Lemma last_passed_on_cons x rest t :
  last_passed_on (x :: rest) t = last_passed_on rest (last_passed_on [x] t).
Proof. destruct x as [[l|] now]; reflexivity. Qed.

(** The whole loop: it ends with the clock at the arrival time of the last
    line passed on during its steps. *)
Lemma test_layer_loop_clock o : forall inputs delay s,
  running s = true -> 0 <= stepCount s <= totalSteps s -> totalSteps s < 2 ^ 31 ->
  (stepCount s < totalSteps s -> testTurns o <> 0) ->
  (Z.to_nat (totalSteps s - stepCount s) <= List.length inputs)%nat ->
  exists s',
    test_layer_loop inputs o delay s = Ok s'
    /\ running s' = true
    /\ lastCommandTime s'
       = last_passed_on
           (firstn (Z.to_nat (totalSteps s - stepCount s)) inputs)
           (lastCommandTime s).
Proof.
  induction inputs as [|[line now] rest IH]; intros delay s R C T N L.
  - cbn [List.length] in L. assert (E : stepCount s = totalSteps s) by lia.
    exists s. cbn [test_layer_loop].
    destruct (Z.ltb_spec (stepCount s) (totalSteps s)); [lia|].
    cbn [andb]. split; [reflexivity|]. split; [exact R|].
    rewrite firstn_nil. reflexivity.
  - destruct (Z_lt_ge_dec (stepCount s) (totalSteps s)) as [Lt|Ge].
    + destruct (test_layer_loop_step_clock line now rest o delay s R
                  ltac:(lia) T (N Lt))
        as (d' & s2 & E & R2 & C2 & T2 & K2).
      rewrite E.
      destruct (IH d' s2 R2) as (s' & E' & R' & K').
      * lia.
      * lia.
      * intros _. exact (N Lt).
      * cbn [List.length] in L. rewrite T2, C2. lia.
      * exists s'. split; [exact E'|]. split; [exact R'|].
        rewrite K', T2, C2, K2.
        replace (Z.to_nat (totalSteps s - stepCount s))
          with (S (Z.to_nat (totalSteps s - (stepCount s + 1)))) by lia.
        cbn [firstn]. symmetry. apply last_passed_on_cons.
    + exists s. cbn [test_layer_loop].
      destruct (Z.ltb_spec (stepCount s) (totalSteps s)); [lia|].
      cbn [andb]. split; [reflexivity|]. split; [exact R|].
      replace (Z.to_nat (totalSteps s - stepCount s)) with 0%nat by lia.
      reflexivity.
Qed.

(** The layer test returns with the clock at the arrival time of the last
    line it passed on, or at its own when it passed none on. *)
Lemma testLayer_clock now cmd_str inputs s :
  (Z.to_nat (Mach.long32 (testTurns (test_layer_setup cmd_str s) * stepsPerTurn))
   <= List.length inputs)%nat ->
  exists s',
    testLayer now cmd_str inputs s = Ok s'
    /\ lastCommandTime s'
       = last_passed_on
           (firstn
              (Z.to_nat
                 (Mach.long32
                    (testTurns (test_layer_setup cmd_str s) * stepsPerTurn)))
              inputs)
           now.
Proof.
  intros L. unfold testLayer. cbv zeta.
  rewrite (test_layer_setup_clock now cmd_str s).
  set (o := test_layer_setup cmd_str s) in *.
  set (total := Mach.long32 (testTurns o * stepsPerTurn)) in *.
  pose proof (long32_range (testTurns o * stepsPerTurn)) as TR. fold total in TR.
  match goal with
  | |- context [test_layer_loop inputs o ?d ?x] => set (s0 := x); set (d0 := d)
  end.
  assert (F0 : running s0 = true /\ stepCount s0 = 0 /\ totalSteps s0 = total
               /\ lastCommandTime s0 = now).
  { unfold s0. split; [reflexivity|]. split; [reflexivity|]. split; [reflexivity|].
    do 8 peel. unfold enableOutputs. cbv zeta. repeat frame_step; reflexivity. }
  clearbody s0. destruct F0 as (R0 & C0 & T0 & K0).
  assert (E : exists s1,
             test_layer_loop inputs o d0 s0 = Ok s1
             /\ running s1 = true
             /\ lastCommandTime s1
                = last_passed_on (firstn (Z.to_nat total) inputs) now).
  { destruct (Z_le_gt_dec total 0) as [Le|Gt].
    - exists s0. split.
      + destruct inputs as [|[line t] rest]; cbn [test_layer_loop];
          destruct (Z.ltb_spec (stepCount s0) (totalSteps s0)); try lia; reflexivity.
      + split; [exact R0|].
        replace (Z.to_nat total) with 0%nat by lia. rewrite K0. reflexivity.
    - destruct (test_layer_loop_clock o inputs d0 s0 R0) as (s1 & E1 & R1 & K1).
      + lia.
      + lia.
      + intros _ Z0. unfold total in Gt. rewrite Z0 in Gt.
        change (Mach.long32 (0 * stepsPerTurn)) with 0 in Gt. lia.
      + rewrite T0, C0, Z.sub_0_r. exact L.
      + exists s1. split; [exact E1|]. split; [exact R1|].
        rewrite K1, T0, C0, Z.sub_0_r, K0. reflexivity. }
  destruct E as (s1 & -> & R1 & K1). cbn [bind]. rewrite R1.
  eexists. split; [reflexivity|].
  unfold disableOutputs. cbv zeta. repeat frame_step; exact K1.
Qed.

(** With fewer inputs than steps the test is still running when the inputs
    end. *)
Lemma test_layer_loop_waits o : forall inputs delay s,
  running s = true -> 0 <= stepCount s <= totalSteps s -> totalSteps s < 2 ^ 31 ->
  (stepCount s < totalSteps s -> testTurns o <> 0) ->
  (List.length inputs < Z.to_nat (totalSteps s - stepCount s))%nat ->
  test_layer_loop inputs o delay s = Blocking.
Proof.
  induction inputs as [|[line now] rest IH]; intros delay s R C T N L.
  - cbn [List.length] in L. cbn [test_layer_loop].
    destruct (Z.ltb_spec (stepCount s) (totalSteps s)); [|lia].
    rewrite R. reflexivity.
  - assert (Lt : stepCount s < totalSteps s) by lia.
    destruct (test_layer_loop_step_clock line now rest o delay s R
                ltac:(lia) T (N Lt))
      as (d' & s2 & E & R2 & C2 & T2 & _).
    rewrite E. apply IH.
    + exact R2.
    + lia.
    + lia.
    + intros _. exact (N Lt).
    + cbn [List.length] in L. rewrite T2, C2. lia.
Qed.

Lemma testLayer_waits now cmd_str inputs s :
  (List.length inputs
   < Z.to_nat (Mach.long32 (testTurns (test_layer_setup cmd_str s) * stepsPerTurn)))%nat ->
  testLayer now cmd_str inputs s = Blocking.
Proof.
  intros L. unfold testLayer. cbv zeta.
  rewrite (test_layer_setup_clock now cmd_str s).
  set (o := test_layer_setup cmd_str s) in *.
  set (total := Mach.long32 (testTurns o * stepsPerTurn)) in *.
  pose proof (long32_range (testTurns o * stepsPerTurn)) as TR. fold total in TR.
  match goal with
  | |- context [test_layer_loop inputs o ?d ?x] => set (s0 := x); set (d0 := d)
  end.
  assert (F0 : running s0 = true /\ stepCount s0 = 0 /\ totalSteps s0 = total).
  { unfold s0. split; [reflexivity|]. split; reflexivity. }
  clearbody s0. destruct F0 as (R0 & C0 & T0).
  rewrite (test_layer_loop_waits o inputs d0 s0 R0).
  - reflexivity.
  - lia.
  - lia.
  - intros _ Z0. unfold total in L. rewrite Z0 in L.
    change (Mach.long32 (0 * stepsPerTurn)) with 0 in L. cbn in L. lia.
  - rewrite T0, C0, Z.sub_0_r. exact L.
Qed.

(** C7 (amended). Every command line that [processCommand] returns from,
    accepted or not, leaves the command clock at its time of arrival, with
    one exception: a [TEST_LAYER] line passes the lines [STOP] and [S ...]
    that arrive while the test runs on to [processCommand], and returns
    with the clock at the arrival time of the last line it passed on (at
    its own when it passed none on); it returns once it has had an input,
    a line or none, for each of its steps, and is still running before.
    A line that is none of the commands recognised as a whole ([STATUS],
    [RESTORE_DEFAULTS], [TEST_STEPPER], [TEST_STEPPER_MOVE ...],
    [TEST_LAYER...]) and whose first token is not a component is answered
    with [ERROR: Unknown command.] and changes nothing but the clock.  A
    line for [WIND], [SERVO], [STEPPER] or [SYS] with an unknown action is
    not answered at all and changes nothing but the clock. *)
Theorem unknown_commands now cmd_str inputs s :
  (String.prefix "TEST_LAYER" cmd_str = false ->
   (exists s', runCommand now cmd_str inputs s = Ok s'
               /\ lastCommandTime s' = now)
   \/ (exists f, runCommand now cmd_str inputs s = Fault f))
  /\ (String.prefix "TEST_LAYER" cmd_str = true ->
      ((Z.to_nat
          (Mach.long32 (testTurns (test_layer_setup cmd_str s) * stepsPerTurn))
        <= List.length inputs)%nat ->
       exists s',
         runCommand now cmd_str inputs s = Ok s'
         /\ lastCommandTime s'
            = last_passed_on
                (firstn
                   (Z.to_nat
                      (Mach.long32
                         (testTurns (test_layer_setup cmd_str s) * stepsPerTurn)))
                   inputs)
                now)
      /\ ((List.length inputs
           < Z.to_nat
               (Mach.long32
                  (testTurns (test_layer_setup cmd_str s) * stepsPerTurn)))%nat ->
          runCommand now cmd_str inputs s = Blocking))
  /\ (forall component rest,
        whole_line cmd_str = false ->
        CStr.tokens cmd_str = component :: rest ->
        known_component component = false ->
        runCommand now cmd_str inputs s
        = Ok (say "ERROR: Unknown command." (set_lastCommandTime now s)))
  /\ (forall component rest,
        CStr.tokens cmd_str = component :: rest ->
        In component ["WIND"; "SERVO"; "STEPPER"; "SYS"]%string ->
        known_action component (action_of rest) = false ->
        runCommand now cmd_str inputs s = Ok (set_lastCommandTime now s)).
Proof.
  split; [|split; [|split]].
  - intros P. unfold runCommand. rewrite P.
    destruct (processCommand now cmd_str s) as [s'|f|] eqn:E.
    + left. exists s'. split; [reflexivity|].
      exact (processCommand_sets_clock now cmd_str s s' E).
    + right. exists f. reflexivity.
    + exfalso. exact (processCommand_returns now cmd_str s P E).
  - intros P. unfold runCommand. rewrite P. split.
    + exact (testLayer_clock now cmd_str inputs s).
    + exact (testLayer_waits now cmd_str inputs s).
  - intros component rest W T K.
    assert (P : String.prefix "TEST_LAYER" cmd_str = false).
    { unfold whole_line in W.
      repeat (apply orb_false_elim in W; destruct W as [W _]). exact W. }
    unfold runCommand. rewrite P.
    rewrite (processCommand_component now cmd_str s component rest W T).
    apply componentCommand_unknown. exact K.
  - intros component rest T C A.
    assert (K : known_component component = true /\
                String.eqb component "BOBBIN" = false /\
                String.eqb component "WIRE_DIA" = false /\
                String.eqb component "CALC" = false).
    { cbn [In] in C.
      repeat (destruct C as [<-|C]; [repeat split; reflexivity|]).
      contradiction. }
    destruct K as (K & NB & NW & NC).
    assert (W := component_line cmd_str component rest T K).
    assert (P : String.prefix "TEST_LAYER" cmd_str = false).
    { unfold whole_line in W.
      repeat (apply orb_false_elim in W; destruct W as [W _]). exact W. }
    unfold runCommand. rewrite P.
    rewrite (processCommand_component now cmd_str s component rest W T).
    apply componentCommand_unknown_action; assumption.
Qed.

Lemma unknown_commands_witness :
  (exists s',
     runCommand 5000 "WIND START" [] (boot zeroed) = Ok s'
     /\ lastCommandTime s' = 5000)
  /\ (exists s',
        runCommand 5 "TEST_LAYER C1"
          ((Some "STOP"%string, 7) :: repeat (None, 9) 3199) (boot zeroed)
        = Ok s'
        /\ lastCommandTime s' = 7)
  /\ runCommand 5000 "FOO BAR" [] (boot zeroed)
     = Ok (say "ERROR: Unknown command." (set_lastCommandTime 5000 (boot zeroed)))
  /\ runCommand 5000 "SERVO FOO" [] (boot zeroed)
     = Ok (set_lastCommandTime 5000 (boot zeroed)).
Proof.
  split; [|split; [|split]].
  - destruct (proj1 (unknown_commands 5000 "WIND START" [] (boot zeroed))
                eq_refl) as [H|[f H]].
    + exact H.
    + exfalso. revert H. vm_compute. discriminate.
  - destruct (proj1 (proj1 (proj2 (unknown_commands 5 "TEST_LAYER C1"
                                     ((Some "STOP"%string, 7)
                                      :: repeat (None, 9) 3199)
                                     (boot zeroed))) eq_refl))
      as (s' & E & K).
    + apply Nat.leb_le. vm_compute. reflexivity.
    + exists s'. split; [exact E|]. rewrite K. vm_compute. reflexivity.
  - apply (proj1 (proj2 (proj2 (unknown_commands 5000 "FOO BAR" []
                                  (boot zeroed))))
             "FOO"%string ["BAR"%string]); reflexivity.
  - apply (proj2 (proj2 (proj2 (unknown_commands 5000 "SERVO FOO" []
                                  (boot zeroed))))
             "SERVO"%string ["FOO"%string]).
    + reflexivity.
    + right. left. reflexivity.
    + reflexivity.
Defined.
